(* ===== verification/_CoqProject ===== *)
-Q . S2P
Prelude.v
GoFloat.v
GoStrings.v
PolicyEvaluator.v
PolicyLedger.v
PolicyEngine.v
RingBuffer.v
Streamer.v
Detector.v
Model.v
Profiler.v
Alerter.v
Host.v
ProcText.v
Mitigator.v
RouterRegistry.v
Chopper.v
Router.v
Rollback.v
Interventions.v
Webhook.v
WebhookHub.v
Ebpf.v
Procfs.v
Cgroup.v
Gpu.v
AgentConfig.v
Collector.v
Aggregator.v
ProxyLog.v
Proxy.v
Platforms.v
Pubsub.v
AgentEngine.v
Agent.v
Main.v
