(* ===== verification/Prelude.v ===== *)
(** * Verification of the KernelCap agent

    KernelCap watches the processes of a host that use GPUs and language-model
    APIs, detects wasteful behaviour, and intervenes: it stops processes, pauses
    containers, reroutes or shortens API requests, and undoes this later.  This
    library models the components that decide and act, as executable functions
    close to the Go source under [src/], and proves what makes each one correct.

    ** The program and how its parts interact

<<
      collector --snapshots--> profiler  --alerts--+
          |                                        v
          +----events-----> detector --alerts--> alerter --> subscribers
          |                                        |   |
          v                                        |   +--> telemetry buffer
      aggregator --> ring buffer --> streamer      v
                                            mitigator, router
                                                   |  ask
                                                   v
                        rollback --lists--> policy engine and ledger
>>

    An alert reaches the mitigator and the router.  Both ask the shared policy
    engine for permission, which it grants or denies and records in its
    transaction ledger; the mitigator then freezes the process, the router puts it
    under a remedy that the request path applies.  The rollback controller looks
    for executed transactions that have expired, undoes them, and reconciles the
    mitigator's ledger with the processes' actual states.

    Beside this loop, the collector serves its figures over HTTP and the engine a
    dashboard; the webhook hub delivers alerts to the endpoints of tenants.

    ** Files

    - [Prelude]: integers at their width, lengths, channels as bounded queues
      ([chan]), the unspecified order of Go map iteration ([MapRange]), tactics
      ([cases], [bool_prop], [kc]), the hint databases [kc_inv] and [kc_simp].
    - [GoFloat]: [float64] as IEEE 754 binary64 on [SpecFloat].
    - [GoStrings]: what the program uses of [strings], [strconv] and [hash/fnv].
    - [PolicyEvaluator], [PolicyLedger], [PolicyEngine]: [proxy/policy].  [Evaluate]
      is the rule chain, [Register], [UpdateStatus], [HistoricalCount] and [sweep]
      the ledger, [EvaluateAndRegister], [ConfirmExecution], [Complete], [Reject]
      the engine.
    - [RingBuffer], [Streamer]: [proxy/pipeline]; [run_iter] is one iteration of the
      streamer's loop, [flushRemaining] its end.
    - [Detector]: [analytics/detector]; [Model], [Profiler]: [proxy/model] and
      [analytics/profiler].
    - [Alerter]: [proxy/alerter].
    - [Host]: the interface to the operating system and the container runtime, a
      type class on an abstract world; [ProcText], [Mitigator]: [proxy/mitigator].
    - [RouterRegistry], [Chopper], [Router]: [proxy/router].
    - [Rollback]: [proxy/rollback].
    - [Interventions]: the policy engine, the mitigator, the router and the rollback
      controller together, a step relation [system_step] from [start].
    - [Proxy]: [proxy/proxy]; [handleProxy] serves a request with the [Router],
      [read_stream] meters a stream, [ResolvePID] finds the client's process;
      [ProxyLog]: the log of its metrics.
    - [Ebpf]: [proxy/ebpf], [start], [cleanup] and [decode_sample], which is compared
      with the layout of [program.c].
    - [Gpu]: [proxy/gpu]; [init] enumerates devices and MIG partitions, [sample]
      reads them, [Run], [Sample] and [Close] are the sampler's life.
    - [Platforms]: the platform interfaces of [proxy/ebpf] and [proxy/gpu] as classes
      with laws, their instances on Linux and elsewhere, and what the control
      components do on other platforms (the files [*_other.go]).
    - [Procfs], [Cgroup], [Collector]: [proxy/procfs], [proxy/cgroup] and
      [proxy/collector]; [parseProcStat], [extractContainerID], [collectOnce], and
      [Run], the collector's life with the pages it serves.
    - [Aggregator]: the rest of [proxy/pipeline]; [aggregate] is one period.
    - [AgentConfig]: [proxy/config]; [AgentEngine]: [proxy/engine], where [New] and
      [Start] create and connect the components above, [engine_step] interleaves
      the collector with the two readers of its snapshots, and [updateMetrics] fills
      the dashboard.
    - [Agent]: the running agent; [agent_step] is one turn of any goroutine that
      [Start] leaves running, [Stop] the shutdown.
    - [Main]: [cmd/agent]; [main] with its flags, environment and exit status.
    - [Webhook]: [proxy/webhook]; [MountCRUDRoutes] serves the management routes,
      [processAlert] fans an alert out, [dispatch] and [retry] deliver it,
      [retry_step] interleaves the dispatch workers with the retry loop.
    - [WebhookHub]: the hub at work; [hub_step] is a turn of the alert loop, a worker,
      the retry loop or a route.
    - [Pubsub]: [pubsub], the console router of anomalies.

    State is passed explicitly: a method of the Go type [T] takes and returns the
    record [T].  A record field is the Go field of the same name, prefixed where
    two records of one file would clash.  The policy engine, which several
    components share by pointer, is an argument and a result of the operations
    that use it; so is the host's world.  Methods that hold a lock throughout are
    atomic steps; runs of a component are lists of such steps, or step relations
    closed under [rtc] when other components act in between.

    ** Time, randomness, order and errors

    Readings of the clock and random bytes are arguments, in the order the code
    takes them.  The theorems quantify over them; those that need the clock not to
    go back say so.  [int] and [int64] arithmetic that may overflow is wrapped by
    [i64]; [uint64] by [u64].  A [for range] over a map visits the entries in the
    order [range n m], of which only that it is a permutation is known, so the
    results hold for every order.  Error values are [option], sums, or the
    inductive types of [Host] and [Streamer]; the one panic that requests can
    cause is the outcome [Panics] of [Router].

    ** What the theorems show

    - The agent as a whole: whatever its goroutines do and in whatever order, what
      they do to the control components is a run of [Interventions]
      ([agent_refines_system]), whose policy engine behaves as [PolicyEngine] alone;
      so, within the bounds on the ledger that [interventions_rate_limited] states,
      the interventions on a process are limited, all are authorised
      ([interventions_authorised]), and each concerns a process that a snapshot
      named as monitored or using a GPU ([interventions_traced]).  [shutdown_output]
      says what leaves the buffer when it stops.
    - Policy: a decision is exactly the declarative policy [permitted], with the
      reason of a refusal; no process ever has more unexpired granted
      transactions than the cap ([velocity_cap]), over every sequence of
      evaluations, status changes, sweeps and whitelist updates; sweeping keeps
      the ledger consistent and evicts the oldest records only.
    - Telemetry: the buffer is a bounded FIFO that only drops its oldest entries;
      a batch that fails is kept, and the behaviour of the loop in an outage and
      at shutdown is described exactly.
    - Detection: SimHash is the bitwise majority vote of the tokens; the window of
      a process is the suffix of its event history; alerts about a process are at
      least the cooldown apart in every run.
    - Profiling: histories are bounded in size and age; every alert ever sent is
      justified by the figures it carries.
    - Alerting: alerts let through for one process, kind and GPU are a suppression
      window apart; subscribers receive exactly those, in order, whatever the
      interleaving of the workers.
    - Mitigation: the policy ledger, the mitigation ledger and the event agree on
      the outcome of every alert; resuming carries out the inverse of what was
      recorded; container ids extracted from arbitrary files are well formed.
    - Routing: the registry refines a map of deadlines; the chopper keeps the
      system prompt and the newest messages; requests not under remedy pass
      untouched.
    - Rollback: exactly the rollbacks that succeed complete their transactions;
      reconciliation maps every active mitigation to the state of its process.
    - Collection: parsing inverts the format of [/proc/<pid>/stat]; the container id
      is the best one of the path; a snapshot ranks the readable processes, and the
      collector remembers only processes that exist.  A collector that is started
      and stopped releases the tracker and the GPU library ([Run_spec]); attaching
      releases what it acquired when a step fails ([attach_releases]).
    - GPUs: every figure is in the range of its type, whatever the library answers
      ([sampler_typed]); a sample is the enumeration of devices and partitions, each
      queried once ([sample_refines]).
    - Platforms: the trackers and samplers of every platform obey the laws their
      callers rely on; elsewhere nothing is frozen ([nothing_frozen]).
    - Aggregation: every token event is accounted for once; a payload is exactly
      the oldest snapshot with the events waiting.
    - Proxy: the tokens of a stream do not depend on how it is cut into pieces; a
      request of an unknown process passes through unchanged; a line of the metrics
      log determines its event and is one line whatever the client sends
      ([metrics_log]).
    - Engine: which component gets which part of the configuration, and that each
      snapshot is either analysed or uploaded ([snapshots_split]).
    - Webhooks: an alert reaches exactly the active endpoints; a delivery that
      keeps failing ends as a dead letter after the attempts allowed, and nothing
      else does; stored endpoints are well formed and listed without secrets; every
      delivery due is in one queue, with one worker, or ended, and the ends that are
      reported are the successes and the dead letters ([deliveries_accounted]).

    Some theorems describe defects of the code, as it behaves:
    [sweep_forgets_executed], [outage_iteration], [flush_cancelled_discards],
    [identical_payloads_alert], [Resume_leaves_policy], [stale_stream_flag],
    [retry_queue_deadlock], [delivery_requests], [busy_process_reads_idle],
    [snapshots_split], [wiring], [every_attempt_counts], [event_decoding],
    [unresolved_passthrough], [usage_chunk_erases], [mig_counts_parent],
    [poll_interval_unchecked], [maskToken_reveals], [long_lived_process_alerts],
    [reconcile_elsewhere].

    ** Fuel

    Loops that remove one element per iteration have the number of elements as
    fuel: [make_room] (RingBuffer), [evict] (PolicyLedger, with [evict_fuel] that
    more changes nothing), [flush_loop] (Streamer, at least one entry leaves the
    buffer per round).  Digit loops have twenty iterations, one more than the
    digits of a 64-bit integer.

    ** What is not modelled

    Log lines, the text of the usage message, and the encoders of [encoding/json]
    and the quoting of [fmt], whose functions are arguments where their results
    matter.  Outside the repository, and so arguments: the NVML library, the eBPF
    library and the kernel, the container runtime, the endpoints of HTTP requests,
    the host.  Listening on addresses, the mechanics of contexts and wait groups,
    and the cancellation of the webhook hub's loops are left out; the shutdown of
    the collector ([Collector.Run]), of the streamer and of the agent
    ([Agent.Stop]) is modelled.  Sizes and capacities are taken to be those of the
    defaults or positive, where the code panics on others or where a channel
    without a buffer would hand over directly. *)

From Stdlib Require Export Ascii ZArith Lia.
From Stdlib Require Export Sorted.
From stdpp Require Export prelude gmap strings list numbers sorting.
Export list_basics.list list_relations.list list_monad.list list_misc.list list_numbers.list.

#[export] Set Default Proof Using "Type".
#[global] Open Scope Z_scope.

(** * Scope, tactics and hint databases *)

Declare Scope go_scope.
Delimit Scope go_scope with go.

(** Lemmas that discharge the well-formedness side conditions of the
    components (invariants preserved by operations). *)
Create HintDb kc_inv.

(** Rewrite rules that compute an operation on a state whose guard is known. *)
Create Rewrite HintDb kc_simp.

(** Split the booleans of a guard into propositions, on every hypothesis and
    on the goal. *)
Ltac bool_prop :=
  repeat match goal with
  | H : andb _ _ = true |- _ => apply andb_true_iff in H; destruct H
  | H : orb _ _ = false |- _ => apply orb_false_iff in H; destruct H
  | H : negb _ = true |- _ => apply negb_true_iff in H
  | H : negb _ = false |- _ => apply negb_false_iff in H
  | H : (_ <? _) = true |- _ => apply Z.ltb_lt in H
  | H : (_ <? _) = false |- _ => apply Z.ltb_ge in H
  | H : (_ <=? _) = true |- _ => apply Z.leb_le in H
  | H : (_ <=? _) = false |- _ => apply Z.leb_gt in H
  | H : (_ =? _) = true |- _ => apply Z.eqb_eq in H
  | H : (_ =? _) = false |- _ => apply Z.eqb_neq in H
  | H : bool_decide _ = true |- _ => apply bool_decide_eq_true in H
  | H : bool_decide _ = false |- _ => apply bool_decide_eq_false in H
  end.

(** Case analysis on the guard of the first conditional or match of the goal
    (or of a hypothesis), naming the equation and turning it into a
    proposition. *)
Ltac cases :=
  match goal with
  | |- context [if ?b then _ else _] => destruct b eqn:?
  | |- context [match ?o with Some _ => _ | None => _ end] => destruct o eqn:?
  | |- context [match ?p with (_, _) => _ end] => destruct p eqn:?
  end; bool_prop; simplify_eq/=.

Ltac cases_in H :=
  match type of H with
  | context [if ?b then _ else _] => destruct b eqn:?
  | context [match ?o with Some _ => _ | None => _ end] => destruct o eqn:?
  | context [match ?p with (_, _) => _ end] => destruct p eqn:?
  end; bool_prop; simplify_eq/=.

(** Close the arithmetic and the trivial leaves of a case analysis. *)
Ltac kc := try solve [ done | lia | congruence | eauto with kc_inv ].

(** * Machine integers *)

(** [wrapS w z]: the two's complement value of [z] at width [w]. *)
Definition wrapS (w z : Z) : Z :=
  (z + 2 ^ (w - 1)) `mod` 2 ^ w - 2 ^ (w - 1).

(** Go's [int] and [int64] (64-bit platforms) and [uint64] arithmetic. *)
Definition i64 (z : Z) : Z := wrapS 64 z.
Definition u64 (z : Z) : Z := z `mod` 2 ^ 64.

Definition in_i64 (z : Z) : Prop := - 2 ^ 63 <= z < 2 ^ 63.
Definition in_u64 (z : Z) : Prop := 0 <= z < 2 ^ 64.

#[global] Instance in_i64_dec z : Decision (in_i64 z).
Proof. unfold in_i64. apply _. Defined.
#[global] Instance in_u64_dec z : Decision (in_u64 z).
Proof. unfold in_u64. apply _. Defined.

Lemma i64_id z : in_i64 z → i64 z = z.
Proof.
  unfold in_i64, i64, wrapS. intros H.
  rewrite Z.mod_small; lia.
Qed.

Lemma i64_range z : in_i64 (i64 z).
Proof.
  unfold in_i64, i64, wrapS.
  pose proof (Z.mod_pos_bound (z + 2 ^ (64 - 1)) (2 ^ 64) ltac:(lia)). lia.
Qed.

Lemma u64_id z : in_u64 z → u64 z = z.
Proof. unfold in_u64, u64. intros. by apply Z.mod_small. Qed.

Lemma u64_range z : in_u64 (u64 z).
Proof. apply Z.mod_pos_bound. lia. Qed.

#[export] Hint Resolve i64_range u64_range : kc_inv.

(** Durations are [int64] nanoseconds. *)
Definition Nanosecond : Z := 1.
Definition Millisecond : Z := 1000000.
Definition Second : Z := 1000000000.
Definition Minute : Z := 60 * Second.

(** * Lengths as Go's [len] *)

Definition llen {A} (l : list A) : Z := Z.of_nat (length l).
Definition slen (s : string) : Z := Z.of_nat (String.length s).

Lemma llen_app {A} (l k : list A) : llen (l ++ k) = llen l + llen k.
Proof. unfold llen. rewrite length_app. lia. Qed.
Lemma llen_cons {A} (x : A) l : llen (x :: l) = 1 + llen l.
Proof. unfold llen. simpl. lia. Qed.
Lemma llen_nil {A} : llen (@nil A) = 0.
Proof. done. Qed.
Lemma llen_nonneg {A} (l : list A) : 0 <= llen l.
Proof. unfold llen. lia. Qed.
Lemma slen_nonneg s : 0 <= slen s.
Proof. unfold slen. lia. Qed.
Lemma slen_zero s : slen s = 0 ↔ s = EmptyString.
Proof. unfold slen. destruct s; simpl; split; try done; lia. Qed.

#[export] Hint Rewrite @llen_app @llen_cons @llen_nil : kc_simp.
#[export] Hint Resolve llen_nonneg slen_nonneg : kc_inv.

(** Sum of a measure over a list, in [Z]. *)
Fixpoint zsum {A} (f : A → Z) (l : list A) : Z :=
  match l with [] => 0 | x :: k => f x + zsum f k end.

Lemma zsum_app {A} (f : A → Z) l k : zsum f (l ++ k) = zsum f l + zsum f k.
Proof. induction l as [|x l IH]; simpl; [done|]. rewrite IH. lia. Qed.

Lemma zsum_nonneg {A} (f : A → Z) l : (∀ x, x ∈ l → 0 <= f x) → 0 <= zsum f l.
Proof.
  induction l as [|x l IH]; simpl; intros Hf; [done|].
  assert (0 <= f x) by (apply Hf; left).
  assert (0 <= zsum f l) by (apply IH; intros; apply Hf; by right). lia.
Qed.

Lemma zsum_perm {A} (f : A → Z) l k : l ≡ₚ k → zsum f l = zsum f k.
Proof. induction 1; simpl; lia. Qed.

#[global] Instance zsum_proper {A} (f : A → Z) : Proper ((≡ₚ) ==> (=)) (zsum f).
Proof. intros l k. apply zsum_perm. Qed.

#[export] Hint Rewrite @zsum_app : kc_simp.

(** * Buffered channels *)

(** A Go channel seen by its users: the buffered values, oldest first, and
    its capacity.  [try_send] is [select { case ch <- x: default: }]; its
    boolean says whether the value was accepted.  [try_recv] is
    [select { case x := <-ch: default: }]. *)
Record chan (A : Type) := Chan { chan_cap : Z; chan_buf : list A }.
Arguments Chan {A} _ _.
Arguments chan_cap {A} _.
Arguments chan_buf {A} _.

Definition make_chan {A} (cap : Z) : chan A := Chan cap [].

Definition try_send {A} (x : A) (c : chan A) : chan A * bool :=
  if llen (chan_buf c) <? chan_cap c
  then (Chan (chan_cap c) (chan_buf c ++ [x]), true)
  else (c, false).

Definition try_recv {A} (c : chan A) : option A * chan A :=
  match chan_buf c with
  | [] => (None, c)
  | x :: rest => (Some x, Chan (chan_cap c) rest)
  end.

Definition chan_ok {A} (c : chan A) : Prop := llen (chan_buf c) <= chan_cap c.

Lemma try_send_ok {A} (x : A) c : chan_ok c → chan_ok (try_send x c).1.
Proof.
  unfold chan_ok, try_send. intros H. cases; autorewrite with kc_simp; lia.
Qed.

Lemma try_send_accept {A} (x : A) c :
  llen (chan_buf c) < chan_cap c →
  try_send x c = (Chan (chan_cap c) (chan_buf c ++ [x]), true).
Proof. intros H. unfold try_send. apply Z.ltb_lt in H. by rewrite H. Qed.

Lemma try_send_full {A} (x : A) c :
  chan_cap c <= llen (chan_buf c) → try_send x c = (c, false).
Proof. intros H. unfold try_send. apply Z.ltb_ge in H. by rewrite H. Qed.

Lemma try_send_prefix {A} (x : A) c :
  ∃ l, chan_buf (try_send x c).1 = chan_buf c ++ l ∧ (l = [] ∨ l = [x]).
Proof.
  unfold try_send. cases; [by exists [x]; auto|].
  exists []. rewrite app_nil_r. auto.
Qed.

Lemma try_recv_ok {A} (c : chan A) : chan_ok c → chan_ok (try_recv c).2.
Proof.
  destruct c as [cap [|x l]]; unfold chan_ok, try_recv; simpl; [done|].
  rewrite llen_cons. lia.
Qed.

Lemma try_send_Forall {A} (P : A → Prop) (x : A) c :
  P x → Forall P (chan_buf c) → Forall P (chan_buf (try_send x c).1).
Proof.
  intros Hx Hc. destruct (try_send_prefix x c) as (l & -> & [-> | ->]);
    rewrite ?app_nil_r; [done|]. apply Forall_app. auto.
Qed.

Lemma try_recv_Forall {A} (P : A → Prop) (c : chan A) :
  Forall P (chan_buf c) → Forall P (chan_buf (try_recv c).2).
Proof. destruct c as [cap [|x l]]; unfold try_recv; simpl; [done|]. by intros []%Forall_cons. Qed.

#[export] Hint Resolve try_send_ok try_recv_ok try_send_Forall try_recv_Forall : kc_inv.

(** * Cooldowns and sliding windows *)

(** [!lastAlertAt.IsZero() && time.Since(lastAlertAt) < cooldown] *)
Definition cooling (cooldown : Z) (last : option Z) (now : Z) : bool :=
  match last with Some t => now - t <? cooldown | None => false end.

(** The newest [n] elements of a history. *)
Definition newest_of {A} (n : nat) (l : list A) : list A := drop (length l - n) l.

Lemma newest_of_snoc {A} n (l : list A) x :
  newest_of n (newest_of n l ++ [x]) = newest_of n (l ++ [x]).
Proof.
  unfold newest_of. rewrite <- drop_app_le by lia.
  rewrite drop_drop, length_drop, !length_app. f_equal. simpl. lia.
Qed.

Lemma filter_all {A} (P : A → Prop) `{∀ x, Decision (P x)} l : Forall P l → filter P l = l.
Proof.
  induction 1 as [|x l Hx Hl IH]; [done|]. rewrite filter_cons_True by done. by rewrite IH.
Qed.

Lemma StronglySorted_lookup_lt {A} (R : A → A → Prop) l (i j : nat) x y :
  StronglySorted R l → (i < j)%nat → l !! i = Some x → l !! j = Some y → R x y.
Proof.
  revert i j. induction l as [|z l IH]; intros i j Hs Hij Hi Hj; [done|].
  apply StronglySorted_inv in Hs as [Hs Hall]. destruct j as [|j]; [lia|]. simpl in Hj.
  destruct i as [|i]; simplify_eq/=; [|by eapply (IH i j); [|lia|..]].
  rewrite Forall_forall in Hall. by apply Hall, list_elem_of_lookup_2 with j.
Qed.

(** An invariant of the body of a loop. *)
Lemma foldl_inv {A B} (P : A → Prop) (f : A → B → A) l a :
  P a → (∀ a x, P a → P (f a x)) → P (foldl f a l).
Proof. intros Ha Hf. revert a Ha. induction l as [|x l IH]; simpl; auto. Qed.

Lemma foldl_inv_elem {A B} (P : A → Prop) (f : A → B → A) l a :
  P a → (∀ a x, x ∈ l → P a → P (f a x)) → P (foldl f a l).
Proof.
  intros Ha Hf. revert a Ha Hf. induction l as [|x l IH]; simpl; intros a Ha Hf; [done|].
  apply IH; [apply Hf; [by left|done]|]. intros b y Hy. apply Hf. by right.
Qed.

Lemma elem_of_imap_pair {A} (l : list A) i x : (i, x) ∈ imap pair l → x ∈ l.
Proof.
  intros [j Hj]%list_elem_of_lookup. rewrite list_lookup_imap in Hj.
  destruct (l !! j) eqn:E; simplify_eq/=. by eapply list_elem_of_lookup_2.
Qed.

(** * Map iteration *)

(** Go leaves the order of [for k, v := range m] unspecified, and it may
    change from one loop to the next.  [range n m] is the order of the [n]-th
    iteration; all that is known of it is that it visits every entry once. *)
Class MapRange := {
  range : ∀ {K : Type} `{Countable K} {A : Type}, nat → gmap K A → list (K * A);
  range_perm : ∀ {K : Type} `{Countable K} {A : Type} n (m : gmap K A),
    range n m ≡ₚ map_to_list m
}.

(** One such order, used to evaluate the models. *)
#[export] Instance canonical_range : MapRange | 100 := {
  range K _ _ A _ m := map_to_list m;
  range_perm K _ _ A _ m := reflexivity _
}.

Section range_lemmas.
Context `{MapRange} {K : Type} `{Countable K} {A : Type}.
Implicit Types m : gmap K A.

Lemma elem_of_range n m k x : (k, x) ∈ range n m ↔ m !! k = Some x.
Proof. rewrite range_perm. apply elem_of_map_to_list. Qed.

Lemma NoDup_range n m : NoDup (range n m).
Proof. rewrite range_perm. apply NoDup_map_to_list. Qed.

Lemma NoDup_fst_range n m : NoDup (range n m).*1.
Proof. rewrite range_perm. apply NoDup_fst_map_to_list. Qed.

Lemma length_range n m : length (range n m) = size m.
Proof. rewrite range_perm. apply length_map_to_list. Qed.
End range_lemmas.

(** [for k, x := range m { if f(k, x) { delete(m, k) } }]: deleting the
    visited entries while iterating. *)
Definition delete_if `{Countable K} {A} (f : K → A → bool) (l : list (K * A))
    (m : gmap K A) : gmap K A :=
  foldl (λ acc '(k, x), if f k x then delete k acc else acc) m l.

Section delete_if.
Context `{MapRange} {K : Type} `{Countable K} {A : Type}.
Implicit Types m acc : gmap K A.

Lemma lookup_delete_if f l acc k :
  (∀ x, (k, x) ∈ l → f k x = false) → delete_if f l acc !! k = acc !! k.
Proof.
  unfold delete_if. revert acc. induction l as [|[j y] l IH]; intros acc Hk; [done|].
  simpl. rewrite IH by (intros x Hx; apply Hk; by right).
  destruct (f j y) eqn:E; [|done]. apply lookup_delete_ne. intros ->.
  rewrite Hk in E; [done|left].
Qed.

Lemma lookup_delete_if_None f l acc k x :
  (k, x) ∈ l → f k x = true → delete_if f l acc !! k = None.
Proof.
  unfold delete_if. intros Hin Hf.
  assert (Hmono : ∀ a l', a !! k = None →
    foldl (λ acc '(k, x), if f k x then delete k acc else acc) a l' !! k = None).
  { clear. intros a l'. revert a. induction l' as [|[j y] l' IH]; intros a Ha; [done|].
    simpl. apply IH. destruct (f j y); [|done]. apply lookup_delete_None; auto. }
  revert acc Hin. induction l as [|[j y] l IH]; intros acc Hin; [by apply elem_of_nil in Hin|].
  simpl. apply elem_of_cons in Hin as [[= <- <-]|Hin]; [|by apply IH].
  rewrite Hf. apply Hmono, lookup_delete_eq.
Qed.

(** Pruning a map this way keeps exactly the entries that fail the test,
    whatever the iteration order. *)
Lemma delete_if_range f n m k :
  delete_if f (range n m) m !! k = x ← m !! k; if f k x then None else Some x.
Proof.
  destruct (m !! k) as [x|] eqn:E; simpl.
  - destruct (f k x) eqn:Ef.
    + eapply lookup_delete_if_None; [by apply elem_of_range|done].
    + rewrite lookup_delete_if; [done|].
      intros y Hy%elem_of_range. congruence.
  - rewrite lookup_delete_if; [done|]. intros y Hy%elem_of_range. congruence.
Qed.

Lemma delete_if_range_filter f n m :
  delete_if f (range n m) m = filter (λ kx, f kx.1 kx.2 = false) m.
Proof.
  apply map_eq. intros k. rewrite delete_if_range.
  destruct (m !! k) as [x|] eqn:E; simpl; symmetry.
  - destruct (f k x) eqn:Ef.
    + apply map_lookup_filter_None. right. intros y Hy. simpl. congruence.
    + by apply map_lookup_filter_Some.
  - apply map_lookup_filter_None. by left.
Qed.
End delete_if.

(** The values of a map that satisfy a test, collected while iterating. *)
Lemma elem_of_omap_range `{MapRange, Countable K} {A} (P : A → bool) n
    (m : gmap K A) x :
  x ∈ omap (λ '(_, y), if P y then Some y else None) (range n m) ↔
  ∃ k, m !! k = Some x ∧ P x = true.
Proof.
  rewrite list_elem_of_omap. split.
  - intros [[k y] [Hin Hy]]. exists k. rewrite <- (elem_of_range n).
    destruct (P y) eqn:E; by simplify_eq.
  - intros (k & Hk & HP). exists (k, x). rewrite elem_of_range, HP. done.
Qed.

(** * Byte strings *)

(** Equality of Go strings, [s == t]. *)
Definition streq (s t : string) : bool := bool_decide (s = t).

Lemma app_string_length s t :
  String.length (s +:+ t) = (String.length s + String.length t)%nat.
Proof. induction s as [|c s IH]; simpl; [done|]. by rewrite IH. Qed.

Lemma slen_app s t : slen (s +:+ t) = slen s + slen t.
Proof. unfold slen. rewrite app_string_length. lia. Qed.

#[export] Hint Rewrite slen_app : kc_simp.

(** Lower-case hexadecimal encoding ([encoding/hex]). *)
Definition hex_digit (n : nat) : ascii :=
  match n with
  | 0 => "0" | 1 => "1" | 2 => "2" | 3 => "3" | 4 => "4" | 5 => "5"
  | 6 => "6" | 7 => "7" | 8 => "8" | 9 => "9" | 10 => "a" | 11 => "b"
  | 12 => "c" | 13 => "d" | 14 => "e" | _ => "f"
  end%char%nat.

Fixpoint hex_encode (s : string) : string :=
  match s with
  | EmptyString => EmptyString
  | String c rest =>
      String (hex_digit (nat_of_ascii c / 16))
        (String (hex_digit (nat_of_ascii c mod 16)) (hex_encode rest))
  end.

(** The value of a lower-case hexadecimal digit. *)
Definition hex_value (c : ascii) : nat :=
  let n := nat_of_ascii c in if (n <? 58)%nat then (n - 48)%nat else (n - 87)%nat.

Lemma hex_value_digit n : (n < 16)%nat → hex_value (hex_digit n) = n.
Proof. intros Hn. do 16 (destruct n as [|n]; [done|]). lia. Qed.

Lemma hex_digit_inj (m n : nat) :
  (m < 16)%nat → (n < 16)%nat → hex_digit m = hex_digit n → m = n.
Proof.
  intros Hm Hn E. by rewrite <- (hex_value_digit m), <- (hex_value_digit n), E.
Qed.

Lemma hex_encode_inj : Inj (=) (=) hex_encode.
Proof.
  intros s. induction s as [|c s IH]; intros [|d t]; simpl; try done.
  intros [= H1 H2 H3]. f_equal; [|by apply IH].
  rewrite <- (ascii_nat_embedding c), <- (ascii_nat_embedding d). f_equal.
  pose proof (nat_ascii_bounded c). pose proof (nat_ascii_bounded d).
  assert (nat_of_ascii c / 16 = nat_of_ascii d / 16)%nat.
  { apply hex_digit_inj; [apply Nat.Div0.div_lt_upper_bound; lia..|done]. }
  assert (nat_of_ascii c mod 16 = nat_of_ascii d mod 16)%nat.
  { apply hex_digit_inj; [apply Nat.mod_upper_bound; lia..|done]. }
  rewrite (Nat.div_mod_eq (nat_of_ascii c) 16), (Nat.div_mod_eq (nat_of_ascii d) 16).
  congruence.
Qed.

Lemma string_app_inj p s t : p +:+ s = p +:+ t → s = t.
Proof. induction p as [|c p IH]; simpl; [done|]. intros [= ?]. auto. Qed.

(** Identifiers made of a prefix and random bytes. *)
Definition prefixed_id (prefix rnd : string) : string := prefix +:+ hex_encode rnd.

Lemma prefixed_id_inj p r1 r2 : prefixed_id p r1 = prefixed_id p r2 → r1 = r2.
Proof. unfold prefixed_id. intros ?%string_app_inj. by apply hex_encode_inj. Qed.

(** Checking a decidable statement on a range by evaluation. *)
Lemma range_check (f : Z → bool) a n :
  forallb f (seqZ a n) = true → ∀ z, a <= z < a + n → f z = true.
Proof.
  intros Hf z Hz. rewrite forallb_forall in Hf. apply Hf.
  apply list_elem_of_In, elem_of_seqZ. lia.
Qed.
