(* ===== verification/GoFloat.v ===== *)
(** Go's [float64]: IEEE 754 binary64 with round-to-nearest-even, on the
    executable reference arithmetic of [Corelib.Floats.SpecFloat] (53 bits of
    precision, exponent bound 1024), so every floating point expression of the
    code evaluates in the kernel with the rounding the code has.  Operations are not
    fused: each one rounds, as the compiler does on amd64. *)

From S2P Require Import Prelude.
From Stdlib Require Export SpecFloat.

Abbreviation float64 := spec_float.

(** Identity of representations (not IEEE equality). *)
#[global] Instance float64_eq_dec : EqDecision spec_float.
Proof. solve_decision. Defined.

Definition f_of_Z (z : Z) : float64 := binary_normalize 53 1024 z 0 false.
Definition fadd (x y : float64) : float64 := SFadd 53 1024 x y.
Definition fsub (x y : float64) : float64 := SFsub 53 1024 x y.
Definition fmul (x y : float64) : float64 := SFmul 53 1024 x y.
Definition fdiv (x y : float64) : float64 := SFdiv 53 1024 x y.
Definition fsqrt (x : float64) : float64 := SFsqrt 53 1024 x.
Definition fabs (x : float64) : float64 := SFabs x.

(** [x < y] and [x <= y]; false when either is NaN. *)
Definition flt (x y : float64) : bool := SFltb x y.
Definition fle (x y : float64) : bool := SFleb x y.

(** The constant [num/den]: the quotient of two exactly represented integers
    is correctly rounded, which is the value of the decimal literal. *)
Definition f_lit (num den : Z) : float64 := fdiv (f_of_Z num) (f_of_Z den).
Definition f_zero : float64 := S754_zero false.
Definition f_one : float64 := f_of_Z 1.

Declare Scope float_scope.
Delimit Scope float_scope with float.
Infix "+" := fadd : float_scope.
Infix "-" := fsub : float_scope.
Infix "*" := fmul : float_scope.
Infix "/" := fdiv : float_scope.
Infix "<?" := flt : float_scope.
Infix "<=?" := fle : float_scope.
Bind Scope float_scope with spec_float.

(** Conversion to an integer, truncating towards zero ([int64(x)]). *)
Definition f_trunc (x : float64) : Z :=
  match x with
  | S754_finite s m e =>
      let a := if 0 <=? e then Z.shiftl (Z.pos m) e else Z.shiftr (Z.pos m) (- e) in
      if s then - a else a
  | _ => 0
  end.

(** [math.Round]: nearest integer, halves away from zero. *)
Definition f_round (x : float64) : float64 :=
  match x with
  | S754_finite s m e =>
      if 0 <=? e then x
      else
        let a := (Z.pos m + 2 ^ (- e - 1)) / 2 ^ (- e) in
        if a =? 0 then S754_zero s
        else binary_normalize 53 1024 (if s then - a else a) 0 s
  | _ => x
  end.

(** [math.Max] and [math.Min] (NaN if either is NaN). *)
Definition f_max (x y : float64) : float64 :=
  match x, y with
  | S754_infinity false, _ | _, S754_infinity false => S754_infinity false
  | S754_nan, _ | _, S754_nan => S754_nan
  | S754_zero s, S754_zero t => S754_zero (s && t)
  | _, _ => if flt y x then x else y
  end.
Definition f_min (x y : float64) : float64 :=
  match x, y with
  | S754_infinity true, _ | _, S754_infinity true => S754_infinity true
  | S754_nan, _ | _, S754_nan => S754_nan
  | S754_zero s, S754_zero t => S754_zero (s || t)
  | _, _ => if flt x y then x else y
  end.

(** [math.Pow(2, n)] for an integer [n]. *)
Definition f_pow2 (n : Z) : float64 := binary_normalize 53 1024 1 n false.

(** [time.Duration.Seconds]: the whole seconds plus the remaining nanoseconds
    as a fraction. *)
Definition duration_seconds (d : Z) : float64 :=
  (f_of_Z (Z.quot d Second) + f_of_Z (Z.rem d Second) / f_of_Z Second)%float.

(** [int64(d.Seconds())] and [int(d.Seconds())]. *)
Definition duration_secs_int (d : Z) : Z := f_trunc (duration_seconds d).

(** [float64(d.Milliseconds())] uses the integer quotient. *)
Definition duration_millis (d : Z) : Z := Z.quot d Millisecond.

(** Left-to-right accumulation [for _, x := range l { sum += x }]. *)
Definition fsum (l : list float64) : float64 := foldl fadd f_zero l.

Lemma fsum_app l k : fsum (l ++ k) = foldl fadd (fsum l) k.
Proof. unfold fsum. by rewrite foldl_app. Qed.

Example f_lit_9_10 : f_lit 9 10 = S754_finite false 8106479329266893 (-53).
Proof. vm_compute. reflexivity. Qed.
Example f_round_half : f_round (f_lit 5 2) = f_of_Z 3.
Proof. vm_compute. reflexivity. Qed.
Example duration_secs_example : duration_secs_int (30 * Second) = 30.
Proof. vm_compute. reflexivity. Qed.

(** * Never NaN *)

Definition not_nan (x : float64) : Prop := x ≠ S754_nan.

#[global] Instance not_nan_dec x : Decision (not_nan x).
Proof. unfold not_nan. apply _. Defined.

Lemma shr_1_nonneg r : 0 <= shr_m r → 0 <= shr_m (shr_1 r).
Proof. destruct r as [[|[p|p|]|p] rr ss]; simpl; lia. Qed.

Lemma iter_pos_ind {A} (P : A → Prop) (f : A → A) :
  (∀ x, P x → P (f x)) → ∀ n x, P x → P (iter_pos f n x).
Proof. intros Hf. induction n as [n IH|n IH|]; intros x Hx; simpl; auto. Qed.

Lemma shr_fexp_nonneg m e l : 0 <= m → 0 <= shr_m (shr_fexp 53 1024 m e l).1.
Proof.
  intros Hm. unfold shr_fexp, shr.
  assert (Hr : 0 <= shr_m (shr_record_of_loc m l)) by (destruct l as [|[]]; exact Hm).
  destruct (_ - e); simpl; try exact Hr.
  apply (iter_pos_ind (λ r, 0 <= shr_m r)); [apply shr_1_nonneg|exact Hr].
Qed.

Lemma round_aux_not_nan s m e l : 0 <= m → not_nan (binary_round_aux 53 1024 s m e l).
Proof.
  intros Hm. unfold binary_round_aux.
  destruct (shr_fexp 53 1024 m e l) as [mrs e'] eqn:E1.
  pose proof (shr_fexp_nonneg m e l Hm) as H1. rewrite E1 in H1. simpl in H1.
  assert (H2 : 0 <= round_nearest_even (shr_m mrs) (loc_of_shr_record mrs)).
  { unfold round_nearest_even. destruct (loc_of_shr_record mrs) as [|[]]; try lia.
    destruct (Z.even _); lia. }
  pose proof (shr_fexp_nonneg _ e' loc_Exact H2) as H3.
  destruct (shr_fexp 53 1024 (round_nearest_even _ _) e' loc_Exact) as [mrs2 e2].
  simpl in H3. destruct (shr_m mrs2); [done| |lia]. by destruct (_ <=? _).
Qed.

Lemma normalize_not_nan m e s : not_nan (binary_normalize 53 1024 m e s).
Proof.
  unfold binary_normalize, binary_round.
  destruct m; [done| |]; destruct (shl_align _ _ _); by apply round_aux_not_nan.
Qed.

Lemma f_of_Z_not_nan z : not_nan (f_of_Z z).
Proof. apply normalize_not_nan. Qed.

(** Multiplying and dividing by a number that is neither zero nor infinite. *)
Definition f_regular (x : float64) : bool := match x with S754_finite _ _ _ => true | _ => false end.

Lemma fmul_not_nan x y : not_nan x → f_regular y = true → not_nan (fmul x y).
Proof.
  destruct x, y; try done; intros _ _. by apply round_aux_not_nan.
Qed.

Lemma fdiv_not_nan x y : not_nan x → f_regular y = true → not_nan (fdiv x y).
Proof.
  destruct x as [| | |s m e], y as [| | |s' m' e']; try done; intros _ _.
  unfold fdiv, SFdiv, SFdiv_core_binary.
  match goal with |- context [Z.div_eucl ?a ?b] =>
    assert (Ha : 0 <= a); [|pose proof (Z_div_mod a b ltac:(lia)) as Hq;
      destruct (Z.div_eucl a b) as [q r]] end.
  { destruct (_ - _ - _); [lia| |lia]. apply Z.shiftl_nonneg. lia. }
  apply round_aux_not_nan. destruct Hq as [Hq Hr]. nia.
Qed.

Lemma f_round_not_nan x : not_nan x → not_nan (f_round x).
Proof.
  destruct x; try done. intros _. unfold f_round.
  destruct (_ <=? _); [done|]. cbv zeta. destruct (_ =? 0); [done|]. apply normalize_not_nan.
Qed.

(** * Finite conversions *)

Lemma digits2_log2 p : Z.pos (digits2_pos p) = Z.log2 (Z.pos p) + 1.
Proof.
  induction p as [p IH|p IH|]; simpl digits2_pos; [| |done].
  - rewrite Pos2Z.inj_succ, IH. rewrite (Pos2Z.inj_xI p), Z.log2_succ_double by lia. lia.
  - rewrite Pos2Z.inj_succ, IH. rewrite (Pos2Z.inj_xO p), Z.log2_double by lia. lia.
Qed.

Lemma shr_1_half r : 0 <= shr_m r → shr_m (shr_1 r) = shr_m r / 2.
Proof.
  destruct r as [[|[p|p|]|p] rr ss]; simpl; intros H; try done; try lia.
  - apply (Z.div_unique _ _ _ 1); lia.
  - apply (Z.div_unique _ _ _ 0); lia.
Qed.

Lemma iter_pos_nat {A} (f : A → A) n x : iter_pos f n x = Nat.iter (Pos.to_nat n) f x.
Proof.
  revert x. induction n as [n IH|n IH|]; intros x; simpl iter_pos; [| |done]; rewrite !IH;
    rewrite <- !Nat.iter_add; [rewrite Pos2Nat.inj_xI|rewrite Pos2Nat.inj_xO].
  - replace (S (2 * Pos.to_nat n)) with ((Pos.to_nat n + Pos.to_nat n) + 1)%nat by lia.
    by rewrite (Nat.iter_add (_ + _) 1).
  - f_equal. lia.
Qed.

Lemma iter_shr_half n r :
  0 <= shr_m r → shr_m (Nat.iter n shr_1 r) = shr_m r / 2 ^ Z.of_nat n.
Proof.
  intros Hr. induction n as [|n IH]; simpl Nat.iter; [by rewrite Z.div_1_r|].
  rewrite shr_1_half by (rewrite IH; apply Z.div_pos; lia).
  rewrite IH, Z.div_div by lia. f_equal. rewrite Nat2Z.inj_succ, Z.pow_succ_r by lia. lia.
Qed.

(** Shifting a mantissa to at most 53 digits. *)
Lemma shr_fexp_pos m e l :
  0 < m → -1074 <= e →
  let '(r, e') := shr_fexp 53 1024 m e l in
  0 < shr_m r <= m ∧ e <= e' <= e + Z.max 0 (Z.log2 m - 52).
Proof.
  intros Hm He. destruct m as [|p|]; [lia| |lia]. unfold shr_fexp, fexp, shr, emin, Zdigits2.
  rewrite digits2_log2. set (n := _ - e).
  assert (Hn : n = Z.log2 (Z.pos p) - 52 ∨ n <= 0 ∧ n >= Z.log2 (Z.pos p) - 52) by lia.
  assert (Hr : shr_m (shr_record_of_loc (Z.pos p) l) = Z.pos p) by (by destruct l as [|[]]).
  destruct n as [|k|k]; rewrite ?Hr; [lia| |lia].
  rewrite iter_pos_nat, iter_shr_half by (rewrite Hr; lia). rewrite Hr, positive_nat_Z.
  destruct Hn as [Hn|[? _]]; [|lia].
  pose proof (Z.log2_spec (Z.pos p) ltac:(lia)) as [Hl _].
  assert (Hk : 2 ^ Z.pos k <= 2 ^ Z.log2 (Z.pos p)) by (apply Z.pow_le_mono_r; lia).
  split; [|lia]. split.
  - apply Z.div_str_pos. lia.
  - apply Z.div_le_upper_bound; nia.
Qed.

Lemma round_aux_regular s m e l :
  0 < m → -1074 <= e → e + Z.max 0 (Z.log2 m - 52) + Z.max 0 (Z.log2 (m + 1) - 52) <= 971 →
  f_regular (binary_round_aux 53 1024 s m e l) = true.
Proof.
  intros Hm He Hb. unfold binary_round_aux.
  pose proof (shr_fexp_pos m e l Hm He) as H1.
  destruct (shr_fexp 53 1024 m e l) as [r1 e1]. destruct H1 as [Hr1 He1].
  set (k := round_nearest_even _ _).
  assert (Hk : 0 < k <= m + 1).
  { unfold k, round_nearest_even. destruct (loc_of_shr_record r1) as [|[]]; try lia.
    destruct (Z.even _); lia. }
  pose proof (shr_fexp_pos k e1 loc_Exact ltac:(lia) ltac:(lia)) as H2.
  destruct (shr_fexp 53 1024 k e1 loc_Exact) as [r2 e2]. destruct H2 as [Hr2 He2].
  pose proof (Z.log2_le_mono k (m + 1) ltac:(lia)) as Hlog.
  destruct (shr_m r2); [lia| |lia].
  rewrite (proj2 (Z.leb_le _ _)) by lia. done.
Qed.

(** A positive [uint64] converts to a number that is neither zero nor infinite. *)
Lemma f_of_Z_regular z : 0 < z < 2 ^ 64 → f_regular (f_of_Z z) = true.
Proof.
  intros Hz. destruct z as [|p|]; [lia| |lia]. unfold f_of_Z, binary_normalize, binary_round, shl_align.
  unfold fexp, emin. rewrite digits2_log2.
  pose proof (Z.log2_lt_pow2 (Z.pos p) 64 ltac:(lia)) as Hlog.
  pose proof (Z.log2_nonneg (Z.pos p)).
  set (n := Z.max _ _ - 0). assert (Hn : n = Z.log2 (Z.pos p) - 52) by lia. clearbody n.
  destruct n as [|k|k].
  1-2: apply round_aux_regular; [lia..|];
    assert (Z.log2 (Z.pos p + 1) <= 64) by (change 64 with (Z.log2 (2 ^ 64)); apply Z.log2_le_mono; lia); lia.
  assert (Hs : Z.pos (shift_pos k p) = Z.pos p * 2 ^ Z.pos k)
    by (rewrite shift_pos_correct, Z.mul_comm; done).
  change (PosDef.Pos.iter xO p k) with (shift_pos k p). rewrite Hs. assert (Hp : Z.pos p * 2 ^ Z.pos k < 2 ^ 53).
  { pose proof (Z.log2_spec (Z.pos p) ltac:(lia)) as [_ Hu].
    replace 53 with (Z.succ (Z.log2 (Z.pos p)) + Z.pos k) by lia. rewrite Z.pow_add_r by lia. nia. }
  apply round_aux_regular; [nia|lia|].
  pose proof (Z.log2_le_mono (Z.pos p * 2 ^ Z.pos k + 1) (2 ^ 53) ltac:(lia)) as H1.
  pose proof (Z.log2_le_mono (Z.pos p * 2 ^ Z.pos k) (2 ^ 53) ltac:(lia)) as H2.
  change (Z.log2 (2 ^ 53)) with 53 in H1, H2. lia.
Qed.

(** * The order of floats that are not NaN *)

Lemma flt_asym x y : flt x y = true → flt y x = false.
Proof.
  unfold flt, SFltb, SFcompare.
  destruct x as [[]|[]| |[] m e], y as [[]|[]| |[] m' e']; try done;
    rewrite ?(Z.compare_antisym e e');
    change (Pos.compare_cont Eq m m') with (Pos.compare m m');
    change (Pos.compare_cont Eq m' m) with (Pos.compare m' m);
    rewrite ?(Pos.compare_antisym m m');
    destruct (e ?= e'); try done; by destruct (m ?= m')%positive.
Qed.

Lemma flt_negtrans x y z :
  not_nan x → not_nan y → not_nan z →
  flt x y = false → flt y z = false → flt x z = false.
Proof.
  unfold flt, SFltb, SFcompare. change (Pos.compare_cont Eq) with Pos.compare.
  destruct x as [[]|[]| |[] m1 e1], y as [[]|[]| |[] m2 e2], z as [[]|[]| |[] m3 e3]; try done;
    intros _ _ _;
    destruct (Z.compare_spec e1 e2), (Z.compare_spec e2 e3), (Z.compare_spec e1 e3);
    try done; try lia;
    destruct (Pos.compare_spec m1 m2), (Pos.compare_spec m2 m3), (Pos.compare_spec m1 m3);
    try done; lia.
Qed.
