(* ===== verification/GoStrings.v ===== *)
(** The parts of Go's standard library the program uses on strings and bytes:
    [strings]/[bytes] (Fields, TrimSpace, Split, Index, Contains, prefixes and
    suffixes), [strconv] (ParseUint, Atoi), decimal formatting and the FNV-1a
    hash.  Byte strings and strings are Rocq [string]s of bytes. *)

From S2P Require Import Prelude.
From Stdlib Require Import DecimalString DecimalZ.

Open Scope Z_scope.

(** * Slices *)

(** [s[n:]] and [s[:n]] for [n] within the string. *)
Fixpoint sdrop (n : nat) (s : string) : string :=
  match n, s with
  | S n, String _ s => sdrop n s
  | _, _ => s
  end.

Fixpoint stake (n : nat) (s : string) : string :=
  match n, s with
  | S n, String c s => String c (stake n s)
  | _, _ => ""
  end.

(** [s[i]] *)
Fixpoint sget (n : nat) (s : string) : option ascii :=
  match n, s with
  | _, EmptyString => None
  | O, String c _ => Some c
  | S n, String _ s => sget n s
  end.

(** * Searching *)

Fixpoint has_prefix (s prefix : string) : bool :=
  match prefix, s with
  | EmptyString, _ => true
  | String p prefix, String c s => Ascii.eqb c p && has_prefix s prefix
  | _, _ => false
  end.

Definition has_suffix (s suffix : string) : bool :=
  (String.length suffix <=? String.length s)%nat &&
  streq (sdrop (String.length s - String.length suffix) s) suffix.

(** [IndexByte]: the first position of a byte, if any (-1 in Go). *)
Fixpoint index_byte (s : string) (b : ascii) : option nat :=
  match s with
  | EmptyString => None
  | String c s => if Ascii.eqb c b then Some O else S <$> index_byte s b
  end.

Fixpoint last_index_byte (s : string) (b : ascii) : option nat :=
  match s with
  | EmptyString => None
  | String c s =>
      match last_index_byte s b with
      | Some i => Some (S i)
      | None => if Ascii.eqb c b then Some O else None
      end
  end.

(** [Index] and [LastIndex] of a substring. *)
Fixpoint index_of_str (s sub : string) : option nat :=
  if has_prefix s sub then Some O
  else match s with EmptyString => None | String _ s => S <$> index_of_str s sub end.

Fixpoint last_index_str (s sub : string) : option nat :=
  match s with
  | EmptyString => if has_prefix s sub then Some O else None
  | String _ s' =>
      match last_index_str s' sub with
      | Some i => Some (S i)
      | None => if has_prefix s sub then Some O else None
      end
  end.

Definition contains (s sub : string) : bool := bool_decide (is_Some (index_of_str s sub)).

(** [Split] on a one-byte separator: always at least one piece. *)
Fixpoint split_byte (s : string) (b : ascii) : list string :=
  match s with
  | EmptyString => [""%string]
  | String c s =>
      let rest := split_byte s b in
      if Ascii.eqb c b then ""%string :: rest
      else match rest with
           | [] => [String c ""]
           | piece :: more => String c piece :: more
           end
  end.

Definition newline : ascii := ascii_of_nat 10.
Definition quote : ascii := ascii_of_nat 34.

Definition quoted (s : string) : string := String quote (s +:+ String quote "").

Definition lower_byte (c : ascii) : ascii :=
  let n := nat_of_ascii c in
  if ((65 <=? n) && (n <=? 90))%nat then ascii_of_nat (n + 32) else c.

(** [ToLower] on ASCII, which is all that the extensions and host names it is
    used on are compared with. *)
Fixpoint to_lower (s : string) : string :=
  match s with EmptyString => "" | String c rest => String (lower_byte c) (to_lower rest) end.

(** * White space *)

(** Length in bytes of the white space character at the front of [s], 0 when
    there is none: ASCII blanks and the UTF-8 encodings of the other
    [unicode.IsSpace] characters. *)
Definition space_len (s : string) : nat :=
  let b n := option_map nat_of_ascii (sget n s) in
  match b 0%nat, b 1%nat, b 2%nat with
  | Some (9 | 10 | 11 | 12 | 13 | 32)%nat, _, _ => 1%nat
  | Some 194%nat, Some (133 | 160)%nat, _ => 2%nat
  | Some 225%nat, Some 154%nat, Some 128%nat => 3%nat
  | Some 226%nat, Some 128%nat, Some n =>
      if ((128 <=? n)%nat && (n <=? 138)%nat)
         || (n =? 168)%nat || (n =? 169)%nat || (n =? 175)%nat then 3%nat else O
  | Some 226%nat, Some 129%nat, Some 159%nat => 3%nat
  | Some 227%nat, Some 128%nat, Some 128%nat => 3%nat
  | _, _, _ => O
  end.

(** [Fields]: the maximal runs of other characters.  [skip] counts the bytes
    left of a white space character, [cur] is the field being read. *)
Fixpoint fields_from (skip : nat) (cur s : string) : list string :=
  let flush := if streq cur "" then [] else [cur] in
  match s with
  | EmptyString => flush
  | String c rest =>
      match skip with
      | S skip => fields_from skip cur rest
      | O =>
          match space_len s with
          | O => fields_from O (cur +:+ String c "") rest
          | S k => flush ++ fields_from k "" rest
          end
      end
  end.

Definition fields (s : string) : list string := fields_from O "" s.

Fixpoint trim_left_from (skip : nat) (s : string) : string :=
  match s with
  | EmptyString => ""
  | String c rest =>
      match skip with
      | S skip => trim_left_from skip rest
      | O => match space_len s with O => s | S k => trim_left_from k rest end
      end
  end.

Definition all_space (s : string) : bool := streq (trim_left_from O s) "".

Fixpoint trim_right (s : string) : string :=
  match s with
  | EmptyString => ""
  | String c rest => if all_space s then "" else String c (trim_right rest)
  end.

(** [TrimSpace] *)
Definition trim_space (s : string) : string := trim_right (trim_left_from O s).

(** * Numbers *)

Definition digit_value (base : Z) (c : ascii) : option Z :=
  let n := Z.of_nat (nat_of_ascii c) in
  let v := if (48 <=? n) && (n <=? 57) then Some (n - 48)
           else if (97 <=? n) && (n <=? 122) then Some (n - 87)
           else if (65 <=? n) && (n <=? 90) then Some (n - 55)
           else None in
  v ← v; if v <? base then Some v else None.

Fixpoint digits_from (base acc : Z) (s : string) : option Z :=
  match s with
  | EmptyString => Some acc
  | String c s => d ← digit_value base c; digits_from base (acc * base + d) s
  end.

(** [strconv.ParseUint(s, base, bits)]; [None] stands for its errors (empty
    string, bad digit, out of range). *)
Definition parse_uint (s : string) (base bits : Z) : option Z :=
  if streq s "" then None
  else n ← digits_from base 0 s; if n <? 2 ^ bits then Some n else None.

(** [strconv.Atoi] *)
Definition atoi (s : string) : option Z :=
  match s with
  | String "-" s => n ← (if streq s "" then None else digits_from 10 0 s);
      if n <=? 2 ^ 63 then Some (- n) else None
  | String "+" s => n ← (if streq s "" then None else digits_from 10 0 s);
      if n <? 2 ^ 63 then Some n else None
  | _ => n ← (if streq s "" then None else digits_from 10 0 s);
      if n <? 2 ^ 63 then Some n else None
  end.

(** [%d]: the decimal representation of an integer. *)
Definition fmt_d (z : Z) : string := NilZero.string_of_int (Z.to_int z).

(** * Durations *)

(** [time.fmtFrac]: the last [prec] digits of [v] as a fraction without its
    trailing zeros, and what is left of [v]. *)
Fixpoint fmt_frac (prec : nat) (v : Z) (print : bool) (acc : string) : string * Z :=
  match prec with
  | O => ((if print then "." +:+ acc else acc)%string, v)
  | S k =>
      let digit := v mod 10 in
      let print := print || negb (digit =? 0) in
      fmt_frac k (v / 10) print
        (if print then String (ascii_of_nat (48 + Z.to_nat digit)) acc else acc)
  end.

(** The two bytes of the micro sign, and an [s]. *)
Definition micro_s : string := String (ascii_of_nat 194) (String (ascii_of_nat 181) "s").

(** [Duration.String] *)
Definition duration_string (d : Z) : string :=
  let u := Z.abs d in
  let body :=
    if u =? 0 then "0s"%string
    else if u <? 1000 then (fmt_d u +:+ "ns")%string
    else if u <? Millisecond then let '(f, v) := fmt_frac 3 u false "" in (fmt_d v +:+ f +:+ micro_s)%string
    else if u <? Second then let '(f, v) := fmt_frac 6 u false "" in (fmt_d v +:+ f +:+ "ms")%string
    else
      let '(f, secs) := fmt_frac 9 u false "" in
      let s := (fmt_d (secs mod 60) +:+ f +:+ "s")%string in
      let mins := secs / 60 in
      if mins =? 0 then s
      else
        let s := (fmt_d (mins mod 60) +:+ "m" +:+ s)%string in
        if mins / 60 =? 0 then s else (fmt_d (mins / 60) +:+ "h" +:+ s)%string in
  if d <? 0 then ("-" +:+ body)%string else body.

(** [Duration.Round] *)
Definition duration_round (d m : Z) : Z :=
  if m <=? 0 then d
  else
    let r := Z.rem d m in
    if d <? 0 then
      let r := - r in
      if r + r <? m then d + r
      else if i64 (d - m + r) <? d then i64 (d - m + r) else - 2 ^ 63
    else if r + r <? m then d - r
    else if d <? i64 (d + m - r) then i64 (d + m - r) else 2 ^ 63 - 1.

Example duration_string_examples :
  duration_string <$> [0; 999; 1500; 500 * Millisecond; 1500 * Millisecond; 90 * Minute; - Second] =
  ["0s"; "999ns"; "1.5" +:+ micro_s; "500ms"; "1.5s"; "1h30m0s"; "-1s"]%string.
Proof. vm_compute. reflexivity. Qed.
Example duration_round_example : duration_round (2500 * Millisecond) Second = 3 * Second.
Proof. vm_compute. reflexivity. Qed.

(** * FNV-1a, 64 bits *)

Definition fnv_offset : Z := 14695981039346656037.
Definition fnv_prime : Z := 1099511628211.

Fixpoint fnv64a_from (h : Z) (s : string) : Z :=
  match s with
  | EmptyString => h
  | String c s => fnv64a_from (u64 (Z.lxor h (Z.of_nat (nat_of_ascii c)) * fnv_prime)) s
  end.

Definition fnv64a (s : string) : Z := fnv64a_from fnv_offset s.

Lemma fnv64a_range s : in_u64 (fnv64a s).
Proof.
  unfold fnv64a. assert (H : in_u64 fnv_offset) by (unfold in_u64, fnv_offset; lia).
  revert H. generalize fnv_offset. induction s as [|c s IH]; intros h Hh; [done|].
  simpl. apply IH, u64_range.
Qed.

Example fields_example : fields " a  bc	d " = ["a"; "bc"; "d"]%string.
Proof. vm_compute. reflexivity. Qed.
Example trim_example : trim_space "  a b " = "a b"%string.
Proof. vm_compute. reflexivity. Qed.
Example split_example : split_byte "a::b" ":" = ["a"; ""; "b"]%string.
Proof. vm_compute. reflexivity. Qed.
Example fmt_d_example : fmt_d (-120) = "-120"%string.
Proof. vm_compute. reflexivity. Qed.
Example fnv_example : fnv64a "a" = 12638187200555641996.
Proof. vm_compute. reflexivity. Qed.

(** * Facts *)

Lemma fmt_d_inj a b : fmt_d a = fmt_d b → a = b.
Proof.
  unfold fmt_d. intros H.
  rewrite <- (DecimalZ.of_to a), <- (DecimalZ.of_to b).
  assert (Hn : ∀ z, NilZero.int_of_string (NilZero.string_of_int (Z.to_int z)) = Some (Z.to_int z)).
  { intros z. pose proof (DecimalZ.to_of (Z.to_int z)) as Hnorm. rewrite DecimalZ.of_to in Hnorm.
    apply NilZero.isi; intros E; rewrite E in Hnorm; done. }
  f_equal. apply (f_equal NilZero.int_of_string) in H. rewrite !Hn in H. by simplify_eq.
Qed.

(** ** Slices of strings *)

Lemma streq_false s t : streq s t = false ↔ s ≠ t.
Proof. unfold streq. by rewrite bool_decide_eq_false. Qed.

Lemma stake_all n s : slen s <= n → stake (Z.to_nat n) s = s.
Proof.
  unfold slen. intros Hn. assert (H : (String.length s <= Z.to_nat n)%nat) by lia. clear Hn.
  revert H. generalize (Z.to_nat n) as k. induction s as [|c s IH]; intros k; [by destruct k|].
  simpl. intros H. destruct k as [|k]; [lia|]. simpl. rewrite IH; [done|lia].
Qed.

Lemma app_cons c s t : String c s +:+ t = String c (s +:+ t).
Proof. done. Qed.

Lemma app_string_assoc s t u : (s +:+ t) +:+ u = s +:+ (t +:+ u).
Proof. induction s as [|c s IH]; [done|]. by rewrite !app_cons, IH. Qed.

Lemma app_string_nil_r s : s +:+ "" = s.
Proof. induction s as [|c s IH]; [done|]. by rewrite app_cons, IH. Qed.

Lemma sdrop_app s t : sdrop (String.length s) (s +:+ t) = t.
Proof. induction s as [|c s IH]; [by destruct t|]. by rewrite app_cons. Qed.

Lemma stake_app s t : stake (String.length s) (s +:+ t) = s.
Proof. induction s as [|c s IH]; [by destruct t|]. rewrite app_cons. simpl. by rewrite IH. Qed.

(** A byte does not occur in a string. *)
Fixpoint lacks (s : string) (b : ascii) : bool :=
  match s with
  | EmptyString => true
  | String c rest => negb (Ascii.eqb c b) && lacks rest b
  end.

Lemma lacks_app s t b : lacks (s +:+ t) b = lacks s b && lacks t b.
Proof. induction s as [|c s IH]; [done|]. rewrite app_cons. simpl. by rewrite IH, andb_assoc. Qed.

Lemma last_index_lacks s b : lacks s b = true → last_index_byte s b = None.
Proof.
  induction s as [|c s IH]; simpl; [done|]. intros [Hc Hs]%andb_true_iff.
  rewrite IH by done. by destruct (Ascii.eqb c b).
Qed.

(** The last occurrence of a byte splits a string at its last field. *)
Lemma last_index_app s b t :
  lacks t b = true → last_index_byte (s +:+ String b t) b = Some (String.length s).
Proof.
  intros Ht. induction s as [|c s IH].
  - simpl. change ("" +:+ String b t) with (String b t). simpl.
    by rewrite last_index_lacks, Ascii.eqb_refl.
  - rewrite app_cons. simpl. by rewrite IH.
Qed.

Lemma index_lacks s b t : lacks s b = true → index_byte (s +:+ String b t) b = Some (String.length s).
Proof.
  intros Hs. induction s as [|c s IH].
  - change ("" +:+ String b t)%string with (String b t). simpl. by rewrite Ascii.eqb_refl.
  - rewrite app_cons. simpl in *. apply andb_true_iff in Hs as [Hc%negb_true_iff Hs].
    by rewrite Hc, IH.
Qed.

(** ** Words *)

(** A byte that is neither a blank nor part of a longer character. *)
Definition plain_byte (c : ascii) : bool :=
  let n := nat_of_ascii c in (32 <? n)%nat && (n <? 128)%nat.

Fixpoint plain (s : string) : bool :=
  match s with EmptyString => true | String c rest => plain_byte c && plain rest end.

Definition word (s : string) : bool := negb (streq s "") && plain s.

Lemma plain_space c s : plain_byte c = true → space_len (String c s) = O.
Proof.
  unfold plain_byte, space_len. intros [H1 H2]%andb_true_iff.
  apply Nat.ltb_lt in H1, H2. simpl. revert H1 H2. generalize (nat_of_ascii c) as n.
  intros n H1 H2. do 32 (destruct n as [|n]; [lia|]).
  do 96 (destruct n as [|n]; [simpl; try reflexivity; lia|]). lia.
Qed.

Lemma fields_word cur s t :
  plain s = true → fields_from O cur (s +:+ t) = fields_from O (cur +:+ s) t.
Proof.
  revert cur. induction s as [|c s IH]; intros cur; [by rewrite app_string_nil_r|].
  intros [Hc Hs]%andb_true_iff. rewrite app_cons. cbn [fields_from].
  rewrite (plain_space _ _ Hc), IH by done. by rewrite app_string_assoc.
Qed.

Lemma streq_refl s : streq s s = true.
Proof. unfold streq. by apply bool_decide_eq_true. Qed.

(** [Fields] undoes joining words with blanks. *)
Fixpoint join_words (ws : list string) : string :=
  match ws with
  | [] => ""
  | w :: rest => w +:+ String " " (join_words rest)
  end.

Lemma fields_join ws : Forall (λ w, word w = true) ws → fields (join_words ws) = ws.
Proof.
  unfold fields. induction 1 as [|w ws Hw Hws IH]; [done|].
  apply andb_true_iff in Hw as [Hne Hp]. cbn [join_words]. rewrite fields_word by done.
  change ("" +:+ w)%string with w. cbn [fields_from].
  change (space_len (String " " (join_words ws))) with 1%nat. cbv iota beta.
  rewrite IH.
  by destruct (streq w "").
Qed.

(** ** Numbers round-trip *)

Lemma digits_from_pos d acc :
  digits_from 10 (Z.pos acc) (NilEmpty.string_of_uint d) = Some (Z.pos (Pos.of_uint_acc d acc)).
Proof.
  revert acc. induction d as [|d IH|d IH|d IH|d IH|d IH|d IH|d IH|d IH|d IH|d IH]; intros acc;
    [done|..]; cbn [NilEmpty.string_of_uint digits_from];
    match goal with |- context [digit_value 10 ?c] =>
      change (digit_value 10 c) with (Some (match digit_value 10 c with Some v => v | None => 0 end)) end;
    cbn [mbind option_bind Pos.of_uint_acc]; rewrite <- IH; f_equal; vm_compute digit_value; lia.
Qed.

Lemma digits_from_uint d :
  digits_from 10 0 (NilEmpty.string_of_uint d) = Some (Z.of_uint d).
Proof.
  induction d as [|d IH|d IH|d IH|d IH|d IH|d IH|d IH|d IH|d IH|d IH]; try exact IH;
    [done|..]; cbn [NilEmpty.string_of_uint digits_from];
    match goal with |- context [digit_value 10 ?c] =>
      change (digit_value 10 c) with (Some (match digit_value 10 c with Some v => v | None => 0 end)) end;
    cbn [mbind option_bind]; vm_compute digit_value; apply digits_from_pos.
Qed.

Lemma fmt_d_nonneg z :
  0 <= z → ∃ d, fmt_d z = NilZero.string_of_uint d ∧ Z.of_uint d = z.
Proof.
  intros Hz. unfold fmt_d. pose proof (DecimalZ.of_to z) as H.
  destruct z as [|p|p]; [by exists (Decimal.D0 Decimal.Nil)| |lia].
  exists (Pos.to_uint p). by split.
Qed.

Lemma digits_from_fmt_d z : 0 <= z → digits_from 10 0 (fmt_d z) = Some z ∧ fmt_d z ≠ ""%string.
Proof.
  intros Hz. destruct (fmt_d_nonneg z Hz) as (d & -> & <-).
  destruct d; (split; [try exact (digits_from_uint _); done|done]).
Qed.

Lemma parse_uint_fmt_d z bits : 0 <= z < 2 ^ bits → parse_uint (fmt_d z) 10 bits = Some z.
Proof.
  intros Hz. unfold parse_uint. destruct (digits_from_fmt_d z) as [Hd Hne]; [lia|].
  unfold streq. rewrite bool_decide_eq_false_2 by done. rewrite Hd. simpl.
  by rewrite (proj2 (Z.ltb_lt _ _)) by lia.
Qed.

(** Decimal numerals are words, of digits only. *)
Lemma uint_plain d : plain (NilEmpty.string_of_uint d) = true.
Proof. induction d; simpl; auto. Qed.

Lemma uint_lacks d b :
  (∀ c, digit_value 10 c ≠ None → c ≠ b) → lacks (NilEmpty.string_of_uint d) b = true.
Proof.
  intros Hb. assert (Hc : ∀ c, digit_value 10 c ≠ None → negb (Ascii.eqb c b) = true).
  { intros c Hc. apply negb_true_iff, Ascii.eqb_neq. by apply Hb. }
  induction d; cbn [NilEmpty.string_of_uint lacks]; try done; rewrite Hc; done.
Qed.

Lemma fmt_d_word z : 0 <= z → word (fmt_d z) = true.
Proof.
  intros Hz. destruct (fmt_d_nonneg z Hz) as (d & -> & _).
  destruct d; try done; apply (uint_plain (_ d)).
Qed.

Lemma fmt_d_lacks z b :
  0 <= z → (∀ c, digit_value 10 c ≠ None → c ≠ b) → lacks (fmt_d z) b = true.
Proof.
  intros Hz Hb. destruct (fmt_d_nonneg z Hz) as (d & -> & _).
  destruct d; try exact (uint_lacks (_ d) b Hb).
  cbn [NilZero.string_of_uint lacks]. rewrite andb_true_r. apply negb_true_iff, Ascii.eqb_neq. by apply Hb.
Qed.

(** ** Splitting and trimming *)

Lemma has_prefix_nil s : has_prefix s "" = true.
Proof. by destruct s. Qed.

Lemma has_suffix_app s t : has_suffix (s +:+ t) t = true.
Proof.
  unfold has_suffix. rewrite app_string_length.
  replace (String.length s + String.length t - String.length t)%nat with (String.length s) by lia.
  rewrite sdrop_app, streq_refl, andb_true_r. apply Nat.leb_le. lia.
Qed.

Lemma split_byte_app s b t :
  lacks s b = true → split_byte (s +:+ String b t) b = s :: split_byte t b.
Proof.
  intros Hs. induction s as [|c s IH].
  - change ("" +:+ String b t)%string with (String b t). cbn [split_byte]. by rewrite Ascii.eqb_refl.
  - rewrite app_cons. cbn [split_byte]. cbn [lacks] in Hs.
    apply andb_true_iff in Hs as [Hc%negb_true_iff Hs]. by rewrite Hc, IH.
Qed.

Lemma split_byte_lacks s b : lacks s b = true → split_byte s b = [s].
Proof.
  induction s as [|c s IH]; [done|]. cbn [lacks split_byte].
  intros [Hc%negb_true_iff Hs]%andb_true_iff. by rewrite Hc, IH.
Qed.

Lemma plain_app s t : plain (s +:+ t) = plain s && plain t.
Proof. induction s as [|c s IH]; [done|]. rewrite app_cons. simpl. by rewrite IH, andb_assoc. Qed.

Lemma trim_space_plain s : plain s = true → trim_space s = s.
Proof.
  intros Hs. unfold trim_space.
  assert (Hl : ∀ t, plain t = true → trim_left_from O t = t).
  { intros [|c t] Ht; [done|]. apply andb_true_iff in Ht as [Hc _]. cbn [trim_left_from].
    by rewrite plain_space. }
  rewrite Hl by done. induction s as [|c s IH]; [done|]. cbn [trim_right]. unfold all_space.
  rewrite Hl by done. apply andb_true_iff in Hs as [_ Hs]. by rewrite IH.
Qed.

Lemma sdrop_app_plus s t (n : nat) : sdrop (String.length s + n) (s +:+ t) = sdrop n t.
Proof.
  induction s as [|c s IH]; [done|]. rewrite app_cons. simpl. apply IH.
Qed.

Lemma digit_value_nonneg base c d : digit_value base c = Some d → 0 <= d.
Proof.
  unfold digit_value. set (n := Z.of_nat (nat_of_ascii c)). intros H.
  destruct ((48 <=? n) && (n <=? 57)) eqn:E1; [|destruct ((97 <=? n) && (n <=? 122)) eqn:E2;
    [|destruct ((65 <=? n) && (n <=? 90)) eqn:E3; [|done]]];
    simpl in H; cases_in H; bool_prop; lia.
Qed.

Lemma digits_from_nonneg base acc s n :
  0 <= base → digits_from base acc s = Some n → 0 <= acc → 0 <= n.
Proof.
  intros Hb. revert acc. induction s as [|c s IH]; intros acc; simpl; [by intros [= ->]|].
  destruct (digit_value base c) as [d|] eqn:E; simpl; [|done].
  apply digit_value_nonneg in E. intros H Ha. apply (IH _ H). nia.
Qed.

(** ** Substrings *)

Definition substring_of (sub s : string) : Prop := ∃ a b, s = a +:+ sub +:+ b.

Lemma substring_trans x y z : substring_of x y → substring_of y z → substring_of x z.
Proof.
  intros (a & b & ->) (c & d & ->). exists (c +:+ a), (b +:+ d).
  by rewrite !app_string_assoc.
Qed.

Lemma has_prefix_app p s : has_prefix (p +:+ s) p = true.
Proof.
  induction p as [|c p IH]; [by destruct s|]. rewrite app_cons. cbn [has_prefix].
  by rewrite Ascii.eqb_refl.
Qed.

Lemma has_prefix_split s p : has_prefix s p = true → ∃ t, s = p +:+ t.
Proof.
  revert p. induction s as [|c s IH]; intros [|d p]; cbn [has_prefix]; try done.
  - intros _. by exists "".
  - intros _. by exists (String c s).
  - intros [Hc Hp]%andb_true_iff. apply Ascii.eqb_eq in Hc as ->.
    destruct (IH p Hp) as [t ->]. by exists t.
Qed.

Lemma contains_substring sub s : substring_of sub s → contains s sub = true.
Proof.
  intros (a & b & ->). unfold contains. apply bool_decide_eq_true.
  induction a as [|c a IH].
  - change ("" +:+ sub +:+ b)%string with (sub +:+ b)%string. pose proof (has_prefix_app sub b) as H.
    destruct (sub +:+ b)%string as [|c s]; cbn [index_of_str]; rewrite H; by eexists.
  - rewrite app_cons. cbn [index_of_str]. destruct (has_prefix _ _); [by eexists|].
    destruct IH as [i Hi]. rewrite Hi. by eexists.
Qed.

Lemma trim_left_suffix k s : ∃ a, s = a +:+ trim_left_from k s.
Proof.
  revert k. induction s as [|c s IH]; intros k; [by exists ""|]. cbn [trim_left_from].
  destruct k as [|k].
  - destruct (space_len (String c s)) as [|k]; [by exists ""|].
    destruct (IH k) as [a Ha]. exists (String c a). rewrite app_cons. by rewrite <- Ha.
  - destruct (IH k) as [a Ha]. exists (String c a). rewrite app_cons. by rewrite <- Ha.
Qed.

Lemma trim_right_prefix s : ∃ b, s = trim_right s +:+ b.
Proof.
  induction s as [|c s IH]; [by exists ""|]. cbn [trim_right].
  destruct (all_space (String c s)); [by exists (String c s)|].
  destruct IH as [b Hb]. exists b. rewrite app_cons. by rewrite <- Hb.
Qed.

Lemma trim_space_substring s : substring_of (trim_space s) s.
Proof.
  destruct (trim_left_suffix O s) as [a Ha]. destruct (trim_right_prefix (trim_left_from O s)) as [b Hb].
  exists a, b. unfold trim_space. by rewrite <- Hb.
Qed.

Lemma split_byte_nonempty s b : split_byte s b ≠ [].
Proof.
  destruct s as [|c s]; [done|]. cbn [split_byte]. destruct (Ascii.eqb c b); [done|].
  by destruct (split_byte s b).
Qed.

Lemma split_byte_substring s b piece : piece ∈ split_byte s b → substring_of piece s.
Proof.
  revert piece. induction s as [|c s IH]; intros piece; cbn [split_byte].
  - intros ->%list_elem_of_singleton. by exists "", "".
  - assert (Hs : ∀ p, substring_of p s → substring_of p (String c s)).
    { intros p (x & y & ->). exists (String c x), y. by rewrite app_cons. }
    pose proof (split_byte_nonempty s b) as Hne. destruct (Ascii.eqb c b).
    + intros [->|Hp]%elem_of_cons; [by exists "", (String c s)|]. by apply Hs, IH.
    + assert (Hfirst : ∀ s', ∃ t, s' = List.hd "" (split_byte s' b) +:+ t).
      { clear. induction s' as [|d s' [t Ht]]; [by exists ""|]. cbn [split_byte].
        pose proof (split_byte_nonempty s' b). destruct (Ascii.eqb d b); [by exists (String d s')|].
        destruct (split_byte s' b) as [|q more]; [done|]. simpl in Ht |- *. exists t.
        rewrite app_cons. by rewrite <- Ht. }
      specialize (Hfirst s). destruct (split_byte s b) as [|p more]; [done|].
      intros [->|Hp]%elem_of_cons.
      * destruct Hfirst as [t Ht]. simpl in Ht. exists "", t.
        change ("" +:+ String c p +:+ t)%string with (String c (p +:+ t)). by rewrite <- Ht.
      * apply Hs, IH. by right.
Qed.

(** Splitting what is appended only looks at the last piece. *)
Lemma split_byte_snoc s t b :
  split_byte (s +:+ t) b =
    removelast (split_byte s b) ++ split_byte (List.last (split_byte s b) "" +:+ t) b.
Proof.
  induction s as [|c s IH]; [done|]. rewrite app_cons. cbn [split_byte].
  pose proof (split_byte_nonempty s b) as Hne. rewrite IH.
  destruct (Ascii.eqb c b) eqn:E.
  - destruct (split_byte s b); [done|]. done.
  - destruct (split_byte s b) as [|p [|q more]]; [done| |done]. simpl.
    by rewrite E.
Qed.

Lemma last_piece_lacks s b : lacks (List.last (split_byte s b) "") b = true.
Proof.
  induction s as [|c s IH]; [done|]. cbn [split_byte].
  pose proof (split_byte_nonempty s b) as Hne. destruct (Ascii.eqb c b) eqn:E.
  - by destruct (split_byte s b).
  - destruct (split_byte s b) as [|p [|q more]]; [done| |done]. simpl in *. by rewrite E, IH.
Qed.

Lemma index_substring s sub i : index_of_str s sub = Some i → substring_of sub s.
Proof.
  revert i. induction s as [|c s IH]; intros i; cbn [index_of_str];
    destruct (has_prefix _ sub) eqn:E; try done.
  - apply has_prefix_split in E as [t Ht]. intros _. by exists "", t.
  - apply has_prefix_split in E as [t Ht]. intros _. by exists "", t.
  - destruct (index_of_str s sub) as [j|]; [|done]. intros _.
    destruct (IH j eq_refl) as (a & b & ->). exists (String c a), b. by rewrite app_cons.
Qed.
