(* ===== verification/PolicyEvaluator.v ===== *)
(** The policy component's data ([policy/types.go]) and its rule evaluator
    ([policy/evaluator.go]): which mitigation intents are authorised.

    Go string types with a closed set of constants are inductive types; an
    action type, which is compared against constants with a default branch,
    also has the other strings. *)

From S2P Require Import Prelude GoFloat.

Inductive ActionType :=
  | ActionSIGSTOP
  | ActionContainerPause
  | ActionAPIRouteSwap
  | ActionTokenChop
  | ActionCgroupFreeze
  | ActionOther (s : string).

Inductive MitigationStatus :=
  | StatusAuthorizedPending
  | StatusExecuted
  | StatusCompleted
  | StatusRejected
  | StatusExpired.

#[global] Instance MitigationStatus_eq_dec : EqDecision MitigationStatus.
Proof. solve_decision. Defined.

(** [RuleNone] is the empty rule name of an authorised evaluation. *)
Inductive RuleName :=
  | RuleSystemBlacklist
  | RuleUserWhitelist
  | RuleVelocityCap
  | RulePIDBoundary
  | RuleNone.

#[global] Instance RuleName_eq_dec : EqDecision RuleName.
Proof. solve_decision. Defined.

Definition rule_string (r : RuleName) : string :=
  match r with
  | RuleSystemBlacklist => "SYSTEM_BLACKLIST_CHECK"
  | RuleUserWhitelist => "USER_WHITELIST_CHECK"
  | RuleVelocityCap => "VELOCITY_CAP_CHECK"
  | RulePIDBoundary => "PID_BOUNDARY_CHECK"
  | RuleNone => ""
  end.

(** The metadata map is carried along and never read: its dynamic values are
    integers, strings or booleans here. *)
Inductive gany := AnyInt (z : Z) | AnyString (s : string) | AnyBool (b : bool).

Record MitigationIntent := {
  TargetPID : Z;
  ContainerID : string;
  ProcessName : string;
  IntentAction : ActionType;
  AnomalyType : string;
  SourceModule : string;
  Metadata : gmap string gany
}.

Record Config := {
  BlacklistNames : list string;
  WhitelistNames : list string;
  WhitelistIDs : list string;
  MaxActionsPerPID : Z;
  VelocityWindow : Z;
  CooldownSeconds : Z;
  LedgerMaxEntries : Z;
  SweepInterval : Z;
  PIDThreshold : Z;
  BufferSize : Z
}.

Definition DefaultConfig : Config := {|
  BlacklistNames := ["systemd"; "dockerd"; "containerd"; "kubelet"; "init"; "kerneloops"];
  WhitelistNames := [];
  WhitelistIDs := [];
  MaxActionsPerPID := 5;
  VelocityWindow := 10 * Minute;
  CooldownSeconds := 60;
  LedgerMaxEntries := 10000;
  SweepInterval := 5 * Minute;
  PIDThreshold := 100;
  BufferSize := 64
|}.

(** The evaluator.  The three maps only ever hold [true]: they are sets. *)
Record RuleEvaluator := {
  blacklistNames : gset string;
  whitelistNames : gset string;
  whitelistIDs : gset string;
  pidThreshold : Z;
  maxActionsPerPID : Z;
  velocityWindow : Z
}.

(** The loops that fill the name sets: empty names are skipped. *)
Definition name_set (names : list string) : gset string :=
  foldl (λ acc name, if streq name "" then acc else {[name]} ∪ acc) ∅ names.

Definition NewRuleEvaluator (cfg : Config) : RuleEvaluator := {|
  blacklistNames := name_set (BlacklistNames cfg);
  whitelistNames := name_set (WhitelistNames cfg);
  whitelistIDs := name_set (WhitelistIDs cfg);
  pidThreshold := if PIDThreshold cfg <=? 0 then 100 else PIDThreshold cfg;
  maxActionsPerPID := if MaxActionsPerPID cfg <=? 0 then 5 else MaxActionsPerPID cfg;
  velocityWindow := duration_secs_int (VelocityWindow cfg)
|}.

(** [m[s]] on such a map, guarded by [s != ""] as in the code. *)
Definition named_in (s : string) (names : gset string) : bool :=
  negb (streq s "") && bool_decide (s ∈ names).

Definition Evaluate (re : RuleEvaluator) (intent : MitigationIntent)
    (historicalCount : Z) : bool * list RuleName * RuleName :=
  let matchedRules := [] in
  if TargetPID intent <=? 0 then
    (false, matchedRules ++ [RulePIDBoundary], RulePIDBoundary)
  else if TargetPID intent <? pidThreshold re then
    (false, matchedRules ++ [RuleSystemBlacklist], RuleSystemBlacklist)
  else if named_in (ProcessName intent) (blacklistNames re) then
    (false, matchedRules ++ [RuleSystemBlacklist], RuleSystemBlacklist)
  else if named_in (ProcessName intent) (whitelistNames re) then
    (false, matchedRules ++ [RuleUserWhitelist], RuleUserWhitelist)
  else if named_in (ContainerID intent) (whitelistIDs re) then
    (false, matchedRules ++ [RuleUserWhitelist], RuleUserWhitelist)
  else
    let matchedRules := matchedRules ++ [RulePIDBoundary] in
    if maxActionsPerPID re <=? historicalCount then
      (false, matchedRules ++ [RuleVelocityCap], RuleVelocityCap)
    else
      (true, matchedRules ++ [RuleSystemBlacklist], RuleNone).

Definition RiskScore (re : RuleEvaluator) (processName : string)
    (historicalCount : Z) : float64 :=
  let isBlacklisted := bool_decide (processName ∈ blacklistNames re) in
  let score := f_zero in
  let score := if isBlacklisted then fadd score (f_lit 9 10) else score in
  let score :=
    if 0 <? maxActionsPerPID re then
      let ratio := fdiv (f_of_Z historicalCount) (f_of_Z (maxActionsPerPID re)) in
      let ratio := if flt f_one ratio then f_one else ratio in
      fadd score (fmul ratio (f_lit 3 10))
    else score in
  if flt f_one score then f_one else score.

Definition UpdateWhitelist (re : RuleEvaluator) (names ids : list string) :
    RuleEvaluator := {|
  blacklistNames := blacklistNames re;
  whitelistNames := name_set names;
  whitelistIDs := name_set ids;
  pidThreshold := pidThreshold re;
  maxActionsPerPID := maxActionsPerPID re;
  velocityWindow := velocityWindow re
|}.

Definition IsWhitelisted (re : RuleEvaluator) (processName containerID : string) : bool :=
  if named_in processName (whitelistNames re) then true
  else if named_in containerID (whitelistIDs re) then true
  else false.

(** * Name sets *)

Lemma elem_of_name_set names s :
  s ∈ name_set names ↔ s ∈ names ∧ s ≠ ""%string.
Proof.
  unfold name_set.
  cut (∀ acc : gset string,
    s ∈ foldl (λ acc name, if streq name "" then acc else {[name]} ∪ acc) acc names
    ↔ s ∈ acc ∨ (s ∈ names ∧ s ≠ ""%string)).
  { intros ->. rewrite elem_of_empty. naive_solver. }
  induction names as [|n names IH]; intros acc; simpl; [set_solver|].
  rewrite IH. unfold streq. rewrite elem_of_cons.
  destruct (bool_decide_reflect (n = "")) as [->|Hn]; [naive_solver|].
  rewrite elem_of_union, elem_of_singleton. naive_solver.
Qed.

Lemma named_in_spec s names :
  named_in s names = true ↔ s ≠ ""%string ∧ s ∈ names.
Proof.
  unfold named_in, streq. rewrite andb_true_iff, negb_true_iff,
    bool_decide_eq_false, bool_decide_eq_true. done.
Qed.

Lemma named_in_false s names :
  named_in s names = false ↔ ¬ (s ≠ ""%string ∧ s ∈ names).
Proof. rewrite <- named_in_spec. by destruct (named_in s names). Qed.

(** * Well-formed evaluators *)

Record evaluator_ok (re : RuleEvaluator) : Prop := {
  ok_threshold : 0 < pidThreshold re;
  ok_max : 0 < maxActionsPerPID re;
  ok_black : ""%string ∉ blacklistNames re;
  ok_white : ""%string ∉ whitelistNames re;
  ok_ids : ""%string ∉ whitelistIDs re
}.

Lemma name_set_nonempty names : ""%string ∉ name_set names.
Proof. rewrite elem_of_name_set. naive_solver. Qed.

#[export] Hint Resolve name_set_nonempty : kc_inv.

Lemma NewRuleEvaluator_ok cfg : evaluator_ok (NewRuleEvaluator cfg).
Proof. split; simpl; [cases; lia..|kc|kc|kc]. Qed.

Lemma UpdateWhitelist_ok re names ids :
  evaluator_ok re → evaluator_ok (UpdateWhitelist re names ids).
Proof. intros []. split; simpl; kc. Qed.

#[export] Hint Resolve NewRuleEvaluator_ok UpdateWhitelist_ok : kc_inv.

(** * What is authorised *)

(** The declarative policy: the target is an ordinary process, named neither
    by the blacklist nor by the whitelists, below its action cap. *)
Record permitted (re : RuleEvaluator) (intent : MitigationIntent) (hist : Z) : Prop := {
  perm_pid : 0 < TargetPID intent;
  perm_threshold : pidThreshold re <= TargetPID intent;
  perm_black : ProcessName intent ≠ ""%string → ProcessName intent ∉ blacklistNames re;
  perm_white : ProcessName intent ≠ ""%string → ProcessName intent ∉ whitelistNames re;
  perm_id : ContainerID intent ≠ ""%string → ContainerID intent ∉ whitelistIDs re;
  perm_cap : hist < maxActionsPerPID re
}.

(** Decide every guard of [Evaluate] at once. *)
Ltac evaluate_cases :=
  unfold Evaluate; repeat cases; rewrite ?named_in_spec, ?named_in_false in *.

Lemma evaluate_iff re intent hist :
  (Evaluate re intent hist).1.1 = true ↔ permitted re intent hist.
Proof.
  split.
  - evaluate_cases; try done. intros _. split; try lia; naive_solver.
  - intros []. evaluate_cases; naive_solver lia.
Qed.

(** C17: [Evaluate] authorises an intent exactly when the declarative policy
    permits it: positive PID at or above the threshold, name neither
    blacklisted nor whitelisted, container not whitelisted, and fewer recent
    actions than the cap. *)
Theorem Evaluate_authorized_iff re intent hist :
  (Evaluate re intent hist).1.1 = true ↔ permitted re intent hist.
Proof. apply evaluate_iff. Qed.

(** The third result names the reason: it is empty for an authorised
    intent and otherwise the last rule matched, and which rule rejects is the
    first of pid boundary, system threshold/blacklist, whitelist and velocity
    cap that applies. *)
Theorem Evaluate_reason re intent hist :
  let '(ok, rules, reason) := Evaluate re intent hist in
  (ok = true → reason = RuleNone ∧ rules = [RulePIDBoundary; RuleSystemBlacklist]) ∧
  (ok = false → (∃ before, rules = before ++ [reason]) ∧ reason ≠ RuleNone) ∧
  (reason = RulePIDBoundary ↔ TargetPID intent <= 0) ∧
  (reason = RuleSystemBlacklist ↔ 0 < TargetPID intent ∧
     (TargetPID intent < pidThreshold re ∨
      (ProcessName intent ≠ ""%string ∧ ProcessName intent ∈ blacklistNames re))) ∧
  (reason = RuleUserWhitelist →
     IsWhitelisted re (ProcessName intent) (ContainerID intent) = true) ∧
  (reason = RuleVelocityCap ↔
     maxActionsPerPID re <= hist ∧ permitted re intent (maxActionsPerPID re - 1)).
Proof.
  evaluate_cases; repeat split; intros; simplify_eq; try done;
    try first [by exists [] | by exists [RulePIDBoundary] | naive_solver lia].
  all: try (destruct_and!; match goal with H : permitted _ _ _ |- _ => destruct H end;
            naive_solver lia).
  all: unfold IsWhitelisted; repeat cases; rewrite ?named_in_spec, ?named_in_false in *;
       naive_solver.
Qed.

(** A refusal always names a rule. *)
Lemma Evaluate_cases_ok re intent hist :
  (Evaluate re intent hist).1.1 = false → (Evaluate re intent hist).2 ≠ RuleNone.
Proof. evaluate_cases; done. Qed.

(** A target the evaluator reports as whitelisted is never authorised. *)
Lemma Evaluate_whitelisted re intent hist :
  IsWhitelisted re (ProcessName intent) (ContainerID intent) = true →
  (Evaluate re intent hist).1.1 = false.
Proof.
  unfold IsWhitelisted. intros H. apply not_true_iff_false.
  rewrite evaluate_iff. intros [].
  repeat cases_in H; rewrite named_in_spec in *; naive_solver.
Qed.

(** An intent to stop a process, used to evaluate the models. *)
Definition sample_intent (pid : Z) (name : string) : MitigationIntent := {|
  TargetPID := pid; ContainerID := ""; ProcessName := name; IntentAction := ActionSIGSTOP;
  AnomalyType := "IDLE_GPU_HOG"; SourceModule := "mitigator"; Metadata := ∅ |}.
