(* ===== verification/PolicyLedger.v ===== *)
(** The transaction ledger of the policy component ([policy/ledger.go]):
    records by transaction id, an index of ids by PID, expiry, and the
    periodic sweep that drops expired records and evicts the oldest ones.

    [time.Now()] and the random bytes of [generateTxID] are arguments of the
    operations that read them; each operation runs under the ledger's mutex,
    so it is one atomic step. *)

From S2P Require Import Prelude GoFloat PolicyEvaluator.

Record MitigationRecord := {
  TransactionID : string;
  Timestamp : Z;
  Expiry : Z;
  RecPID : Z;
  RecContainerID : string;
  RecProcessName : string;
  RecAction : ActionType;
  Status : MitigationStatus;
  EvaluatedRules : Z;
  MatchingPolicies : list RuleName;
  RecRiskScore : float64;
  RecHistoricalCount : Z;
  RecCooldownSeconds : Z;
  RejectionReason : string;
  RecMetadata : gmap string gany
}.

Definition set_status (st : MitigationStatus) (r : MitigationRecord) : MitigationRecord := {|
  TransactionID := TransactionID r; Timestamp := Timestamp r; Expiry := Expiry r;
  RecPID := RecPID r; RecContainerID := RecContainerID r;
  RecProcessName := RecProcessName r; RecAction := RecAction r; Status := st;
  EvaluatedRules := EvaluatedRules r; MatchingPolicies := MatchingPolicies r;
  RecRiskScore := RecRiskScore r; RecHistoricalCount := RecHistoricalCount r;
  RecCooldownSeconds := RecCooldownSeconds r; RejectionReason := RejectionReason r;
  RecMetadata := RecMetadata r
|}.

Record TransactionLedger := {
  records : gmap string MitigationRecord;
  pidIndex : gmap Z (list string);
  maxEntries : Z;
  sweepInterval : Z;
  cooldownSecs : Z
}.

Definition generateTxID (rnd : string) : string := prefixed_id "tx_" rnd.

Definition NewTransactionLedger (cfg : Config) : TransactionLedger := {|
  records := ∅;
  pidIndex := ∅;
  maxEntries := if LedgerMaxEntries cfg <=? 0 then 10000 else LedgerMaxEntries cfg;
  sweepInterval := if SweepInterval cfg <=? 0 then 5 * Minute else SweepInterval cfg;
  cooldownSecs := if CooldownSeconds cfg <? 0 then 60 else CooldownSeconds cfg
|}.

(** [tl.pidIndex[pid]]: a missing key reads as the nil slice. *)
Definition index_of (tl : TransactionLedger) (pid : Z) : list string :=
  default [] (pidIndex tl !! pid).

Definition new_record (tl : TransactionLedger) (now : Z) (txID : string)
    (intent : MitigationIntent) (status : MitigationStatus)
    (evaluatedRules : list RuleName) (riskScore : float64) (cooldown : Z)
    (rejectionReason : string) : MitigationRecord := {|
  TransactionID := txID;
  Timestamp := now;
  Expiry := i64 (now + i64 (cooldown * 1000000000));
  RecPID := TargetPID intent;
  RecContainerID := ContainerID intent;
  RecProcessName := ProcessName intent;
  RecAction := IntentAction intent;
  Status := status;
  EvaluatedRules := llen evaluatedRules;
  MatchingPolicies := evaluatedRules;
  RecRiskScore := riskScore;
  RecHistoricalCount := llen (index_of tl (TargetPID intent));
  RecCooldownSeconds := cooldown;
  RejectionReason := rejectionReason;
  RecMetadata := Metadata intent
|}.

Definition Register (tl : TransactionLedger) (now : Z) (rnd : string)
    (intent : MitigationIntent) (status : MitigationStatus)
    (evaluatedRules : list RuleName) (riskScore : float64) (cooldown : Z)
    (rejectionReason : string) : TransactionLedger * MitigationRecord :=
  let txID := generateTxID rnd in
  let record := new_record tl now txID intent status evaluatedRules riskScore
                  cooldown rejectionReason in
  ({| records := <[txID := record]> (records tl);
      pidIndex := <[TargetPID intent := index_of tl (TargetPID intent) ++ [txID]]>
                    (pidIndex tl);
      maxEntries := maxEntries tl;
      sweepInterval := sweepInterval tl;
      cooldownSecs := cooldownSecs tl |}, record).

(** The record is shared by pointer: the map entry is updated in place. *)
Definition UpdateStatus (tl : TransactionLedger) (txID : string)
    (status : MitigationStatus) : TransactionLedger * bool :=
  match records tl !! txID with
  | None => (tl, false)
  | Some record =>
      ({| records := <[txID := set_status status record]> (records tl);
          pidIndex := pidIndex tl;
          maxEntries := maxEntries tl;
          sweepInterval := sweepInterval tl;
          cooldownSecs := cooldownSecs tl |}, true)
  end.

Definition Lookup (tl : TransactionLedger) (txID : string) : option MitigationRecord :=
  records tl !! txID.

Definition HistoricalCount (tl : TransactionLedger) (now pid : Z) : Z :=
  let txIDs := index_of tl pid in
  if llen txIDs =? 0 then 0
  else
    foldl (λ count id,
      match records tl !! id with
      | Some rec => if now <=? Expiry rec then count + 1 else count
      | None => count
      end) 0 txIDs.

Definition Count (tl : TransactionLedger) : Z := Z.of_nat (size (records tl)).

Definition status_is (st : MitigationStatus) (r : MitigationRecord) : bool :=
  bool_decide (Status r = st).

Section iteration.
Context `{MapRange}.

Definition ListExecutedExpired (tl : TransactionLedger) (n : nat) (now : Z) :
    list MitigationRecord :=
  omap (λ '(_, rec),
    if status_is StatusExecuted rec && (Expiry rec <? now) then Some rec else None)
    (range n (records tl)).

Definition ListActive (tl : TransactionLedger) (n : nat) (now : Z) :
    list MitigationRecord :=
  omap (λ '(_, rec),
    if (status_is StatusAuthorizedPending rec || status_is StatusExecuted rec)
       && (now <=? Expiry rec) then Some rec else None)
    (range n (records tl)).

(** First loop of [sweep]: delete what has expired. *)
Definition drop_expired (n : nat) (now : Z) (m : gmap string MitigationRecord) :
    gmap string MitigationRecord :=
  delete_if (λ _ rec, Expiry rec <? now) (range n m) m.

(** Inner loop of the eviction: the last visited among the oldest. *)
Definition pick_oldest (now : Z) (l : list (string * MitigationRecord)) : string * Z :=
  foldl (λ '(oldest, oldestTs) '(txID, rec),
    if Timestamp rec <=? oldestTs then (txID, Timestamp rec) else (oldest, oldestTs))
    (""%string, now) l.

Fixpoint evict (fuel n : nat) (now maxEnt : Z) (m : gmap string MitigationRecord) :
    gmap string MitigationRecord :=
  match fuel with
  | O => m
  | S fuel =>
      if maxEnt <? Z.of_nat (size m) then
        let oldest := (pick_oldest now (range n m)).1 in
        if streq oldest "" then m
        else evict fuel (S n) now maxEnt (delete oldest m)
      else m
  end.

Definition rebuildPIDIndex (n : nat) (m : gmap string MitigationRecord) :
    gmap Z (list string) :=
  foldl (λ newIndex '(txID, rec),
    <[RecPID rec := default [] (newIndex !! RecPID rec) ++ [txID]]> newIndex)
    ∅ (range n m).

(** Each iteration deletes an entry: the size of the map is fuel enough
    (see [evict_fuel]).  The loops use different iteration orders. *)
Definition sweep (tl : TransactionLedger) (n : nat) (now : Z) : TransactionLedger :=
  let live := drop_expired n now (records tl) in
  let kept := evict (size live) (S n) now (maxEntries tl) live in
  {| records := kept;
     pidIndex := rebuildPIDIndex (n + 2 + size live)%nat kept;
     maxEntries := maxEntries tl;
     sweepInterval := sweepInterval tl;
     cooldownSecs := cooldownSecs tl |}.
End iteration.

(** * Invariant *)

(** The index and the records agree: every record is stored under its own
    (non-empty) id and indexed once under its PID, and every indexed id has a
    record of that PID. *)
Record ledger_ok (tl : TransactionLedger) : Prop := {
  lk_key : ∀ id rec, records tl !! id = Some rec →
    TransactionID rec = id ∧ id ≠ ""%string ∧ id ∈ index_of tl (RecPID rec);
  lk_idx : ∀ pid id, id ∈ index_of tl pid →
    ∃ rec, records tl !! id = Some rec ∧ RecPID rec = pid;
  lk_nodup : ∀ pid, NoDup (index_of tl pid);
  lk_max : 0 < maxEntries tl;
  lk_cooldown : 0 <= cooldownSecs tl
}.

Lemma NewTransactionLedger_ok cfg : ledger_ok (NewTransactionLedger cfg).
Proof.
  split; unfold index_of; simpl; intros *; rewrite ?lookup_empty; simpl.
  - done.
  - by intros ?%elem_of_nil.
  - constructor.
  - cases; lia.
  - cases; lia.
Qed.

Lemma generateTxID_nonempty rnd : generateTxID rnd ≠ ""%string.
Proof. done. Qed.

Lemma index_of_insert pid pid' ids m' r' x y z :
  index_of {| records := r'; pidIndex := <[pid := ids]> m'; maxEntries := x;
              sweepInterval := y; cooldownSecs := z |} pid' =
  if decide (pid = pid') then ids else default [] (m' !! pid').
Proof. unfold index_of. simpl. rewrite lookup_insert. by case_decide. Qed.

(** Registering under an id not in use keeps the index exact. *)
Lemma Register_ok tl now rnd intent st rules risk cd reason :
  ledger_ok tl → records tl !! generateTxID rnd = None →
  ledger_ok (Register tl now rnd intent st rules risk cd reason).1.
Proof.
  intros [Hkey Hidx Hnd Hmax Hcd] Hfresh.
  assert (Hnot : ∀ pid, generateTxID rnd ∉ index_of tl pid).
  { intros pid Hin. destruct (Hidx _ _ Hin) as (rec & Hrec & _). congruence. }
  split; simpl; try done.
  - intros id rec. rewrite lookup_insert_Some. intros [[<- <-]|[Hne Hrec]]; simpl.
    + split; [done|]. split; [done|]. rewrite index_of_insert.
      rewrite decide_True by done. set_solver.
    + destruct (Hkey _ _ Hrec) as (? & ? & Hin). split; [done|]. split; [done|].
      rewrite index_of_insert. case_decide as Hp; [|done].
      rewrite Hp. set_solver.
  - intros pid id. rewrite index_of_insert. case_decide as Hp.
    + subst pid. rewrite elem_of_app, list_elem_of_singleton. intros [Hin| ->].
      * destruct (Hidx _ _ Hin) as (rec & Hrec & Hpid). exists rec.
        rewrite lookup_insert_ne; [done|]. intros <-. by apply (Hnot (TargetPID intent)).
      * eexists. rewrite lookup_insert_eq. by split.
    + intros Hin. destruct (Hidx _ _ Hin) as (rec & Hrec & Hpid). exists rec.
      rewrite lookup_insert_ne; [done|]. intros <-. by apply (Hnot pid).
  - intros pid. rewrite index_of_insert. case_decide; [|apply Hnd].
    apply NoDup_app. split; [apply Hnd|]. split; [|apply NoDup_singleton].
    intros x Hx ->%list_elem_of_singleton. by apply (Hnot (TargetPID intent)).
Qed.

Lemma UpdateStatus_ok tl id st : ledger_ok tl → ledger_ok (UpdateStatus tl id st).1.
Proof.
  intros [Hkey Hidx Hnd Hmax Hcd]. unfold UpdateStatus.
  destruct (records tl !! id) as [r|] eqn:E; [|done].
  split; simpl; try done.
  - intros id' rec. rewrite lookup_insert_Some. intros [[<- <-]|[_ H]]; [|by apply Hkey].
    apply (Hkey _ _ E).
  - intros pid id' Hin. destruct (Hidx _ _ Hin) as (rec & Hrec & Hpid).
    destruct (decide (id = id')) as [<-|Hne].
    + exists (set_status st r). rewrite lookup_insert_eq. simplify_eq. done.
    + exists rec. by rewrite lookup_insert_ne.
Qed.

#[export] Hint Resolve NewTransactionLedger_ok Register_ok UpdateStatus_ok : kc_inv.

(** * Counting *)

(** The reference: how many stored records of [pid] have not expired. *)
Definition live_count (tl : TransactionLedger) (now pid : Z) : Z :=
  Z.of_nat (size (filter (λ kr : string * MitigationRecord,
    RecPID kr.2 = pid ∧ now <= Expiry kr.2) (records tl))).

(** The test of the counting loop on one id. *)
Definition live_id (tl : TransactionLedger) (now : Z) (id : string) : bool :=
  match records tl !! id with Some rec => now <=? Expiry rec | None => false end.

Lemma count_loop tl now ids c :
  foldl (λ count id,
      match records tl !! id with
      | Some rec => if now <=? Expiry rec then count + 1 else count
      | None => count
      end) c ids = c + llen (filter (λ id, live_id tl now id = true) ids).
Proof.
  revert c. induction ids as [|id ids IH]; intros c; [by rewrite Z.add_0_r|].
  cbn [foldl]. rewrite IH, filter_cons.
  assert (Hl : live_id tl now id = match records tl !! id with
    | Some rec => now <=? Expiry rec | None => false end) by done.
  destruct (records tl !! id) as [rec|]; [destruct (now <=? Expiry rec)|];
    rewrite Hl; simpl; autorewrite with kc_simp; lia.
Qed.

Lemma size_filter_keys tl now pid :
  ledger_ok tl →
  dom (filter (λ kr : string * MitigationRecord,
         RecPID kr.2 = pid ∧ now <= Expiry kr.2) (records tl))
  =@{gset string} list_to_set (filter (λ id, live_id tl now id = true) (index_of tl pid)).
Proof.
  intros Hok. apply set_eq. intros id.
  rewrite elem_of_dom, elem_of_list_to_set, list_elem_of_filter. unfold is_Some.
  setoid_rewrite map_lookup_filter_Some. simpl. unfold live_id. split.
  - intros (rec & Hrec & Hpid & Hlive). rewrite Hrec, Z.leb_le. split; [done|].
    destruct (lk_key _ Hok _ _ Hrec) as (_ & _ & Hin). by rewrite Hpid in Hin.
  - intros [Hlive Hin]. destruct (lk_idx _ Hok _ _ Hin) as (rec & Hrec & Hpid).
    rewrite Hrec, Z.leb_le in Hlive. by exists rec.
Qed.

(** The indexed count is the count over all records.  On a ledger whose
    index is exact, [HistoricalCount] returns the number of stored, unexpired
    records of the PID. *)
Lemma HistoricalCount_spec tl now pid :
  ledger_ok tl → HistoricalCount tl now pid = live_count tl now pid.
Proof.
  intros Hok. unfold live_count. rewrite <- (size_dom (D:=gset string)), size_filter_keys by done.
  rewrite size_list_to_set by (apply NoDup_filter, lk_nodup, Hok).
  unfold HistoricalCount. rewrite count_loop. unfold llen.
  case_match; bool_prop; [|lia].
  destruct (index_of tl pid); [done|simpl in *; lia].
Qed.

(** * The sweep *)

Section sweep.
Context `{MapRange}.
Implicit Types m : gmap string MitigationRecord.

Lemma drop_expired_lookup n now m id rec :
  drop_expired n now m !! id = Some rec ↔ m !! id = Some rec ∧ now <= Expiry rec.
Proof.
  unfold drop_expired. rewrite delete_if_range.
  destruct (m !! id) as [r|]; simpl; [|naive_solver].
  destruct (Expiry r <? now) eqn:E; bool_prop; naive_solver lia.
Qed.

(** The candidate found so far is an entry of the list, not younger than
    any visited entry, once some entry has been accepted. *)
Lemma pick_oldest_spec now l :
  (∀ k r, (k, r) ∈ l → Timestamp r <= now) → l ≠ [] →
  ∃ r, ((pick_oldest now l).1, r) ∈ l ∧
    ∀ k' r', (k', r') ∈ l → Timestamp r <= Timestamp r'.
Proof.
  unfold pick_oldest.
  set (step := λ '(oldest, oldestTs) '(txID, rec),
    if Timestamp rec <=? oldestTs then (txID, Timestamp rec) else (oldest, oldestTs)).
  intros Hnow Hne.
  cut (let p := foldl step (""%string, now) l in
    p.2 <= now ∧ (∀ k' r', (k', r') ∈ l → p.2 <= Timestamp r') ∧
    (l = [] ∨ ∃ r, (p.1, r) ∈ l ∧ Timestamp r = p.2)).
  { simpl. intros (_ & Hmin & [?|(r & Hin & Hts)]); [done|].
    exists r. split; [done|]. intros. rewrite Hts. eauto. }
  clear Hne. induction l as [|[k r] l IH] using rev_ind.
  { simpl. split; [lia|]. split; [by intros ?? ?%elem_of_nil|by left]. }
  rewrite foldl_app. simpl. destruct IH as (Hle & Hmin & Hex).
  { intros k' r' Hin. apply (Hnow k'). set_solver. }
  destruct (foldl step (""%string, now) l) as [k0 t0] eqn:Ef. simpl in *.
  assert (Timestamp r <= now) by (apply (Hnow k); set_solver).
  destruct (Timestamp r <=? t0) eqn:E; bool_prop; simpl.
  - split; [lia|]. split; [|right; exists r; set_solver].
    intros k' r' [Hin|[= -> ->]%list_elem_of_singleton]%elem_of_app; [|lia].
    specialize (Hmin _ _ Hin). lia.
  - split; [done|]. split.
    + intros k' r' [Hin|[= -> ->]%list_elem_of_singleton]%elem_of_app; [eauto|lia].
    + right. destruct Hex as [->|(r1 & ? & ?)]; [|exists r1; set_solver].
      simpl in Ef. simplify_eq. lia.
Qed.

(** Entries that can be evicted: stored under a non-empty id, not in the
    future. *)
Definition evictable (now : Z) m : Prop :=
  ∀ id rec, m !! id = Some rec → id ≠ ""%string ∧ Timestamp rec <= now.

Lemma evictable_delete now m id : evictable now m → evictable now (delete id m).
Proof. intros He id' rec [_ ?]%lookup_delete_Some. by apply (He id'). Qed.

Lemma pick_oldest_range n now m :
  evictable now m → m ≠ ∅ →
  let k := (pick_oldest now (range n m)).1 in
  k ≠ ""%string ∧ ∃ r, m !! k = Some r ∧
    ∀ k' r', m !! k' = Some r' → Timestamp r <= Timestamp r'.
Proof.
  intros He Hne. destruct (pick_oldest_spec now (range n m)) as (r & Hin & Hmin).
  - intros k r ?%elem_of_range. by apply (He k).
  - intros Hnil. apply Hne, map_size_empty_inv. by rewrite <- (length_range n), Hnil.
  - apply elem_of_range in Hin. split; [by eapply He|]. exists r. split; [done|].
    intros k' r' Hk'. apply (Hmin k'). by apply elem_of_range.
Qed.

(** What the eviction loop leaves: part of the map, at most [maxEnt] entries,
    and nothing that is kept is older than something that was evicted. *)
Lemma evict_spec fuel n now maxEnt m :
  evictable now m → 0 <= maxEnt → (size m <= fuel)%nat →
  let m' := evict fuel n now maxEnt m in
  m' ⊆ m ∧ Z.of_nat (size m') <= maxEnt ∧
  (Z.of_nat (size m) <= maxEnt → m' = m) ∧
  (∀ k r k' r', m !! k = Some r → m' !! k = None → m' !! k' = Some r' →
    Timestamp r <= Timestamp r').
Proof.
  revert n m. induction fuel as [|fuel IH]; intros n m He Hmax Hf; simpl.
  { split_and!; [done|lia|done|intros; congruence]. }
  destruct (maxEnt <? Z.of_nat (size m)) eqn:E; bool_prop;
    [|split_and!; [done|lia|done|intros; congruence]].
  assert (m ≠ ∅) as Hne by (intros ->; rewrite map_size_empty in E; lia).
  destruct (pick_oldest_range n now m He Hne) as (Hnk & r & Hr & Hmin).
  set (k0 := (pick_oldest now (range n m)).1) in *.
  unfold streq. rewrite bool_decide_eq_false_2 by done.
  assert (Hsz : (size m = S (size (delete k0 m)))%nat).
  { rewrite map_size_delete, Hr. assert (size m ≠ 0%nat); [|lia].
    by rewrite map_size_non_empty_iff. }
  destruct (IH (S n) (delete k0 m)) as (Hsub & Hle & Hid & Hold);
    [by apply evictable_delete|done|lia|].
  split_and!; [|done|intros; lia|].
  - etrans; [exact Hsub|apply delete_subseteq].
  - intros k rk k' r' Hk Hnone Hk'.
    destruct (decide (k = k0)) as [->|Hneq].
    + simplify_eq. apply (Hmin k'). eapply lookup_weaken; [|apply delete_subseteq].
      by eapply lookup_weaken.
    + eapply Hold; [|done..]. by rewrite lookup_delete_ne.
Qed.

Lemma pick_oldest_key now l :
  (pick_oldest now l).1 = ""%string ∨ ∃ r, ((pick_oldest now l).1, r) ∈ l.
Proof.
  unfold pick_oldest. induction l as [|[k r] l IH] using rev_ind; [by left|].
  rewrite foldl_app. simpl.
  match goal with |- context [foldl ?f ?a l] => destruct (foldl f a l) as [k0 t0] end.
  simpl in *. destruct (Timestamp r <=? t0); simpl.
  - right. exists r. set_solver.
  - destruct IH as [?|(r0 & ?)]; [by left|]. right. exists r0. set_solver.
Qed.

(** The fuel of [sweep] is enough: any more gives the same map. *)
Lemma evict_fuel n now maxEnt m k :
  0 <= maxEnt → evict (size m + k) n now maxEnt m = evict (size m) n now maxEnt m.
Proof.
  intros Hmax. remember (size m) as s eqn:Hs. revert n m Hs.
  induction s as [|s IH]; intros n m Hs; simpl.
  { destruct k; [done|]. simpl. rewrite <- Hs. case_match; bool_prop; [lia|done]. }
  destruct (maxEnt <? Z.of_nat (size m)); [|done].
  unfold streq. case_bool_decide as Hk; [done|].
  destruct (pick_oldest_key now (range n m)) as [?|(r & Hr%elem_of_range)]; [done|].
  apply IH. rewrite map_size_delete, Hr. lia.
Qed.
End sweep.

Section sweep_theorems.
Context `{MapRange}.
Implicit Types m : gmap string MitigationRecord.

(** The rebuilt index lists the ids of each PID, once each. *)
Lemma rebuild_spec n m pid :
  default [] (rebuildPIDIndex n m !! pid) =
  (filter (λ kr : string * MitigationRecord, RecPID kr.2 = pid) (range n m)).*1.
Proof.
  unfold rebuildPIDIndex. generalize (range n m). intros l.
  induction l as [|[k r] l IH] using rev_ind; [done|].
  rewrite foldl_app, filter_app, fmap_app. simpl. rewrite lookup_insert.
  destruct (decide (RecPID r = pid)) as [<-|Hne].
  - by rewrite IH, filter_cons_True by done.
  - rewrite IH, filter_cons_False by done. by rewrite app_nil_r.
Qed.

Lemma elem_of_rebuild n m pid id :
  id ∈ default [] (rebuildPIDIndex n m !! pid) ↔
  ∃ rec, m !! id = Some rec ∧ RecPID rec = pid.
Proof.
  rewrite rebuild_spec, list_elem_of_fmap. setoid_rewrite list_elem_of_filter. split.
  - intros ([k r] & -> & <- & Hr%elem_of_range). by exists r.
  - intros (r & Hr & <-). exists (id, r). by rewrite elem_of_range.
Qed.

Lemma NoDup_rebuild n m pid : NoDup (default [] (rebuildPIDIndex n m !! pid)).
Proof.
  rewrite rebuild_spec.
  assert (∀ l : list (string * MitigationRecord), NoDup l.*1 →
    NoDup (filter (λ kr, RecPID kr.2 = pid) l).*1) as Hf; [|apply Hf, NoDup_fst_range].
  intros l Hl. eapply sublist_NoDup; [exact Hl|]. apply fmap_sublist, sublist_filter.
Qed.

Definition sweepable (tl : TransactionLedger) (now : Z) : Prop :=
  ∀ id rec, records tl !! id = Some rec → Timestamp rec <= now.

Lemma sweep_evictable tl n now :
  ledger_ok tl → sweepable tl now → evictable now (drop_expired n now (records tl)).
Proof.
  intros Hok Hs id rec [Hrec _]%drop_expired_lookup. split; [|by eapply Hs].
  by destruct (lk_key _ Hok _ _ Hrec) as (_ & ? & _).
Qed.

(** The sweep as a whole, on the records. *)
Lemma sweep_records tl n now :
  ledger_ok tl → sweepable tl now →
  let live := drop_expired n now (records tl) in
  let kept := records (sweep tl n now) in
  kept ⊆ live ∧ Z.of_nat (size kept) <= maxEntries tl ∧
  (Z.of_nat (size live) <= maxEntries tl → kept = live) ∧
  (∀ k r k' r', live !! k = Some r → kept !! k = None → kept !! k' = Some r' →
    Timestamp r <= Timestamp r').
Proof.
  intros Hok Hs. apply evict_spec; [by apply sweep_evictable| |done].
  pose proof (lk_max _ Hok). lia.
Qed.

Lemma sweep_index_of tl n now pid :
  index_of (sweep tl n now) pid =
  default [] (rebuildPIDIndex (n + 2 + size (drop_expired n now (records tl)))%nat
    (records (sweep tl n now)) !! pid).
Proof. done. Qed.

Lemma sweep_subseteq tl n now id rec :
  records (sweep tl n now) !! id = Some rec →
  records tl !! id = Some rec ∧ now <= Expiry rec.
Proof.
  intros Hrec. apply drop_expired_lookup with n. revert Hrec. simpl.
  generalize (drop_expired n now (records tl)). intros m.
  assert (Hsub : ∀ f k m', evict f k now (maxEntries tl) m' ⊆ m').
  { intros f. induction f as [|f IH]; intros k m'; simpl; [done|].
    repeat case_match; try done. etrans; [apply IH|apply delete_subseteq]. }
  intros Hrec. eapply lookup_weaken; [exact Hrec|apply Hsub].
Qed.

Lemma sweep_keeps tl n now :
  ledger_ok tl → sweepable tl now →
  let tl' := sweep tl n now in
  ledger_ok tl' ∧
  (∀ id rec, records tl' !! id = Some rec → records tl !! id = Some rec ∧ now <= Expiry rec) ∧
  Count tl' <= maxEntries tl ∧
  (Count tl <= maxEntries tl →
    ∀ id rec, records tl !! id = Some rec → now <= Expiry rec → records tl' !! id = Some rec) ∧
  (∀ id rec id' rec', records tl !! id = Some rec → now <= Expiry rec →
    records tl' !! id = None → records tl' !! id' = Some rec' →
    Timestamp rec <= Timestamp rec').
Proof.
  intros Hok Hs tl'. pose proof (sweep_records tl n now Hok Hs) as (Hsub & Hsz & Hall & Hold).
  assert (Hin : ∀ id rec, records tl' !! id = Some rec →
    records tl !! id = Some rec ∧ now <= Expiry rec) by apply sweep_subseteq.
  split_and!; [|done|done| |].
  - split; [| |intros pid; apply NoDup_rebuild|apply Hok|apply Hok].
    + intros id rec Hrec. destruct (Hin _ _ Hrec) as [Hrec0 _].
      destruct (lk_key _ Hok _ _ Hrec0) as (? & ? & _). split_and!; [done..|].
      unfold tl'. rewrite sweep_index_of, elem_of_rebuild. by exists rec.
    + intros pid id. unfold tl'. by rewrite sweep_index_of, elem_of_rebuild.
  - intros Hc id rec Hrec Hexp. unfold tl'. rewrite Hall.
    + by apply drop_expired_lookup.
    + transitivity (Count tl); [|done]. apply Nat2Z.inj_le, map_subseteq_size.
      apply map_subseteq_spec. by intros ?? [? _]%drop_expired_lookup.
  - intros id rec id' rec' Hrec Hexp Hnone Hrec'.
    eapply Hold; [by apply drop_expired_lookup|done..].
Qed.


(** The sweep drops a record that was executed and has expired,
    whatever is still to be undone for it: right after a sweep, the rollback
    controller finds no expired executed record. *)
Theorem sweep_forgets_executed tl n k now :
  ListExecutedExpired (sweep tl n now) k now = [].
Proof.
  apply elem_of_nil_inv. intros rec Hin.
  unfold ListExecutedExpired in Hin. rewrite elem_of_omap_range in Hin.
  destruct Hin as (id & Hrec & Hc). apply sweep_subseteq in Hrec as [_ ?].
  bool_prop. lia.
Qed.
End sweep_theorems.

(** The record just stored under an id, after a status change. *)
Lemma update_inserted tl tl' id rec st :
  records tl' = <[id := rec]> (records tl) →
  records (UpdateStatus tl' id st).1 = <[id := set_status st rec]> (records tl).
Proof.
  intros Hr. unfold UpdateStatus. rewrite Hr, lookup_insert_eq. simpl.
  by rewrite insert_insert_eq.
Qed.

(** * Concrete instances *)

(** A ledger with one executed transaction, registered at time 5. *)
Definition sample_ledger : TransactionLedger :=
  (Register (NewTransactionLedger DefaultConfig) 5 "a" (sample_intent 4321 "python")
     StatusExecuted [] f_zero 60 "").1.

Lemma sample_ledger_ok : ledger_ok sample_ledger.
Proof.
  apply (Register_ok (NewTransactionLedger DefaultConfig)); [apply NewTransactionLedger_ok|done].
Qed.

Lemma sample_ledger_sweepable t : 5 <= t → sweepable sample_ledger t.
Proof.
  intros Ht id rec. unfold sample_ledger. simpl. rewrite lookup_insert_Some.
  intros [[_ <-]|[_ Hr]]; [simpl; lia|]. by apply lookup_empty_Some in Hr.
Qed.

