(* ===== verification/PolicyEngine.v ===== *)
(** The policy engine ([policy/engine.go]): evaluate an intent, register the
    decision in the ledger, publish it on the event channel; then the life
    cycle of an authorised transaction.

    The clock readings and the random bytes of an operation are its arguments.
    The console copy of an event is pure output and is not modelled. *)

From S2P Require Import Prelude GoFloat PolicyEvaluator PolicyLedger.

Record PolicyEvaluation := {
  IsAuthorized : bool;
  EvaluatedRulesCount : Z;
  MatchingPoliciesApplied : list string;
  EvalRejectionReason : string
}.

Record MitigationTargetMetadata := {
  MetaTargetPID : Z;
  ContainerName : string;
  RiskScoreAssigned : float64
}.

Record LedgerStateSnapshot := {
  CurrentActionStatus : MitigationStatus;
  HistoricalInterventionsOnTargetCount : Z;
  EnforcedCooldownDurationSeconds : Z
}.

Record PolicyEvent := {
  LedgerTransactionID : string;
  EvtTimestamp : Z;
  EvtEvaluation : PolicyEvaluation;
  EvtTarget : MitigationTargetMetadata;
  EvtLedgerState : LedgerStateSnapshot
}.

Record Engine := {
  evaluator : RuleEvaluator;
  ledger : TransactionLedger;
  events : chan PolicyEvent;
  ecfg : Config
}.

(** A zero buffer size is replaced; [make(chan, n)] panics on a negative one,
    which the configuration of the program never has. *)
Definition NewEngine (cfg : Config) : Engine := {|
  evaluator := NewRuleEvaluator cfg;
  ledger := NewTransactionLedger cfg;
  events := make_chan (if BufferSize cfg =? 0 then 64 else BufferSize cfg);
  ecfg := cfg
|}.

Definition with_ledger (e : Engine) (tl : TransactionLedger) : Engine := {|
  evaluator := evaluator e; ledger := tl; events := events e; ecfg := ecfg e
|}.

(** A receive from the channel [Events] returns. *)
Definition Events (e : Engine) : option PolicyEvent * Engine :=
  ((try_recv (events e)).1,
   {| evaluator := evaluator e; ledger := ledger e; events := (try_recv (events e)).2;
      ecfg := ecfg e |}).

Definition emitEvent (e : Engine) (evt : PolicyEvent) : Engine := {|
  evaluator := evaluator e; ledger := ledger e;
  events := (try_send evt (events e)).1; ecfg := ecfg e
|}.

(** [t1], [t2] are the nanosecond readings of [HistoricalCount] and
    [Register]; [t3] is the event's [time.Now().Unix()]. *)
Definition EvaluateAndRegister (e : Engine) (t1 t2 t3 : Z) (rnd : string)
    (intent : MitigationIntent) : Engine * bool * string * PolicyEvent :=
  let historicalCount := HistoricalCount (ledger e) t1 (TargetPID intent) in
  let '(authorized, matchedRules, rejectionRule) :=
    Evaluate (evaluator e) intent historicalCount in
  let riskScore := RiskScore (evaluator e) (ProcessName intent) historicalCount in
  let matchedStr := rule_string <$> matchedRules in
  let cooldown := cooldownSecs (ledger e) in
  let status := if authorized then StatusAuthorizedPending else StatusRejected in
  let reason := if authorized then ""%string else rule_string rejectionRule in
  let '(tl, record) :=
    Register (ledger e) t2 rnd intent status matchedRules riskScore cooldown reason in
  let event := {|
    LedgerTransactionID := TransactionID record;
    EvtTimestamp := t3;
    EvtEvaluation := {|
      IsAuthorized := authorized;
      EvaluatedRulesCount := EvaluatedRules record;
      MatchingPoliciesApplied := matchedStr;
      EvalRejectionReason := reason |};
    EvtTarget := {|
      MetaTargetPID := TargetPID intent;
      ContainerName := ContainerID intent;
      RiskScoreAssigned := riskScore |};
    EvtLedgerState := {|
      CurrentActionStatus := status;
      HistoricalInterventionsOnTargetCount := RecHistoricalCount record;
      EnforcedCooldownDurationSeconds := cooldown |} |} in
  (emitEvent (with_ledger e tl) event, authorized, TransactionID record, event).

Definition ConfirmExecution (e : Engine) (txID : string) : Engine :=
  with_ledger e (UpdateStatus (ledger e) txID StatusExecuted).1.

Definition Complete (e : Engine) (txID : string) : Engine :=
  with_ledger e (UpdateStatus (ledger e) txID StatusCompleted).1.

(** The reason given to [Reject] is not recorded. *)
Definition Reject (e : Engine) (txID reason : string) : Engine :=
  with_ledger e (UpdateStatus (ledger e) txID StatusRejected).1.

Definition ActiveCount `{MapRange} (e : Engine) (n : nat) (now : Z) : Z :=
  llen (ListActive (ledger e) n now).

Definition HistoricalForPID (e : Engine) (now pid : Z) : Z :=
  HistoricalCount (ledger e) now pid.

Definition TotalTrackedCount (e : Engine) : Z := Count (ledger e).

(** * What an evaluation does *)

Definition engine_ok (e : Engine) : Prop :=
  evaluator_ok (evaluator e) ∧ ledger_ok (ledger e) ∧ chan_ok (events e).

Lemma NewEngine_ok cfg : 0 <= BufferSize cfg → engine_ok (NewEngine cfg).
Proof.
  intros. split_and!; simpl; [kc|kc|].
  unfold chan_ok, make_chan. simpl. cases; unfold llen; simpl; lia.
Qed.

Lemma EvaluateAndRegister_ok e t1 t2 t3 rnd intent :
  engine_ok e → records (ledger e) !! generateTxID rnd = None →
  engine_ok (EvaluateAndRegister e t1 t2 t3 rnd intent).1.1.1.
Proof.
  intros (He & Hl & Hc) Hf. unfold EvaluateAndRegister.
  destruct (Evaluate _ _ _) as [[ok rules] reason]. simpl. split_and!; simpl; [done| |kc].
  apply (Register_ok (ledger e) t2 rnd intent _ _ _ _ _ Hl Hf).
Qed.

Lemma update_engine_ok e id st :
  engine_ok e → engine_ok (with_ledger e (UpdateStatus (ledger e) id st).1).
Proof. intros (? & ? & ?). split_and!; simpl; kc. Qed.

#[export] Hint Resolve NewEngine_ok EvaluateAndRegister_ok update_engine_ok : kc_inv.

(** The record an evaluation adds. *)
Lemma EvaluateAndRegister_record e t1 t2 t3 rnd intent :
  let hist := live_count (ledger e) t1 (TargetPID intent) in
  engine_ok e →
  let '(e', ok, txID, event) := EvaluateAndRegister e t1 t2 t3 rnd intent in
  txID = generateTxID rnd ∧ ok = (Evaluate (evaluator e) intent hist).1.1 ∧
  (∃ rec, records (ledger e') = <[txID := rec]> (records (ledger e)) ∧
     RecPID rec = TargetPID intent ∧ Timestamp rec = t2 ∧
     Expiry rec = i64 (t2 + i64 (cooldownSecs (ledger e) * 1000000000)) ∧
     Status rec = (if ok then StatusAuthorizedPending else StatusRejected) ∧
     (RejectionReason rec = ""%string ↔ ok = true) ∧
     RecAction rec = IntentAction intent ∧ RecContainerID rec = ContainerID intent) ∧
  evaluator e' = evaluator e ∧ cooldownSecs (ledger e') = cooldownSecs (ledger e).
Proof.
  intros hist (He & Hl & Hc). unfold EvaluateAndRegister.
  rewrite HistoricalCount_spec by done. fold hist.
  pose proof (Evaluate_cases_ok (evaluator e) intent hist) as Hr.
  destruct (Evaluate (evaluator e) intent hist) as [[ok rules] reason]. simpl in *.
  split_and!; try done. eexists. split; [done|]. simpl. split_and!; try done.
  destruct ok; [done|]. specialize (Hr eq_refl). destruct reason; done.
Qed.

(** * The velocity cap over time *)

(** Records registered as authorised carry no rejection reason, whatever
    their status becomes; the cap is about those that have not expired. *)
Definition granted (tl : TransactionLedger) (now pid : Z) : Z :=
  Z.of_nat (size (filter (λ kr : string * MitigationRecord,
    RecPID kr.2 = pid ∧ RejectionReason kr.2 = ""%string ∧ now <= Expiry kr.2)
    (records tl))).

(** The operations the program performs on an engine, with the clock they
    read; the clock does not go back, ids are fresh, and the whitelist may be
    replaced at any time. *)
Inductive engine_step `{MapRange} : Engine * Z → Engine * Z → Prop :=
  | step_evaluate e t t1 t2 t3 rnd intent :
      t <= t1 <= t2 → records (ledger e) !! generateTxID rnd = None →
      engine_step (e, t) ((EvaluateAndRegister e t1 t2 t3 rnd intent).1.1.1, t2)
  | step_confirm e t id : engine_step (e, t) (ConfirmExecution e id, t)
  | step_complete e t id : engine_step (e, t) (Complete e id, t)
  | step_reject e t id why : engine_step (e, t) (Reject e id why, t)
  | step_sweep e t t' n : t <= t' →
      engine_step (e, t) (with_ledger e (sweep (ledger e) n t'), t')
  | step_whitelist e t names ids :
      engine_step (e, t)
        ({| evaluator := UpdateWhitelist (evaluator e) names ids; ledger := ledger e;
            events := events e; ecfg := ecfg e |}, t)
  | step_receive e t : engine_step (e, t)
        ({| evaluator := evaluator e; ledger := ledger e;
            events := (try_recv (events e)).2; ecfg := ecfg e |}, t).

Definition reachable `{MapRange} (cfg : Config) (t0 : Z) : Engine * Z → Prop :=
  rtc engine_step (NewEngine cfg, t0).

(** What every reachable engine satisfies: it is well formed, its records are
    not from the future, and no PID has more unexpired granted records than the cap. *)
Record engine_inv (cfg : Config) (st : Engine * Z) : Prop := {
  ei_ok : engine_ok st.1;
  ei_past : sweepable (ledger st.1) st.2;
  ei_cap : ∀ now pid, st.2 <= now →
    granted (ledger st.1) now pid <= maxActionsPerPID (evaluator st.1);
  ei_max : maxActionsPerPID (evaluator st.1) = maxActionsPerPID (NewRuleEvaluator cfg)
}.

Lemma granted_le_live tl now pid : granted tl now pid <= live_count tl now pid.
Proof.
  unfold granted, live_count. apply Nat2Z.inj_le, map_subseteq_size.
  apply map_filter_subseteq_ext. naive_solver.
Qed.

Lemma granted_mono tl t now pid : t <= now → granted tl now pid <= granted tl t pid.
Proof.
  intros. unfold granted. apply Nat2Z.inj_le, map_subseteq_size.
  apply map_filter_subseteq_ext. intros k r _ (? & ? & ?). simpl in *. split_and!; try done. lia.
Qed.

Lemma granted_insert tl tl' id rec now pid :
  records tl' = <[id := rec]> (records tl) → records tl !! id = None →
  granted tl' now pid <= granted tl now pid +
    (if decide (RecPID rec = pid ∧ RejectionReason rec = ""%string) then 1 else 0).
Proof.
  intros Hr Hnone. unfold granted. rewrite Hr, map_filter_insert. case_decide as Hc; simpl in Hc.
  - rewrite map_size_insert_None.
    + rewrite decide_True by tauto. lia.
    + apply map_lookup_filter_None. by left.
  - rewrite delete_id by done. case_decide; lia.
Qed.

(** Changing statuses does not change what was granted. *)
Lemma granted_status tl id st now pid :
  granted (UpdateStatus tl id st).1 now pid = granted tl now pid.
Proof.
  unfold UpdateStatus. destruct (records tl !! id) as [r|] eqn:E; [|done]. simpl.
  unfold granted. simpl. f_equal. rewrite map_filter_insert. simpl.
  case_decide as Hc.
  - assert (Hs : filter (λ kr : string * MitigationRecord, RecPID kr.2 = pid ∧
        RejectionReason kr.2 = ""%string ∧ now <= Expiry kr.2) (records tl) !! id = Some r)
      by (by apply map_lookup_filter_Some).
    by rewrite map_size_insert, Hs.
  - f_equal. rewrite map_filter_delete. apply delete_id.
    apply map_lookup_filter_None. right. intros ? ? ?. simplify_eq. done.
Qed.

Lemma granted_subseteq tl tl' now pid :
  records tl' ⊆ records tl → granted tl' now pid <= granted tl now pid.
Proof.
  intros Hsub. unfold granted. apply Nat2Z.inj_le, map_subseteq_size.
  by apply map_filter_subseteq_mono.
Qed.

Lemma granted_evaluate e t1 t2 t3 rnd intent now pid :
  engine_ok e → records (ledger e) !! generateTxID rnd = None → t1 <= now →
  (∀ p, granted (ledger e) now p <= maxActionsPerPID (evaluator e)) →
  granted (ledger (EvaluateAndRegister e t1 t2 t3 rnd intent).1.1.1) now pid
    <= maxActionsPerPID (evaluator e).
Proof.
  intros Hok Hf Ht Hcap. pose proof (EvaluateAndRegister_record e t1 t2 t3 rnd intent Hok) as Hrec.
  destruct (EvaluateAndRegister e t1 t2 t3 rnd intent) as [[[e' ok] txID] evt]. simpl.
  destruct Hrec as (-> & Hauth & (rec & Hr & Hpid & _ & _ & _ & Hreason & _) & _).
  etrans; [by apply (granted_insert (ledger e) (ledger e') (generateTxID rnd) rec)|].
  case_decide as Hc; [|specialize (Hcap pid); lia].
  destruct Hc as [Hp Hno]. apply Hreason in Hno. rewrite Hno in Hauth.
  symmetry in Hauth. apply evaluate_iff in Hauth as [_ _ _ _ _ Hlt].
  rewrite <- Hp, Hpid.
  pose proof (granted_mono (ledger e) t1 now (TargetPID intent) Ht).
  pose proof (granted_le_live (ledger e) t1 (TargetPID intent)). lia.
Qed.

Lemma update_sweepable tl id st t : sweepable tl t → sweepable (UpdateStatus tl id st).1 t.
Proof.
  intros Hs id' rec. unfold UpdateStatus. destruct (records tl !! id) as [r|] eqn:E; [|apply Hs].
  simpl. rewrite lookup_insert_Some. intros [[<- <-]|[_ ?]]; [apply (Hs _ _ E)|by eapply Hs].
Qed.

Section reachable.
Context `{MapRange}.

Lemma update_inv cfg e t id st :
  engine_inv cfg (e, t) → engine_inv cfg (with_ledger e (UpdateStatus (ledger e) id st).1, t).
Proof.
  intros [Hok Hpast Hcap Hmax]. simpl in *.
  split; simpl; [kc|by apply update_sweepable| |done].
  intros now pid Hn. rewrite granted_status. by apply Hcap.
Qed.

Lemma engine_step_inv cfg st st' :
  engine_inv cfg st → engine_step st st' → engine_inv cfg st'.
Proof.
  intros Hi Hstep.
  destruct Hstep as [e t t1 t2 t3 rnd intent Ht Hf|e t id|e t id|e t id why|e t t' n Ht
                    |e t names ids|e t]; try (by apply update_inv); destruct Hi as [Hok Hpast Hcap Hmax].
  - simpl in *. pose proof (EvaluateAndRegister_record e t1 t2 t3 rnd intent Hok) as Hrec.
    assert (Hcap' : ∀ now pid, t2 <= now →
      granted (ledger (EvaluateAndRegister e t1 t2 t3 rnd intent).1.1.1) now pid
        <= maxActionsPerPID (evaluator e)).
    { intros now pid Hn. apply granted_evaluate; [done..|lia|]. intros p. apply Hcap. lia. }
    split; simpl; [kc|..].
    + destruct (EvaluateAndRegister _ _ _ _ _ _) as [[[e' ok] txID] evt]. simpl.
      destruct Hrec as (-> & _ & (rec & Hr & _ & Hts & _) & _).
      intros id r. rewrite Hr, lookup_insert_Some. intros [[_ <-]|[_ Hold]]; [lia|].
      specialize (Hpast _ _ Hold). lia.
    + destruct (EvaluateAndRegister _ _ _ _ _ _) as [[[e' ok] txID] evt]. simpl in *.
      destruct Hrec as (_ & _ & _ & -> & _). done.
    + destruct (EvaluateAndRegister _ _ _ _ _ _) as [[[e' ok] txID] evt]. simpl in *.
      destruct Hrec as (_ & _ & _ & -> & _). done.
  - simpl in *. destruct Hok as (He & Hl & Hc).
    assert (Hpast' : sweepable (ledger e) t') by (intros ? ? ?%Hpast; simpl in *; lia).
    destruct (sweep_keeps (ledger e) n t' Hl Hpast') as (Hl' & Hsub & _).
    split; simpl; [done| | |done].
    + intros id r [Hr _]%Hsub. by eapply Hpast'.
    + intros now pid Hn. etrans; [|apply (Hcap now pid); simpl; lia].
      apply granted_subseteq, map_subseteq_spec. by intros ? ? [? _]%Hsub.
  - simpl in *. destruct Hok as (He & Hl & Hc).
    split; simpl; try done. split_and!; simpl; kc.
  - simpl in *. destruct Hok as (He & Hl & Hc). split; simpl; try done.
    split_and!; simpl; try done. unfold chan_ok, try_recv in *.
    destruct (chan_buf (events e)) eqn:E; simpl; [by rewrite E|].
    rewrite llen_cons in Hc. pose proof (llen_nonneg l). lia.
Qed.

Lemma NewEngine_inv cfg t : 0 <= BufferSize cfg → engine_inv cfg (NewEngine cfg, t).
Proof.
  intros Hb. split; simpl; [by apply NewEngine_ok|by intros ? ?; simpl; rewrite lookup_empty| |done].
  intros now pid _. pose proof (ok_max _ (NewRuleEvaluator_ok cfg)).
  assert (granted (NewTransactionLedger cfg) now pid = 0) as ->; [|simpl in *; lia].
  unfold granted. simpl. by rewrite map_filter_empty, map_size_empty.
Qed.

Lemma reachable_inv cfg t0 st :
  0 <= BufferSize cfg → reachable cfg t0 st → engine_inv cfg st.
Proof.
  intros Hb Hr. unfold reachable in Hr. pose proof (NewEngine_inv cfg t0 Hb) as Hi.
  induction Hr; [done|]. eauto using engine_step_inv.
Qed.

End reachable.

(** * Consequences and life cycle *)

(** C7: an evaluation in full.  On a well-formed engine with a fresh id, the
    decision is that of the declarative policy on the number of unexpired
    records of the PID; the transaction is recorded under its id as pending or
    rejected, expiring after the cooldown; and the event repeats the decision. *)
Theorem EvaluateAndRegister_spec e t1 t2 t3 rnd intent :
  engine_ok e →
  let '(e', ok, txID, event) := EvaluateAndRegister e t1 t2 t3 rnd intent in
  (ok = true ↔ permitted (evaluator e) intent (live_count (ledger e) t1 (TargetPID intent))) ∧
  (∃ rec, records (ledger e') = <[txID := rec]> (records (ledger e)) ∧
     TransactionID rec = txID ∧
     RecPID rec = TargetPID intent ∧
     Status rec = (if ok then StatusAuthorizedPending else StatusRejected) ∧
     Expiry rec = i64 (t2 + i64 (cooldownSecs (ledger e) * 1000000000)) ∧
     MatchingPoliciesApplied (EvtEvaluation event) = rule_string <$> MatchingPolicies rec) ∧
  LedgerTransactionID event = txID ∧
  IsAuthorized (EvtEvaluation event) = ok ∧
  (EvalRejectionReason (EvtEvaluation event) = ""%string ↔ ok = true) ∧
  chan_buf (events e') = chan_buf (try_send event (events e)).1.
Proof.
  intros (He & Hl & Hc). unfold EvaluateAndRegister. rewrite HistoricalCount_spec by done.
  pose proof (evaluate_iff (evaluator e) intent
    (live_count (ledger e) t1 (TargetPID intent))) as Hiff.
  pose proof (Evaluate_cases_ok (evaluator e) intent
    (live_count (ledger e) t1 (TargetPID intent))) as Hno.
  destruct (Evaluate _ _ _) as [[ok rules] reason]. simpl in *.
  split_and!; try done; [by eexists|].
  destruct ok; [done|]. specialize (Hno eq_refl). by destruct reason.
Qed.

(** Refused attempts count too.  As long as the cooldown is positive and
    the clock is away from overflow, each evaluation, authorised or not, adds
    one to the historical count of its PID at the time it is registered. *)
Theorem every_attempt_counts e t1 t2 t3 rnd intent pid :
  engine_ok e → records (ledger e) !! generateTxID rnd = None →
  0 <= t2 → t2 + cooldownSecs (ledger e) * 1000000000 < 2 ^ 63 →
  HistoricalForPID (EvaluateAndRegister e t1 t2 t3 rnd intent).1.1.1 t2 pid =
  HistoricalForPID e t2 pid + (if decide (TargetPID intent = pid) then 1 else 0).
Proof.
  intros Hok Hf Ht Hover. pose proof (EvaluateAndRegister_ok e t1 t2 t3 rnd intent Hok Hf) as Hok'.
  pose proof (EvaluateAndRegister_record e t1 t2 t3 rnd intent Hok) as Hrec.
  pose proof (lk_cooldown _ (proj1 (proj2 Hok))) as Hcd.
  destruct (EvaluateAndRegister e t1 t2 t3 rnd intent) as [[[e' ok] txID] evt]. simpl in *.
  destruct Hrec as (-> & _ & (rec & Hr & Hpid & _ & Hexp & _) & _).
  unfold HistoricalForPID. rewrite !HistoricalCount_spec by (apply Hok || apply Hok').
  unfold live_count. rewrite Hr, map_filter_insert. simpl.
  rewrite !i64_id in Hexp by (unfold in_i64; rewrite ?i64_id; unfold in_i64; lia).
  rewrite <- Hpid. case_decide as Hc.
  - rewrite map_size_insert_None by (apply map_lookup_filter_None; by left).
    rewrite decide_True by tauto. lia.
  - rewrite delete_id by done. rewrite decide_False; [lia|]. intros ?. apply Hc. split; [done|lia].
Qed.


(** * Concrete instances *)

Definition sample_engine : Engine := NewEngine DefaultConfig.

Lemma sample_engine_ok : engine_ok sample_engine.
Proof. apply NewEngine_ok. by vm_compute. Qed.

(** Two evaluations for one PID, one second apart. *)
Definition sample_engine_2 : Engine :=
  (EvaluateAndRegister (EvaluateAndRegister sample_engine 0 0 0 "a" (sample_intent 4321 "python")).1.1.1
     1000000000 1000000000 1 "b" (sample_intent 4321 "python")).1.1.1.


Lemma EvaluateAndRegister_spec_witness :
  (EvaluateAndRegister sample_engine 0 0 0 "a" (sample_intent 4321 "python")).1.1.2 = true ∧
  permitted (evaluator sample_engine) (sample_intent 4321 "python")
    (live_count (ledger sample_engine) 0 4321).
Proof.
  split; [by vm_compute|].
  pose proof (EvaluateAndRegister_spec sample_engine 0 0 0 "a" (sample_intent 4321 "python")
    sample_engine_ok) as Hs.
  destruct (EvaluateAndRegister sample_engine 0 0 0 "a" (sample_intent 4321 "python"))
    as [[[e' ok] txID] event] eqn:E.
  destruct Hs as [Hs _]. apply Hs. apply (f_equal (λ x, x.1.1.2)) in E. symmetry in E.
  vm_compute in E. exact E.
Defined.

(** A denied attempt (a PID below the threshold) is counted. *)
Lemma every_attempt_counts_witness :
  HistoricalForPID (EvaluateAndRegister sample_engine 0 0 0 "a" (sample_intent 42 "sh")).1.1.1 0 42
  = HistoricalForPID sample_engine 0 42 + 1.
Proof.
  apply (every_attempt_counts sample_engine 0 0 0 "a" (sample_intent 42 "sh") 42
    sample_engine_ok); [done|lia|by vm_compute].
Defined.
