(* ===== verification/RingBuffer.v ===== *)
(** The byte-bounded FIFO of encoded payloads ([pipeline/ringbuffer.go]).

    A payload ([[]byte]) is a [string].  Each operation runs under the
    buffer's mutex and is one atomic step. *)

From S2P Require Import Prelude.

Record RingBuffer := {
  entries : list string;
  writeIdx : Z;
  count : Z;
  curBytes : Z;
  maxBytes : Z
}.

Definition DefaultRingBufferMaxBytes : Z := 50 * 1024 * 1024.

Definition NewRingBuffer (maxB : Z) : RingBuffer := {|
  entries := []; writeIdx := 0; count := 0; curBytes := 0;
  maxBytes := if maxB <=? 0 then DefaultRingBufferMaxBytes else maxB
|}.

(** [popLocked]: the nil slice is the empty string here.  [entries[0]] panics
    on an empty slice, which [count = 0] excludes on well-formed buffers: the
    model returns the buffer unchanged there. *)
Definition popLocked (rb : RingBuffer) : string * RingBuffer :=
  if count rb =? 0 then (""%string, rb)
  else
    match entries rb with
    | [] => (""%string, rb)
    | entry :: rest =>
        (entry, {| entries := rest; writeIdx := writeIdx rb; count := count rb - 1;
                   curBytes := curBytes rb - slen entry; maxBytes := maxBytes rb |})
    end.

(** [for rb.curBytes+dataLen > rb.maxBytes && rb.count > 0 { rb.popLocked() }],
    with fuel: each iteration removes an entry. *)
Fixpoint make_room (fuel : nat) (dataLen : Z) (rb : RingBuffer) : RingBuffer :=
  match fuel with
  | O => rb
  | S fuel =>
      if (maxBytes rb <? curBytes rb + dataLen) && (0 <? count rb)
      then make_room fuel dataLen (popLocked rb).2
      else rb
  end.

Definition Push (data : string) (rb : RingBuffer) : RingBuffer :=
  if slen data =? 0 then rb
  else
    let dataLen := slen data in
    let rb := make_room (length (entries rb)) dataLen rb in
    {| entries := entries rb ++ [data]; writeIdx := writeIdx rb; count := count rb + 1;
       curBytes := curBytes rb + dataLen; maxBytes := maxBytes rb |}.

Definition Pop (rb : RingBuffer) : option string * RingBuffer :=
  if count rb =? 0 then (None, rb)
  else let '(entry, rb) := popLocked rb in (Some entry, rb).

(** The copying loop of [Drain], [n] times. *)
Fixpoint drain_loop (n : nat) (rb : RingBuffer) : list string * RingBuffer :=
  match n with
  | O => ([], rb)
  | S n =>
      match entries rb with
      | [] => ([], rb)
      | entry :: rest =>
          let rb := {| entries := rest; writeIdx := writeIdx rb; count := count rb - 1;
                       curBytes := curBytes rb - slen entry; maxBytes := maxBytes rb |} in
          let '(out, rb) := drain_loop n rb in (entry :: out, rb)
      end
  end.

Definition Drain (maxEntries : Z) (rb : RingBuffer) : list string * RingBuffer :=
  let maxEntries := if maxEntries <=? 0 then 100 else maxEntries in
  if count rb =? 0 then ([], rb)
  else
    let n := if count rb <? maxEntries then count rb else maxEntries in
    drain_loop (Z.to_nat n) rb.

Definition Peek (rb : RingBuffer) : option string :=
  if count rb =? 0 then None else head (entries rb).

Definition Len (rb : RingBuffer) : Z := count rb.
Definition Bytes (rb : RingBuffer) : Z := curBytes rb.
Definition Capacity (rb : RingBuffer) : Z := maxBytes rb.

Definition Close (rb : RingBuffer) : RingBuffer :=
  {| entries := []; writeIdx := writeIdx rb; count := 0; curBytes := 0;
     maxBytes := maxBytes rb |}.

Definition Reset (rb : RingBuffer) : RingBuffer :=
  {| entries := []; writeIdx := 0; count := 0; curBytes := 0; maxBytes := maxBytes rb |}.

(** * Invariant *)

Definition bytes_of (l : list string) : Z := zsum slen l.

(** The counters are exact, no entry is empty, and the buffer is within its
    byte budget unless it holds a single oversized entry. *)
Record ring_ok (rb : RingBuffer) : Prop := {
  rk_count : count rb = llen (entries rb);
  rk_bytes : curBytes rb = bytes_of (entries rb);
  rk_nonempty : ∀ x, x ∈ entries rb → x ≠ ""%string;
  rk_max : 0 < maxBytes rb;
  rk_bound : curBytes rb <= maxBytes rb ∨ count rb = 1
}.

Lemma bytes_of_nonneg l : 0 <= bytes_of l.
Proof. apply zsum_nonneg. intros. apply slen_nonneg. Qed.

Lemma bytes_of_app l k : bytes_of (l ++ k) = bytes_of l + bytes_of k.
Proof. apply zsum_app. Qed.

Lemma bytes_of_cons x l : bytes_of (x :: l) = slen x + bytes_of l.
Proof. done. Qed.

Lemma bytes_of_snoc l x : bytes_of (l ++ [x]) = bytes_of l + slen x.
Proof. rewrite bytes_of_app. unfold bytes_of. simpl. lia. Qed.

#[export] Hint Resolve bytes_of_nonneg : kc_inv.
#[export] Hint Rewrite bytes_of_app bytes_of_cons : kc_simp.

Lemma NewRingBuffer_ok maxB : ring_ok (NewRingBuffer maxB).
Proof.
  split; simpl; try done; [by intros ? ?%elem_of_nil|..];
    unfold DefaultRingBufferMaxBytes; [|left]; cases; lia.
Qed.

(** The contents determine a well-formed buffer, up to [writeIdx]. *)
Definition with_entries (rb : RingBuffer) (l : list string) : RingBuffer :=
  {| entries := l; writeIdx := writeIdx rb; count := llen l; curBytes := bytes_of l;
     maxBytes := maxBytes rb |}.

Lemma ring_ok_eq rb : ring_ok rb → rb = with_entries rb (entries rb).
Proof. intros [Hc Hb _ _ _]. destruct rb; unfold with_entries; simpl in *. by subst. Qed.

Lemma with_entries_idem rb l k : with_entries (with_entries rb l) k = with_entries rb k.
Proof. done. Qed.

Lemma llen_zero {A} (l : list A) : llen l = 0 ↔ l = [].
Proof. unfold llen. destruct l; simpl; split; try done; lia. Qed.

Lemma llen_cons_eqb {A} (x : A) l : (llen (x :: l) =? 0) = false.
Proof. apply Z.eqb_neq. by rewrite llen_zero. Qed.

Lemma llen_cons_ltb {A} (x : A) l : (0 <? llen (x :: l)) = true.
Proof. apply Z.ltb_lt. unfold llen. simpl. lia. Qed.

Lemma popLocked_cons rb x l :
  popLocked (with_entries rb (x :: l)) = (x, with_entries rb l).
Proof.
  unfold popLocked, with_entries. cbn [count entries curBytes]. rewrite llen_cons_eqb.
  f_equal. f_equal; rewrite ?llen_cons, ?bytes_of_cons; lia.
Qed.

Lemma Pop_cons rb x l : Pop (with_entries rb (x :: l)) = (Some x, with_entries rb l).
Proof.
  unfold Pop. rewrite popLocked_cons. cbn [with_entries count]. by rewrite llen_cons_eqb.
Qed.

(** * The eviction as a specification *)

(** Drop from the front until the total with [n] more bytes fits. *)
Fixpoint trim (max n : Z) (l : list string) : list string :=
  match l with
  | [] => []
  | x :: rest => if max <? bytes_of l + n then trim max n rest else l
  end.

Lemma make_room_spec fuel n rb l :
  (length l <= fuel)%nat →
  make_room fuel n (with_entries rb l) = with_entries rb (trim (maxBytes rb) n l).
Proof.
  revert l. induction fuel as [|fuel IH]; intros l Hf.
  { destruct l; [done|simpl in *; lia]. }
  cbn [make_room]. destruct l as [|x l].
  - simpl. by rewrite andb_false_r.
  - cbn [trim]. unfold with_entries at 1 2 3. cbn [maxBytes curBytes count].
    rewrite llen_cons_ltb, andb_true_r.
    destruct (maxBytes rb <? bytes_of (x :: l) + n); [|done].
    rewrite popLocked_cons. simpl. apply IH. simpl in Hf. lia.
Qed.

Lemma make_room_ok n rb :
  ring_ok rb →
  make_room (length (entries rb)) n rb = with_entries rb (trim (maxBytes rb) n (entries rb)).
Proof. intros Hok. rewrite (ring_ok_eq rb Hok) at 2. by apply make_room_spec. Qed.

Lemma trim_suffix max n l : trim max n l `suffix_of` l.
Proof.
  induction l as [|x l IH]; simpl; [done|].
  case_match; [|done]. by apply suffix_cons_r.
Qed.

Lemma trim_fits max n l :
  trim max n l ≠ [] → bytes_of (trim max n l) + n <= max.
Proof.
  induction l as [|x l IH]; cbn [trim]; [done|].
  destruct (max <? bytes_of (x :: l) + n) eqn:E; bool_prop; [done|]. intros _. lia.
Qed.

Lemma trim_id max n l : bytes_of l + n <= max → trim max n l = l.
Proof.
  destruct l as [|x l]; [done|]. intros H. cbn [trim].
  by rewrite (proj2 (Z.ltb_ge _ _)).
Qed.

(** No smaller eviction would do. *)
Lemma trim_longest max n l k :
  k `suffix_of` l → bytes_of k + n <= max → k `suffix_of` trim max n l.
Proof.
  induction l as [|x l IH]; cbn [trim]; intros Hk Hfit; [done|].
  destruct (max <? bytes_of (x :: l) + n) eqn:E; bool_prop; [|done].
  destruct k as [|y k]; [apply suffix_nil|].
  apply suffix_cons_inv in Hk as [Heq|Hk]; [rewrite Heq in Hfit; lia|by apply IH].
Qed.

(** What [Push] stores.  A non-empty payload goes at the end; what
    precedes it is the longest suffix of the old contents that leaves room for it
    within the byte budget (nothing when it does not fit at all); an empty
    payload is ignored. *)
Lemma Push_spec rb data :
  ring_ok rb →
  if decide (data = ""%string) then Push data rb = rb
  else ∃ kept, Push data rb = with_entries rb (kept ++ [data]) ∧
    kept `suffix_of` entries rb ∧
    (kept ≠ [] → bytes_of (kept ++ [data]) <= maxBytes rb) ∧
    (∀ kept', kept' `suffix_of` entries rb →
       bytes_of (kept' ++ [data]) <= maxBytes rb → kept' `suffix_of` kept).
Proof.
  intros Hok. case_decide as Hd; [by subst|].
  exists (trim (maxBytes rb) (slen data) (entries rb)). unfold Push.
  rewrite (proj2 (Z.eqb_neq _ _)) by (by rewrite slen_zero).
  rewrite make_room_ok by done. split_and!.
  - unfold with_entries. cbn [entries writeIdx count curBytes maxBytes].
    autorewrite with kc_simp. change (bytes_of []) with 0. f_equal; lia.
  - apply trim_suffix.
  - intros Hne%trim_fits. by rewrite bytes_of_snoc.
  - intros kept' Hs Hfit. apply trim_longest; [done|]. by rewrite <- bytes_of_snoc.
Qed.

Lemma with_entries_ok rb l :
  0 < maxBytes rb → (∀ x, x ∈ l → x ≠ ""%string) →
  bytes_of l <= maxBytes rb ∨ llen l = 1 → ring_ok (with_entries rb l).
Proof. intros. by split. Qed.

Lemma Push_ok data rb : ring_ok rb → ring_ok (Push data rb).
Proof.
  intros Hok. pose proof (Push_spec rb data Hok) as Hp. case_decide; [by rewrite Hp|].
  destruct Hp as (kept & -> & Hsuf & Hfit & _). apply with_entries_ok; [apply Hok| |].
  - intros x [Hx|Hx%list_elem_of_singleton]%elem_of_app; [|by subst].
    apply (rk_nonempty _ Hok). destruct Hsuf as [pre ->]. set_solver.
  - destruct kept; [by right|]. left. by apply Hfit.
Qed.

(** Removing from the front of a well-formed buffer. *)
Lemma suffix_ok rb l : ring_ok rb → l `suffix_of` entries rb → ring_ok (with_entries rb l).
Proof.
  intros Hok [pre Hl]. pose proof (ring_ok_eq rb Hok) as Heq.
  destruct Hok as [Hc Hb Hne Hm Hbound].
  apply with_entries_ok; [done|intros x Hx; apply Hne; rewrite Hl; set_solver|].
  rewrite Hb, Hc, Hl in Hbound. autorewrite with kc_simp in Hbound.
  pose proof (bytes_of_nonneg pre). pose proof (llen_nonneg pre). pose proof (llen_nonneg l).
  destruct Hbound as [?|?]; [left; lia|].
  destruct (decide (llen l = 1)); [by right|]. left.
  assert (llen l = 0) as ->%llen_zero by lia. change (bytes_of []) with 0. lia.
Qed.

Lemma drain_loop_spec n rb l :
  drain_loop n (with_entries rb l) = (take n l, with_entries rb (drop n l)).
Proof.
  revert l. induction n as [|n IH]; intros l; simpl; [by rewrite drop_0|].
  destruct l as [|x l]; [done|]. simpl.
  assert (Hw : {| entries := l; writeIdx := writeIdx rb; count := llen (x :: l) - 1;
      curBytes := bytes_of (x :: l) - slen x; maxBytes := maxBytes rb |} = with_entries rb l).
  { unfold with_entries. f_equal; [rewrite llen_cons|rewrite bytes_of_cons]; lia. }
  unfold with_entries in *. rewrite Hw. by rewrite IH.
Qed.

(** The number of entries a drain returns at most. *)
Definition drain_limit (maxEntries : Z) : nat :=
  Z.to_nat (if maxEntries <=? 0 then 100 else maxEntries).

Lemma Drain_with rb m l :
  Drain m (with_entries rb l) =
    (take (drain_limit m) l, with_entries rb (drop (drain_limit m) l)).
Proof.
  unfold Drain, drain_limit. cbn [count with_entries].
  set (k := if m <=? 0 then 100 else m).
  assert (0 < k) by (unfold k; cases; lia).
  destruct (llen l =? 0) eqn:E; bool_prop.
  { apply llen_zero in E. subst l. by rewrite take_nil, drop_nil. }
  rewrite drain_loop_spec.
  destruct (llen l <? k) eqn:E2; bool_prop; [|done]. unfold llen in *.
  rewrite Nat2Z.id, !take_ge, !drop_ge by lia. done.
Qed.

(** [Drain] is FIFO: it returns the oldest entries, at most the limit
    (100 when the argument is not positive), and leaves the rest in order. *)
Lemma Drain_spec rb m :
  ring_ok rb →
  (Drain m rb).1 = take (drain_limit m) (entries rb) ∧
  entries (Drain m rb).2 = drop (drain_limit m) (entries rb) ∧
  ring_ok (Drain m rb).2.
Proof.
  intros Hok. rewrite (ring_ok_eq rb Hok) at 1 3 5. rewrite Drain_with. split_and!; [done..|].
  apply suffix_ok; [done|]. exists (take (drain_limit m) (entries rb)). by rewrite take_drop.
Qed.

Lemma Pop_ok rb : ring_ok rb → ring_ok (Pop rb).2.
Proof.
  intros Hok. rewrite (ring_ok_eq rb Hok). destruct (entries rb) as [|x l] eqn:E.
  - unfold Pop. cbn [with_entries count]. simpl. rewrite <- E. by apply suffix_ok.
  - rewrite Pop_cons. apply suffix_ok; [done|]. rewrite E. by exists [x].
Qed.

Lemma Close_ok rb : ring_ok rb → ring_ok (Close rb).
Proof. intros Hok. apply (suffix_ok rb []); [done|]. apply suffix_nil. Qed.

Lemma Reset_ok rb : ring_ok rb → ring_ok (Reset rb).
Proof.
  intros [_ _ _ Hm _]. split; simpl; try done; [by intros ? ?%elem_of_nil|left; lia].
Qed.

#[export] Hint Resolve NewRingBuffer_ok Push_ok Pop_ok Close_ok Reset_ok : kc_inv.
#[export] Hint Extern 1 (ring_ok (Drain _ _).2) => apply Drain_spec : kc_inv.

(** * Histories *)

Inductive ring_op := OpPush (data : string) | OpPop | OpDrain (m : Z) | OpClose | OpReset.

Definition ring_apply (rb : RingBuffer) (op : ring_op) : RingBuffer :=
  match op with
  | OpPush data => Push data rb
  | OpPop => (Pop rb).2
  | OpDrain m => (Drain m rb).2
  | OpClose => Close rb
  | OpReset => Reset rb
  end.

Definition pushed (ops : list ring_op) : list string :=
  omap (λ op, match op with OpPush d => if decide (d = ""%string) then None else Some d
                       | _ => None end) ops.

Lemma ring_apply_ok rb op : ring_ok rb → ring_ok (ring_apply rb op).
Proof. destruct op; simpl; kc. Qed.

Lemma Pop_entries rb : ring_ok rb → entries (Pop rb).2 `suffix_of` entries rb.
Proof.
  intros Hok. rewrite (ring_ok_eq rb Hok) at 1. destruct (entries rb) as [|x l] eqn:E.
  - done.
  - rewrite Pop_cons. by exists [x].
Qed.

(** C14: safety over any history.  After any sequence of pushes, pops, drains,
    closes and resets from a new buffer, the counters are exact, the byte
    budget holds except for a single oversized entry, and the contents are a
    contiguous run of the most recent payloads pushed, in push order: nothing is reordered,
    duplicated or invented. *)
Theorem ring_history maxB ops :
  let rb := foldl ring_apply (NewRingBuffer maxB) ops in
  Len rb = llen (entries rb) ∧ Bytes rb = bytes_of (entries rb) ∧
  (Bytes rb <= Capacity rb ∨ Len rb = 1) ∧
  entries rb `suffix_of` pushed ops.
Proof.
  cut (let rb := foldl ring_apply (NewRingBuffer maxB) ops in
       ring_ok rb ∧ entries rb `suffix_of` pushed ops).
  { simpl. intros [[] ?]. by unfold Len, Bytes, Capacity. }
  simpl. induction ops as [|op ops [IHok IHs]] using rev_ind; [split; [kc|done]|].
  rewrite foldl_snoc. split; [by apply ring_apply_ok|].
  unfold pushed. rewrite omap_app. fold (pushed ops).
  set (rb := foldl ring_apply _ ops) in *. destruct op as [d| |m| |]; simpl; rewrite ?app_nil_r.
  - pose proof (Push_spec rb d IHok) as Hp. case_decide.
    + by rewrite Hp, app_nil_r.
    + destruct Hp as (kept & -> & Hk & _). apply suffix_app. by etrans.
  - etrans; [by apply Pop_entries|done].
  - destruct (Drain_spec rb m IHok) as (_ & -> & _). etrans; [|done].
    exists (take (drain_limit m) (entries rb)). by rewrite take_drop.
  - apply suffix_nil.
  - apply suffix_nil.
Qed.
