(* ===== verification/Streamer.v ===== *)
(** The upstream streamer ([pipeline/streamer.go]): batches drained from the
    ring buffer are posted one by one; on failure the unsent payloads go back
    into the buffer; a loop with back-off drives it and a flush ends it.

    The network is an oracle: [net k] is the outcome of the [k]-th request.  A
    request made with a cancelled context fails whatever the network would
    have answered. *)

From S2P Require Import Prelude RingBuffer.

Inductive http_result := HttpError (msg : string) | HttpStatus (code : Z).

Definition do_request (ctx_done : bool) (r : http_result) : http_result :=
  if ctx_done then HttpError "context canceled" else r.

(** [None] is the nil error; only a 5xx status or a transport error is
    reported, other statuses count as delivered. *)
Definition sendOne (endpoint : string) (ctx_done : bool) (r : http_result) : option string :=
  if streq endpoint "" then None
  else
    match do_request ctx_done r with
    | HttpError msg => Some msg
    | HttpStatus code =>
        if (200 <=? code) && (code <? 300) then None
        else if 500 <=? code then Some "server error"%string
        else None
    end.

Record Streamer := {
  endpoint : string;
  batchSize : Z
}.

Definition NewStreamer (ep : string) : Streamer := {| endpoint := ep; batchSize := 100 |}.

(** The sending loop: how many payloads were sent and the unsent ones, the
    failing one first. *)
Fixpoint send_loop (s : Streamer) (ctx_done : bool) (net : nat → http_result) (k : nat)
    (payloads : list string) : Z * list string :=
  match payloads with
  | [] => (0, [])
  | data :: rest =>
      match sendOne (endpoint s) ctx_done (net k) with
      | Some _ => (0, payloads)
      | None => let '(sent, unsent) := send_loop s ctx_done net (S k) rest in (sent + 1, unsent)
      end
  end.

(** [sendBatch]: buffer, number sent, whether an error occurred. *)
Definition sendBatch (s : Streamer) (ctx_done : bool) (net : nat → http_result) (k : nat)
    (rb : RingBuffer) : RingBuffer * Z * bool :=
  let '(payloads, rb) := Drain (batchSize s) rb in
  if llen payloads =? 0 then (rb, 0, false)
  else
    let '(sent, unsent) := send_loop s ctx_done net k payloads in
    (foldl (λ rb d, Push d rb) rb unsent, sent, negb (llen unsent =? 0)).

(** Durations wrap as [int64]. *)
Definition nextBackoff (current max : Z) : Z :=
  if current =? 0 then Second
  else
    let next := i64 (current * 2) in
    if max <? next then max else next.

Definition maxBackoff : Z := 30 * Second.

(** One iteration of [run] while the context is live: the new buffer, the new
    back-off and the time waited. *)
Definition run_iter (s : Streamer) (net : nat → http_result) (k : nat)
    (st : RingBuffer * Z) : RingBuffer * Z * Z :=
  let '(rb, backoff) := st in
  if Len rb =? 0 then (rb, backoff, 500 * Millisecond)
  else
    let '(rb, sent, retryable) := sendBatch s false net k rb in
    let '(backoff, w1) :=
      if retryable && (0 <? sent)
      then (nextBackoff backoff maxBackoff, nextBackoff backoff maxBackoff)
      else (0, 0) in
    let w2 := if sent =? 0 then 500 * Millisecond else 0 in
    (rb, backoff, w1 + w2).

(** [flushRemaining], with fuel: every round drains at least one entry.
    [run] only calls it once the context is done.  The result also tells
    what was sent. *)
Fixpoint flush_loop (fuel : nat) (s : Streamer) (ctx_done : bool) (net : nat → http_result)
    (k : nat) (rb : RingBuffer) : RingBuffer * list string :=
  match fuel with
  | O => (rb, [])
  | S fuel =>
      let '(payloads, rb) := Drain (batchSize s) rb in
      if llen payloads =? 0 then (rb, [])
      else
        let '(sent, unsent) := send_loop s ctx_done net k payloads in
        let done := take (Z.to_nat sent) payloads in
        if negb (llen unsent =? 0) then (rb, done)
        else if streq (endpoint s) "" then (rb, done)
        else
          let '(rb, more) :=
            flush_loop fuel s ctx_done net (k + length payloads) rb in
          (rb, done ++ more)
  end.

Definition flushRemaining (s : Streamer) (ctx_done : bool) (net : nat → http_result)
    (k : nat) (rb : RingBuffer) : RingBuffer * list string :=
  flush_loop (S (length (entries rb))) s ctx_done net k rb.

(** [run] from the moment the context is cancelled, with fuel: every wait then
    ends at once with the flush.  [None] when the fuel is used up. *)
Fixpoint run_done (fuel : nat) (s : Streamer) (net : nat → http_result) (k : nat)
    (rb : RingBuffer) : option (RingBuffer * list string) :=
  match fuel with
  | O => None
  | S fuel =>
      if Len rb =? 0 then Some (flushRemaining s true net k rb)
      else
        let '(rb, sent, retryable) := sendBatch s true net k rb in
        if (retryable && (0 <? sent)) || (sent =? 0) then Some (flushRemaining s true net k rb)
        else run_done fuel s net k rb
  end.

(** * The sending loop *)

Lemma send_loop_spec s c net k l :
  let '(sent, unsent) := send_loop s c net k l in
  0 <= sent ∧ l = take (Z.to_nat sent) l ++ unsent ∧
  length (take (Z.to_nat sent) l) = Z.to_nat sent ∧
  unsent = drop (Z.to_nat sent) l.
Proof.
  revert k. induction l as [|d l IH]; intros k; simpl; [done|].
  destruct (sendOne _ _ _); [done|].
  specialize (IH (S k)). destruct (send_loop s c net (S k) l) as [sent unsent].
  destruct IH as (Hs & Happ & Hlen & Hdrop).
  rewrite Z2Nat.inj_add, Nat.add_comm by lia. simpl. split_and!; [lia| | |done].
  - f_equal. exact Happ.
  - f_equal. exact Hlen.
Qed.

(** Re-pushing onto a buffer that has room evicts nothing. *)
Lemma Push_room rb x :
  ring_ok rb → x ≠ ""%string →
  bytes_of (entries rb ++ [x]) <= maxBytes rb ∨ entries rb = [] →
  Push x rb = with_entries rb (entries rb ++ [x]).
Proof.
  intros Hok Hx Hroom. pose proof (Push_spec rb x Hok) as Hp. rewrite decide_False in Hp by done.
  destruct Hp as (kept & -> & Hsuf & _ & Hlong). f_equal. f_equal.
  destruct Hroom as [Hfit|Hnil].
  - destruct (Hlong (entries rb) ltac:(done) Hfit) as [p1 H1], Hsuf as [p2 H2].
    rewrite H2 in H1. apply (f_equal length) in H1. rewrite !length_app in H1.
    assert (p2 = []) as -> by (destruct p2; [done|simpl in *; lia]). done.
  - rewrite Hnil in *. by apply suffix_nil_inv in Hsuf.
Qed.

Lemma repush_spec rb us :
  ring_ok rb → (∀ x, x ∈ us → x ≠ ""%string) →
  us = [] ∨ bytes_of (entries rb ++ us) <= maxBytes rb ∨ (entries rb = [] ∧ llen us <= 1) →
  foldl (λ rb d, Push d rb) rb us = with_entries rb (entries rb ++ us).
Proof.
  revert rb. induction us as [|u us IH]; intros rb Hok Hne Hroom; simpl.
  { rewrite app_nil_r. by apply ring_ok_eq. }
  assert (Hu : u ≠ ""%string) by set_solver.
  assert (Hp : Push u rb = with_entries rb (entries rb ++ [u])).
  { apply Push_room; [done..|]. destruct Hroom as [?|[Hb|[-> _]]]; [done| |by right]. left.
    rewrite bytes_of_app in Hb. rewrite bytes_of_snoc.
    rewrite bytes_of_cons in Hb. pose proof (bytes_of_nonneg us). lia. }
  destruct Hroom as [?|[Hb|[Hnil Hl]]]; [done| |].
  - rewrite IH, Hp.
    + cbn [with_entries entries]. by rewrite <- app_assoc.
    + by apply Push_ok.
    + set_solver.
    + rewrite Hp. cbn [with_entries entries maxBytes]. rewrite <- app_assoc. by right; left.
  - rewrite llen_cons in Hl. pose proof (llen_nonneg us).
    assert (us = []) as -> by (apply llen_zero; lia). done.
Qed.

(** The batch of a buffer and what stays behind. *)
Definition batch (s : Streamer) (rb : RingBuffer) : list string :=
  take (drain_limit (batchSize s)) (entries rb).
Definition backlog (s : Streamer) (rb : RingBuffer) : list string :=
  drop (drain_limit (batchSize s)) (entries rb).

Lemma batch_backlog s rb : batch s rb ++ backlog s rb = entries rb.
Proof. apply take_drop. Qed.

Lemma Drain_batch s rb :
  ring_ok rb → Drain (batchSize s) rb = (batch s rb, with_entries rb (backlog s rb)).
Proof. intros Hok. rewrite (ring_ok_eq rb Hok) at 1. apply Drain_with. Qed.

Lemma batch_nil s rb : ring_ok rb → batch s rb = [] ↔ entries rb = [].
Proof.
  intros Hok. unfold batch, drain_limit. destruct (entries rb) as [|x l]; [by rewrite take_nil|].
  destruct (Z.to_nat _) eqn:E; [|done]. exfalso. revert E. cases; lia.
Qed.

(** A buffer without the first [n] entries of its batch has room to put the
    rest of the batch back. *)
Lemma split_room s rb n :
  ring_ok rb →
  let us := drop n (batch s rb) in
  (us = [] ∨ bytes_of (backlog s rb ++ us) <= maxBytes rb ∨ (backlog s rb = [] ∧ llen us <= 1))
  ∧ ring_ok (with_entries rb (backlog s rb ++ us)).
Proof.
  intros Hok us.
  pose proof (rk_bytes _ Hok) as Hby. pose proof (rk_count _ Hok) as Hct.
  assert (Hin : ∀ x, x ∈ backlog s rb ++ us → x ∈ entries rb).
  { intros x. rewrite <- (batch_backlog s rb), <- (take_drop n (batch s rb)). fold us. set_solver. }
  rewrite <- (batch_backlog s rb), <- (take_drop n (batch s rb)) in Hby, Hct. fold us in Hby, Hct.
  rewrite !bytes_of_app in Hby. rewrite !llen_app in Hct.
  pose proof (bytes_of_nonneg (take n (batch s rb))). pose proof (llen_nonneg (take n (batch s rb))).
  pose proof (llen_nonneg (backlog s rb)). pose proof (llen_nonneg us).
  assert (Hb : bytes_of (backlog s rb ++ us) <= maxBytes rb ∨ llen (backlog s rb ++ us) <= 1).
  { rewrite bytes_of_app, llen_app. destruct (rk_bound _ Hok); [left|right]; lia. }
  split.
  - destruct Hb as [?|Hl]; [by right; left|]. rewrite llen_app in Hl.
    destruct (decide (llen us = 0)) as [?%llen_zero|]; [by left|].
    right. right. split; [apply llen_zero|]; lia.
  - apply with_entries_ok; [apply Hok|intros x Hx; by apply (rk_nonempty _ Hok), Hin|].
    destruct Hb as [?|Hl]; [by left|].
    destruct (decide (llen (backlog s rb ++ us) = 1)); [by right|]. left.
    assert (backlog s rb ++ us = []) as ->.
    { apply llen_zero. pose proof (llen_nonneg (backlog s rb ++ us)). lia. }
    pose proof (rk_max _ Hok). change (bytes_of []) with 0. lia.
Qed.

Lemma sendBatch_prefix s c net k rb :
  ring_ok rb →
  let '(rb', sent, errored) := sendBatch s c net k rb in
  0 <= sent <= llen (batch s rb) ∧
  entries rb' = backlog s rb ++ drop (Z.to_nat sent) (batch s rb) ∧
  take (Z.to_nat sent) (batch s rb) ++ entries rb' ≡ₚ entries rb ∧
  (errored = true ↔ sent < llen (batch s rb)) ∧
  ring_ok rb'.
Proof.
  intros Hok. unfold sendBatch. rewrite Drain_batch by done.
  destruct (llen (batch s rb) =? 0) eqn:E; bool_prop.
  { pose proof E as Hnil. apply llen_zero in Hnil. rewrite E, Hnil. simpl.
    apply batch_nil in Hnil; [|done]. unfold backlog. rewrite Hnil, drop_nil.
    split_and!; try done. rewrite <- Hnil. by apply suffix_ok. }
  pose proof (send_loop_spec s c net k (batch s rb)) as Hs.
  destruct (send_loop s c net k (batch s rb)) as [sent unsent].
  destruct Hs as (H0 & Happ & Hlen & ->).
  assert (Hsz : sent <= llen (batch s rb)).
  { unfold llen. rewrite length_take in Hlen. lia. }
  assert (Hbk : ring_ok (with_entries rb (backlog s rb))).
  { apply suffix_ok; [done|]. exists (batch s rb). by rewrite batch_backlog. }
  pose proof (split_room s rb (Z.to_nat sent) Hok) as [Hroom Hok'].
  rewrite repush_spec; [|done| |done].
  - split_and!; [lia..|done| | |done].
    + cbn [with_entries entries].
      assert (entries rb = (take (Z.to_nat sent) (batch s rb) ++
        drop (Z.to_nat sent) (batch s rb)) ++ backlog s rb) as ->
        by (by rewrite <- Happ, batch_backlog).
      rewrite <- app_assoc. apply Permutation_app_head, Permutation_app_comm.
    + rewrite negb_true_iff, Z.eqb_neq. unfold llen. rewrite length_drop. unfold llen in Hsz. lia.
  - intros x Hx. apply (rk_nonempty _ Hok). rewrite <- (batch_backlog s rb), Happ. set_solver.
Qed.


(** * Back-off and outages *)

(** [n] consecutive failures from a fresh back-off. *)
Definition backoff_after (n : nat) : Z :=
  Nat.iter n (λ b, nextBackoff b maxBackoff) 0.

(** The back-off doubles from one second up to the 30 second ceiling and
    stays there. *)
Theorem backoff_after_spec n :
  backoff_after (S n) = Z.min (2 ^ Z.of_nat n * Second) maxBackoff.
Proof.
  induction n as [|n IH]; [done|].
  change (backoff_after (S (S n))) with (nextBackoff (backoff_after (S n)) maxBackoff).
  rewrite IH. unfold nextBackoff. assert (0 < 2 ^ Z.of_nat n) by (apply Z.pow_pos_nonneg; lia).
  rewrite Nat2Z.inj_succ, Z.pow_succ_r by lia.
  unfold maxBackoff, Second in *.
  rewrite (proj2 (Z.eqb_neq _ _)) by lia. rewrite i64_id by (unfold in_i64; lia).
  case_match; bool_prop; lia.
Qed.

(** The oracle of an unreachable or failing upstream. *)
Definition failing (r : http_result) : Prop :=
  match r with HttpError _ => True | HttpStatus code => 500 <= code end.

Lemma sendOne_failing ep c r : ep ≠ ""%string → failing r → is_Some (sendOne ep c r).
Proof.
  intros Hep Hf. unfold sendOne, streq. rewrite bool_decide_eq_false_2 by done.
  unfold do_request. destruct c; [by eexists|]. destruct r as [|code]; [by eexists|].
  simpl in Hf. rewrite (proj2 (Z.ltb_ge code 300)), andb_false_r by lia.
  rewrite (proj2 (Z.leb_le _ _)) by lia. by eexists.
Qed.

Lemma send_loop_failing s c net k l :
  endpoint s ≠ ""%string → c = true ∨ failing (net k) → send_loop s c net k l = (0, l).
Proof.
  intros Hep Hf. destruct l as [|d l]; [done|]. simpl.
  assert (is_Some (sendOne (endpoint s) c (net k))) as [e ->]; [|done].
  destruct Hf as [->|Hf]; [|by apply sendOne_failing].
  unfold sendOne, streq. rewrite bool_decide_eq_false_2 by done. by eexists.
Qed.

(** During an outage nothing is lost, but the exponential back-off never
    starts: every iteration of the loop keeps the same payloads, resets the
    back-off and waits 500 ms. *)
Theorem outage_iteration s net k rb backoff :
  endpoint s ≠ ""%string → failing (net k) → ring_ok rb → entries rb ≠ [] →
  let '(rb', backoff', waited) := run_iter s net k (rb, backoff) in
  entries rb' ≡ₚ entries rb ∧ ring_ok rb' ∧ backoff' = 0 ∧ waited = 500 * Millisecond.
Proof.
  intros Hep Hf Hok Hne. unfold run_iter, Len. rewrite (rk_count _ Hok).
  rewrite (proj2 (Z.eqb_neq _ _)) by (by rewrite llen_zero).
  pose proof (sendBatch_prefix s false net k rb Hok) as Hs.
  assert (Hsent : (sendBatch s false net k rb).1.2 = 0).
  { unfold sendBatch. rewrite Drain_batch by done.
    destruct (llen (batch s rb) =? 0); [done|].
    by rewrite send_loop_failing by auto. }
  destruct (sendBatch s false net k rb) as [[rb' sent] err]. simpl in Hsent. subst sent.
  destruct Hs as (_ & _ & Hperm & _ & Hok'). rewrite andb_false_r. by split_and!.
Qed.

(** * The final flush *)

Lemma send_loop_ok s net k l :
  (∀ j, sendOne (endpoint s) false (net j) = None) → send_loop s false net k l = (llen l, []).
Proof.
  intros Hnet. revert k. induction l as [|d l IH]; intros k; simpl; [done|].
  rewrite Hnet, IH, llen_cons. f_equal. lia.
Qed.

Lemma flush_loop_ok fuel s net k rb :
  ring_ok rb → endpoint s ≠ ""%string →
  (∀ j, sendOne (endpoint s) false (net j) = None) → (length (entries rb) < fuel)%nat →
  (flush_loop fuel s false net k rb).2 = entries rb ∧
  entries (flush_loop fuel s false net k rb).1 = [].
Proof.
  intros Hok Hep Hnet. revert k rb Hok. induction fuel as [|fuel IH]; intros k rb Hok Hf; [lia|].
  cbn [flush_loop]. rewrite Drain_batch by done.
  destruct (llen (batch s rb) =? 0) eqn:E; bool_prop.
  { apply llen_zero, batch_nil in E; [|done]. unfold backlog. simpl. by rewrite E, drop_nil. }
  rewrite send_loop_ok by done. simpl. unfold streq. rewrite bool_decide_eq_false_2 by done.
  assert (Hlt : (length (backlog s rb) < length (entries rb))%nat).
  { rewrite <- (batch_backlog s rb), length_app. unfold llen in E. lia. }
  specialize (IH (k + length (batch s rb))%nat (with_entries rb (backlog s rb))).
  destruct (flush_loop fuel s false net _ _) as [rb' more]. destruct IH as [Hmore Hnil].
  { apply suffix_ok; [done|]. exists (batch s rb). by rewrite batch_backlog. }
  { cbn [with_entries entries]. lia. }
  simpl in *. split; [|done]. rewrite Hmore. unfold llen. rewrite Nat2Z.id, take_ge by done.
  apply batch_backlog.
Qed.

(** A flush through a live context and a healthy upstream delivers the
    whole buffer, in order, and terminates with it empty. *)
Theorem flush_delivers_all s net k rb :
  ring_ok rb → endpoint s ≠ ""%string →
  (∀ j, sendOne (endpoint s) false (net j) = None) →
  (flushRemaining s false net k rb).2 = entries rb ∧
  entries (flushRemaining s false net k rb).1 = [].
Proof. intros. apply flush_loop_ok; [done..|lia]. Qed.

Lemma flush_cancelled s net k rb :
  ring_ok rb → endpoint s ≠ ""%string →
  flushRemaining s true net k rb = (with_entries rb (backlog s rb), []).
Proof.
  intros Hok Hep. unfold flushRemaining. cbn [flush_loop]. rewrite Drain_batch by done.
  destruct (llen (batch s rb) =? 0) eqn:E; bool_prop; [done|].
  rewrite send_loop_failing by auto. simpl.
  by rewrite (proj2 (Z.eqb_neq _ _)) by done.
Qed.

(** The flush [run] performs uses the context that has just been
    cancelled: it delivers nothing and discards the batch it drained, the
    oldest payloads of the buffer. *)
Theorem flush_cancelled_discards s net k rb :
  ring_ok rb → endpoint s ≠ ""%string →
  flushRemaining s true net k rb = (with_entries rb (backlog s rb), []).
Proof. apply flush_cancelled. Qed.

(** ** The end of [run] *)

Lemma flush_empty s c net k rb :
  ring_ok rb → entries rb = [] → flushRemaining s c net k rb = (with_entries rb [], []).
Proof.
  intros Hok Hnil. unfold flushRemaining. cbn [flush_loop]. rewrite Drain_batch by done.
  rewrite (proj2 (batch_nil s rb Hok) Hnil). simpl. unfold backlog. by rewrite Hnil, drop_nil.
Qed.

(** Without an endpoint every batch counts as sent. *)
Lemma sendBatch_no_endpoint s c net k rb :
  ring_ok rb → endpoint s = ""%string →
  sendBatch s c net k rb = (with_entries rb (backlog s rb), llen (batch s rb), false).
Proof.
  intros Hok Hep. unfold sendBatch. rewrite Drain_batch by done.
  destruct (llen (batch s rb) =? 0) eqn:E; bool_prop; [by rewrite E|].
  assert (∀ j l, send_loop s c net j l = (llen l, [])) as ->; [|done].
  intros j l. revert j. induction l as [|d l IH]; intros j; [done|]. simpl.
  unfold sendOne. rewrite Hep. simpl. rewrite IH, llen_cons. f_equal. lia.
Qed.

(** After the cancellation the loop ends, within as many rounds as there are
    payloads.  Without an endpoint it empties the buffer, as before.  With one,
    nothing is sent any more: the first batch goes to the end of the buffer, and
    the one drained by the flush is lost. *)
Lemma run_done_spec fuel s net k rb :
  ring_ok rb → (length (entries rb) < fuel)%nat →
  let n := drain_limit (batchSize s) in
  ∃ rb', run_done fuel s net k rb = Some (rb', []) ∧ ring_ok rb' ∧
    entries rb' = if streq (endpoint s) "" then []
                  else drop n (drop n (entries rb) ++ take n (entries rb)).
Proof.
  intros Hok Hf n. revert rb Hok Hf. induction fuel as [|fuel IH]; intros rb Hok Hf; [lia|].
  cbn [run_done]. unfold Len. rewrite (rk_count _ Hok).
  destruct (llen (entries rb) =? 0) eqn:E; bool_prop.
  { apply llen_zero in E. rewrite flush_empty by done. eexists. split; [done|].
    split; [by apply suffix_ok; [|apply suffix_nil]|]. rewrite E, take_nil, drop_nil.
    cbn [app]. rewrite drop_nil. by destruct (streq _ _). }
  rewrite llen_zero, <- (batch_nil s rb Hok), <- llen_zero in E.
  pose proof (llen_nonneg (batch s rb)). assert (Hb : 0 < llen (batch s rb)) by lia.
  destruct (decide (endpoint s = ""%string)) as [Hep|Hep].
  - rewrite sendBatch_no_endpoint by done. simpl. rewrite (proj2 (Z.eqb_neq _ _)) by lia.
    destruct (IH (with_entries rb (backlog s rb))) as (rb' & Hr & Hok' & He).
    + apply suffix_ok; [done|]. exists (batch s rb). by rewrite batch_backlog.
    + cbn [with_entries entries]. rewrite <- (batch_backlog s rb), length_app in Hf.
      unfold llen in Hb. lia.
    + exists rb'. split; [done|]. split; [done|]. by rewrite Hep in He |- *.
  - pose proof (sendBatch_prefix s true net k rb Hok) as Hs.
    assert (Hsent : (sendBatch s true net k rb).1.2 = 0).
    { unfold sendBatch. rewrite Drain_batch by done. rewrite (proj2 (Z.eqb_neq _ _)) by lia.
      by rewrite send_loop_failing by auto. }
    destruct (sendBatch s true net k rb) as [[rb1 sent] err]. simpl in Hsent. subst sent.
    destruct Hs as (_ & He1 & _ & _ & Hok1). rewrite orb_true_r.
    rewrite flush_cancelled by done. eexists. split; [done|].
    split; [apply suffix_ok; [done|]; exists (batch s rb1); by rewrite batch_backlog|].
    unfold streq. rewrite bool_decide_eq_false_2 by done.
    cbn [with_entries entries]. unfold backlog at 1. by rewrite He1.
Qed.

(** * Concrete instances *)

Definition sample_streamer : Streamer := NewStreamer "http://collector".
Definition sample_ring : RingBuffer := Push "b" (Push "a" (NewRingBuffer 1024)).

Lemma sample_ring_ok : ring_ok sample_ring.
Proof. unfold sample_ring. apply Push_ok, Push_ok, NewRingBuffer_ok. Qed.


Lemma outage_iteration_witness :
  let '(rb', backoff', waited) :=
    run_iter sample_streamer (λ _, HttpStatus 503) 0 (sample_ring, 4 * Second) in
  entries rb' ≡ₚ ["a"; "b"]%string ∧ backoff' = 0 ∧ waited = 500 * Millisecond.
Proof.
  pose proof (outage_iteration sample_streamer (λ _, HttpStatus 503) 0 sample_ring (4 * Second)
    ltac:(done) ltac:(simpl; lia) sample_ring_ok ltac:(done)) as Hs.
  destruct (run_iter _ _ _ _) as [[rb' backoff'] waited].
  destruct Hs as (H1 & _ & H2 & H3). split; [exact H1|split; [exact H2|exact H3]].
Defined.

Lemma flush_delivers_all_witness :
  (flushRemaining sample_streamer false (λ _, HttpStatus 200) 0 sample_ring).2 = ["a"; "b"]%string.
Proof.
  apply (flush_delivers_all sample_streamer (λ _, HttpStatus 200) 0 sample_ring sample_ring_ok);
    [done|by intros j; vm_compute].
Defined.

Lemma flush_cancelled_discards_witness :
  flushRemaining sample_streamer true (λ _, HttpStatus 200) 0 sample_ring
  = (with_entries sample_ring [], []).
Proof.
  apply (flush_cancelled_discards sample_streamer (λ _, HttpStatus 200) 0 sample_ring sample_ring_ok).
  done.
Defined.
