(* ===== verification/Detector.v ===== *)
(** The semantic loop detector: SimHash fingerprints
    ([analytics/detector/simhash.go]) and the per-process sliding windows with
    their alerts ([analytics/detector/detector.go]).

    [Ingest] holds the window's lock throughout, so it is one atomic step; its
    clock readings are arguments, in nanoseconds. *)


From S2P Require Import Prelude GoFloat GoStrings.

(** * SimHash *)

Definition simhashBitSize : nat := 64.

Definition hashToken (token : string) : Z := fnv64a token.

(** [h&(1<<uint(i)) != 0] *)
Definition bit_set (h : Z) (i : nat) : bool :=
  negb (Z.land h (Z.shiftl 1 (Z.of_nat i)) =? 0).

(** The inner loop: one vote per bit of the token's hash. *)
Definition cast_votes (h : Z) (votes : list Z) : list Z :=
  imap (λ i v, if bit_set h i then v + 1 else v - 1) votes.

Definition fingerprint (votes : list Z) : Z :=
  foldl (λ fp i, if 0 <? votes !!! i then Z.lor fp (Z.shiftl 1 (Z.of_nat i)) else fp)
    0 (seq 0 simhashBitSize).

Definition SimHash (text : string) : Z :=
  let tokens := fields text in
  if llen tokens =? 0 then 0
  else
    fingerprint (foldl (λ votes token, cast_votes (hashToken token) votes)
      (replicate simhashBitSize 0) tokens).

(** [bits.OnesCount64] *)
Definition OnesCount64 (x : Z) : Z :=
  llen (filter (λ i, Z.testbit x (Z.of_nat i) = true) (seq 0 64)).

Definition HammingDistance (a b : Z) : Z := OnesCount64 (Z.lxor a b).

Definition NormalizedSimilarity (a b : Z) : float64 :=
  let d := HammingDistance a b in
  fsub f_one (fdiv (f_of_Z d) (f_of_Z (Z.of_nat simhashBitSize))).

(** * Windows *)

Record Config := {
  WindowSize : Z;
  TTL : Z;
  FreqThreshold : Z;
  FreqWindow : Z;
  SimilarityThreshold : float64;
  AlertCooldown : Z;
  GCInterval : Z
}.

Definition DefaultConfig : Config := {|
  WindowSize := 20;
  TTL := 5 * Minute;
  FreqThreshold := 5;
  FreqWindow := 10 * Second;
  SimilarityThreshold := f_lit 88 100;
  AlertCooldown := 30 * Second;
  GCInterval := 30 * Second
|}.

Record DetectorEvent := {
  EvPID : Z; EvTimestamp : Z; EvProvider : string; EvModel : string; EvPayload : string
}.

Record DetRecord := {
  RTimestamp : Z; RProvider : string; RModel : string; RPayload : string; RSimHash : Z
}.

(** [lastAlertAt] is the zero time until the first alert. *)
Record ProcessWindow := {
  records : list DetRecord;
  maxSize : Z;
  lastAccess : Z;
  lastAlertAt : option Z
}.

Record Alert := {
  ATimestamp : Z;
  ATargetPID : Z;
  AIsDeadlocked : bool;
  AConfidenceScore : float64;
  ALoopType : string;
  ARequestsInWindow : Z;
  ATimeWindowSeconds : float64;
  AMeanSimilarityIndex : float64;
  AProvider : string;
  AModel : string;
  ARepeatedPayloadSnippet : string
}.

Definition LoopSemanticRepetition : string := "SEMANTIC_REPETITION_LOOP".

Record Detector := {
  cfg : Config;
  windows : gmap Z ProcessWindow;
  alerts : chan Alert
}.

Definition NewDetector (c : Config) : Detector :=
  {| cfg := c; windows := ∅; alerts := make_chan 64 |}.

(** [lastAccess] of a new window is the zero time until its first event. *)
Definition getOrCreateWindow (d : Detector) (pid : Z) : ProcessWindow :=
  match windows d !! pid with
  | Some pw => pw
  | None => {| records := []; maxSize := WindowSize (cfg d); lastAccess := 0;
               lastAlertAt := None |}
  end.

(** The backward loop: consecutive records, from the newest, not older than
    the cutoff. *)
Fixpoint count_recent (cutoff : Z) (newest_first : list DetRecord) : Z :=
  match newest_first with
  | [] => 0
  | r :: rest => if cutoff <=? RTimestamp r then 1 + count_recent cutoff rest else 0
  end.

Definition isFrequent (c : Config) (pw : ProcessWindow) (now : Z) : bool :=
  if FreqThreshold c <=? 0 then false
  else
    let cutoff := i64 (now - duration_secs_int (FreqWindow c)) in
    FreqThreshold c <=? count_recent cutoff (rev (records pw)).

Definition truncatePayload (s : string) (maxLen : Z) : string :=
  if slen s <=? maxLen then s else stake (Z.to_nat maxLen) s +:+ "...".

(** The comparison loop over the records before the newest: the oldest
    timestamp and the sum of similarities, in order. *)
Definition compare_loop (newest : DetRecord) (earlier : list DetRecord) : Z * float64 :=
  foldl (λ '(oldestTime, totalSimilarity) r,
    (if RTimestamp r <? oldestTime then RTimestamp r else oldestTime,
     fadd totalSimilarity (NormalizedSimilarity (RSimHash newest) (RSimHash r))))
    (RTimestamp newest, f_zero) earlier.

(** [analyzeAndAlert]: the new [lastAlertAt] and the alert to send, if any. *)
Definition analyze (c : Config) (pid : Z) (pw : ProcessWindow) (now tSince tNow : Z) :
    option (Z * Alert) :=
  match rev (records pw) with
  | newest :: ((_ :: _) as rest) =>
      let earlier := rev rest in
      let n := llen (records pw) in
      let '(oldestTime, totalSimilarity) := compare_loop newest earlier in
      let comparisons := llen earlier in
      let meanSim := fdiv totalSimilarity (f_of_Z comparisons) in
      if flt meanSim (SimilarityThreshold c) then None
      else if cooling (AlertCooldown c) (lastAlertAt pw) tSince then None
      else
        let timeWindow := f_of_Z (i64 (RTimestamp newest - oldestTime)) in
        let timeWindow := if flt timeWindow f_one then f_one else timeWindow in
        Some (tNow, {|
          ATimestamp := now; ATargetPID := pid; AIsDeadlocked := true;
          AConfidenceScore := meanSim; ALoopType := LoopSemanticRepetition;
          ARequestsInWindow := n; ATimeWindowSeconds := timeWindow;
          AMeanSimilarityIndex := meanSim; AProvider := RProvider newest;
          AModel := RModel newest;
          ARepeatedPayloadSnippet := truncatePayload (RPayload newest) 200 |})
  | _ => None
  end.

(** Appending a record and dropping the excess from the front. *)
Definition push_record (pw : ProcessWindow) (r : DetRecord) (tAccess : Z) : ProcessWindow :=
  let rs := records pw ++ [r] in
  let rs := if maxSize pw <? llen rs
            then drop (Z.to_nat (llen rs - maxSize pw)) rs else rs in
  {| records := rs; maxSize := maxSize pw; lastAccess := tAccess;
     lastAlertAt := lastAlertAt pw |}.

(** The record an event adds to its window. *)
Definition event_record (ev : DetectorEvent) : DetRecord :=
  {| RTimestamp := EvTimestamp ev; RProvider := EvProvider ev; RModel := EvModel ev;
     RPayload := EvPayload ev; RSimHash := SimHash (EvPayload ev) |}.

(** [Ingest] with the readings of the access time, of [time.Since] and of the
    alert time; it also returns the alert it raised, with its time. *)
Definition Ingest (d : Detector) (ev : DetectorEvent) (tAccess tSince tNow : Z) :
    Detector * option (Z * Alert) :=
  let pw := push_record (getOrCreateWindow d (EvPID ev)) (event_record ev) tAccess in
  let found :=
    if isFrequent (cfg d) pw (EvTimestamp ev)
    then analyze (cfg d) (EvPID ev) pw (EvTimestamp ev) tSince tNow else None in
  match found with
  | None =>
      ({| cfg := cfg d; windows := <[EvPID ev := pw]> (windows d); alerts := alerts d |}, None)
  | Some (t, alert) =>
      ({| cfg := cfg d;
          windows := <[EvPID ev := {| records := records pw; maxSize := maxSize pw;
                         lastAccess := lastAccess pw; lastAlertAt := Some t |}]> (windows d);
          alerts := (try_send alert (alerts d)).1 |}, Some (t, alert))
  end.

(** [runGC]: drop the windows not accessed for longer than the TTL. *)
Definition runGC `{MapRange} (d : Detector) (n : nat) (now : Z) : Detector :=
  {| cfg := cfg d;
     windows := delete_if (λ _ pw, TTL (cfg d) <? now - lastAccess pw)
                  (range n (windows d)) (windows d);
     alerts := alerts d |}.

(** * What a fingerprint is *)

Lemma bit_set_testbit h i : bit_set h i = Z.testbit h (Z.of_nat i).
Proof.
  unfold bit_set. destruct (Z.testbit h (Z.of_nat i)) eqn:E.
  - apply negb_true_iff, Z.eqb_neq. intros H0.
    apply (f_equal (λ z, Z.testbit z (Z.of_nat i))) in H0.
    rewrite Z.land_spec, Z.shiftl_spec, Z.sub_diag, Z.bits_0, E in H0 by lia. done.
  - apply negb_false_iff, Z.eqb_eq, Z.bits_inj'. intros n Hn.
    rewrite Z.land_spec, Z.shiftl_spec, Z.bits_0 by lia.
    destruct (decide (n = Z.of_nat i)) as [->|Hne]; [by rewrite E|].
    rewrite andb_false_iff. right.
    destruct (Z.lt_ge_cases n (Z.of_nat i)); [by rewrite Z.testbit_neg_r by lia|].
    apply Z.bits_above_log2; simpl; lia.
Qed.

Lemma cast_votes_lookup h votes i :
  cast_votes h votes !! i =
    (λ v, if Z.testbit h (Z.of_nat i) then v + 1 else v - 1) <$> votes !! i.
Proof. unfold cast_votes. rewrite list_lookup_imap, bit_set_testbit. by destruct (votes !! i). Qed.

(** Votes for bit [i] minus votes against it. *)
Definition balance (tokens : list string) (i : nat) : Z :=
  zsum (λ t, if Z.testbit (hashToken t) (Z.of_nat i) then 1 else -1) tokens.

Lemma votes_balance tokens votes i :
  foldl (λ vs token, cast_votes (hashToken token) vs) votes tokens !! i =
    (λ v, v + balance tokens i) <$> votes !! i.
Proof.
  revert votes. induction tokens as [|t tokens IH]; intros votes; simpl.
  { destruct (votes !! i); simpl; [|done]. f_equal. unfold balance. simpl. lia. }
  rewrite IH, cast_votes_lookup. destruct (votes !! i); simpl; [|done].
  f_equal. unfold balance. simpl. destruct (Z.testbit _ _); lia.
Qed.

Lemma fingerprint_testbit_aux (votes : list Z) (js : list nat) fp (i : nat) :
  Z.testbit (foldl (λ fp i, if 0 <? votes !!! i then Z.lor fp (Z.shiftl 1 (Z.of_nat i)) else fp)
    fp js) (Z.of_nat i) =
  Z.testbit fp (Z.of_nat i) || (bool_decide (i ∈ js) && (0 <? votes !!! i)).
Proof.
  revert fp. induction js as [|j js IH]; intros fp; cbn [foldl].
  { rewrite bool_decide_eq_false_2 by set_solver. by rewrite orb_false_r. }
  rewrite IH. destruct (decide (i = j)) as [->|Hne].
  - rewrite (bool_decide_eq_true_2 (j ∈ j :: js)) by set_solver. simpl.
    destruct (0 <? votes !!! j); [|by rewrite andb_false_r].
    rewrite Z.lor_spec, Z.shiftl_spec, Z.sub_diag by lia. simpl. by rewrite orb_true_r.
  - rewrite (bool_decide_ext (i ∈ j :: js) (i ∈ js)) by set_solver.
    destruct (0 <? votes !!! j); [|done].
    rewrite Z.lor_spec, Z.shiftl_spec by lia.
    assert (Z.testbit 1 (Z.of_nat i - Z.of_nat j) = false) as ->; [|by rewrite orb_false_r].
    destruct (Z.lt_ge_cases (Z.of_nat i) (Z.of_nat j)); [by rewrite Z.testbit_neg_r by lia|].
    apply Z.bits_above_log2; simpl; lia.
Qed.

Lemma fingerprint_testbit (votes : list Z) (i : nat) :
  Z.testbit (fingerprint votes) (Z.of_nat i) = bool_decide (i < 64)%nat && (0 <? votes !!! i).
Proof.
  unfold fingerprint. rewrite fingerprint_testbit_aux, Z.bits_0, orb_false_l.
  f_equal. apply bool_decide_ext. unfold simhashBitSize. rewrite elem_of_seq. lia.
Qed.

Lemma SimHash_testbit text (i : nat) :
  Z.testbit (SimHash text) (Z.of_nat i) =
  bool_decide (i < 64)%nat && (0 <? balance (fields text) i).
Proof.
  unfold SimHash. destruct (llen (fields text) =? 0) eqn:E; bool_prop.
  { destruct (fields text); [|done]. by rewrite Z.bits_0, andb_false_r. }
  rewrite fingerprint_testbit. case_bool_decide as Hi; [|done]. rewrite !andb_true_l.
  rewrite list_lookup_total_alt, votes_balance, lookup_replicate_2 by done. done.
Qed.

(** C39: a SimHash bit is the majority vote of the tokens: bit [i] is set
    exactly when more tokens hash to a value with that bit than without it, and
    no bit above the 64th is. *)
Theorem SimHash_majority text (i : nat) :
  Z.testbit (SimHash text) (Z.of_nat i) =
  bool_decide (i < 64)%nat && (0 <? balance (fields text) i).
Proof. apply SimHash_testbit. Qed.

Lemma testbit_eq a b :
  0 <= a → 0 <= b → (∀ i : nat, Z.testbit a (Z.of_nat i) = Z.testbit b (Z.of_nat i)) → a = b.
Proof.
  intros Ha Hb H. apply Z.bits_inj'. intros n Hn. rewrite <- (Z2Nat.id n) by done. apply H.
Qed.

Lemma fingerprint_nonneg (votes : list Z) : 0 <= fingerprint votes.
Proof.
  unfold fingerprint.
  cut (∀ js fp, 0 <= fp → 0 <= foldl (λ fp i,
    if 0 <? votes !!! i then Z.lor fp (Z.shiftl 1 (Z.of_nat i)) else fp) fp js).
  { intros Hf. by apply Hf. }
  intros js. induction js as [|j js IH]; intros fp Hfp; [done|].
  cbn [foldl]. apply IH. case_match; [|done]. apply Z.lor_nonneg. split; [done|].
  apply Z.shiftl_nonneg. lia.
Qed.

Lemma SimHash_nonneg text : 0 <= SimHash text.
Proof. unfold SimHash. case_match; [done|]. apply fingerprint_nonneg. Qed.

(** SimHash fits in 64 bits and sees a text as a bag of words: texts whose
    tokens are a permutation of each other have the same fingerprint. *)
Theorem SimHash_bag s t :
  in_u64 (SimHash s) ∧ (fields s ≡ₚ fields t → SimHash s = SimHash t).
Proof.
  split.
  - split; [apply SimHash_nonneg|]. destruct (decide (SimHash s = 0)) as [->|Hne]; [lia|].
    pose proof (SimHash_nonneg s). apply Z.log2_lt_pow2; [lia|].
    apply Z.nle_gt. intros Hlog.
    pose proof (Z.bit_log2 (SimHash s) ltac:(lia)) as Hbit.
    rewrite <- (Z2Nat.id (Z.log2 (SimHash s))) in Hbit by lia.
    rewrite SimHash_testbit, bool_decide_eq_false_2 in Hbit by lia. done.
  - intros Hp. apply testbit_eq; [apply SimHash_nonneg..|]. intros i.
    rewrite !SimHash_testbit. f_equal. unfold balance. by rewrite Hp.
Qed.

(** * Distance and similarity *)

Lemma OnesCount64_range x : 0 <= OnesCount64 x <= 64.
Proof.
  unfold OnesCount64, llen. pose proof (length_filter (λ i, Z.testbit x (Z.of_nat i) = true) (seq 0 64)).
  rewrite length_seq in *. lia.
Qed.

Lemma OnesCount64_zero x : in_u64 x → OnesCount64 x = 0 ↔ x = 0.
Proof.
  intros [H0 H64]. split; [|by intros ->].
  unfold OnesCount64. intros Hz. assert (Hnil : ∀ i : nat, (i < 64)%nat → Z.testbit x (Z.of_nat i) = false).
  { intros i Hi. apply not_true_iff_false. intros Hb.
    assert (i ∈ filter (λ i, Z.testbit x (Z.of_nat i) = true) (seq 0 64)) as Hin
      by (apply list_elem_of_filter; rewrite elem_of_seq; split; [done|lia]).
    destruct (filter _ (seq 0 64)); [by apply elem_of_nil in Hin|].
    unfold llen in Hz. simpl in Hz. lia. }
  apply testbit_eq; [done..|]. intros i. rewrite Z.bits_0.
  destruct (decide (i < 64)%nat); [by apply Hnil|].
  destruct (decide (x = 0)) as [->|]; [by rewrite Z.bits_0|].
  apply Z.bits_above_log2; [done|]. assert (Z.log2 x < 64) by (apply Z.log2_lt_pow2; lia). lia.
Qed.

Lemma HammingDistance_refl a : HammingDistance a a = 0.
Proof. unfold HammingDistance. by rewrite Z.lxor_nilpotent. Qed.

(** The similarity of every possible distance, computed exactly. *)
Lemma similarity_table :
  forallb (λ d : nat,
    let sim := fsub f_one (fdiv (f_of_Z (Z.of_nat d)) (f_of_Z 64)) in
    Bool.eqb (flt sim (f_lit 88 100)) (7 <? d)%nat &&
    Bool.eqb (fle f_one sim) (d =? 0)%nat &&
    fle f_zero sim && fle sim f_one) (seq 0 65) = true.
Proof. vm_compute. reflexivity. Qed.

Lemma similarity_cases a b :
  let sim := NormalizedSimilarity a b in
  flt sim (f_lit 88 100) = (7 <? HammingDistance a b) ∧
  fle f_one sim = (HammingDistance a b =? 0) ∧ fle f_zero sim = true ∧ fle sim f_one = true.
Proof.
  pose proof similarity_table as Ht. rewrite forallb_forall in Ht.
  pose proof (OnesCount64_range (Z.lxor a b)) as Hr.
  specialize (Ht (Z.to_nat (HammingDistance a b))).
  unfold NormalizedSimilarity, simhashBitSize. unfold HammingDistance in *.
  set (d := OnesCount64 (Z.lxor a b)) in *.
  assert (Hin : In (Z.to_nat d) (seq 0 65)) by (apply in_seq; lia).
  specialize (Ht Hin). rewrite Z2Nat.id in Ht by lia. cbv zeta in *.
  change (Z.of_nat 64) with 64. rewrite !andb_true_iff, !eqb_true_iff in Ht.
  destruct Ht as [[[H1 H2] H3] H4]. split_and!; [| |done|done].
  - rewrite H1. destruct (Z.ltb_spec 7 d), (Nat.ltb_spec 7 (Z.to_nat d)); lia.
  - rewrite H2. destruct (Z.eqb_spec d 0), (Nat.eqb_spec (Z.to_nat d) 0); lia.
Qed.

(** The similarity of two fingerprints.  It lies between 0 and 1, it is 1
    exactly for equal fingerprints, it is symmetric, and it reaches the default
    threshold 0.88 exactly when at most 7 of the 64 bits differ. *)
Theorem NormalizedSimilarity_spec a b :
  in_u64 a → in_u64 b →
  let sim := NormalizedSimilarity a b in
  fle f_zero sim = true ∧ fle sim f_one = true ∧
  (fle f_one sim = true ↔ a = b) ∧
  sim = NormalizedSimilarity b a ∧
  (flt sim (SimilarityThreshold DefaultConfig) = false ↔ HammingDistance a b <= 7).
Proof.
  intros Ha Hb. pose proof (similarity_cases a b) as (H1 & H2 & H3 & H4). cbv zeta in *.
  split_and!; [done..| | |].
  - rewrite H2, Z.eqb_eq. unfold HammingDistance. rewrite OnesCount64_zero, Z.lxor_eq_0_iff; [done|].
    split; [apply Z.lxor_nonneg; destruct Ha, Hb; lia|].
    assert (0 <= Z.lxor a b) by (apply Z.lxor_nonneg; destruct Ha, Hb; lia).
    destruct (decide (Z.lxor a b = 0)) as [->|]; [lia|]. apply Z.log2_lt_pow2; [lia|].
    destruct Ha, Hb.
    assert (∀ z, 0 <= z < 2 ^ 64 → Z.log2 z < 64) as Hl.
    { intros z [? ?]. destruct (decide (z = 0)) as [->|]; [done|]. apply Z.log2_lt_pow2; lia. }
    pose proof (Z.log2_lxor a b). pose proof (Hl a). pose proof (Hl b). lia.
  - unfold NormalizedSimilarity, HammingDistance. by rewrite Z.lxor_comm.
  - simpl. rewrite H1, Z.ltb_ge. done.
Qed.

(** * Windows *)

(** The counting loop that stops at the first old record agrees with the plain
    count when the window is in time order. *)
Lemma count_recent_sorted cutoff rs :
  Sorted Z.ge (RTimestamp <$> rs) →
  count_recent cutoff rs = llen (filter (λ r, cutoff <= RTimestamp r) rs).
Proof.
  intros Hs. apply Sorted_StronglySorted in Hs; [|intros x y z; lia].
  induction rs as [|r rs IH]; [done|]. cbn [fmap list_fmap] in Hs.
  apply StronglySorted_inv in Hs as [Hs Hall]. cbn [count_recent].
  destruct (Z.leb_spec cutoff (RTimestamp r)).
  - rewrite filter_cons_True by done. rewrite llen_cons, IH by done. done.
  - rewrite filter_cons_False by lia.
    assert (filter (λ r0, cutoff <= RTimestamp r0) rs = []) as ->; [|done].
    apply elem_of_nil_inv. intros r0 [Hr0 Hin]%list_elem_of_filter.
    rewrite Forall_fmap, Forall_forall in Hall. specialize (Hall _ Hin). simpl in *. lia.
Qed.

(** On a window in time order, [isFrequent] holds exactly when at least
    [FreqThreshold] (positive) of its records are at or after the cutoff. *)
Lemma isFrequent_spec c pw now :
  Sorted Z.ge (RTimestamp <$> rev (records pw)) →
  isFrequent c pw now = true ↔
  0 < FreqThreshold c ∧
  FreqThreshold c <=
    llen (filter (λ r, i64 (now - duration_secs_int (FreqWindow c)) <= RTimestamp r) (records pw)).
Proof.
  intros Hs. unfold isFrequent. rewrite count_recent_sorted by done.
  assert (Hl : ∀ P (HP : ∀ x, Decision (P x)) (l : list DetRecord),
    llen (filter P (rev l)) = llen (filter P l)).
  { intros P HP l. unfold llen. f_equal. apply Permutation_length.
    apply filter_Permutation. symmetry. apply Permutation_rev. }
  rewrite Hl. destruct (FreqThreshold c <=? 0) eqn:E; bool_prop; [split; [done|lia]|].
  rewrite Z.leb_le. split; [|by intros [? ?]]. intros. split; [lia|done].
Qed.

Lemma push_record_records pw r t :
  0 <= maxSize pw →
  records (push_record pw r t) = newest_of (Z.to_nat (maxSize pw)) (records pw ++ [r]).
Proof.
  intros Hm. unfold push_record, newest_of. simpl.
  pose proof (llen_app (records pw) [r]) as Hl. unfold llen in *. rewrite length_app in *.
  simpl in *. cases; [f_equal; lia|].
  replace (length (records pw) + 1 - Z.to_nat (maxSize pw))%nat with 0%nat by lia. done.
Qed.

(** ** Executions *)

(** One call of the detector: an event with its three clock readings, or a
    garbage collection. *)
Inductive det_op :=
  | OpIngest (ev : DetectorEvent) (tAccess tSince tNow : Z)
  | OpGC (n : nat) (now : Z).

(** The alerts raised, oldest first, as pairs of a PID and a time. *)
Definition alert_log := list (Z * Z).

Definition det_step `{MapRange} (s : Detector * alert_log) (op : det_op) : Detector * alert_log :=
  match op with
  | OpIngest ev tA tS tN =>
      let '(d, found) := Ingest s.1 ev tA tS tN in
      (d, s.2 ++ match found with Some (t, a) => [(ATargetPID a, t)] | None => [] end)
  | OpGC n now => (runGC s.1 n now, s.2)
  end.

Definition det_run `{MapRange} (c : Config) (ops : list det_op) : Detector * alert_log :=
  foldl det_step (NewDetector c, []) ops.

(** The times of a call: its first and last clock reading. *)
Definition op_start (op : det_op) : Z :=
  match op with OpIngest _ tA _ _ => tA | OpGC _ now => now end.
Definition op_end (op : det_op) : Z :=
  match op with OpIngest _ _ _ tN => tN | OpGC _ now => now end.

(** The clock does not go back, and no call lasts longer than [D]. *)
Fixpoint timed (D t : Z) (ops : list det_op) : Prop :=
  match ops with
  | [] => True
  | op :: rest =>
      t <= op_start op ∧
      match op with OpIngest _ tA tS tN => tA <= tS <= tN ∧ tN - tA <= D | OpGC _ _ => True end ∧
      timed D (op_end op) rest
  end.

Lemma analyze_inv c pid pw now tS tN t a :
  analyze c pid pw now tS tN = Some (t, a) →
  t = tN ∧ ATargetPID a = pid ∧ cooling (AlertCooldown c) (lastAlertAt pw) tS = false ∧
  flt (AConfidenceScore a) (SimilarityThreshold c) = false.
Proof.
  unfold analyze. destruct (rev (records pw)) as [|newest [|r rest]]; [done..|].
  destruct (compare_loop newest _) as [o tot]. cbv zeta.
  destruct (flt (fdiv _ _) _) eqn:Ef; [done|]. destruct (cooling _ _ _) eqn:Ec; [done|].
  by intros [= <- <-].
Qed.

Section spacing.
Set Default Proof Using "All".
Context `{MapRange} (c : Config) (D : Z).
Hypothesis HD : AlertCooldown c + D <= TTL c.

(** A past alert of [p] still holds its window armed, or is old enough. *)
Definition armed (d : Detector) (now : Z) (e : Z * Z) : Prop :=
  e.2 + AlertCooldown c <= now ∨
  ∃ pw t0, windows d !! e.1 = Some pw ∧ lastAlertAt pw = Some t0 ∧
    e.2 <= t0 <= now ∧ t0 <= lastAccess pw + D.

Definition spaced : alert_log → Prop :=
  StronglySorted (λ a b, a.1 = b.1 → a.2 + AlertCooldown c <= b.2).

Definition spacing_inv (now : Z) (s : Detector * alert_log) : Prop :=
  cfg s.1 = c ∧ Forall (armed s.1 now) s.2 ∧ spaced s.2.

Lemma spacing_gc now s n t :
  spacing_inv now s → now <= t → spacing_inv t (det_step s (OpGC n t)).
Proof.
  intros (Hc & Ha & Hs) Ht. split_and!; [done| |done]. simpl.
  eapply Forall_impl; [exact Ha|]. intros [p u] [Hold|(pw & t0 & Hw & H1 & H2 & H3)].
  { left. lia. }
  unfold armed. simpl in *. rewrite delete_if_range, Hw. simpl. rewrite Hc.
  destruct (TTL c <? t - lastAccess pw) eqn:E; bool_prop; [left; lia|].
  right. exists pw, t0. split_and!; try done; lia.
Qed.

Lemma spacing_ingest now s ev tA tS tN :
  spacing_inv now s → now <= tA → tA <= tS <= tN → tN - tA <= D →
  spacing_inv tN (det_step s (OpIngest ev tA tS tN)).
Proof.
  intros (Hc & Ha & Hs) HA HS HN. simpl. unfold Ingest. rewrite Hc.
  set (pw := push_record (getOrCreateWindow s.1 (EvPID ev)) (event_record ev) tA).
  assert (Hpw : ∀ q t0, windows s.1 !! EvPID ev = Some q →
    lastAlertAt q = Some t0 → lastAlertAt pw = Some t0 ∧ lastAccess pw = tA).
  { intros q t0 Hq Ht0. unfold pw, getOrCreateWindow. by rewrite Hq. }
  match goal with |- context [match ?f with Some _ => _ | None => _ end] =>
    destruct f as [[t a]|] eqn:Ef end; simpl; split; try done.
  - assert (Hfound : t = tN ∧ ATargetPID a = EvPID ev ∧
      cooling (AlertCooldown c) (lastAlertAt pw) tS = false).
    { destruct (isFrequent c pw _); [|done]. by apply analyze_inv in Ef as (? & ? & ? & _). }
    destruct Hfound as (-> & Hp & Hcool).
    assert (Hold : ∀ u, (EvPID ev, u) ∈ s.2 → u + AlertCooldown c <= tS).
    { intros u Hu. rewrite Forall_forall in Ha.
      destruct (Ha _ Hu) as [?|(q & t0 & Hw & H1 & H2 & H3)]; simpl in *; [lia|].
      destruct (Hpw _ _ Hw H1) as [Hl _]. rewrite Hl in Hcool. simpl in Hcool.
      bool_prop. lia. }
    split.
    + apply Forall_app. split; [|constructor; [|constructor]].
      * apply Forall_forall. intros [p u] Hu. unfold armed. simpl.
        destruct (decide (p = EvPID ev)) as [->|Hne]; [left; specialize (Hold u Hu); lia|].
        rewrite lookup_insert_ne by done. rewrite Forall_forall in Ha.
        destruct (Ha _ Hu) as [?|(q & t0 & Hw & H1 & H2 & H3)]; simpl in *; [left; lia|].
        right. exists q, t0. split_and!; try done; lia.
      * unfold armed. simpl. rewrite Hp, lookup_insert_eq. right. eexists _, tN.
        split_and!; try done; simpl; lia.
    + apply StronglySorted_app. split_and!; [|done|by repeat constructor].
      intros [p u] e Hu ->%list_elem_of_singleton. simpl. rewrite Hp. intros ->.
      specialize (Hold u Hu). lia.
  - rewrite app_nil_r. split; [|done]. eapply Forall_impl; [exact Ha|].
    intros [p u] [Hold|(q & t0 & Hw & H1 & H2 & H3)]; [left; simpl in *; lia|].
    right. simpl in *. destruct (decide (p = EvPID ev)) as [->|Hne].
    + rewrite lookup_insert_eq. destruct (Hpw _ _ Hw H1) as [? _].
      exists pw, t0. split_and!; try done; simpl; lia.
    + rewrite lookup_insert_ne by done. exists q, t0. split_and!; try done; lia.
Qed.

Lemma spacing_run ops now s :
  spacing_inv now s → timed D now ops → spaced (foldl det_step s ops).2.
Proof.
  revert now s. induction ops as [|op ops IH]; intros now s Hs; [by destruct Hs as (_ & _ & ?)|].
  intros (Ht & Hop & Hrest). cbn [foldl]. eapply IH; [|exact Hrest].
  destruct op as [ev tA tS tN|n t]; [|by apply (spacing_gc now)].
  destruct Hop. by apply (spacing_ingest now).
Qed.
End spacing.

(** C10: alerts about one process are spaced.  Over any run of events and
    collections, two alerts raised for the same PID are at least the cooldown
    apart, provided the clock does not go back and windows outlive the cooldown
    plus the length of one call. *)
Theorem alerts_spaced `{MapRange} c D t0 ops :
  AlertCooldown c + D <= TTL c → timed D t0 ops →
  ∀ i j p t t', (i < j)%nat →
    (det_run c ops).2 !! i = Some (p, t) → (det_run c ops).2 !! j = Some (p, t') →
    t + AlertCooldown c <= t'.
Proof.
  intros HD Ht i j p t t' Hij Hi Hj.
  assert (Hs : spaced c (det_run c ops).2).
  { eapply spacing_run; [exact HD| |exact Ht]. split_and!; [done|constructor..]. }
  by apply (StronglySorted_lookup_lt _ _ _ _ _ _ Hs Hij Hi Hj).
Qed.

(** ** What a window holds *)

(** The events of one process among the calls of a run. *)
Definition events_of (p : Z) (ops : list det_op) : list DetectorEvent :=
  omap (λ op, match op with
              | OpIngest ev _ _ _ => if EvPID ev =? p then Some ev else None
              | OpGC _ _ => None
              end) ops.

Definition is_ingest (op : det_op) : Prop :=
  match op with OpIngest _ _ _ _ => True | OpGC _ _ => False end.

Lemma Ingest_window d ev tA tS tN p :
  (records <$> windows (Ingest d ev tA tS tN).1 !! p) =
  if EvPID ev =? p
  then Some (records (push_record (getOrCreateWindow d p) (event_record ev) tA))
  else records <$> windows d !! p.
Proof.
  unfold Ingest. destruct (Z.eqb_spec (EvPID ev) p) as [->|Hne];
    destruct (if isFrequent _ _ _ then _ else None) as [[t a]|]; simpl.
  1,2: by rewrite lookup_insert_eq.
  all: by rewrite lookup_insert_ne.
Qed.

Definition windows_sized (d : Detector) : Prop :=
  ∀ p pw, windows d !! p = Some pw → maxSize pw = WindowSize (cfg d).

Lemma Ingest_sized d ev tA tS tN :
  windows_sized d → windows_sized (Ingest d ev tA tS tN).1.
Proof.
  intros Hd p pw. unfold Ingest.
  assert (Hm : maxSize (getOrCreateWindow d (EvPID ev)) = WindowSize (cfg d)).
  { unfold getOrCreateWindow. destruct (windows d !! EvPID ev) eqn:E; [by eapply Hd|done]. }
  destruct (if isFrequent _ _ _ then _ else None) as [[t a]|]; simpl;
    intros [[_ <-]|[_ Hp]]%lookup_insert_Some; simpl; eauto.
Qed.

Lemma Ingest_cfg d ev tA tS tN : cfg (Ingest d ev tA tS tN).1 = cfg d.
Proof. unfold Ingest. by destruct (if isFrequent _ _ _ then _ else None) as [[t a]|]. Qed.

(** The window of [p] holds the newest events of its history. *)
Definition holds_history (d : Detector) (p : Z) (hist : list DetectorEvent) : Prop :=
  records <$> windows d !! p =
  match hist with
  | [] => None
  | _ => Some (newest_of (Z.to_nat (WindowSize (cfg d))) (event_record <$> hist))
  end.

Lemma Ingest_history d ev tA tS tN p hist :
  0 <= WindowSize (cfg d) → windows_sized d → holds_history d p hist →
  holds_history (Ingest d ev tA tS tN).1 p
    (hist ++ if EvPID ev =? p then [ev] else []).
Proof.
  unfold holds_history. intros HW Hd Hh. rewrite Ingest_window, Ingest_cfg.
  destruct (Z.eqb_spec (EvPID ev) p) as [Hp|Hp]; [|by rewrite app_nil_r].
  destruct (windows d !! p) as [pw|] eqn:Ew.
  - assert (Hm := Hd _ _ Ew). destruct hist as [|h hist]; [done|].
    rewrite push_record_records; unfold getOrCreateWindow; rewrite Ew; [|lia].
    injection Hh as ->. rewrite Hm, newest_of_snoc.
    change ((h :: hist) ++ [ev]) with (h :: (hist ++ [ev])). f_equal.
    cbn [fmap list_fmap]. by rewrite fmap_app.
  - destruct hist; [|done]. 
    rewrite push_record_records; unfold getOrCreateWindow; by rewrite Ew.
Qed.

(** C11: the sliding window.  Over any run of events, the window of a process
    holds its most recent [WindowSize] events, in order and with their
    fingerprints, whatever other processes do in between; a process without
    events has no window. *)
Theorem window_is_recent_history `{MapRange} c ops p :
  0 <= WindowSize c → Forall is_ingest ops →
  records <$> windows (det_run c ops).1 !! p =
  match events_of p ops with
  | [] => None
  | evs => Some (newest_of (Z.to_nat (WindowSize c)) (event_record <$> evs))
  end.
Proof.
  intros HW Hops. unfold det_run.
  cut (∀ s hist, cfg s.1 = c → windows_sized s.1 → holds_history s.1 p hist →
    let d := (foldl det_step s ops).1 in cfg d = c ∧ holds_history d p (hist ++ events_of p ops)).
  { intros Hcut. destruct (Hcut (NewDetector c, []) [] eq_refl) as [Hc Hh]; [done..|].
    unfold holds_history in Hh. rewrite Hc in Hh. simpl in Hh. by destruct (events_of p ops). }
  induction Hops as [|op ops Hop Hops IH]; intros s hist Hc Hs Hh.
  { unfold events_of. simpl. by rewrite app_nil_r. }
  destruct op as [ev tA tS tN|]; [|done]. cbn [foldl det_step].
  destruct (Ingest s.1 ev tA tS tN) as [d found] eqn:Ei.
  pose proof (Ingest_cfg s.1 ev tA tS tN) as Hc'. pose proof (Ingest_sized s.1 ev tA tS tN Hs) as Hs'.
  pose proof (Ingest_history s.1 ev tA tS tN p hist ltac:(by rewrite Hc) Hs Hh) as Hh'.
  rewrite Ei in Hc', Hs', Hh'. simpl in Hc', Hs', Hh'.
  destruct (IH (d, s.2 ++ match found with Some (t, a) => [(ATargetPID a, t)] | None => [] end)
    (hist ++ if EvPID ev =? p then [ev] else [])) as [? Hfin]; [simpl; congruence|done..|].
  split; [done|]. unfold events_of in *. simpl. rewrite <- app_assoc in Hfin.
  by destruct (EvPID ev =? p).
Qed.

(** ** Repetition *)

Lemma similarity_refl a : NormalizedSimilarity a a = f_one.
Proof. unfold NormalizedSimilarity. rewrite HammingDistance_refl. vm_compute. reflexivity. Qed.

Lemma ones_table :
  forallb (λ k : nat,
    bool_decide (fdiv (foldl fadd f_zero (replicate k f_one)) (f_of_Z (Z.of_nat k)) = f_one))
    (seq 1 19) = true.
Proof. vm_compute. reflexivity. Qed.

Lemma mean_of_ones (k : nat) :
  (1 <= k <= 19)%nat →
  fdiv (foldl fadd f_zero (replicate k f_one)) (f_of_Z (Z.of_nat k)) = f_one.
Proof.
  intros Hk. pose proof ones_table as Ht. rewrite forallb_forall in Ht.
  specialize (Ht k). apply bool_decide_eq_true in Ht; [done|]. apply in_seq. lia.
Qed.

Lemma compare_loop_same newest earlier :
  (∀ r, r ∈ earlier → RSimHash r = RSimHash newest) →
  (compare_loop newest earlier).2 = foldl fadd f_zero (replicate (length earlier) f_one).
Proof.
  unfold compare_loop. generalize (RTimestamp newest) at 1. generalize f_zero.
  induction earlier as [|r rs IH]; intros x t Hr; [done|]. cbn [foldl length replicate].
  rewrite (Hr r), similarity_refl by left. apply IH. intros r' Hr'. apply Hr. by right.
Qed.

(** A window of equal fingerprints has confidence one. *)
Lemma analyze_same c pid rs r m la lastAlert now tS tN :
  (1 <= length rs <= 19)%nat → (∀ x, x ∈ rs → RSimHash x = RSimHash r) →
  cooling (AlertCooldown c) lastAlert tS = false →
  flt f_one (SimilarityThreshold c) = false →
  ∃ a, analyze c pid {| records := rs ++ [r]; maxSize := m; lastAccess := la;
                        lastAlertAt := lastAlert |} now tS tN = Some (tN, a) ∧
    AConfidenceScore a = f_one ∧ ATargetPID a = pid ∧
    ARequestsInWindow a = llen (rs ++ [r]).
Proof.
  intros Hlen Hsame Hcool Hthr. unfold analyze. simpl. rewrite rev_app_distr. simpl.
  destruct (rev rs) as [|y ys] eqn:Er.
  { apply (f_equal length) in Er. rewrite length_rev in Er. simpl in Er. lia. }
  assert (Hrs : rev (y :: ys) = rs) by (rewrite <- (rev_involutive rs), Er; done).
  rewrite Hrs. pose proof (compare_loop_same r rs Hsame) as Hcmp.
  destruct (compare_loop r rs) as [o tot]. simpl in Hcmp. subst tot. unfold llen.
  rewrite mean_of_ones, Hthr, Hcool by done. by eexists.
Qed.

Lemma count_recent_all cutoff rs :
  (∀ r, r ∈ rs → cutoff <= RTimestamp r) → count_recent cutoff rs = llen rs.
Proof.
  induction rs as [|r rs IH]; intros Hall; [done|]. cbn [count_recent].
  assert (cutoff <= RTimestamp r) as ->%Z.leb_le by (apply Hall; left).
  rewrite llen_cons, IH; [done|]. intros x Hx. apply Hall. by right.
Qed.

(** With the default configuration, a fifth event of a process within ten
    seconds whose fingerprint equals that of every record of its window raises a
    loop alert with confidence exactly 1, unless an alert was raised less than
    30 s before.  This holds for any payload, the empty one included. *)
Theorem identical_payloads_alert d ev tA tS tN pw :
  cfg d = DefaultConfig → windows d !! EvPID ev = Some pw → maxSize pw = 20 →
  4 <= llen (records pw) <= 20 → in_i64 (EvTimestamp ev - 10) →
  (∀ r, r ∈ records pw → RSimHash r = SimHash (EvPayload ev) ∧
     EvTimestamp ev - 10 <= RTimestamp r) →
  cooling (30 * Second) (lastAlertAt pw) tS = false →
  ∃ a, (Ingest d ev tA tS tN).2 = Some (tN, a) ∧
    ATargetPID a = EvPID ev ∧ AConfidenceScore a = f_one.
Proof.
  intros Hc Hw Hm Hlen Hi Hall Hcool. unfold Ingest, getOrCreateWindow. rewrite Hw, Hc.
  set (r := event_record ev).
  assert (Hrs : ∃ rs, records (push_record pw r tA) = rs ++ [r] ∧
      (∀ x, x ∈ rs → x ∈ records pw) ∧ (4 <= length rs <= 19)%nat).
  { rewrite push_record_records, Hm by lia. unfold newest_of, llen in *.
    rewrite length_app. simpl. eexists. rewrite drop_app_le by lia. split_and!; [done| | |].
    - intros x Hx. rewrite <- (take_drop (length (records pw) + 1 - Pos.to_nat 20) (records pw)).
      apply elem_of_app. by right.
    - rewrite length_drop. lia.
    - rewrite length_drop. lia. }
  destruct Hrs as (rs & Hrs & Hsub & Hk).
  assert (Hfreq : isFrequent DefaultConfig (push_record pw r tA) (EvTimestamp ev) = true).
  { unfold isFrequent. rewrite Hrs.
    change (duration_secs_int (FreqWindow DefaultConfig)) with 10. rewrite i64_id by done.
    rewrite count_recent_all.
    - unfold llen. rewrite length_rev, length_app. simpl. apply Z.leb_le. lia.
    - intros x Hx%list_elem_of_In%in_rev%list_elem_of_In.
      apply elem_of_app in Hx as [Hx| ->%list_elem_of_singleton]; [by apply Hall, Hsub|simpl; lia]. }
  destruct (analyze_same DefaultConfig (EvPID ev) rs r (maxSize pw) tA (lastAlertAt pw)
    (EvTimestamp ev) tS tN) as (a & Ha & H1 & H2 & _); [lia| |done|by vm_compute|].
  { intros x Hx. by apply Hall, Hsub. }
  rewrite Hfreq. unfold push_record in *. simpl in Hrs. rewrite Hrs, Ha. simpl. eauto.
Qed.

(** * Concrete instances *)

Lemma NormalizedSimilarity_spec_witness :
  flt (NormalizedSimilarity 255 1) (SimilarityThreshold DefaultConfig) = false.
Proof.
  apply (NormalizedSimilarity_spec 255 1); [unfold in_u64; lia|unfold in_u64; lia|].
  vm_compute. discriminate.
Defined.

(** An event of process 42 at a given second. *)
Definition sample_event (t : Z) (payload : string) : DetectorEvent :=
  {| EvPID := 42; EvTimestamp := t; EvProvider := "openai"; EvModel := "gpt"; EvPayload := payload |}.

(** Events one second apart, from second 0 to second 44, then a collection. *)
Definition sample_ops : list det_op :=
  ((λ n, let t := Z.of_nat n * Second in OpIngest (sample_event (Z.of_nat n) "") t t t) <$> seq 0 45)
  ++ [OpGC 0 (45 * Second)].

Lemma sample_ops_timed : timed 0 0 sample_ops.
Proof. vm_compute. repeat split; discriminate. Qed.

(** Two alerts are raised, at 4 s and at 34 s. *)
Lemma alerts_spaced_witness :
  (det_run DefaultConfig sample_ops).2 = [(42, 4 * Second); (42, 34 * Second)] ∧
  4 * Second + AlertCooldown DefaultConfig <= 34 * Second.
Proof.
  split; [vm_compute; reflexivity|].
  apply (alerts_spaced DefaultConfig 0 0 sample_ops ltac:(by vm_compute) sample_ops_timed
    0 1 42 (4 * Second) (34 * Second)); [lia|vm_compute; reflexivity|vm_compute; reflexivity].
Defined.

Lemma window_is_recent_history_witness :
  let ops := [OpIngest (sample_event 0 "a") 0 0 0; OpIngest (sample_event 1 "b") 1 1 1] in
  records <$> windows (det_run DefaultConfig ops).1 !! 42 =
    Some (event_record <$> [sample_event 0 "a"; sample_event 1 "b"]).
Proof.
  intros ops. apply (window_is_recent_history DefaultConfig ops 42); [by vm_compute|].
  repeat constructor.
Defined.

(** Four earlier events with an empty payload. *)
Definition sample_detector : Detector :=
  foldl (λ d t, (Ingest d (sample_event t "") 0 0 0).1) (NewDetector DefaultConfig) [0; 1; 2; 3].

Lemma identical_payloads_alert_witness :
  ∃ a, (Ingest sample_detector (sample_event 4 "") 4 4 4).2 = Some (4, a) ∧
    AConfidenceScore a = f_one.
Proof.
  destruct (windows sample_detector !! 42) as [pw|] eqn:Hw; [|vm_compute in Hw; discriminate].
  vm_compute in Hw. injection Hw as <-.
  destruct (identical_payloads_alert sample_detector (sample_event 4 "") 4 4 4
    _ (eq_refl : cfg sample_detector = DefaultConfig)
    (ltac:(vm_compute; reflexivity)) (ltac:(vm_compute; reflexivity))
    (ltac:(vm_compute; split; discriminate)) (ltac:(unfold in_i64; simpl; lia))) as (a & H1 & _ & H2).
  - intros r Hr. simpl in Hr. repeat (apply elem_of_cons in Hr as [->|Hr]); [..|by apply elem_of_nil in Hr];
      split; vm_compute; (reflexivity || discriminate).
  - vm_compute. reflexivity.
  - exists a. split; [exact H1|exact H2].
Defined.
