(* ===== verification/Model.v ===== *)
(** The telemetry data exchanged between the components
    ([proxy/model/types.go]).  Unsigned counters are [Z] values in their range;
    percentages and temperatures that the code keeps as [float64] are
    [GoFloat.float64]. *)

From S2P Require Import Prelude GoFloat.

Record HostMetrics := {
  CPUUtilizationPct : float64;
  HMemoryTotalBytes : Z;
  HMemoryUsedBytes : Z
}.

Record ProcessMetrics := {
  PPID : Z;
  PContainerID : string;
  PProcessName : string;
  PCPUUsagePct : float64;
  PRSSBytes : Z;
  PVSizeBytes : Z
}.

Record GPUProcessMetrics := { GPID : Z; GVRAMUsedBytes : Z }.

Record GPUDeviceMetrics := {
  GIndex : Z;
  GUUID : string;
  GModel : string;
  GPCIBusID : string;
  GMigDeviceGUID : string;
  GSMUtilizationPct : float64;
  GMemoryUtilizationPct : float64;
  GMemoryTotalBytes : Z;
  GMemoryUsedBytes : Z;
  GPowerDrawWatts : float64;
  GTemperatureCelsius : Z;
  GGraphicsClockMHz : Z;
  GMemoryClockMHz : Z;
  GRunningProcesses : list GPUProcessMetrics
}.

Record Snapshot := {
  SnTimestamp : Z;
  SnHostMetrics : HostMetrics;
  SnMonitoredProcesses : list ProcessMetrics;
  SnGPUDevices : list GPUDeviceMetrics
}.

(** ** Encoding

    [json.Marshal] and [json.MarshalIndent] of the fields are arguments; the
    methods stamp the snapshot before they encode it. *)

Definition stamped (now : Z) (s : Snapshot) : Snapshot := {|
  SnTimestamp := now;
  SnHostMetrics := SnHostMetrics s;
  SnMonitoredProcesses := SnMonitoredProcesses s;
  SnGPUDevices := SnGPUDevices s
|}.

Definition JSON (marshal : Snapshot → option string) (now : Z) (s : Snapshot) :
    Snapshot * option string :=
  let s := stamped now s in (s, marshal s).

Definition JSONIndent (marshal_indent : Snapshot → option string) (now : Z) (s : Snapshot) :
    Snapshot * option string :=
  let s := stamped now s in (s, marshal_indent s).
