(* ===== verification/Profiler.v ===== *)
(** The compute profiler ([analytics/profiler]): per-process and per-GPU
    histories bounded in length and age, the idle-GPU check run on every
    snapshot, and the memory-leak regression run periodically.

    Every method runs under the history's lock, so it is atomic; clock readings
    are arguments, in nanoseconds, while sample timestamps are in seconds. *)

From S2P Require Import Prelude GoFloat Model.

(** * Data *)

Definition AnomalyIdleGPU : string := "IDLE_GPU_HOG".
Definition AnomalyMemoryLeak : string := "HOST_MEMORY_LEAK".
Definition SeverityWarning : string := "WARNING".
Definition SeverityCritical : string := "CRITICAL".

Record Config := {
  WindowSize : Z;
  MaxAge : Z;
  IdleVRAMThreshold : Z;
  IdleSMThresholdPct : float64;
  IdleDuration : Z;
  LeakSlopeThreshold : float64;
  LeakRSquaredThreshold : float64;
  AnalysisInterval : Z;
  AlertCooldown : Z;
  GCInterval : Z
}.

Definition DefaultConfig : Config := {|
  WindowSize := 60;
  MaxAge := 5 * Minute;
  IdleVRAMThreshold := 4 * 1024 * 1024 * 1024;
  IdleSMThresholdPct := f_of_Z 2;
  IdleDuration := 3 * Minute;
  LeakSlopeThreshold := f_of_Z (1024 * 1024);
  LeakRSquaredThreshold := f_lit 90 100;
  AnalysisInterval := 30 * Second;
  AlertCooldown := 5 * Minute;
  GCInterval := 60 * Second
|}.

(** [ResourceKey]: a PID and a GPU UUID, empty for host-side histories. *)
Abbreviation ResourceKey := (Z * string)%type.

Record TimeSeriesPoint := {
  Timestamp : Z;
  SMUtilPct : float64;
  VRAMUsed : Z;
  VRAMTotal : Z;
  RSSBytes : Z;
  CPUUsagePct : float64
}.

Record ResourceHistory := {
  key : ResourceKey;
  points : list TimeSeriesPoint;
  maxSize : Z;
  maxAge : Z;
  lastAccess : Z;
  lastAlertAt : option Z
}.

Record MetricsSummary := {
  DurationSeconds : float64;
  CurrentVRAMAllocationBytes : Z;
  RollingAvgSMUtilizationPct : float64;
  CalculatedEfficiencyCoefficient : float64
}.

Record MemoryTrendAnalysis := {
  OLSSlopeBytesPerSec : float64;
  LinearityRSquared : float64
}.

Record AnomalyAlertBody := {
  TargetPID : Z;
  GPUUID : string;
  AnomalyType : string;
  Severity : string;
  Metrics : MetricsSummary;
  MemoryTrend : MemoryTrendAnalysis
}.

Record AnomalyAlert := { AlertTimestamp : Z; AlertBody : AnomalyAlertBody }.

Record Profiler := {
  cfg : Config;
  histories : gmap ResourceKey ResourceHistory;
  alerts : chan AnomalyAlert
}.

Definition NewProfiler (c : Config) : Profiler :=
  {| cfg := c; histories := ∅; alerts := make_chan 64 |}.

(** * Histories *)

Definition newResourceHistory (k : ResourceKey) (size age : Z) : ResourceHistory :=
  {| key := k; points := []; maxSize := size; maxAge := age; lastAccess := 0;
     lastAlertAt := None |}.

(** The scan for the first point that is recent enough; the index just past
    the end when none is. *)
Fixpoint trim_index (cutoff : Z) (pts : list TimeSeriesPoint) : nat :=
  match pts with
  | [] => 0
  | pt :: rest => if cutoff <=? Timestamp pt then 0 else S (trim_index cutoff rest)
  end.

Definition with_points (rh : ResourceHistory) (pts : list TimeSeriesPoint) (acc : Z) :
    ResourceHistory :=
  {| key := key rh; points := pts; maxSize := maxSize rh; maxAge := maxAge rh;
     lastAccess := acc; lastAlertAt := lastAlertAt rh |}.

(** Sizes below one make the reslicing of the code fail; the sizes in use are
    positive. *)
Definition Append (rh : ResourceHistory) (p : TimeSeriesPoint) (tAccess : Z) : ResourceHistory :=
  let cutoff := i64 (Timestamp p - duration_secs_int (maxAge rh)) in
  let pts := drop (trim_index cutoff (points rh)) (points rh) in
  let pts :=
    if maxSize rh <=? llen pts then
      let excess := llen pts + 1 - maxSize rh in
      if 0 <? excess then drop (Z.to_nat excess) pts else pts
    else pts in
  with_points rh (pts ++ [p]) tAccess.

Definition Len (rh : ResourceHistory) : Z := llen (points rh).

Definition Points (rh : ResourceHistory) : list TimeSeriesPoint := points rh.

Definition OldestTimestamp (rh : ResourceHistory) : Z :=
  match points rh with [] => 0 | p :: _ => Timestamp p end.

Definition NewestTimestamp (rh : ResourceHistory) : Z :=
  match points rh with
  | [] => 0
  | p :: rest =>
      foldl (λ maxTS q, if maxTS <? Timestamp q then Timestamp q else maxTS) (Timestamp p) rest
  end.

Definition RollingAvgSMUtil (rh : ResourceHistory) : float64 :=
  match points rh with
  | [] => f_zero
  | pts => fdiv (fsum (SMUtilPct <$> pts)) (f_of_Z (llen pts))
  end.

Definition RollingAvgCPU (rh : ResourceHistory) : float64 :=
  match points rh with
  | [] => f_zero
  | pts => fdiv (fsum (CPUUsagePct <$> pts)) (f_of_Z (llen pts))
  end.

Definition MaxVRAMUsed (rh : ResourceHistory) : Z :=
  foldl (λ max q, if max <? VRAMUsed q then VRAMUsed q else max) 0 (points rh).

Definition LatestVRAMUsed (rh : ResourceHistory) : Z :=
  match last (points rh) with None => 0 | Some p => VRAMUsed p end.

Definition LatestCPUUsage (rh : ResourceHistory) : float64 :=
  match last (points rh) with None => f_zero | Some p => CPUUsagePct p end.

(** * Regression *)

(** The five running sums of the loop. *)
Record OLSSums := { sumX : float64; sumY : float64; sumXY : float64;
                    sumX2 : float64; sumY2 : float64 }.

Definition ols_sums (x y : list float64) : OLSSums :=
  foldl (λ s '(xi, yi),
    {| sumX := fadd (sumX s) xi; sumY := fadd (sumY s) yi;
       sumXY := fadd (sumXY s) (fmul xi yi); sumX2 := fadd (sumX2 s) (fmul xi xi);
       sumY2 := fadd (sumY2 s) (fmul yi yi) |})
    {| sumX := f_zero; sumY := f_zero; sumXY := f_zero; sumX2 := f_zero; sumY2 := f_zero |}
    (zip x y).

(** [OLSSlope]: slope, intercept and coefficient of determination. *)
Definition OLSSlope (x y : list float64) : float64 * float64 * float64 :=
  let n := llen x in
  if (n <? 2) || (llen y <? n) then (f_zero, f_zero, f_zero)
  else
    let s := ols_sums x y in
    let fn := f_of_Z n in
    let denom := (fn * sumX2 s - sumX s * sumX s)%float in
    if flt (fabs denom) (f_lit 1 (10 ^ 15)) then (f_zero, f_zero, f_zero)
    else
      let slope := ((fn * sumXY s - sumX s * sumY s) / denom)%float in
      let intercept := ((sumY s - slope * sumX s) / fn)%float in
      let num := (fn * sumXY s - sumX s * sumY s)%float in
      let denomR := ((fn * sumX2 s - sumX s * sumX s) *
                     (fn * sumY2 s - sumY s * sumY s))%float in
      let rSquared :=
        if fle denomR f_zero then f_zero
        else let r := (num / fsqrt denomR)%float in (r * r)%float in
      (slope, intercept, rSquared).

(** * The profiler *)

Definition gpuEfficiency (smUtilPct vramUsed vramTotal : float64) : float64 :=
  let vramPct := (vramUsed / f_max f_one vramTotal * f_of_Z 100)%float in
  let denom := f_max f_one vramPct in
  (smUtilPct / denom)%float.

Definition getOrCreate (p : Profiler) (k : ResourceKey) : ResourceHistory :=
  match histories p !! k with
  | Some rh => rh
  | None => newResourceHistory k (WindowSize (cfg p)) (MaxAge (cfg p))
  end.

Definition set_history (p : Profiler) (k : ResourceKey) (rh : ResourceHistory) : Profiler :=
  {| cfg := cfg p; histories := <[k := rh]> (histories p); alerts := alerts p |}.

Definition arm (rh : ResourceHistory) (t : Z) : ResourceHistory :=
  {| key := key rh; points := points rh; maxSize := maxSize rh; maxAge := maxAge rh;
     lastAccess := lastAccess rh; lastAlertAt := Some t |}.

(** The decision and the alert of [checkGPUIdle]. *)
Definition idle_alert (c : Config) (pid : Z) (gpuUUID : string) (rh : ResourceHistory)
    (tSince : Z) : option AnomalyAlert :=
  if Len rh <? 2 then None
  else match last (points rh) with
  | None => None
  | Some newest =>
    if VRAMUsed newest <? IdleVRAMThreshold c then None
    else
      let avgSM := RollingAvgSMUtil rh in
      if fle (IdleSMThresholdPct c) avgSM then None
      else
        let duration := f_of_Z (i64 (Timestamp newest - OldestTimestamp rh)) in
        if flt duration (duration_seconds (IdleDuration c)) then None
        else if cooling (AlertCooldown c) (lastAlertAt rh) tSince then None
        else
          let eta := gpuEfficiency (SMUtilPct newest) (f_of_Z (VRAMUsed newest))
                       (f_of_Z (VRAMTotal newest)) in
          Some {| AlertTimestamp := Timestamp newest;
                  AlertBody := {|
                    TargetPID := pid; GPUUID := gpuUUID; AnomalyType := AnomalyIdleGPU;
                    Severity := SeverityCritical;
                    Metrics := {| DurationSeconds := duration;
                                  CurrentVRAMAllocationBytes := VRAMUsed newest;
                                  RollingAvgSMUtilizationPct := avgSM;
                                  CalculatedEfficiencyCoefficient := eta |};
                    MemoryTrend := {| OLSSlopeBytesPerSec := f_zero;
                                      LinearityRSquared := f_zero |} |} |}
  end.

(** Arm the history and send the alert, if there is one. *)
Definition raise_alert (p : Profiler) (k : ResourceKey) (rh : ResourceHistory)
    (a : option AnomalyAlert) (tNow : Z) : Profiler :=
  match a with
  | None => p
  | Some alert =>
      {| cfg := cfg p; histories := <[k := arm rh tNow]> (histories p);
         alerts := (try_send alert (alerts p)).1 |}
  end.

Definition checkGPUIdle (p : Profiler) (pid : Z) (gpuUUID : string) (tSince tNow : Z) : Profiler :=
  match histories p !! (pid, gpuUUID) with
  | None => p
  | Some rh => raise_alert p (pid, gpuUUID) rh (idle_alert (cfg p) pid gpuUUID rh tSince) tNow
  end.

(** The readings of the clock an ingest step makes: at the append, at
    [time.Since] and at the alert. *)
Record clock := { tAccess : Z; tSince : Z; tNow : Z }.

Definition procMap (ps : list ProcessMetrics) : gmap Z ProcessMetrics :=
  foldl (λ m pm, <[PPID pm := pm]> m) ∅ ps.

(** The sample of a GPU process: the device's load, completed with the host
    metrics when the process is monitored. *)
Definition gpu_point (now : Z) (pms : gmap Z ProcessMetrics) (gpu : GPUDeviceMetrics)
    (gp : GPUProcessMetrics) : TimeSeriesPoint :=
  let base rss cpu :=
    {| Timestamp := now; SMUtilPct := GSMUtilizationPct gpu; VRAMUsed := GVRAMUsedBytes gp;
       VRAMTotal := GMemoryTotalBytes gpu; RSSBytes := rss; CPUUsagePct := cpu |} in
  match pms !! GPID gp with
  | Some pm => base (PRSSBytes pm) (PCPUUsagePct pm)
  | None => base 0 f_zero
  end.

(** The body of the inner GPU loop. *)
Definition ingest_gpu (now : Z) (pms : gmap Z ProcessMetrics) (ck : clock) (p : Profiler)
    (gpu : GPUDeviceMetrics) (gp : GPUProcessMetrics) : Profiler :=
  let k := (GPID gp, GUUID gpu) in
  let p := set_history p k (Append (getOrCreate p k) (gpu_point now pms gpu gp) (tAccess ck)) in
  checkGPUIdle p (GPID gp) (GUUID gpu) (tSince ck) (tNow ck).

(** The body of the host loop. *)
Definition ingest_host (now : Z) (ck : clock) (p : Profiler) (pm : ProcessMetrics) : Profiler :=
  let k := (PPID pm, EmptyString) in
  set_history p k
    (Append (getOrCreate p k)
       {| Timestamp := now; SMUtilPct := f_zero; VRAMUsed := 0; VRAMTotal := 0;
          RSSBytes := PRSSBytes pm; CPUUsagePct := PCPUUsagePct pm |} (tAccess ck)).

(** [Ingest]; [ck] gives the clock readings, by GPU index and position in the
    loops, and [unixNow] replaces a missing timestamp. *)
Definition Ingest (p : Profiler) (snap : option Snapshot) (unixNow : Z)
    (ck : nat → nat → clock) (hostck : nat → clock) : Profiler :=
  match snap with
  | None => p
  | Some snap =>
      let now := if SnTimestamp snap =? 0 then unixNow else SnTimestamp snap in
      let pms := procMap (SnMonitoredProcesses snap) in
      let p :=
        foldl (λ p '(i, gpu),
            foldl (λ p '(j, gp), ingest_gpu now pms (ck i j) p gpu gp) p
              (imap pair (GRunningProcesses gpu)))
          p (imap pair (SnGPUDevices snap)) in
      foldl (λ p '(j, pm), ingest_host now (hostck j) p pm) p
        (imap pair (SnMonitoredProcesses snap))
  end.

(** Mean CPU usage of a half of the window. *)
Definition half_cpu (pts : list TimeSeriesPoint) : float64 :=
  fdiv (fsum (CPUUsagePct <$> pts)) (f_of_Z (llen pts)).

Definition cpuIncreasing (pts : list TimeSeriesPoint) : bool :=
  let n := length pts in
  let half := (n / 2)%nat in
  if (n <? 3)%nat then false
  else
    flt (fmul (half_cpu (take half pts)) (f_lit 11 10)) (half_cpu (drop half pts)).

(** The decision and the alert of [analyzeMemoryLeak]. *)
Definition leak_alert (c : Config) (pid : Z) (rh : ResourceHistory) (tSince : Z) :
    option AnomalyAlert :=
  if Len rh <? 10 then None
  else match points rh, last (points rh) with
  | first :: _, Some newest =>
    let firstTS := f_of_Z (Timestamp first) in
    let x := (λ pt, fsub (f_of_Z (Timestamp pt)) firstTS) <$> points rh in
    let y := (λ pt, f_of_Z (RSSBytes pt)) <$> points rh in
    let '(slope, _, rSquared) := OLSSlope x y in
    if flt slope (LeakSlopeThreshold c) then None
    else if flt rSquared (LeakRSquaredThreshold c) then None
    else if cpuIncreasing (points rh) then None
    else if cooling (AlertCooldown c) (lastAlertAt rh) tSince then None
    else
      let duration := f_of_Z (i64 (Timestamp newest - Timestamp first)) in
      Some {| AlertTimestamp := Timestamp newest;
              AlertBody := {|
                TargetPID := pid; GPUUID := EmptyString; AnomalyType := AnomalyMemoryLeak;
                Severity := SeverityWarning;
                Metrics := {| DurationSeconds := duration; CurrentVRAMAllocationBytes := 0;
                              RollingAvgSMUtilizationPct := f_zero;
                              CalculatedEfficiencyCoefficient := f_zero |};
                MemoryTrend := {| OLSSlopeBytesPerSec := slope;
                                  LinearityRSquared := rSquared |} |} |}
  | _, _ => None
  end.

Definition analyzeMemoryLeak (p : Profiler) (pid : Z) (k : ResourceKey) (rh : ResourceHistory)
    (tSince tNow : Z) : Profiler :=
  raise_alert p k rh (leak_alert (cfg p) pid rh tSince) tNow.

(** [runMemoryLeakAnalysis] over the host-side keys, in the map's order. *)
Definition runMemoryLeakAnalysis `{MapRange} (p : Profiler) (n : nat) (ck : ResourceKey → clock) :
    Profiler :=
  foldl (λ p k,
      if negb (bool_decide (k.2 = EmptyString)) then p
      else match histories p !! k with
           | None => p
           | Some rh => analyzeMemoryLeak p k.1 k rh (tSince (ck k)) (tNow (ck k))
           end)
    p (range n (histories p)).*1.

Definition runGC `{MapRange} (p : Profiler) (n : nat) (now : Z) : Profiler :=
  {| cfg := cfg p;
     histories := delete_if (λ _ rh, MaxAge (cfg p) <? now - lastAccess rh)
                    (range n (histories p)) (histories p);
     alerts := alerts p |}.

(** * Histories are recent and bounded *)

Definition in_time_order (pts : list TimeSeriesPoint) : Prop :=
  StronglySorted Z.le (Timestamp <$> pts).

(** Dropping up to the first recent point keeps exactly the recent points of a
    history in time order. *)
Lemma drop_trim_index cutoff pts :
  in_time_order pts →
  drop (trim_index cutoff pts) pts = filter (λ q, cutoff <= Timestamp q) pts.
Proof.
  unfold in_time_order. induction pts as [|q pts IH]; [done|]. cbn [fmap list_fmap trim_index].
  intros [Hs Hall]%StronglySorted_inv. destruct (Z.leb_spec cutoff (Timestamp q)).
  - rewrite filter_cons_True by done. cbn [drop]. f_equal. symmetry.
    apply filter_all, Forall_forall. intros x Hx.
    rewrite Forall_fmap, Forall_forall in Hall. specialize (Hall x Hx). simpl in Hall. lia.
  - rewrite filter_cons_False by lia. cbn [drop]. by apply IH.
Qed.

Lemma StronglySorted_sublist {A} (R : A → A → Prop) l k :
  l `sublist_of` k → StronglySorted R k → StronglySorted R l.
Proof.
  induction 1 as [|x l k Hl IH|x l k Hl IH]; intros Hs; [constructor|..];
    apply StronglySorted_inv in Hs as [Hs Hall]; [|auto].
  constructor; [auto|]. rewrite Forall_forall in *. intros y Hy. apply Hall. by eapply elem_of_sublist.
Qed.

Lemma fmap_sublist {A B} (f : A → B) l k : l `sublist_of` k → f <$> l `sublist_of` f <$> k.
Proof. induction 1; simpl; by constructor. Qed.

(** Appending a sample to a history in time order keeps exactly the points
    younger than the maximum age, the newest of them up to the maximum size
    less one, followed by the sample; the result stays within the maximum size
    and, when the sample is not older than the history, in time order. *)
Theorem Append_spec rh p t :
  in_time_order (points rh) → 1 <= maxSize rh →
  let cutoff := i64 (Timestamp p - duration_secs_int (maxAge rh)) in
  points (Append rh p t) =
    newest_of (Z.to_nat (maxSize rh - 1))
      (filter (λ q, cutoff <= Timestamp q) (points rh)) ++ [p] ∧
  Len (Append rh p t) <= maxSize rh ∧
  ((∀ q, q ∈ points rh → Timestamp q <= Timestamp p) → in_time_order (points (Append rh p t))).
Proof.
  intros Hs Hm cutoff.
  assert (Heq : points (Append rh p t) = newest_of (Z.to_nat (maxSize rh - 1))
      (filter (λ q, cutoff <= Timestamp q) (points rh)) ++ [p]).
  { unfold Append. fold cutoff. simpl. rewrite drop_trim_index by done.
    set (pts := filter _ _). f_equal. unfold newest_of, llen.
    repeat cases; try lia; [f_equal; lia|]. rewrite <- (drop_0 pts) at 1. f_equal. lia. }
  split_and!; [done| |].
  - unfold Len. rewrite Heq, llen_app. unfold newest_of, llen. rewrite length_drop. simpl. lia.
  - intros Hle. rewrite Heq. unfold in_time_order. rewrite fmap_app.
    assert (Hsub : newest_of (Z.to_nat (maxSize rh - 1))
      (filter (λ q, cutoff <= Timestamp q) (points rh)) `sublist_of` points rh).
    { transitivity (filter (λ q, cutoff <= Timestamp q) (points rh));
        [apply sublist_drop|apply sublist_filter]. }
    apply StronglySorted_app_2.
    + intros x y Hx Hy. apply list_elem_of_fmap in Hx as (q & -> & Hq).
      apply list_elem_of_singleton in Hy as ->. apply Hle.
      eapply elem_of_sublist; done.
    + apply StronglySorted_sublist with (Timestamp <$> points rh); [|done].
      by apply fmap_sublist.
    + repeat constructor.
Qed.

(** * Alerts are justified *)

(** What an alert of either kind says about the telemetry behind it. *)
Definition justified (c : Config) (a : AnomalyAlert) : Prop :=
  let b := AlertBody a in
  (AnomalyType b = AnomalyIdleGPU ∧ Severity b = SeverityCritical ∧
   IdleVRAMThreshold c <= CurrentVRAMAllocationBytes (Metrics b) ∧
   fle (IdleSMThresholdPct c) (RollingAvgSMUtilizationPct (Metrics b)) = false ∧
   flt (DurationSeconds (Metrics b)) (duration_seconds (IdleDuration c)) = false) ∨
  (AnomalyType b = AnomalyMemoryLeak ∧ Severity b = SeverityWarning ∧ GPUUID b = EmptyString ∧
   flt (OLSSlopeBytesPerSec (MemoryTrend b)) (LeakSlopeThreshold c) = false ∧
   flt (LinearityRSquared (MemoryTrend b)) (LeakRSquaredThreshold c) = false).

Lemma idle_alert_justified c pid g rh t a :
  idle_alert c pid g rh t = Some a → justified c a.
Proof.
  unfold idle_alert. intros H. cases_in H. destruct (last (points rh)) as [q|] eqn:El; [|done].
  cases_in H. destruct (fle _ _) eqn:E1; [done|]. destruct (flt _ _) eqn:E2; [done|].
  destruct (cooling _ _ _); simplify_eq. left. done.
Qed.

Lemma leak_alert_justified c pid rh t a :
  leak_alert c pid rh t = Some a → justified c a.
Proof.
  unfold leak_alert. intros H. cases_in H. destruct (points rh) as [|f pts] eqn:Ep; [done|].
  destruct (last (f :: pts)) as [q|] eqn:El; [|done].
  destruct (OLSSlope _ _) as [[slope i] r2].
  destruct (flt slope _) eqn:E1; [done|]. destruct (flt r2 _) eqn:E2; [done|].
  destruct (cpuIncreasing _); [done|]. destruct (cooling _ _ _); [done|].
  injection H as <-. right. done.
Qed.

(** Well-formed profilers: bounded non-empty histories filed under their own
    keys, a bounded channel and justified alerts. *)
Record profiler_ok (c : Config) (p : Profiler) : Prop := {
  ok_cfg : cfg p = c;
  ok_histories : ∀ k rh, histories p !! k = Some rh →
    key rh = k ∧ maxSize rh = WindowSize c ∧ maxAge rh = MaxAge c ∧
    1 <= Len rh <= WindowSize c;
  ok_chan : chan_ok (alerts p);
  ok_alerts : Forall (justified c) (chan_buf (alerts p))
}.

Lemma Append_len rh p t : 1 <= maxSize rh → 1 <= Len (Append rh p t) <= maxSize rh.
Proof.
  intros Hm. unfold Len, Append. simpl. set (pts := drop _ (points rh)).
  unfold llen in *. rewrite length_app. simpl. repeat cases; rewrite ?length_drop; lia.
Qed.

Section invariant.
Context `{MapRange} (c : Config).
Hypothesis Hsize : 1 <= WindowSize c.
Set Default Proof Using "All".

Lemma append_ok p k pt t :
  profiler_ok c p → profiler_ok c (set_history p k (Append (getOrCreate p k) pt t)).
Proof.
  intros [Hc Hh Hch Ha]. split; simpl; [done| |done|done].
  intros j rh [[<- <-]|[_ Hj]]%lookup_insert_Some; [|by apply Hh].
  assert (Hk : key (getOrCreate p k) = k ∧ maxSize (getOrCreate p k) = WindowSize c ∧
    maxAge (getOrCreate p k) = MaxAge c).
  { unfold getOrCreate. destruct (histories p !! k) eqn:E.
    - destruct (Hh _ _ E) as (? & ? & ? & _). done.
    - simpl. by rewrite Hc. }
  destruct Hk as (Hk & Hm & Hag). pose proof (Append_len (getOrCreate p k) pt t ltac:(lia)).
  simpl. rewrite Hm in *. done.
Qed.

Lemma raise_ok p k rh a t :
  profiler_ok c p → histories p !! k = Some rh →
  (∀ x, a = Some x → justified c x) → profiler_ok c (raise_alert p k rh a t).
Proof.
  intros [Hc Hh Hch Ha] Hk Hj. destruct a as [a|]; [|by split]. split; simpl; [done|..].
  - intros j rh' [[<- <-]|[_ Hj']]%lookup_insert_Some; [|by apply Hh]. by apply (Hh k rh).
  - by apply try_send_ok.
  - by apply try_send_Forall; [apply Hj|].
Qed.

Lemma ingest_gpu_ok now pms ck p gpu gp :
  profiler_ok c p → profiler_ok c (ingest_gpu now pms ck p gpu gp).
Proof.
  intros Hp. unfold ingest_gpu, checkGPUIdle.
  set (q := set_history p _ _). assert (Hq : profiler_ok c q) by by apply append_ok.
  destruct (histories q !! _) as [rh|] eqn:E; [|done]. apply raise_ok; [done..|].
  intros x Hx. rewrite (ok_cfg _ _ Hq) in Hx. by eapply idle_alert_justified.
Qed.

Lemma Ingest_ok p snap u ck hck :
  profiler_ok c p → profiler_ok c (Ingest p snap u ck hck).
Proof.
  intros Hp. destruct snap as [snap|]; [|done]. unfold Ingest. cbv zeta.
  apply (foldl_inv (profiler_ok c)); [|intros q [j pm] Hq; by apply append_ok].
  apply (foldl_inv (profiler_ok c)); [done|]. intros q [i gpu] Hq. apply foldl_inv; [done|].
  intros q' [j gp] Hq'. by apply ingest_gpu_ok.
Qed.

Lemma runMemoryLeakAnalysis_ok p n ck :
  profiler_ok c p → profiler_ok c (runMemoryLeakAnalysis p n ck).
Proof.
  intros Hp. apply (foldl_inv (profiler_ok c)); [done|]. intros q k Hq. repeat cases; try done.
  apply raise_ok; [done..|]. intros x Hx. rewrite (ok_cfg _ _ Hq) in Hx.
  by eapply leak_alert_justified.
Qed.

Lemma runGC_ok p n now : profiler_ok c p → profiler_ok c (runGC p n now).
Proof.
  intros [Hc Hh Hch Ha]. split; simpl; [done| |done|done].
  intros k rh Hk. rewrite delete_if_range in Hk. apply bind_Some in Hk as (x & Hx & Hk).
  cases_in Hk. by apply Hh.
Qed.
End invariant.

(** The calls a profiler receives, in any order; the consumer of the channel
    takes alerts out. *)
Inductive profiler_step `{MapRange} : Profiler → Profiler → Prop :=
  | step_ingest p snap u ck hck : profiler_step p (Ingest p snap u ck hck)
  | step_leaks p n ck : profiler_step p (runMemoryLeakAnalysis p n ck)
  | step_gc p n now : profiler_step p (runGC p n now)
  | step_recv p : profiler_step p
      {| cfg := cfg p; histories := histories p; alerts := (try_recv (alerts p)).2 |}.

(** C38: whatever the snapshots and the schedule, a profiler's histories stay
    non-empty and within the window size under their own keys, and every alert
    in its channel is justified: an idle-GPU alert by enough memory held, a
    mean utilisation below the threshold and a long enough window, a leak alert
    by a slope and a fit not below their thresholds. *)
Theorem alerts_justified `{MapRange} c p :
  1 <= WindowSize c → rtc profiler_step (NewProfiler c) p → profiler_ok c p.
Proof.
  intros Hc Hsteps. apply rtc_ind_r with (P := profiler_ok c) in Hsteps; [done| |].
  - split; simpl; [done|by intros k rh ?%lookup_empty_Some|done|constructor].
  - intros q r _ Hstep Hq. destruct Hstep as [p0 snap u ck hck|p0 n ck|p0 n now|p0].
    + by apply Ingest_ok.
    + by apply runMemoryLeakAnalysis_ok.
    + by apply runGC_ok.
    + destruct Hq as [Hcq Hh Hch Ha]. split; simpl; eauto with kc_inv.
Qed.

(** * Concrete instances *)

Definition sample_point (t : Z) : TimeSeriesPoint :=
  {| Timestamp := t; SMUtilPct := f_zero; VRAMUsed := 0; VRAMTotal := 0; RSSBytes := 1;
     CPUUsagePct := f_zero |}.

Definition sample_history : ResourceHistory :=
  with_points (newResourceHistory (7, "") 2 (5 * Minute)) (sample_point <$> [0; 200; 310]) 0.

Lemma Append_spec_witness :
  points (Append sample_history (sample_point 320) 0) = [sample_point 310; sample_point 320] ∧
  in_time_order (points (Append sample_history (sample_point 320) 0)).
Proof.
  destruct (Append_spec sample_history (sample_point 320) 0) as (H1 & _ & H3).
  - unfold in_time_order. simpl. repeat constructor; lia.
  - vm_compute. discriminate.
  - split; [rewrite H1; vm_compute; reflexivity|]. apply H3.
    intros q Hq. simpl in Hq.
    repeat (apply elem_of_cons in Hq as [->|Hq]); [..|by apply elem_of_nil in Hq];
      vm_compute; discriminate.
Defined.

Definition sample_snapshot (t : Z) : Snapshot :=
  {| SnTimestamp := t;
     SnHostMetrics := {| CPUUtilizationPct := f_zero; HMemoryTotalBytes := 1; HMemoryUsedBytes := 1 |};
     SnMonitoredProcesses := [];
     SnGPUDevices :=
       [{| GIndex := 0; GUUID := "gpu-0"; GModel := "m"; GPCIBusID := ""; GMigDeviceGUID := "";
           GSMUtilizationPct := f_zero; GMemoryUtilizationPct := f_zero;
           GMemoryTotalBytes := 80000000000; GMemoryUsedBytes := 40000000000;
           GPowerDrawWatts := f_zero; GTemperatureCelsius := 30; GGraphicsClockMHz := 1;
           GMemoryClockMHz := 1;
           GRunningProcesses := [{| GPID := 7; GVRAMUsedBytes := 40000000000 |}] |}] |}.

Definition sample_clock : clock := {| tAccess := 0; tSince := 0; tNow := 0 |}.

(** Two snapshots of an idle GPU holding 40 GB, 200 seconds apart. *)
Definition sample_profiler : Profiler :=
  let ing p t := Ingest p (Some (sample_snapshot t)) 0 (λ _ _, sample_clock) (λ _, sample_clock) in
  ing (ing (NewProfiler DefaultConfig) 1) 201.

(** An alert is raised, and it is justified. *)
Lemma alerts_justified_witness :
  llen (chan_buf (alerts sample_profiler)) = 1 ∧
  Forall (justified DefaultConfig) (chan_buf (alerts sample_profiler)).
Proof.
  split; [vm_compute; reflexivity|].
  refine (ok_alerts _ _ (alerts_justified DefaultConfig sample_profiler ltac:(by vm_compute) _)).
  eapply rtc_l; [apply step_ingest|]. apply rtc_once. apply step_ingest.
Defined.
