(* ===== verification/Alerter.v ===== *)
(** The alert multiplexer ([alerter]): it converts the alerts of the detector
    and of the profiler, suppresses repetitions inside a time window, and fans
    the others out to the console, the telemetry buffer and its subscribers.

    [route] is called by one goroutine; each fan-out worker takes one alert from
    the internal channel at a time.  A run is therefore a sequence of routed
    alerts and fan-out steps in any order.  Go's JSON encoder is the argument
    [marshal] ([None] when it fails). *)

From S2P Require Import Prelude GoFloat GoStrings RingBuffer.
From S2P Require Detector Profiler.

Record Config := {
  SuppressionWindow : Z;
  InternalBufferSize : Z;
  FanOutCount : Z;
  EventIDPrefix : string
}.

Definition DefaultConfig : Config := {|
  SuppressionWindow := 30 * Second;
  InternalBufferSize := 256;
  FanOutCount := 2;
  EventIDPrefix := "evt_"
|}.

Record PropagationMetadata := {
  IsDeduplicated : bool;
  CumulativeOccurrences : Z;
  SuppressionWindowSeconds : Z
}.

Record TelemetrySnapshot := { SMUtilizationPct : float64; VRAMUsedBytes : Z }.

Record AlertPayload := {
  TargetPID : Z;
  GPUUID : string;
  AnomalyType : string;
  Severity : string;
  Telemetry : TelemetrySnapshot
}.

Record ConsolidatedAlert := {
  EventID : string;
  Timestamp : Z;
  Metadata : PropagationMetadata;
  Payload : AlertPayload
}.

Record DedupEntry := { FirstSeen : Z; OccurrenceCount : Z }.

Record AlertMultiplexer := {
  cfg : Config;
  ringBuf : option RingBuffer;
  console : list ConsolidatedAlert;
  dedup : gmap Z DedupEntry;
  internal : chan ConsolidatedAlert;
  subs : list (chan ConsolidatedAlert)
}.

Definition generateEventID (prefix rnd : string) : string := prefixed_id prefix rnd.

Definition NewAlertMultiplexer (c : Config) (rb : option RingBuffer) : AlertMultiplexer :=
  let c := {|
    SuppressionWindow := SuppressionWindow c;
    InternalBufferSize := if InternalBufferSize c <=? 0 then 256 else InternalBufferSize c;
    FanOutCount := if FanOutCount c <=? 0 then 2 else FanOutCount c;
    EventIDPrefix := if streq (EventIDPrefix c) "" then "evt_" else EventIDPrefix c |} in
  {| cfg := c; ringBuf := rb; console := []; dedup := ∅;
     internal := make_chan (InternalBufferSize c); subs := [] |}.

(** [Subscribe]: the new channel is the last of [subs]. *)
Definition Subscribe (am : AlertMultiplexer) : AlertMultiplexer :=
  {| cfg := cfg am; ringBuf := ringBuf am; console := console am; dedup := dedup am;
     internal := internal am;
     subs := subs am ++ [make_chan (InternalBufferSize (cfg am))] |}.

Definition zeroMetadata : PropagationMetadata :=
  {| IsDeduplicated := false; CumulativeOccurrences := 0; SuppressionWindowSeconds := 0 |}.

Definition fromDetectorAlert (a : Detector.Alert) : ConsolidatedAlert :=
  {| EventID := ""; Timestamp := Detector.ATimestamp a; Metadata := zeroMetadata;
     Payload := {| TargetPID := Detector.ATargetPID a; GPUUID := "";
                   AnomalyType := Detector.ALoopType a; Severity := "CRITICAL";
                   Telemetry := {| SMUtilizationPct := f_zero; VRAMUsedBytes := 0 |} |} |}.

Definition fromProfilerAlert (a : Profiler.AnomalyAlert) : ConsolidatedAlert :=
  let b := Profiler.AlertBody a in
  {| EventID := ""; Timestamp := Profiler.AlertTimestamp a; Metadata := zeroMetadata;
     Payload := {| TargetPID := Profiler.TargetPID b; GPUUID := Profiler.GPUUID b;
                   AnomalyType := Profiler.AnomalyType b; Severity := Profiler.Severity b;
                   Telemetry := {|
                     SMUtilizationPct :=
                       Profiler.RollingAvgSMUtilizationPct (Profiler.Metrics b);
                     VRAMUsedBytes :=
                       Profiler.CurrentVRAMAllocationBytes (Profiler.Metrics b) |} |} |}.

Definition dedupKey (pid : Z) (anomalyType gpuUUID : string) : Z :=
  fnv64a (fmt_d pid +:+ "|" +:+ anomalyType +:+ "|" +:+ gpuUUID).

Definition alert_key (a : ConsolidatedAlert) : Z :=
  dedupKey (TargetPID (Payload a)) (AnomalyType (Payload a)) (GPUUID (Payload a)).

Definition windowSecs (c : Config) : Z := duration_secs_int (SuppressionWindow c).

Definition set_dedup (am : AlertMultiplexer) (k : Z) (e : DedupEntry) : AlertMultiplexer :=
  {| cfg := cfg am; ringBuf := ringBuf am; console := console am;
     dedup := <[k := e]> (dedup am); internal := internal am; subs := subs am |}.

(** The alert as it is sent on: identified, with its propagation metadata. *)
Definition forwarded (c : Config) (alert : ConsolidatedAlert) (rnd : string) : ConsolidatedAlert :=
  {| EventID := generateEventID (EventIDPrefix c) rnd; Timestamp := Timestamp alert;
     Metadata := {| IsDeduplicated := false; CumulativeOccurrences := 1;
                    SuppressionWindowSeconds := windowSecs c |};
     Payload := Payload alert |}.

(** [exists && now-entry.FirstSeen < windowSecs] *)
Definition suppressed (am : AlertMultiplexer) (alert : ConsolidatedAlert) : option DedupEntry :=
  e ← dedup am !! alert_key alert;
  if i64 (Timestamp alert - FirstSeen e) <? windowSecs (cfg am) then Some e else None.

(** [route]: a suppressed alert only counts; another one restarts its window
    and is offered to the internal channel. *)
Definition route (am : AlertMultiplexer) (alert : ConsolidatedAlert) (rnd : string) :
    AlertMultiplexer :=
  match suppressed am alert with
  | Some entry =>
      set_dedup am (alert_key alert)
        {| FirstSeen := FirstSeen entry; OccurrenceCount := i64 (OccurrenceCount entry + 1) |}
  | None =>
      let am := set_dedup am (alert_key alert)
                  {| FirstSeen := Timestamp alert; OccurrenceCount := 1 |} in
      {| cfg := cfg am; ringBuf := ringBuf am; console := console am; dedup := dedup am;
         internal := (try_send (forwarded (cfg am) alert rnd) (internal am)).1;
         subs := subs am |}
  end.

Definition writeConsole (am : AlertMultiplexer) (alert : ConsolidatedAlert) : AlertMultiplexer :=
  {| cfg := cfg am; ringBuf := ringBuf am; console := console am ++ [alert];
     dedup := dedup am; internal := internal am; subs := subs am |}.

Definition writeRingBuf (marshal : ConsolidatedAlert → option string) (am : AlertMultiplexer)
    (alert : ConsolidatedAlert) : AlertMultiplexer :=
  match ringBuf am, marshal alert with
  | Some rb, Some data =>
      {| cfg := cfg am; ringBuf := Some (Push data rb); console := console am;
         dedup := dedup am; internal := internal am; subs := subs am |}
  | _, _ => am
  end.

Definition dispatchToSubscribers (am : AlertMultiplexer) (alert : ConsolidatedAlert) :
    AlertMultiplexer :=
  {| cfg := cfg am; ringBuf := ringBuf am; console := console am; dedup := dedup am;
     internal := internal am; subs := (λ ch, (try_send alert ch).1) <$> subs am |}.

(** One iteration of a fan-out worker that finds an alert. *)
Definition fanOut (marshal : ConsolidatedAlert → option string) (am : AlertMultiplexer) :
    AlertMultiplexer :=
  match try_recv (internal am) with
  | (None, _) => am
  | (Some alert, ch) =>
      let am := {| cfg := cfg am; ringBuf := ringBuf am; console := console am;
                   dedup := dedup am; internal := ch; subs := subs am |} in
      dispatchToSubscribers (writeRingBuf marshal (writeConsole am alert) alert) alert
  end.

(** * Suppression *)

(** The alerts forwarded by [route] along a run, oldest first. *)
Fixpoint route_log (am : AlertMultiplexer) (l : list (ConsolidatedAlert * string)) :
    list ConsolidatedAlert :=
  match l with
  | [] => []
  | (a, rnd) :: rest =>
      match suppressed am a with
      | Some _ => route_log (route am a rnd) rest
      | None => forwarded (cfg am) a rnd :: route_log (route am a rnd) rest
      end
  end.

Lemma route_cfg am a rnd : cfg (route am a rnd) = cfg am.
Proof. unfold route. by destruct (suppressed am a). Qed.

Lemma route_dedup_ne am a rnd k :
  alert_key a ≠ k → dedup (route am a rnd) !! k = dedup am !! k.
Proof. intros Hk. unfold route. destruct (suppressed am a); simpl; by rewrite lookup_insert_ne. Qed.

Lemma forwarded_key c a rnd : alert_key (forwarded c a rnd) = alert_key a.
Proof. done. Qed.

(** Once an alert has opened a window for a key, every alert the multiplexer
    lets through for that key is at least a window later. *)
Lemma route_log_later am l k e :
  dedup am !! k = Some e →
  (∀ x, x ∈ l → in_i64 (Timestamp x.1 - FirstSeen e)) →
  0 <= windowSecs (cfg am) → (∀ x y, x ∈ l → y ∈ l → in_i64 (Timestamp x.1 - Timestamp y.1)) →
  Forall (λ b, alert_key b = k → FirstSeen e + windowSecs (cfg am) <= Timestamp b) (route_log am l).
Proof.
  revert am e. induction l as [|[a rnd] l IH]; intros am e He Hr HW Hd; [constructor|].
  assert (Hr' : ∀ x, x ∈ l → in_i64 (Timestamp x.1 - FirstSeen e)) by (intros; apply Hr; by right).
  assert (Hd' : ∀ x y, x ∈ l → y ∈ l → in_i64 (Timestamp x.1 - Timestamp y.1))
    by (intros; apply Hd; by right).
  assert (Ha : in_i64 (Timestamp a - FirstSeen e)) by apply (Hr (a, rnd) ltac:(left)).
  cbn [route_log]. destruct (decide (alert_key a = k)) as [Hk|Hk].
  - unfold suppressed. rewrite Hk, He. simpl. rewrite i64_id by done.
    destruct (Z.ltb_spec (Timestamp a - FirstSeen e) (windowSecs (cfg am))) as [Hlt|Hge].
    + assert (Hs : suppressed am a = Some e).
      { unfold suppressed. rewrite Hk, He. simpl. rewrite i64_id by done.
        by apply Z.ltb_lt in Hlt as ->. }
      assert (Hd2 : dedup (route am a rnd) !! k = Some
        {| FirstSeen := FirstSeen e; OccurrenceCount := i64 (OccurrenceCount e + 1) |}).
      { unfold route. rewrite Hs. simpl. by rewrite Hk, lookup_insert_eq. }
      specialize (IH _ _ Hd2). rewrite route_cfg in IH. simpl in IH. by apply IH.
    + assert (Hs : suppressed am a = None).
      { unfold suppressed. rewrite Hk, He. simpl. rewrite i64_id by done.
        by apply Z.ltb_ge in Hge as ->. }
      constructor; [simpl; lia|].
      assert (Hd2 : dedup (route am a rnd) !! k =
        Some {| FirstSeen := Timestamp a; OccurrenceCount := 1 |}).
      { unfold route. rewrite Hs. simpl. by rewrite Hk, lookup_insert_eq. }
      specialize (IH _ _ Hd2). rewrite route_cfg in IH. simpl in IH.
      eapply Forall_impl; [apply IH; try done|].
      * intros x Hx. apply (Hd x (a, rnd)); [by right|left].
      * simpl. intros b Hb Hbk. specialize (Hb Hbk). lia.
  - assert (Hd2 : dedup (route am a rnd) !! k = Some e) by by rewrite route_dedup_ne.
    specialize (IH _ _ Hd2). rewrite route_cfg in IH.
    destruct (suppressed am a); [by apply IH|]. constructor; [by intros ?|]. by apply IH.
Qed.

Lemma route_log_spaced am l :
  0 <= windowSecs (cfg am) →
  (∀ x y, x ∈ l → y ∈ l → in_i64 (Timestamp x.1 - Timestamp y.1)) →
  (∀ x k e, x ∈ l → dedup am !! k = Some e → in_i64 (Timestamp x.1 - FirstSeen e)) →
  StronglySorted (λ a b, alert_key b = alert_key a →
    Timestamp a + windowSecs (cfg am) <= Timestamp b) (route_log am l).
Proof.
  revert am. induction l as [|[a rnd] l IH]; intros am HW Hd He; [constructor|].
  specialize (IH (route am a rnd)). rewrite route_cfg in IH.
  assert (Hsub : ∀ x, x ∈ l → x ∈ (a, rnd) :: l) by (intros; by right).
  assert (Hrest : StronglySorted (λ a b, alert_key b = alert_key a →
    Timestamp a + windowSecs (cfg am) <= Timestamp b) (route_log (route am a rnd) l)).
  { apply IH; [done|by intros; apply Hd; apply Hsub|]. intros x k e Hx.
    unfold route. destruct (suppressed am a) as [e0|] eqn:Es; simpl;
      intros [[_ <-]|[_ Hk]]%lookup_insert_Some; simpl; eauto.
    - unfold suppressed in Es. apply bind_Some in Es as (e1 & He1 & Es). cases_in Es. eauto.
    - apply (Hd x (a, rnd)); [auto|left]. }
  cbn [route_log]. destruct (suppressed am a) eqn:Es; [done|]. constructor; [done|].
  assert (Hk : dedup (route am a rnd) !! alert_key a =
    Some {| FirstSeen := Timestamp a; OccurrenceCount := 1 |}).
  { unfold route. rewrite Es. simpl. by rewrite lookup_insert_eq. }
  pose proof (route_log_later (route am a rnd) l (alert_key a) _ Hk) as Hl.
  rewrite route_cfg in Hl. apply Hl; [|done|by intros; apply Hd; apply Hsub].
  simpl. intros x Hx. apply (Hd x (a, rnd)); [auto|left].
Qed.


(** * Delivery *)

Inductive mux_op :=
  | OpRoute (a : ConsolidatedAlert) (rnd : string)
  | OpFanOut.

Definition mux_step (marshal : ConsolidatedAlert → option string) (am : AlertMultiplexer)
    (op : mux_op) : AlertMultiplexer :=
  match op with
  | OpRoute a rnd => route am a rnd
  | OpFanOut => fanOut marshal am
  end.

Definition mux_run marshal (am : AlertMultiplexer) (ops : list mux_op) : AlertMultiplexer :=
  foldl (mux_step marshal) am ops.

Definition routed (ops : list mux_op) : list (ConsolidatedAlert * string) :=
  omap (λ op, match op with OpRoute a rnd => Some (a, rnd) | OpFanOut => None end) ops.

(** [delivers am log]: the subscriber [ch] has seen [log] but for what is still
    in the internal channel, and the console agrees with it. *)
Record delivers (am : AlertMultiplexer) (ch : chan ConsolidatedAlert)
    (log : list ConsolidatedAlert) : Prop := {
  del_sub : chan_buf ch ++ chan_buf (internal am) = log;
  del_console : console am ++ chan_buf (internal am) = log;
  del_cap : chan_cap ch = chan_cap (internal am)
}.

Lemma fanOut_delivers marshal am i ch log :
  subs am !! i = Some ch → delivers am ch log → llen log <= chan_cap ch →
  ∃ ch', subs (fanOut marshal am) !! i = Some ch' ∧ chan_cap ch' = chan_cap ch ∧
    delivers (fanOut marshal am) ch' log.
Proof.
  intros Hi [Hs Hc Hcap] Hlen. unfold fanOut, try_recv.
  destruct (chan_buf (internal am)) as [|x rest] eqn:Ei; 
    [exists ch; split_and!; [done..|]; split; by rewrite ?Ei|].
  assert (Hroom : llen (chan_buf ch) < chan_cap ch).
  { apply (f_equal llen) in Hs. rewrite llen_app, llen_cons in Hs.
    pose proof (llen_nonneg rest). lia. }
  unfold writeRingBuf. simpl.
  assert (Hsend : (try_send x ch).1 = Chan (chan_cap ch) (chan_buf ch ++ [x]))
    by by rewrite try_send_accept.
  exists (Chan (chan_cap ch) (chan_buf ch ++ [x])).
  destruct (ringBuf am), (marshal x); simpl; rewrite list_lookup_fmap, Hi; simpl; rewrite Hsend;
    split_and!; try done; split; simpl; try done; by rewrite <- app_assoc.
Qed.

Lemma route_delivers am a rnd i ch log :
  subs am !! i = Some ch → delivers am ch log →
  llen log + 1 <= chan_cap ch →
  subs (route am a rnd) !! i = Some ch ∧
  delivers (route am a rnd) ch (log ++ route_log am [(a, rnd)]).
Proof.
  intros Hi [Hs Hc Hcap] Hlen. unfold route. cbn [route_log].
  destruct (suppressed am a); simpl.
  { rewrite app_nil_r. done. }
  assert (Hroom : llen (chan_buf (internal am)) < chan_cap (internal am)).
  { rewrite <- Hcap. apply (f_equal llen) in Hs. rewrite llen_app in Hs.
    pose proof (llen_nonneg (chan_buf ch)). lia. }
  rewrite try_send_accept by done. simpl. split; [done|].
  split; simpl; [by rewrite app_assoc, Hs|by rewrite app_assoc, Hc|done].
Qed.

Lemma route_log_dedup am am' l :
  cfg am = cfg am' → dedup am = dedup am' → route_log am l = route_log am' l.
Proof.
  revert am am'. induction l as [|[a rnd] l IH]; intros am am' Hc Hd; [done|].
  assert (Hs : suppressed am a = suppressed am' a) by (unfold suppressed; by rewrite Hc, Hd).
  cbn [route_log]. rewrite Hs, Hc.
  assert (Hr : route_log (route am a rnd) l = route_log (route am' a rnd) l).
  { apply IH; [by rewrite !route_cfg|]. unfold route. rewrite Hs.
    destruct (suppressed am' a); simpl; by rewrite Hd. }
  by rewrite Hr.
Qed.

Lemma fanOut_dedup marshal am : dedup (fanOut marshal am) = dedup am ∧ cfg (fanOut marshal am) = cfg am.
Proof.
  unfold fanOut, try_recv. destruct (chan_buf (internal am)) as [|x rest]; [done|].
  unfold writeRingBuf. simpl. by destruct (ringBuf am), (marshal x).
Qed.


(** * Concrete instances *)

Definition sample_alert (t : Z) : ConsolidatedAlert :=
  {| EventID := ""; Timestamp := t; Metadata := zeroMetadata;
     Payload := {| TargetPID := 42; GPUUID := ""; AnomalyType := "HOST_MEMORY_LEAK";
                   Severity := "WARNING";
                   Telemetry := {| SMUtilizationPct := f_zero; VRAMUsedBytes := 0 |} |} |}.

Definition sample_mux : AlertMultiplexer := NewAlertMultiplexer DefaultConfig None.

(** Of three alerts at 0, 10 and 30 seconds the second is suppressed. *)
Definition sample_routed : list (ConsolidatedAlert * string) :=
  [(sample_alert 0, "a"); (sample_alert 10, "b"); (sample_alert 30, "c")].

Definition sample_first : ConsolidatedAlert := forwarded (cfg sample_mux) (sample_alert 0) "a".
Definition sample_third : ConsolidatedAlert := forwarded (cfg sample_mux) (sample_alert 30) "c".

Lemma sample_differences x y :
  x ∈ sample_routed → y ∈ sample_routed → in_i64 (Timestamp x.1 - Timestamp y.1).
Proof.
  intros Hx Hy. unfold sample_routed in *.
  repeat (apply elem_of_cons in Hx as [->|Hx]); [..|by apply elem_of_nil in Hx];
  repeat (apply elem_of_cons in Hy as [->|Hy]); try (by apply elem_of_nil in Hy);
  unfold in_i64; simpl; lia.
Qed.


