(* ===== verification/Host.v ===== *)
(** The host as the control components see it: processes that take signals, the
    files of [/proc] and of the cgroup tree, and the container runtime's client.

    None of it is code of the repository, so it is an interface: a type class
    whose operations act on an abstract world.  Calls that only read return
    their result; calls with an effect return the new world too.  The file also
    holds what the components share of Go's [errors], [path/filepath] and
    [bufio]. *)

From S2P Require Import Prelude GoStrings.

Inductive signal := SIGSTOP | SIGCONT.

(** What [Process.Signal] can fail with: [os.ErrProcessDone], an errno, or
    another error. *)
Inductive signal_error :=
  | ProcessDone
  | Errno (n : Z)
  | OtherSignalError (msg : string).

Definition EPERM : Z := 1.
Definition ESRCH : Z := 3.

Inductive write_error :=
  | WriteDenied (msg : string)     (* EACCES or EPERM *)
  | WriteNotExist (msg : string)
  | WriteOther (msg : string).

Class Host (W : Type) := {
  (** [os.FindProcess]: an error message, if any *)
  find_process : Z → W → option string;
  send_signal : signal → Z → W → option signal_error * W;
  errno_string : Z → string;
  (** [os.ReadDir]: names with [IsDir] *)
  read_dir : string → W → string + list (string * bool);
  read_file : string → W → string + string;
  (** [os.Stat] answers that the path does not exist *)
  stat_not_exist : string → W → bool;
  write_file : string → string → W → option write_error * W;
  (** a docker client that answers a ping on this host address *)
  docker_connect : string → W → option string * W;
  container_pause : string → W → option string * W;
  container_unpause : string → W → option string * W
}.

(** * Errors *)

(** Errors made by [errors.New] and [fmt.Errorf("...: %w", err)]. *)
Inductive error :=
  | ErrProcessNotExist
  | ErrPermissionDenied
  | ErrProcessAlreadyExited
  | ErrText (msg : string)
  | ErrWrap (prefix : string) (e : error).

#[global] Instance error_eq_dec : EqDecision error.
Proof. solve_decision. Defined.

(** [errors.Is] on comparable errors. *)
Fixpoint errors_is (e target : error) : bool :=
  bool_decide (e = target) || match e with ErrWrap _ e => errors_is e target | _ => false end.

Fixpoint error_string (e : error) : string :=
  match e with
  | ErrProcessNotExist => "process does not exist"
  | ErrPermissionDenied => "permission denied: requires root or CAP_KILL"
  | ErrProcessAlreadyExited => "process has already exited"
  | ErrText msg => msg
  | ErrWrap p e => p +:+ ": " +:+ error_string e
  end.

(** * Paths *)

(** [filepath.Clean] on the components of a path: drop the empty ones and the
    dots, resolve the double dots against the components kept (last first). *)
Fixpoint clean_components (rooted : bool) (kept parts : list string) : list string :=
  match parts with
  | [] => rev kept
  | p :: rest =>
      if streq p "" || streq p "." then clean_components rooted kept rest
      else if streq p ".." then
        match kept with
        | k :: kept' =>
            if streq k ".." then clean_components rooted (p :: kept) rest
            else clean_components rooted kept' rest
        | [] => if rooted then clean_components rooted [] rest
                else clean_components rooted [p] rest
        end
      else clean_components rooted (p :: kept) rest
  end.

Fixpoint join_with (sep : string) (l : list string) : string :=
  match l with
  | [] => ""
  | [s] => s
  | s :: rest => s +:+ sep +:+ join_with sep rest
  end.

Definition path_clean (path : string) : string :=
  let rooted := has_prefix path "/" in
  let body := join_with "/" (clean_components rooted [] (split_byte path "/")) in
  if rooted then "/" +:+ body else if streq body "" then "." else body.

(** [filepath.Join] *)
Definition path_join (elems : list string) : string :=
  match filter (λ s, s ≠ "") elems with
  | [] => ""
  | elems => path_clean (join_with "/" elems)
  end.

(** * Lines *)

(** Drop a trailing carriage return. *)
Definition drop_cr (line : string) : string :=
  if has_suffix line (String (ascii_of_nat 13) "") then
    stake (String.length line - 1) line else line.

Definition maxScanLine : Z := 65535.

(** The lines a default [bufio.Scanner] yields: it stops at a line too long for
    its buffer, and yields no empty line after a final newline. *)
Fixpoint scan_pieces (pieces : list string) : list string :=
  match pieces with
  | [] => []
  | p :: rest =>
      if maxScanLine <? slen p then []
      else match rest with
           | [] => if streq p "" then [] else [drop_cr p]
           | _ => drop_cr p :: scan_pieces rest
           end
  end.

Definition scan_lines (data : string) : list string := scan_pieces (split_byte data newline).

Example path_join_example :
  path_join ["/sys/fs/cgroup"; "system.slice//a/../b"; "cgroup.freeze"]
  = "/sys/fs/cgroup/system.slice/b/cgroup.freeze"%string.
Proof. vm_compute. reflexivity. Qed.
