(* ===== verification/ProcText.v ===== *)
(** Extraction of process names, container ids and cgroup paths from the text
    of [/proc/<pid>/cmdline] and [/proc/<pid>/cgroup]
    ([proxy/mitigator/mitigator.go], [container_linux.go]). *)

From S2P Require Import Prelude GoStrings Host.

(** * Definitions *)

Definition stringsLastIndexByte (s : string) (c : ascii) : option nat := last_index_byte s c.

(** The bytes before the first NUL. *)
Fixpoint until_nul (data : string) : string :=
  match data with
  | EmptyString => ""
  | String b rest => if (nat_of_ascii b =? 0)%nat then "" else String b (until_nul rest)
  end.

Definition extractCmdline (data : string) : string :=
  let name := until_nul data in
  match stringsLastIndexByte name "/" with
  | Some idx => sdrop (idx + 1) name
  | None => name
  end.

Definition is_hex_byte (c : ascii) : bool :=
  let n := nat_of_ascii c in
  ((48 <=? n) && (n <=? 57) || (97 <=? n) && (n <=? 102) || (65 <=? n) && (n <=? 70))%nat.

Fixpoint all_hex (s : string) : bool :=
  match s with
  | EmptyString => true
  | String c rest => is_hex_byte c && all_hex rest
  end.

Definition isHex (s : string) : bool := if slen s =? 0 then false else all_hex s.

(** [len(s) >= 12 && isHex(s)] *)
Definition is_id (s : string) : bool := (12 <=? slen s) && isHex s.

(** The loop shared by [split] and [splitLines]: the non-empty pieces, [cur]
    being the piece under way. *)
Fixpoint split_loop (sep : ascii) (cur s : string) : list string :=
  let flush := if slen cur =? 0 then [] else [cur] in
  match s with
  | EmptyString => flush
  | String c rest =>
      if Ascii.eqb c sep then flush ++ split_loop sep "" rest
      else split_loop sep (cur +:+ String c "") rest
  end.

Definition split (s : string) (sep : ascii) : list string := split_loop sep "" s.
Definition splitLines (data : string) : list string := split_loop newline "" data.

Definition lastField (s : string) : string :=
  match stringsLastIndexByte s ":" with
  | None => s
  | Some idx => sdrop (idx + 1) s
  end.

(** The id after the last dash, up to the last dot of what follows. *)
Definition dash_candidate (seg : string) : option string :=
  idx ← stringsLastIndexByte seg "-";
  let candidate := sdrop (idx + 1) seg in
  Some (match stringsLastIndexByte candidate "." with
        | Some dot => stake dot candidate
        | None => candidate
        end).

(** The id before the last dot, with or without a dashed prefix. *)
Definition dot_candidate (seg : string) : string :=
  match stringsLastIndexByte seg "." with
  | None => ""
  | Some dot =>
      let before := stake dot seg in
      let whole := if is_id before then before else "" in
      match stringsLastIndexByte before "-" with
      | Some idx => let candidate := sdrop (idx + 1) before in
                    if is_id candidate then candidate else whole
      | None => whole
      end
  end.

Definition hexFromSegment (seg : string) : string :=
  if is_id seg then seg
  else match dash_candidate seg with
       | Some candidate => if is_id candidate then candidate else dot_candidate seg
       | None => dot_candidate seg
       end.

(** The first segment with an id. *)
Fixpoint first_id (segs : list string) : string :=
  match segs with
  | [] => ""
  | seg :: rest =>
      let id := hexFromSegment seg in
      if streq id "" then first_id rest else id
  end.

Fixpoint first_line_id (lines : list string) : string :=
  match lines with
  | [] => ""
  | line :: rest =>
      if streq line "" then first_line_id rest
      else
        let id := first_id (split (lastField line) "/") in
        if streq id "" then first_line_id rest else id
  end.

Definition extractHexContainerID (data : string) : string := first_line_id (splitLines data).

(** The path without its leading slash. *)
Definition strip_slash (path : string) : string :=
  match path with
  | String c rest => if Ascii.eqb c "/" then rest else path
  | EmptyString => ""
  end.

Fixpoint match_lines (lines : list string) (containerID : string) : string :=
  match lines with
  | [] => ""
  | line :: rest =>
      let line := trim_space line in
      if streq line "" then match_lines rest containerID
      else if negb (contains line containerID) then match_lines rest containerID
      else match index_of_str line "::" with
           | Some i => strip_slash (trim_space (sdrop (i + 2) line))
           | None =>
               match last_index_byte line ":" with
               | None => match_lines rest containerID
               | Some idx => strip_slash (trim_space (sdrop (idx + 1) line))
               end
           end
  end.

Definition matchCgroupPath (data containerID : string) : string :=
  match_lines (scan_lines data) containerID.

(** * Lemmas on ids *)

Lemma all_hex_lacks s b : all_hex s = true → is_hex_byte b = false → lacks s b = true.
Proof.
  intros Hs Hb. induction s as [|c s IH]; [done|]. simpl in *.
  apply andb_true_iff in Hs as [Hc Hs]. rewrite IH by done.
  destruct (Ascii.eqb_spec c b); [congruence|done].
Qed.

Lemma is_id_spec s : is_id s = true ↔ 12 <= slen s ∧ all_hex s = true.
Proof.
  unfold is_id, isHex. rewrite andb_true_iff, Z.leb_le.
  destruct (Z.eqb_spec (slen s) 0); split; intros []; split; try done; lia.
Qed.

Lemma split_loop_piece sep cur s t :
  lacks s sep = true → split_loop sep cur (s +:+ t) = split_loop sep (cur +:+ s) t.
Proof.
  revert cur. induction s as [|c s IH]; intros cur; [by rewrite app_string_nil_r|].
  rewrite app_cons. cbn [split_loop lacks]. intros [Hc%negb_true_iff Hs]%andb_true_iff.
  rewrite Hc, IH by done. by rewrite app_string_assoc.
Qed.

(** * Container ids *)

Lemma hexFromSegment_id seg : hexFromSegment seg = "" ∨ is_id (hexFromSegment seg) = true.
Proof.
  assert (Hd : dot_candidate seg = "" ∨ is_id (dot_candidate seg) = true).
  { unfold dot_candidate. destruct (stringsLastIndexByte seg "."); [|by left].
    destruct (stringsLastIndexByte _ "-"); [destruct (is_id (sdrop _ _)) eqn:E; [by right|]|];
      (destruct (is_id (stake n seg)) eqn:E'; [by right|by left]). }
  unfold hexFromSegment. destruct (is_id seg) eqn:E; [by right|].
  destruct (dash_candidate seg); [|done]. destruct (is_id s) eqn:Es; [by right|done].
Qed.

Lemma first_id_id segs : first_id segs = "" ∨ is_id (first_id segs) = true.
Proof.
  induction segs as [|seg segs IH]; [by left|]. simpl.
  unfold streq. case_bool_decide; [done|].
  destruct (hexFromSegment_id seg); [done|by right].
Qed.

Lemma first_line_id_id lines : first_line_id lines = "" ∨ is_id (first_line_id lines) = true.
Proof.
  induction lines as [|line lines IH]; [by left|]. simpl.
  unfold streq. case_bool_decide; [done|]. case_bool_decide; [done|].
  destruct (first_id_id (split (lastField line) "/")); [done|by right].
Qed.

Lemma first_id_first segs id :
  id ≠ "" → (∃ pre seg post, segs = pre ++ seg :: post ∧
    Forall (λ s, hexFromSegment s = "") pre ∧ hexFromSegment seg = id) → first_id segs = id.
Proof.
  intros Hid (pre & seg & post & -> & Hpre & Hseg). induction Hpre as [|s pre Hs Hpre IH]; simpl.
  - rewrite Hseg. unfold streq. by case_bool_decide.
  - by rewrite Hs.
Qed.

Lemma is_id_nonempty id : is_id id = true → id ≠ "".
Proof. rewrite is_id_spec. intros [Hl _] ->. by vm_compute in Hl. Qed.

(** A single line whose last field has the given segments. *)
Lemma extract_line (line : string) id :
  lacks line newline = true → first_id (split (lastField line) "/") = id → id ≠ "" →
  extractHexContainerID (line +:+ String newline "") = id.
Proof.
  intros Hl Hid Hne. unfold extractHexContainerID, splitLines.
  rewrite split_loop_piece by done. change ("" +:+ line) with line. cbn [split_loop].
  rewrite Ascii.eqb_refl. destruct (Z.eqb_spec (slen line) 0) as [Hz|Hz].
  { apply slen_zero in Hz as ->. by rewrite <- Hid in Hne. }
  simpl. unfold streq. rewrite Hid, (bool_decide_eq_false_2 (line = "")), bool_decide_eq_false_2; try done.
  intros ->. done.
Qed.

(** The systemd scope of a docker container names its id. *)
Lemma scope_segment id :
  is_id id = true → hexFromSegment ("docker-" +:+ id +:+ ".scope") = id.
Proof.
  intros Hid. pose proof (proj1 (is_id_spec id) Hid) as [_ Hhex]. unfold hexFromSegment.
  assert (is_id ("docker-" +:+ id +:+ ".scope") = false) as ->.
  { unfold is_id. rewrite andb_false_iff. right. unfold isHex.
    by destruct (slen _ =? 0). }
  unfold dash_candidate, stringsLastIndexByte.
  change ("docker-" +:+ id +:+ ".scope") with ("docker" +:+ String "-" (id +:+ ".scope")).
  rewrite last_index_app by (by rewrite lacks_app, (all_hex_lacks id)).
  simpl mbind. cbn [option_bind mbind].
  replace (sdrop (String.length "docker" + 1) ("docker" +:+ String "-" (id +:+ ".scope")))
    with (id +:+ ".scope") by done.
  change (id +:+ ".scope") with (id +:+ String "." "scope").
  rewrite last_index_app by done. by rewrite stake_app, Hid.
Qed.

(** Container ids read from [/proc/<pid>/cgroup].  Whatever the file
    holds, the result is empty or at least twelve hexadecimal digits, so it
    contains no slash, dot or colon; and the ids of the two docker layouts are
    found for every id: the systemd scope [docker-<id>.scope] and the cgroupfs
    directory [/docker/<id>]. *)
Theorem container_id_spec data id :
  is_id id = true →
  (let r := extractHexContainerID data in
   r = "" ∨ 12 <= slen r ∧ all_hex r = true ∧
     lacks r "/" = true ∧ lacks r "." = true ∧ lacks r ":" = true) ∧
  extractHexContainerID ("0::/system.slice/docker-" +:+ id +:+ ".scope" +:+ String newline "") = id ∧
  extractHexContainerID ("0::/docker/" +:+ id +:+ String newline "") = id.
Proof.
  intros Hid. pose proof (proj1 (is_id_spec id) Hid) as [_ Hhex].
  pose proof (is_id_nonempty id Hid) as Hne. split_and!.
  - destruct (first_line_id_id (splitLines data)) as [H|H]; [by left|]. right.
    apply is_id_spec in H as [? ?]. split_and!; [done..| | |]; by apply all_hex_lacks.
  - rewrite <- !app_string_assoc. apply extract_line; [|..|done].
    { rewrite !lacks_app, (all_hex_lacks id); done. }
    rewrite !app_string_assoc. unfold lastField, stringsLastIndexByte.
    change ("0::/system.slice/docker-" +:+ id +:+ ".scope")
      with ("0:" +:+ String ":" ("/system.slice/docker-" +:+ id +:+ ".scope")).
    rewrite last_index_app by (by rewrite !lacks_app, (all_hex_lacks id)).
    replace (sdrop (String.length "0:" + 1)
      ("0:" +:+ String ":" ("/system.slice/docker-" +:+ id +:+ ".scope")))
      with ("/system.slice/" +:+ ("docker-" +:+ id +:+ ".scope")) by done.
    apply first_id_first; [done|].
    exists ["system.slice"], ("docker-" +:+ id +:+ ".scope"), [].
    split_and!; [|by repeat constructor|by apply scope_segment].
    unfold split. rewrite <- (app_string_nil_r ("/system.slice/" +:+ _)), app_string_assoc.
    change ("/system.slice/" +:+ ?x) with (String "/" ("system.slice" +:+ String "/" x)).
    cbn [split_loop]. rewrite Ascii.eqb_refl, split_loop_piece by done.
    cbn [split_loop]. rewrite Ascii.eqb_refl, split_loop_piece.
    + done.
    + rewrite !lacks_app, (all_hex_lacks id); done.
  - rewrite <- app_string_assoc. apply extract_line; [|..|done].
    { rewrite !lacks_app, (all_hex_lacks id); done. }
    unfold lastField, stringsLastIndexByte.
    change ("0::/docker/" +:+ id) with ("0:" +:+ String ":" ("/docker/" +:+ id)).
    rewrite last_index_app by (by rewrite !lacks_app, (all_hex_lacks id)).
    replace (sdrop (String.length "0:" + 1) ("0:" +:+ String ":" ("/docker/" +:+ id)))
      with (String "/" ("docker" +:+ String "/" id)) by done.
    apply first_id_first; [done|]. exists ["docker"], id, [].
    split_and!; [|by repeat constructor|unfold hexFromSegment; by rewrite Hid].
    unfold split. cbn [split_loop]. rewrite Ascii.eqb_refl, split_loop_piece by done.
    cbn [split_loop]. rewrite Ascii.eqb_refl. rewrite <- (app_string_nil_r id) at 1.
    rewrite split_loop_piece by (by apply all_hex_lacks). cbn [split_loop].
    change ("" +:+ id) with id. destruct (Z.eqb_spec (slen id) 0) as [Hz|]; [|done].
    by apply slen_zero in Hz.
Qed.

Lemma container_id_spec_witness :
  extractHexContainerID
    ("0::/system.slice/docker-" +:+ "0123456789ab" +:+ ".scope" +:+ String newline "")
  = "0123456789ab".
Proof. apply (container_id_spec "" "0123456789ab"). vm_compute. reflexivity. Defined.
