(* ===== verification/Mitigator.v ===== *)
(** The mitigator ([proxy/mitigator]): signals, the container manager, the
    ledger of reversible mitigations, and the handler that turns an alert into
    an authorised, executed and recorded intervention.

    The policy engine is shared with other components: the operations take it
    and return it, [None] when none is configured.  The host is the interface
    [Host]. *)

From S2P Require Import Prelude GoFloat GoStrings Host ProcText.
From S2P Require Import PolicyEvaluator PolicyLedger PolicyEngine.
From S2P Require Alerter.

(** * Data *)

Inductive ActionState :=
  | ActionPaused
  | ActionThrottle
  | ActionResumed
  | ActionOrphaned
  | ActionDriftSynced
  | ActionStateOther (s : string).

#[global] Instance ActionState_eq_dec : EqDecision ActionState.
Proof. solve_decision. Defined.

(** [MechanismNone] is the empty mechanism of a skipped action. *)
Inductive MechanismType :=
  | MechanismSignalStop
  | MechanismContainerPause
  | MechanismCgroupFreeze
  | MechanismNone.

#[global] Instance MechanismType_eq_dec : EqDecision MechanismType.
Proof. solve_decision. Defined.

Inductive ActionStatus := ActionStatusSuccess | ActionStatusSkipped | ActionStatusFailed.

Record TargetIdentifier := { TPID : Z; TContainerID : string; TProcessName : string }.

Record ActionExecuted := {
  Mechanism : MechanismType;
  SignalSent : string;
  AStatus : ActionStatus;
  ExecutionDurationMs : float64
}.

Record PolicyContext := { IsWhitelistedEntity : bool; ReversibilityToken : string }.

Record MitigationEvent := {
  MitigationEventID : string;
  MTimestamp : Z;
  Target : TargetIdentifier;
  Action : ActionExecuted;
  PolicyCtx : PolicyContext
}.

Record LedgerEntry := {
  LPID : Z;
  LContainerID : string;
  LProcessName : string;
  LAnomalyType : string;
  LTimestamp : Z;
  LState : ActionState;
  LToken : string;
  LMechanism : MechanismType;
  LEventID : string
}.

(** The configuration; the policy engine is passed separately. *)
Record Config := {
  DockerSocketPath : string;
  DockerTimeout : Z;
  CgroupRoot : string;
  ProcRoot : string;
  WhitelistNames : list string;
  WhitelistIDs : list string;
  BufferSize : Z
}.

Definition DefaultConfig : Config := {|
  DockerSocketPath := "unix:///var/run/docker.sock";
  DockerTimeout := 5 * Second;
  CgroupRoot := "/sys/fs/cgroup";
  ProcRoot := "/proc";
  WhitelistNames := ["systemd"; "dockerd"; "containerd"; "kubelet"; "sshd"; "init"; "kerneloops"];
  WhitelistIDs := [];
  BufferSize := 64
|}.

Definition generateEventID (rnd : string) : string := prefixed_id "mit_" rnd.
Definition generateRevToken (rnd : string) : string := prefixed_id "rev_token_" rnd.

(** * The ledger of mitigations *)

Abbreviation Ledger := (gmap string LedgerEntry).

Definition timeNowUnix : Z := 0.

(** [Record]: the entry is stored under a fresh token, paused. *)
Definition Record_entry (l : Ledger) (rnd : string) (entry : LedgerEntry) : Ledger * string :=
  let token := generateRevToken rnd in
  (<[token := {| LPID := LPID entry; LContainerID := LContainerID entry;
                 LProcessName := LProcessName entry; LAnomalyType := LAnomalyType entry;
                 LTimestamp := timeNowUnix; LState := ActionPaused; LToken := token;
                 LMechanism := LMechanism entry; LEventID := LEventID entry |}]> l, token).

Definition ResolveByToken (l : Ledger) (token : string) : option LedgerEntry := l !! token.

Definition set_state (st : ActionState) (e : LedgerEntry) : LedgerEntry :=
  {| LPID := LPID e; LContainerID := LContainerID e; LProcessName := LProcessName e;
     LAnomalyType := LAnomalyType e; LTimestamp := LTimestamp e; LState := st;
     LToken := LToken e; LMechanism := LMechanism e; LEventID := LEventID e |}.

Definition UpdateState (l : Ledger) (token : string) (st : ActionState) : Ledger * bool :=
  match l !! token with
  | None => (l, false)
  | Some entry => (<[token := set_state st entry]> l, true)
  end.

Definition is_active (e : LedgerEntry) : bool :=
  bool_decide (LState e = ActionPaused) || bool_decide (LState e = ActionThrottle).

Definition ListActive `{MapRange} (l : Ledger) (n : nat) : list LedgerEntry :=
  omap (λ '(_, e), if is_active e then Some e else None) (range n l).

Definition Count (l : Ledger) : Z := Z.of_nat (size l).

(** * Signals and containers *)

Section host.
Context `{Host W}.

(** The error of a failed signal, as [FreezeProcess] and [UnfreezeProcess]
    report it. *)
Definition signal_failure (verb : string) (pid : Z) (err : signal_error) : error :=
  let wrap e := ErrWrap (verb +:+ " pid " +:+ fmt_d pid) e in
  match err with
  | ProcessDone => wrap ErrProcessAlreadyExited
  | Errno n =>
      if n =? EPERM then wrap ErrPermissionDenied
      else if n =? ESRCH then wrap ErrProcessNotExist
      else wrap (ErrText (errno_string n))
  | OtherSignalError msg => wrap (ErrText msg)
  end.

Definition FreezeProcess (pid : Z) (w : W) : option error * W :=
  match find_process pid w with
  | Some msg => (Some (ErrWrap ("freeze: find pid " +:+ fmt_d pid) (ErrText msg)), w)
  | None =>
      let '(err, w) := send_signal SIGSTOP pid w in
      (signal_failure "freeze" pid <$> err, w)
  end.

Definition UnfreezeProcess (pid : Z) (w : W) : option error * W :=
  match find_process pid w with
  | Some msg => (Some (ErrWrap ("unfreeze: find pid " +:+ fmt_d pid) (ErrText msg)), w)
  | None =>
      let '(err, w) := send_signal SIGCONT pid w in
      (signal_failure "unfreeze" pid <$> err, w)
  end.

Record containerManager := {
  dockerEnabled : bool;
  dockerOnce : bool;
  dockerClient : bool;
  dockerHost : string;
  dockerTimeout : Z;
  cgroupRoot : string;
  procRoot : string
}.

Definition newContainerManager (host : string) (enabled : bool) (timeout : Z)
    (cgroup proc : string) : containerManager :=
  {| dockerEnabled := enabled; dockerOnce := false; dockerClient := false;
     dockerHost := host; dockerTimeout := timeout; cgroupRoot := cgroup; procRoot := proc |}.

(** [docker]: the client is made once; [true] when there is one and no error.
    After a failed first attempt the client stays nil. *)
Definition docker (cm : containerManager) (w : W) : bool * containerManager * W :=
  if dockerOnce cm then (dockerClient cm, cm, w)
  else
    let '(err, w) := docker_connect (dockerHost cm) w in
    let ok := match err with None => true | Some _ => false end in
    (ok, {| dockerEnabled := dockerEnabled cm; dockerOnce := true; dockerClient := ok;
            dockerHost := dockerHost cm; dockerTimeout := dockerTimeout cm;
            cgroupRoot := cgroupRoot cm; procRoot := procRoot cm |}, w).

(** Names of processes are directories that start with a digit. *)
Definition is_pid_entry (entry : string * bool) : bool :=
  entry.2 && match entry.1 with
             | String c _ => (48 <=? nat_of_ascii c)%nat && (nat_of_ascii c <=? 57)%nat
             | EmptyString => false
             end.

Fixpoint find_cgroup (proc containerID : string) (entries : list (string * bool)) (w : W) :
    option string :=
  match entries with
  | [] => None
  | entry :: rest =>
      if is_pid_entry entry then
        match read_file (path_join [proc; entry.1; "cgroup"]) w with
        | inl _ => find_cgroup proc containerID rest w
        | inr data =>
            let path := matchCgroupPath data containerID in
            if streq path "" then find_cgroup proc containerID rest w else Some path
        end
      else find_cgroup proc containerID rest w
  end.

Definition resolveCgroupPath (cm : containerManager) (containerID : string) (w : W) :
    error + string :=
  match read_dir (procRoot cm) w with
  | inl msg => inl (ErrWrap ("read " +:+ procRoot cm) (ErrText msg))
  | inr entries =>
      match find_cgroup (procRoot cm) containerID entries w with
      | Some path => inr path
      | None => inl (ErrText ("container " +:+ containerID +:+ ": cgroup path not found"))
      end
  end.

Definition cgroupFreeze (cm : containerManager) (containerID : string) (freeze : bool) (w : W) :
    option error * W :=
  match resolveCgroupPath cm containerID w with
  | inl e => (Some (ErrWrap "cgroup freeze" e), w)
  | inr path =>
      let freezePath := path_join [cgroupRoot cm; path; "cgroup.freeze"] in
      let '(err, w) := write_file freezePath (if freeze then "1" else "0") w in
      (match err with
       | None => None
       | Some (WriteDenied _) =>
           Some (ErrWrap ("cgroup freeze write " +:+ freezePath) ErrPermissionDenied)
       | Some (WriteNotExist _) =>
           Some (ErrWrap ("cgroup freeze path " +:+ freezePath) ErrProcessNotExist)
       | Some (WriteOther msg) =>
           Some (ErrWrap ("cgroup freeze write " +:+ freezePath) (ErrText msg))
       end, w)
  end.

(** [Pause] and [Unpause]: docker first, the cgroup freezer otherwise. *)
Definition container_op (freeze : bool) (call : string → W → option string * W)
    (cm : containerManager) (containerID : string) (w : W) :
    option error * containerManager * W :=
  let '(done_, cm, w) :=
    if dockerEnabled cm then
      let '(ok, cm, w) := docker cm w in
      if ok then
        let '(err, w) := call containerID w in
        (match err with None => true | Some _ => false end, cm, w)
      else (false, cm, w)
    else (false, cm, w) in
  if done_ : bool then (None, cm, w)
  else let '(err, w) := cgroupFreeze cm containerID freeze w in (err, cm, w).

Definition Pause := container_op true container_pause.
Definition Unpause := container_op false container_unpause.

(** * The mitigator *)

Record Mitigator := {
  mcfg : Config;
  mledger : Ledger;
  cm : containerManager;
  mevents : chan MitigationEvent;
  mconsole : list MitigationEvent
}.

Definition New (c : Config) : Mitigator :=
  let size := if BufferSize c <=? 0 then 64 else BufferSize c in
  let c := {| DockerSocketPath := DockerSocketPath c; DockerTimeout := DockerTimeout c;
              CgroupRoot := CgroupRoot c; ProcRoot := ProcRoot c;
              WhitelistNames := WhitelistNames c; WhitelistIDs := WhitelistIDs c;
              BufferSize := size |} in
  {| mcfg := c; mledger := ∅;
     cm := newContainerManager (DockerSocketPath c) (negb (streq (DockerSocketPath c) ""))
             (DockerTimeout c) (CgroupRoot c) (ProcRoot c);
     mevents := make_chan size; mconsole := [] |}.

Definition with_ledger (m : Mitigator) (l : Ledger) : Mitigator :=
  {| mcfg := mcfg m; mledger := l; cm := cm m; mevents := mevents m; mconsole := mconsole m |}.

Definition with_cm (m : Mitigator) (c : containerManager) : Mitigator :=
  {| mcfg := mcfg m; mledger := mledger m; cm := c; mevents := mevents m;
     mconsole := mconsole m |}.

Definition send_event (m : Mitigator) (evt : MitigationEvent) : Mitigator :=
  {| mcfg := mcfg m; mledger := mledger m; cm := cm m;
     mevents := (try_send evt (mevents m)).1; mconsole := mconsole m |}.

(** A receive from the channel [Events] returns. *)
Definition Events (m : Mitigator) : option MitigationEvent * Mitigator :=
  let '(evt, ch) := try_recv (mevents m) in
  (evt, {| mcfg := mcfg m; mledger := mledger m; cm := cm m; mevents := ch; mconsole := mconsole m |}).

(** [emitEvent]: to the channel and to the console. *)
Definition emitEvent (m : Mitigator) (evt : MitigationEvent) : Mitigator :=
  let m := send_event m evt in
  {| mcfg := mcfg m; mledger := mledger m; cm := cm m; mevents := mevents m;
     mconsole := mconsole m ++ [evt] |}.

(** [p.engine.Evaluator().IsWhitelisted], false without an engine. *)
Definition IsWhitelisted (pol : option Engine) (containerID processName : string) : bool :=
  match pol with
  | None => false
  | Some e => PolicyEvaluator.IsWhitelisted (evaluator e) processName containerID
  end.

Definition resolveProcessName (m : Mitigator) (pid : Z) (w : W) : string :=
  match read_file (ProcRoot (mcfg m) +:+ "/" +:+ fmt_d pid +:+ "/cmdline") w with
  | inl _ => ""
  | inr data => extractCmdline data
  end.

Definition resolveContainerID (m : Mitigator) (pid : Z) (w : W) : string :=
  match read_file (ProcRoot (mcfg m) +:+ "/" +:+ fmt_d pid +:+ "/cgroup") w with
  | inl _ => ""
  | inr data => extractHexContainerID data
  end.

(** Clock readings and random bytes of one call. *)
Record readings := {
  tPolicy1 : Z; tPolicy2 : Z; tPolicyEvent : Z;
  tStart : Z; tElapsed : Z; tEvent : Z;
  rndTx : string; rndToken : string; rndEvent : string
}.

(** [time.Since(start).Seconds() * 1000] *)
Definition elapsed_ms (r : readings) : float64 :=
  fmul (duration_seconds (i64 (tElapsed r - tStart r))) (f_of_Z 1000).

(** Pausing the container, falling back on the signal, or signalling a
    process without a container. *)
Definition freeze_target (m : Mitigator) (pid : Z) (containerID : string) (w : W) :
    MechanismType * option error * Mitigator * W :=
  if streq containerID "" then
    let '(err, w) := FreezeProcess pid w in (MechanismSignalStop, err, m, w)
  else
    let '(err, c, w) := Pause (cm m) containerID w in
    let m := with_cm m c in
    match err with
    | None => (MechanismContainerPause, None, m, w)
    | Some _ => let '(err, w) := FreezeProcess pid w in (MechanismSignalStop, err, m, w)
    end.

(** The end of the handler: record a success and report the outcome. *)
Definition record_outcome (m : Mitigator) (target : TargetIdentifier) (anomalyType : string)
    (mech : MechanismType) (err : option error) (r : readings) : Mitigator :=
  let '(l, revToken) :=
    match err with
    | None => Record_entry (mledger m) (rndToken r)
        {| LPID := TPID target; LContainerID := TContainerID target;
           LProcessName := TProcessName target; LAnomalyType := anomalyType;
           LTimestamp := 0; LState := ActionPaused; LToken := ""; LMechanism := mech;
           LEventID := "" |}
    | Some _ => (mledger m, "")
    end in
  emitEvent (with_ledger m l) {|
    MitigationEventID := generateEventID (rndEvent r);
    MTimestamp := tEvent r;
    Target := target;
    Action := {| Mechanism := mech; SignalSent := "SIGSTOP";
                 AStatus := match err with None => ActionStatusSuccess
                                      | Some _ => ActionStatusFailed end;
                 ExecutionDurationMs := elapsed_ms r |};
    PolicyCtx := {| IsWhitelistedEntity := false; ReversibilityToken := revToken |} |}.

(** The intent submitted to the policy engine. *)
Definition intent_of (target : TargetIdentifier) (anomalyType : string) : MitigationIntent :=
  {| TargetPID := TPID target; ContainerID := TContainerID target;
     ProcessName := TProcessName target;
     IntentAction := if streq (TContainerID target) "" then ActionSIGSTOP
                    else ActionContainerPause;
     AnomalyType := anomalyType; SourceModule := "mitigator"; Metadata := ∅ |}.

Definition mitigateFromAlert (m : Mitigator) (pol : option Engine) (w : W)
    (alert : Alerter.ConsolidatedAlert) (r : readings) : Mitigator * option Engine * W :=
  let pid := Alerter.TargetPID (Alerter.Payload alert) in
  let anomalyType := Alerter.AnomalyType (Alerter.Payload alert) in
  let processName := resolveProcessName m pid w in
  let containerID := resolveContainerID m pid w in
  let target := {| TPID := pid; TContainerID := containerID; TProcessName := processName |} in
  match pol with
  | Some e =>
      let '(e, authorized, txID, polEvt) :=
        EvaluateAndRegister e (tPolicy1 r) (tPolicy2 r) (tPolicyEvent r) (rndTx r)
          (intent_of target anomalyType) in
      if negb authorized then
        (emitEvent m {|
           MitigationEventID := generateEventID (rndEvent r);
           MTimestamp := tEvent r;
           Target := target;
           Action := {| Mechanism := MechanismNone; SignalSent := "";
                        AStatus := ActionStatusSkipped; ExecutionDurationMs := f_zero |};
           PolicyCtx := {| IsWhitelistedEntity := IsWhitelisted (Some e) containerID processName;
                           ReversibilityToken := LedgerTransactionID polEvt |} |},
         Some e, w)
      else
        let '(mech, err, m, w) := freeze_target m pid containerID w in
        let e := match err with
                 | None => ConfirmExecution e txID
                 | Some err => Reject e txID (error_string err)
                 end in
        (record_outcome m target anomalyType mech err r, Some e, w)
  | None =>
      let '(mech, err, m, w) := freeze_target m pid containerID w in
      (record_outcome m target anomalyType mech err r, None, w)
  end.

(** [Resume]: the event or the error, and the new states. *)
Definition Resume (m : Mitigator) (pol : option Engine) (w : W) (token : string) (r : readings) :
    (error + MitigationEvent) * Mitigator * option Engine * W :=
  match ResolveByToken (mledger m) token with
  | None => (inl (ErrText ("resume: token " +:+ token +:+ " not found")), m, pol, w)
  | Some entry =>
      let '(mech, err, m, w) :=
        match LMechanism entry with
        | MechanismContainerPause =>
            let '(err, c, w) := Unpause (cm m) (LContainerID entry) w in
            (MechanismContainerPause,
             ErrWrap ("resume container " +:+ LContainerID entry) <$> err, with_cm m c, w)
        | MechanismSignalStop | MechanismCgroupFreeze =>
            let '(err, w) := UnfreezeProcess (LPID entry) w in
            (MechanismSignalStop, ErrWrap ("resume pid " +:+ fmt_d (LPID entry)) <$> err, m, w)
        | MechanismNone => (MechanismNone, None, m, w)
        end in
      match err with
      | Some err => (inl err, m, pol, w)
      | None =>
          let m := with_ledger m (UpdateState (mledger m) token ActionResumed).1 in
          let pol := (λ e, Complete e token) <$> pol in
          let evt := {|
            MitigationEventID := generateEventID (rndEvent r);
            MTimestamp := tEvent r;
            Target := {| TPID := LPID entry; TContainerID := LContainerID entry;
                         TProcessName := LProcessName entry |};
            Action := {| Mechanism := mech; SignalSent := "SIGCONT";
                         AStatus := ActionStatusSuccess; ExecutionDurationMs := elapsed_ms r |};
            PolicyCtx := {| IsWhitelistedEntity := false; ReversibilityToken := token |} |} in
          (inr evt, send_event m evt, pol, w)
      end
  end.

Definition ActiveMitigations `{MapRange} (m : Mitigator) (n : nat) : list LedgerEntry :=
  ListActive (mledger m) n.

Definition MitigationCount (m : Mitigator) : Z := Count (mledger m).

Definition UpdateMitigationState (m : Mitigator) (token : string) (st : ActionState) :
    Mitigator * bool :=
  let '(l, ok) := UpdateState (mledger m) token st in (with_ledger m l, ok).

Definition RollbackPID (m : Mitigator) (pid : Z) (containerID : string) (w : W) :
    option error * Mitigator * W :=
  if streq containerID "" then
    let '(err, w) := UnfreezeProcess pid w in (err, m, w)
  else
    let '(err, c, w) := Unpause (cm m) containerID w in
    let m := with_cm m c in
    match err with
    | None => (None, m, w)
    | Some _ => let '(err, w) := UnfreezeProcess pid w in (err, m, w)
    end.
End host.

(** * Outcomes *)

Section outcomes.
Context `{Host W}.

Lemma freeze_target_ledger m pid cid (w : W) :
  let '(mech, err, m', w') := freeze_target m pid cid w in
  mcfg m' = mcfg m ∧ mledger m' = mledger m ∧ mconsole m' = mconsole m ∧
  mevents m' = mevents m ∧
  (mech = MechanismSignalStop ∨ mech = MechanismContainerPause ∧ cid ≠ "" ∧ err = None).
Proof.
  unfold freeze_target, streq. case_bool_decide.
  - destruct (FreezeProcess pid w) as [err w1]. auto 6.
  - destruct (Pause (cm m) cid w) as [[err c] w1]. destruct err; [|auto 8].
    destruct (FreezeProcess pid w1) as [err w2]. auto 6.
Qed.

(** C6: the three ledgers agree on the outcome of an alert.  Every alert
    adds one record for its PID to the policy ledger and reports one event.
    A denied intervention leaves the host and the mitigation ledger alone; a
    successful one is EXECUTED in the policy ledger and PAUSED, under the
    token of the event, in the mitigation ledger; a failed one is REJECTED and
    leaves no mitigation behind. *)
Theorem mitigation_outcome m e (w : W) alert r :
  engine_ok e →
  let pid := Alerter.TargetPID (Alerter.Payload alert) in
  let target := {| TPID := pid; TContainerID := resolveContainerID m pid w;
                   TProcessName := resolveProcessName m pid w |} in
  let intent := intent_of target (Alerter.AnomalyType (Alerter.Payload alert)) in
  let allowed := permitted (evaluator e) intent (live_count (ledger e) (tPolicy1 r) pid) in
  let '(m', pol', w') := mitigateFromAlert m (Some e) w alert r in
  ∃ e' evt rec,
    pol' = Some e' ∧ mconsole m' = mconsole m ++ [evt] ∧ Target evt = target ∧
    records (ledger e') = <[generateTxID (rndTx r) := rec]> (records (ledger e)) ∧
    RecPID rec = pid ∧
    match AStatus (Action evt) with
    | ActionStatusSkipped =>
        ¬ allowed ∧ w' = w ∧ mledger m' = mledger m ∧ Status rec = StatusRejected
    | ActionStatusFailed =>
        allowed ∧ mledger m' = mledger m ∧ Status rec = StatusRejected
    | ActionStatusSuccess =>
        allowed ∧ Status rec = StatusExecuted ∧
        ∃ entry, mledger m' = <[ReversibilityToken (PolicyCtx evt) := entry]> (mledger m) ∧
          LToken entry = ReversibilityToken (PolicyCtx evt) ∧
          LState entry = ActionPaused ∧ LPID entry = pid ∧
          LContainerID entry = TContainerID target ∧
          LMechanism entry = Mechanism (Action evt)
    end.
Proof.
  intros He pid target intent allowed. unfold mitigateFromAlert. fold pid. fold target.
  fold intent.
  pose proof (EvaluateAndRegister_record e (tPolicy1 r) (tPolicy2 r) (tPolicyEvent r)
    (rndTx r) intent He) as Hrec.
  pose proof (evaluate_iff (evaluator e) intent
    (live_count (ledger e) (tPolicy1 r) pid)) as Hiff.
  destruct (EvaluateAndRegister _ _ _ _ _ _) as [[[e1 ok] txID] evt].
  destruct Hrec as (-> & Hok & (rec & Hr & Hp & _ & _ & Hs & _) & _ & _).
  change (TargetPID intent) with pid in *. rewrite <- Hok in Hiff. destruct ok; simpl.
  - pose proof (freeze_target_ledger m pid (resolveContainerID m pid w) w) as Hf.
    destruct (freeze_target _ _ _ _) as [[[mech err] m1] w1].
    destruct Hf as (_ & Hl & Hc & _). unfold record_outcome. fold target.
    destruct err as [err|]; simpl; rewrite Hc, Hl; do 2 eexists; eexists;
      (split_and!; [done|done|done|by apply update_inserted|done|]); simpl;
      (split_and!; [by apply Hiff|..]); try done.
    eexists. split_and!; done.
  - do 2 eexists. eexists. split_and!; [done|done|done|done|done|]. simpl.
    split_and!; [|done..]. intros Ha%Hiff. done.
Qed.

End outcomes.

(** * Tokens and transactions *)

Lemma rev_token_not_tx r1 r2 : generateRevToken r1 ≠ generateTxID r2.
Proof. unfold generateRevToken, generateTxID, prefixed_id. intros [=]. Qed.

(** The ids in use: policy transactions and reversibility tokens. *)
Definition ids_ok (m : Mitigator) (e : Engine) : Prop :=
  (∀ t, is_Some (mledger m !! t) → ∃ rnd, t = generateRevToken rnd) ∧
  (∀ t, is_Some (records (ledger e) !! t) → ∃ rnd, t = generateTxID rnd).

Lemma update_ids m e id st :
  ids_ok m e → ids_ok m (PolicyEngine.with_ledger e (UpdateStatus (ledger e) id st).1).
Proof.
  intros [Hm He]. split; [done|]. simpl. unfold UpdateStatus.
  destruct (records (ledger e) !! id) as [rec|] eqn:E; [|done]. simpl.
  intros t [x Hx]. apply lookup_insert_Some in Hx as [[<- _]|[_ Hx]]; apply He; eauto.
Qed.

Section ids.
Context `{Host W}.

Lemma Resume_policy m e (w : W) token r :
  ids_ok m e →
  let '(_, m', pol', _) := Resume m (Some e) w token r in
  ids_ok m' e ∧ ∃ e', pol' = Some e' ∧ records (ledger e') = records (ledger e).
Proof.
  intros Hids. destruct Hids as [Hm He].
  unfold Resume, ResolveByToken.
  destruct (mledger m !! token) as [entry|] eqn:El; [|by split; [split|eauto]].
  assert (Hup : ∀ id st t, is_Some ((UpdateState (mledger m) id st).1 !! t) →
    is_Some (mledger m !! t)).
  { intros id st t. unfold UpdateState. destruct (mledger m !! id) eqn:Ei; [|done]. simpl.
    intros [x [[<- _]|[_ Hx]]%lookup_insert_Some]; eauto. }
  assert (Hc : records (ledger (Complete e token)) = records (ledger e)).
  { unfold Complete, UpdateStatus. simpl. destruct (records (ledger e) !! token) eqn:Et; [|done].
    destruct (Hm token) as [r1 ->]; [by eauto|].
    destruct (He (generateRevToken r1)) as [r2 E2]; [by eauto|]. by destruct (rev_token_not_tx r1 r2). }
  match goal with |- context [match ?x with (_, _) => _ end] =>
    assert (Hl : mledger x.1.2 = mledger m) by
      (destruct (LMechanism entry); [by destruct (UnfreezeProcess _ _)|
        by destruct (Unpause _ _ _) as [[? ?] ?]|by destruct (UnfreezeProcess _ _)|done]);
    destruct x as [[[mech err] m1] w1] end.
  simpl in Hl. destruct err as [err|]; simpl; rewrite ?Hl.
  - split; [split; simpl; by rewrite ?Hl|eauto].
  - split; [split; simpl; [|done]|eauto]. intros t Ht. apply Hm.
    eapply Hup. exact Ht.
Qed.

Lemma record_outcome_ids m e target an mech err r :
  ids_ok m e → ids_ok (record_outcome m target an mech err r) e.
Proof.
  intros [Hm Hp]. split; [|done]. unfold record_outcome. destruct err; [done|]. simpl.
  intros t [x [[<- _]|[_ Hx]]%lookup_insert_Some]; eauto.
Qed.

Lemma mitigate_ids m e (w : W) alert r :
  engine_ok e → ids_ok m e →
  let '(m', pol', _) := mitigateFromAlert m (Some e) w alert r in
  ∃ e', pol' = Some e' ∧ ids_ok m' e'.
Proof.
  intros He Hids. unfold mitigateFromAlert.
  set (pid := Alerter.TargetPID _). set (target := {| TPID := _ |}). set (intent := intent_of _ _).
  pose proof (EvaluateAndRegister_record e (tPolicy1 r) (tPolicy2 r) (tPolicyEvent r)
    (rndTx r) intent He) as Hrec.
  destruct (EvaluateAndRegister _ _ _ _ _ _) as [[[e1 ok] txID] evt].
  destruct Hrec as (-> & _ & (rec & Hr & _) & _ & _).
  assert (He1 : ids_ok m e1).
  { destruct Hids as [Hm Hp]. split; [done|]. rewrite Hr.
    intros t [x [[<- _]|[_ Hx]]%lookup_insert_Some]; eauto. }
  destruct ok; simpl; [|eauto].
  pose proof (freeze_target_ledger m pid (resolveContainerID m pid w) w) as Hf.
  destruct (freeze_target _ _ _ _) as [[[mech err] m1] w1].
  destruct Hf as (_ & Hl & _ & _). eexists. split; [done|].
  assert (Hm1 : ids_ok m1 e1) by (destruct He1; split; [by rewrite Hl|done]).
  apply record_outcome_ids. destruct err; by apply (update_ids m1 e1).
Qed.
End ids.

(** The mitigator next to the engine it shares with the other components, which
    may evaluate, update, sweep and reconfigure it in between. *)
Inductive control_step `{MapRange, Host W} : Mitigator * (Engine * Z) → Mitigator * (Engine * Z) → Prop :=
  | control_alert m e t (w : W) alert r m' e' w' :
      mitigateFromAlert m (Some e) w alert r = (m', Some e', w') →
      t <= tPolicy1 r <= tPolicy2 r → records (ledger e) !! generateTxID (rndTx r) = None →
      control_step (m, (e, t)) (m', (e', tPolicy2 r))
  | control_resume m e t (w : W) token r res m' e' w' :
      Resume m (Some e) w token r = (res, m', Some e', w') →
      control_step (m, (e, t)) (m', (e', t))
  | control_state m st token s :
      control_step (m, st) ((UpdateMitigationState m token s).1, st)
  | control_policy m st st' : engine_step st st' → control_step (m, st) (m, st').

Section control.
Context `{MapRange, Host W}.

Lemma engine_step_ids cfg m st st' :
  engine_inv cfg st → ids_ok m st.1 → engine_step st st' → ids_ok m st'.1.
Proof.
  intros Hi Hids Hstep. destruct Hstep as [e t t1 t2 t3 rnd intent Ht Hf|e t id|e t id
    |e t id why|e t t' n Ht|e t names ids|e t]; simpl in *;
    try (by apply update_ids); try done.
  - pose proof (EvaluateAndRegister_record e t1 t2 t3 rnd intent (ei_ok _ _ Hi)) as Hrec.
    destruct (EvaluateAndRegister _ _ _ _ _ _) as [[[e1 ok] txID] evt]. simpl in *.
    destruct Hrec as (-> & _ & (rec & Hr & _) & _). destruct Hids as [Hm Hp]. split; [done|].
    rewrite Hr. intros x [y [[<- _]|[_ Hy]]%lookup_insert_Some]; eauto.
  - destruct Hids as [Hm Hp]. split; [done|]. simpl.
    intros x [y [Hy _]%sweep_subseteq]. eauto.
Qed.

(** What an alert does to the engine is an evaluation and a status change. *)
Lemma mitigate_engine_steps m e t (w : W) alert r m' e' w' :
  mitigateFromAlert m (Some e) w alert r = (m', Some e', w') →
  t <= tPolicy1 r <= tPolicy2 r → records (ledger e) !! generateTxID (rndTx r) = None →
  rtc engine_step (e, t) (e', tPolicy2 r).
Proof.
  intros Hm Ht Hf. unfold mitigateFromAlert in Hm.
  match type of Hm with context [EvaluateAndRegister _ _ _ ?t3 ?rnd ?i] =>
    pose proof (step_evaluate e t _ _ t3 rnd i Ht Hf) as Hstep end.
  destruct (EvaluateAndRegister _ _ _ _ _ _) as [[[e1 ok] txID] evt]. simpl in Hstep.
  eapply rtc_l; [exact Hstep|]. destruct ok; simpl in Hm.
  - destruct (freeze_target _ _ _ _) as [[[mech err] m1] w1]. injection Hm as _ <- _.
    apply rtc_once. destruct err; [apply step_reject|apply step_confirm].
  - by injection Hm as _ <- _.
Qed.

Lemma engine_steps_inv cfg st st' :
  engine_inv cfg st → rtc engine_step st st' → engine_inv cfg st'.
Proof. intros Hi Hs. induction Hs; [done|]. eauto using engine_step_inv. Qed.

Definition control_inv (cfg : PolicyEvaluator.Config) (st : Mitigator * (Engine * Z)) : Prop :=
  engine_inv cfg st.2 ∧ ids_ok st.1 st.2.1.

Lemma control_step_inv cfg st st' :
  control_inv cfg st → control_step st st' → control_inv cfg st'.
Proof.
  intros [Hi Hids] Hstep. destruct Hstep as [m e t w alert r m' e' w' Hm Ht Hf
    |m e t w token r res m' e' w' Hr|m [e t] token s|m st st' Hp]; cbn [fst snd] in *.
  - split; cbn [fst snd]; [eapply engine_steps_inv, mitigate_engine_steps; done|].
    pose proof (mitigate_ids m e w alert r (ei_ok _ _ Hi) Hids) as Hx. rewrite Hm in Hx.
    by destruct Hx as (e1 & [= <-] & ?).
  - pose proof (Resume_policy m e w token r Hids) as Hx. rewrite Hr in Hx.
    destruct Hx as (Hids' & e1 & [= <-] & Heq). split; simpl.
    + unfold Resume in Hr. destruct (ResolveByToken _ _) as [entry|]; [|by simplify_eq].
      destruct (match LMechanism entry with MechanismSignalStop => _ | _ => _ end)
        as [[[mech err] m1] w1].
      destruct err; simplify_eq/=; [done|]. by apply update_inv.
    + destruct Hids' as [? ?]. split; [done|]. by rewrite Heq.
  - split; simpl; [done|]. destruct Hids as [Hm Hp]. split; [|done].
    unfold UpdateMitigationState, UpdateState. destruct (mledger m !! token) eqn:E; [|done].
    simpl. intros x [y [[<- _]|[_ Hy]]%lookup_insert_Some]; eauto.
  - split; simpl; [by eapply engine_step_inv|by eapply engine_step_ids].
Qed.

Lemma control_run_inv cfg c t0 st :
  0 <= PolicyEvaluator.BufferSize cfg → rtc control_step (New c, (NewEngine cfg, t0)) st →
  control_inv cfg st.
Proof.
  intros Hb Hs. apply rtc_ind_r with (P := control_inv cfg) in Hs; [done| |].
  - split; [by apply NewEngine_inv|]. split; intros t [x Hx]; cbn in Hx;
      by apply lookup_empty_Some in Hx.
  - eauto using control_step_inv.
Qed.

(** Resuming never completes a policy transaction.  In every state the
    mitigator and the engine reach together, and whatever the token and the
    host's answers, [Resume] leaves the records of the policy ledger as they
    were: the token it hands to [Complete] is never a transaction id. *)
Theorem Resume_leaves_policy cfg c t0 m e t (w : W) token r :
  0 <= PolicyEvaluator.BufferSize cfg →
  rtc control_step (New c, (NewEngine cfg, t0)) (m, (e, t)) →
  ∃ e', (Resume m (Some e) w token r).1.2 = Some e' ∧
    records (ledger e') = records (ledger e).
Proof.
  intros Hb Hs. destruct (control_run_inv cfg c t0 _ Hb Hs) as [_ Hids].
  pose proof (Resume_policy m e w token r Hids) as Hx.
  destruct (Resume m (Some e) w token r) as [[[res m'] pol'] w'].
  by destruct Hx as (_ & Hx).
Qed.
End control.

(** * Concrete instances *)

(** A host whose world is the set of stopped processes: it has no files and no
    container runtime, and a signal fails with ESRCH except for process 4321. *)
#[global] Instance sample_host : Host (gset Z) := {
  find_process _ _ := None;
  send_signal sig pid w :=
    if pid =? 4321
    then (None, match sig with SIGSTOP => {[pid]} ∪ w | SIGCONT => w ∖ {[pid]} end)
    else (Some (Errno ESRCH), w);
  errno_string _ := "";
  read_dir _ _ := inl "";
  read_file _ _ := inl "";
  stat_not_exist _ _ := false;
  write_file _ _ w := (Some (WriteNotExist ""), w);
  docker_connect _ w := (Some "no docker", w);
  container_pause _ w := (Some "", w);
  container_unpause _ w := (Some "", w)
}.

Definition sample_readings : readings :=
  {| tPolicy1 := 0; tPolicy2 := 0; tPolicyEvent := 0; tStart := 0; tElapsed := 0; tEvent := 0;
     rndTx := "a"; rndToken := "b"; rndEvent := "c" |}.

Definition sample_trigger (pid : Z) : Alerter.ConsolidatedAlert :=
  {| Alerter.EventID := ""; Alerter.Timestamp := 0; Alerter.Metadata := Alerter.zeroMetadata;
     Alerter.Payload :=
       {| Alerter.TargetPID := pid; Alerter.GPUUID := ""; Alerter.AnomalyType := "IDLE_GPU_HOG";
          Alerter.Severity := "CRITICAL";
          Alerter.Telemetry :=
            {| Alerter.SMUtilizationPct := f_zero; Alerter.VRAMUsedBytes := 0 |} |} |}.

(** Process 4321 is stopped and the mitigation recorded. *)
Lemma mitigation_outcome_witness :
  let '(m', pol', w') :=
    mitigateFromAlert (New DefaultConfig) (Some sample_engine) (∅ : gset Z) (sample_trigger 4321)
      sample_readings in
  (∃ evt, mconsole m' = [evt] ∧ AStatus (Action evt) = ActionStatusSuccess) ∧
  ∃ e' rec, pol' = Some e' ∧
    records (ledger e') = <[generateTxID "a" := rec]> (records (ledger sample_engine)).
Proof.
  pose proof (mitigation_outcome (New DefaultConfig) sample_engine (∅ : gset Z)
    (sample_trigger 4321) sample_readings sample_engine_ok) as Ho. cbv zeta in Ho.
  assert (Hs : AStatus <$> (Action <$> last (mconsole
    (mitigateFromAlert (New DefaultConfig) (Some sample_engine) (∅ : gset Z) (sample_trigger 4321)
      sample_readings).1.1)) = Some ActionStatusSuccess) by (vm_compute; reflexivity).
  destruct (mitigateFromAlert _ _ _ _ _) as [[m' pol'] w'].
  destruct Ho as (e' & evt & rec & H1 & H2 & _ & H3 & _).
  split; [|by exists e', rec]. exists evt. split; [exact H2|].
  simpl in Hs. rewrite H2 in Hs. simpl in Hs. by injection Hs.
Defined.

Lemma Resume_leaves_policy_witness :
  ∃ e', (Resume (New DefaultConfig) (Some (NewEngine PolicyEvaluator.DefaultConfig))
          (∅ : gset Z) "rev_token_62" sample_readings).1.2 = Some e' ∧
    records (ledger e') = records (ledger (NewEngine PolicyEvaluator.DefaultConfig)).
Proof.
  apply (Resume_leaves_policy PolicyEvaluator.DefaultConfig DefaultConfig 0 (New DefaultConfig)
    (NewEngine PolicyEvaluator.DefaultConfig) 0 (∅ : gset Z) "rev_token_62" sample_readings).
  - vm_compute. discriminate.
  - apply rtc_refl.
Defined.
