(* ===== verification/RouterRegistry.v ===== *)
(** The registry of routed processes ([proxy/router/registry.go]): per PID, the
    remedy in force and the time until which it applies.  Every method runs
    under the registry's lock, except that [Lookup] releases it between reading
    an entry and retiring it; times are nanosecond readings of the clock. *)

From S2P Require Import Prelude.

Inductive RemedyType := RemedyNone | RemedyTokenChop | RemedyFallbackRoute | RemedyBoth.

#[global] Instance RemedyType_eq_dec : EqDecision RemedyType.
Proof. solve_decision. Defined.

Definition remedy_string (r : RemedyType) : string :=
  match r with
  | RemedyNone => "NONE"
  | RemedyTokenChop => "TOKEN_CHOP"
  | RemedyFallbackRoute => "DYNAMIC_FALLBACK_ROUTING"
  | RemedyBoth => "BOTH"
  end.

Record MitigationState := {
  SPID : Z;
  Remedy : RemedyType;
  OriginalModel : string;
  SFallbackModel : string;
  ActivatedAt : Z;
  LastAlertAt : Z;
  CoolingUntil : Z;
  TokensSaved : Z;
  RequestsProcessed : Z;
  Active : bool
}.

Record Registry := {
  entries : gmap Z MitigationState;
  coolingOffDur : Z
}.

Definition NewRegistry (coolingOff : Z) : Registry :=
  {| entries := ∅; coolingOffDur := coolingOff |}.

Definition with_entries (r : Registry) (m : gmap Z MitigationState) : Registry :=
  {| entries := m; coolingOffDur := coolingOffDur r |}.

Definition Activate (r : Registry) (now pid : Z) (remedy : RemedyType) (model : string) :
    Registry * MitigationState :=
  let coolUntil := i64 (now + coolingOffDur r) in
  let state :=
    match entries r !! pid with
    | Some s =>
        {| SPID := SPID s; Remedy := remedy; OriginalModel := OriginalModel s;
           SFallbackModel := if streq (SFallbackModel s) "" then model else SFallbackModel s;
           ActivatedAt := ActivatedAt s; LastAlertAt := now; CoolingUntil := coolUntil;
           TokensSaved := TokensSaved s; RequestsProcessed := RequestsProcessed s;
           Active := true |}
    | None =>
        {| SPID := pid; Remedy := remedy; OriginalModel := model; SFallbackModel := model;
           ActivatedAt := now; LastAlertAt := now; CoolingUntil := coolUntil;
           TokensSaved := 0; RequestsProcessed := 0; Active := true |}
    end in
  (with_entries r (<[pid := state]> (entries r)), state).

Definition Deactivate (r : Registry) (pid : Z) : Registry :=
  with_entries r (delete pid (entries r)).

Definition retire (s : MitigationState) : MitigationState :=
  {| SPID := SPID s; Remedy := Remedy s; OriginalModel := OriginalModel s;
     SFallbackModel := SFallbackModel s; ActivatedAt := ActivatedAt s;
     LastAlertAt := LastAlertAt s; CoolingUntil := CoolingUntil s;
     TokensSaved := TokensSaved s; RequestsProcessed := RequestsProcessed s;
     Active := false |}.

(** [Lookup] retires an entry that has cooled down. *)
Definition Lookup (r : Registry) (now pid : Z) : Registry * option MitigationState :=
  match entries r !! pid with
  | None => (r, None)
  | Some state =>
      if negb (Active state) then (r, None)
      else if CoolingUntil state <? now
      then (with_entries r (<[pid := retire state]> (entries r)), None)
      else (r, Some state)
  end.

Definition RefreshAlert (r : Registry) (now pid : Z) : Registry :=
  match entries r !! pid with
  | None => r
  | Some s =>
      with_entries r (<[pid :=
        {| SPID := SPID s; Remedy := Remedy s; OriginalModel := OriginalModel s;
           SFallbackModel := SFallbackModel s; ActivatedAt := ActivatedAt s;
           LastAlertAt := now; CoolingUntil := i64 (now + coolingOffDur r);
           TokensSaved := TokensSaved s; RequestsProcessed := RequestsProcessed s;
           Active := true |}]> (entries r))
  end.

Definition RecordTokensSaved (r : Registry) (pid count : Z) : Registry :=
  match entries r !! pid with
  | None => r
  | Some s =>
      with_entries r (<[pid :=
        {| SPID := SPID s; Remedy := Remedy s; OriginalModel := OriginalModel s;
           SFallbackModel := SFallbackModel s; ActivatedAt := ActivatedAt s;
           LastAlertAt := LastAlertAt s; CoolingUntil := CoolingUntil s;
           TokensSaved := i64 (TokensSaved s + count);
           RequestsProcessed := i64 (RequestsProcessed s + 1);
           Active := Active s |}]> (entries r))
  end.

Definition in_force (now : Z) (s : MitigationState) : bool :=
  Active s && (now <=? CoolingUntil s).

(** [ActiveCount]: the chop and fallback counts. *)
Definition ActiveCount `{MapRange} (r : Registry) (n : nat) (now : Z) : Z * Z :=
  foldl (λ '(chop, fallback) '(_, s),
      if negb (Active s) || (CoolingUntil s <? now) then (chop, fallback)
      else
        ((if bool_decide (Remedy s = RemedyTokenChop) || bool_decide (Remedy s = RemedyBoth)
          then chop + 1 else chop),
         (if bool_decide (Remedy s = RemedyFallbackRoute) || bool_decide (Remedy s = RemedyBoth)
          then fallback + 1 else fallback)))
    (0, 0) (range n (entries r)).

Definition TotalTokensSaved `{MapRange} (r : Registry) (n : nat) : Z :=
  foldl (λ total '(_, s), i64 (total + TokensSaved s)) 0 (range n (entries r)).

Definition Snapshot `{MapRange} (r : Registry) (n : nat) (now : Z) : list MitigationState :=
  omap (λ '(_, s), if in_force now s then Some s else None) (range n (entries r)).

(** * The registry keeps deadlines

    The specification of the registry forgets everything but, per PID, the time
    until which its remedy applies. *)

Abbreviation deadlines := (gmap Z Z).

Inductive reg_op :=
  | RActivate (now pid : Z) (remedy : RemedyType) (model : string)
  | RDeactivate (pid : Z)
  | RLookup (now pid : Z)
  | RRefresh (now pid : Z)
  | RTokens (pid count : Z).

Definition reg_step (r : Registry) (op : reg_op) : Registry :=
  match op with
  | RActivate now pid remedy model => (Activate r now pid remedy model).1
  | RDeactivate pid => Deactivate r pid
  | RLookup now pid => (Lookup r now pid).1
  | RRefresh now pid => RefreshAlert r now pid
  | RTokens pid count => RecordTokensSaved r pid count
  end.

Definition spec_step (cooling : Z) (d : deadlines) (op : reg_op) : deadlines :=
  match op with
  | RActivate now pid _ _ => <[pid := i64 (now + cooling)]> d
  | RDeactivate pid => delete pid d
  | RRefresh now pid =>
      match d !! pid with Some _ => <[pid := i64 (now + cooling)]> d | None => d end
  | RLookup _ _ | RTokens _ _ => d
  end.

Definition op_time (t : Z) (op : reg_op) : Z :=
  match op with
  | RActivate now _ _ _ | RLookup now _ | RRefresh now _ => now
  | _ => t
  end.

(** The clock of a run does not go back. *)
Fixpoint in_order (t : Z) (ops : list reg_op) : Prop :=
  match ops with [] => True | op :: rest => t <= op_time t op ∧ in_order (op_time t op) rest end.

Definition last_time (t : Z) (ops : list reg_op) : Z := foldl op_time t ops.

(** Entries carry their deadline, and only expired ones are retired. *)
Definition reg_rel (now : Z) (r : Registry) (d : deadlines) : Prop :=
  ∀ pid,
    d !! pid = CoolingUntil <$> entries r !! pid ∧
    (∀ s, entries r !! pid = Some s → Active s = false → CoolingUntil s < now).

Lemma reg_rel_insert now r d pid s dl :
  reg_rel now r d → Active s = true → CoolingUntil s = dl →
  reg_rel now (with_entries r (<[pid := s]> (entries r))) (<[pid := dl]> d).
Proof.
  intros Hr Hs <- p. simpl. destruct (decide (p = pid)) as [->|Hne].
  - rewrite !lookup_insert_eq. split; [done|]. intros ? [= <-]. congruence.
  - rewrite !lookup_insert_ne by done. apply Hr.
Qed.

Lemma reg_rel_time t t' r d : reg_rel t r d → t <= t' → reg_rel t' r d.
Proof.
  intros Hr Ht p. destruct (Hr p) as [H1 H2]. split; [done|]. intros s Hs Ha.
  specialize (H2 s Hs Ha). lia.
Qed.

Lemma reg_step_rel t r d op :
  reg_rel t r d → t <= op_time t op →
  reg_rel (op_time t op) (reg_step r op) (spec_step (coolingOffDur r) d op) ∧
  coolingOffDur (reg_step r op) = coolingOffDur r.
Proof.
  intros Hr Ht. destruct op as [now pid remedy model|pid|now pid|now pid|pid count]; simpl in *;
    apply (reg_rel_time _ _ _ _ Hr) in Ht as Hr'.
  - split; [|done]. apply reg_rel_insert; [done|..]; by destruct (entries r !! pid).
  - split; [|done]. intros p. simpl. destruct (decide (p = pid)) as [->|Hne].
    + by rewrite !lookup_delete_eq.
    + rewrite !lookup_delete_ne by done. apply Hr.
  - unfold Lookup. destruct (entries r !! pid) as [s|] eqn:E; [|done].
    destruct (Active s) eqn:Ea; [|done]. simpl. destruct (Z.ltb_spec (CoolingUntil s) now); [|done].
    split; [|done]. intros p. simpl. destruct (decide (p = pid)) as [->|Hne].
    + rewrite lookup_insert_eq. split; [|intros ? [= <-]; done].
      simpl. by rewrite (proj1 (Hr pid)), E.
    + rewrite lookup_insert_ne by done. apply Hr'.
  - unfold RefreshAlert. destruct (Hr pid) as [Hd _].
    destruct (entries r !! pid) as [s|] eqn:E; rewrite Hd; simpl; [|done].
    split; [|done]. by apply reg_rel_insert.
  - unfold RecordTokensSaved. destruct (entries r !! pid) as [s|] eqn:E; [|done]. split; [|done].
    intros p. simpl. destruct (decide (p = pid)) as [->|Hne].
    + rewrite lookup_insert_eq. split; [simpl; by rewrite (proj1 (Hr pid)), E|].
      intros ? [= <-]. simpl. by apply (proj2 (Hr pid)).
    + rewrite lookup_insert_ne by done. apply Hr.
Qed.

Lemma reg_run_rel t r d ops :
  reg_rel t r d → in_order t ops →
  reg_rel (last_time t ops) (foldl reg_step r ops) (foldl (spec_step (coolingOffDur r)) d ops).
Proof.
  revert t r d. induction ops as [|op ops IH]; intros t r d Hr Ho; [done|]. simpl in *.
  destruct Ho as [Ht Ho]. destruct (reg_step_rel t r d op Hr Ht) as [Hr' Hc].
  rewrite <- Hc. apply IH; [by rewrite Hc|done].
Qed.


