(* ===== verification/Chopper.v ===== *)
(** The context chopper ([proxy/router/chopper.go]): it shortens the message
    list of an OpenAI-style request, keeping the system prompt and the most
    recent messages.

    [encoding/json] is an argument of the model: [unmarshal body req] decodes
    into the request [req] it is given (the code decodes into pooled requests),
    returning the request and whether it succeeded, and [marshal] encodes.  The
    pool is a list of requests; [Get] takes any of them or makes a new one. *)

From S2P Require Import Prelude GoStrings.

Record openAIMessage := { Role : string; Content : string }.

Record openAIRequest := {
  Model : string;
  Stream : bool;
  Messages : list openAIMessage
}.

Definition zeroRequest : openAIRequest := {| Model := ""; Stream := false; Messages := [] |}.

(** The digits of a non-negative number, least significant first: one loop
    iteration per digit. *)
Fixpoint digits (fuel : nat) (n : Z) : string :=
  match fuel with
  | O => ""
  | S fuel =>
      if 0 <? n
      then String (ascii_of_nat (Z.to_nat (48 + Z.rem n 10))) (digits fuel (Z.quot n 10))
      else ""
  end.

Fixpoint reverse_onto (acc s : string) : string :=
  match s with EmptyString => acc | String c s => reverse_onto (String c acc) s end.

(** [itoa]: a 64-bit integer has at most 19 digits. *)
Definition itoa (n : Z) : string :=
  if n =? 0 then "0"
  else
    let neg := n <? 0 in
    let n := if neg then i64 (- n) else n in
    let buf := digits 20 n in
    reverse_onto "" (if neg then buf +:+ "-" else buf).

Definition summaryLine (dropped droppedChars divisor : Z) : string :=
  let estTokens := Z.quot droppedChars divisor in
  "[... truncated " +:+ itoa dropped +:+ " historical messages (~" +:+ itoa estTokens
    +:+ " tokens) ...]".

Definition content_len (msgs : list openAIMessage) : Z := zsum (λ m, slen (Content m)) msgs.

(** The index of the first system message. *)
Fixpoint system_index (msgs : list openAIMessage) : option nat :=
  match msgs with
  | [] => None
  | m :: rest => if streq (Role m) "system" then Some O else S <$> system_index rest
  end.

(** The messages kept from a list longer than the limit. *)
Definition chop (msgs : list openAIMessage) (keepRecent divisor : Z) : list openAIMessage :=
  let n := llen msgs in
  let originalLen := content_len msgs in
  let summary dropped :=
    {| Role := "system"; Content := summaryLine dropped originalLen divisor |} in
  match system_index msgs with
  | Some i =>
      let systemIdx := Z.of_nat i in
      let dropped := if systemIdx <? n - keepRecent then n - keepRecent - 1 else n - keepRecent in
      let dropped := if dropped <? 0 then 0 else dropped in
      let tailStart := n - keepRecent in
      let tailStart := if tailStart <=? systemIdx then systemIdx + 1 else tailStart in
      let tail := drop (Z.to_nat tailStart) msgs in
      take 1 (drop i msgs) ++ (if 0 <? dropped then [summary dropped] else []) ++ tail
  | None =>
      let start := if n - keepRecent <? 0 then 0 else n - keepRecent in
      let kept := drop (Z.to_nat start) msgs in
      let dropped := n - keepRecent in
      if 0 <? dropped then summary dropped :: kept else kept
  end.

Section json.
Variable unmarshal : string → openAIRequest → openAIRequest * bool.
Variable marshal : openAIRequest → option string.

(** What [ChopMessages] does with the request it got from the pool: the new
    body, the tokens saved, and the request as it goes back. *)
Definition chop_with (req : openAIRequest) (body : string)
    (maxMessages keepRecent divisor : Z) : string * Z * openAIRequest :=
  let maxMessages := if maxMessages <=? 0 then 20 else maxMessages in
  let keepRecent := if keepRecent <=? 0 then 10 else keepRecent in
  let divisor := if divisor <=? 0 then 4 else divisor in
  let '(req, ok) := unmarshal body req in
  if negb ok then (body, 0, req)
  else if llen (Messages req) <=? maxMessages then (body, 0, req)
  else
    let originalLen := content_len (Messages req) in
    let kept := chop (Messages req) keepRecent divisor in
    let req := {| Model := Model req; Stream := Stream req; Messages := kept |} in
    match marshal req with
    | None => (body, 0, req)
    | Some modified =>
        let tokensSaved := Z.quot (originalLen - content_len kept) divisor in
        let tokensSaved := if tokensSaved <? 0 then 0 else tokensSaved in
        (modified, tokensSaved, req)
    end.

(** [pool.Get]: the [k]-th pooled request, or a new one. *)
Definition pool_get (k : nat) (pool : list openAIRequest) : openAIRequest * list openAIRequest :=
  match pool !! k with
  | Some req => (req, take k pool ++ drop (S k) pool)
  | None => (zeroRequest, pool)
  end.

Definition ChopMessages (k : nat) (pool : list openAIRequest) (body : string)
    (maxMessages keepRecent divisor : Z) : string * Z * list openAIRequest :=
  let '(req, pool) := pool_get k pool in
  let '(out, saved, req) := chop_with req body maxMessages keepRecent divisor in
  (out, saved, req :: pool).
End json.

(** * What is kept *)

Lemma system_index_lookup msgs i :
  system_index msgs = Some i →
  ∃ m, msgs !! i = Some m ∧ Role m = "system" ∧
    ∀ j x, (j < i)%nat → msgs !! j = Some x → Role x ≠ "system".
Proof.
  revert i. induction msgs as [|m msgs IH]; intros i; simpl; [done|].
  unfold streq. case_bool_decide as Hm.
  - intros [= <-]. exists m. split_and!; [done..|]. intros; lia.
  - intros (k & Hk & ->)%fmap_Some. destruct (IH k Hk) as (x & Hx & Hr & Hlt).
    exists x. split_and!; [done..|]. intros [|j] y Hj Hy; simplify_eq/=; [done|].
    apply (Hlt j); [lia|done].
Qed.

Lemma take1_drop {A} (l : list A) i x : l !! i = Some x → take 1 (drop i l) = [x].
Proof. intros Hx. by rewrite (drop_S l x i Hx). Qed.

Lemma sublist_one_drop {A} (l : list A) i j x :
  l !! i = Some x → (i < j)%nat → [x] ++ drop j l `sublist_of` l.
Proof.
  intros Hx Hij. rewrite <- (take_drop (S i) l) at 2. apply sublist_app.
  - rewrite (take_S_r _ _ _ Hx). by apply sublist_inserts_l.
  - replace j with (S i + (j - S i))%nat by lia. rewrite <- drop_drop. apply sublist_drop.
Qed.

(** The head of the result: the first system message, if any. *)
Definition system_head (msgs : list openAIMessage) : list openAIMessage :=
  match system_index msgs with Some i => take 1 (drop i msgs) | None => [] end.

(** C26: what the chopper keeps of a list longer than [keepRecent].  The result
    is the first system message of the request, if any, then at most one
    inserted summary, then a suffix of the request of at most [keepRecent]
    messages; nothing is reordered or repeated.  When the system message is not
    among the most recent ones, exactly [keepRecent] of these are kept and the
    summary counts the messages left out, if there are any. *)
Theorem chop_spec msgs keep divisor :
  0 < keep < llen msgs →
  ∃ sm tail,
    chop msgs keep divisor = system_head msgs ++ sm ++ tail ∧
    (∀ m, m ∈ system_head msgs → Role m = "system") ∧
    tail `suffix_of` msgs ∧ llen tail <= keep ∧ llen sm <= 1 ∧
    system_head msgs ++ tail `sublist_of` msgs ∧
    ((∀ i, system_index msgs = Some i → Z.of_nat i < llen msgs - keep) →
      let dropped := llen msgs - llen (system_head msgs ++ tail) in
      llen tail = keep ∧
      sm = if 0 <? dropped
           then [{| Role := "system";
                    Content := summaryLine dropped (content_len msgs) divisor |}] else []).
Proof.
  intros [Hk Hn]. unfold chop, system_head.
  destruct (system_index msgs) as [i|] eqn:Ei.
  - destruct (system_index_lookup msgs i Ei) as (m & Hm & Hrole & _).
    rewrite (take1_drop _ _ _ Hm). pose proof (lookup_lt_Some _ _ _ Hm) as Hi.
    set (j := Z.to_nat (if llen msgs - keep <=? Z.of_nat i then Z.of_nat i + 1
                        else llen msgs - keep)).
    assert (Hj : (i < j)%nat ∧ llen msgs - keep <= Z.of_nat j ∧
      (Z.of_nat i < llen msgs - keep → Z.of_nat j = llen msgs - keep)).
    { unfold j. destruct (Z.leb_spec (llen msgs - keep) (Z.of_nat i)); lia. }
    destruct Hj as (Hij & Hj & Hjeq). eexists _, (drop j msgs).
    split_and!; [done| | | | | |].
    + by intros x ->%list_elem_of_singleton.
    + by apply suffix_drop.
    + unfold llen in *. rewrite length_drop. lia.
    + destruct (0 <? _); unfold llen; simpl; lia.
    + by apply sublist_one_drop with i.
    + intros Hsys. specialize (Hsys i eq_refl). specialize (Hjeq Hsys).
      assert (Hlen : llen (drop j msgs) = keep) by (unfold llen in *; rewrite length_drop; lia).
      split; [done|]. apply Z.ltb_lt in Hsys as Hs'. rewrite Hs'.
      assert (llen ([m] ++ drop j msgs) = keep + 1) as ->
        by (rewrite llen_app, Hlen; unfold llen; simpl; lia).
      replace (llen msgs - (keep + 1)) with (llen msgs - keep - 1) by lia.
      by destruct (Z.ltb_spec (llen msgs - keep - 1) 0); [lia|].
  - destruct (Z.ltb_spec (llen msgs - keep) 0); [lia|].
    destruct (Z.ltb_spec 0 (llen msgs - keep)); [|lia].
    set (j := Z.to_nat (llen msgs - keep)).
    assert (Hlen : llen (drop j msgs) = keep) by (unfold j, llen in *; rewrite length_drop; lia).
    eexists [_], (drop j msgs). split_and!; [done| | | | | |].
    + by intros x ?%elem_of_nil.
    + by apply suffix_drop.
    + lia.
    + done.
    + apply sublist_drop.
    + intros _. simpl. rewrite Hlen. split; [done|].
      by destruct (Z.ltb_spec 0 (llen msgs - keep)); [|lia].
Qed.

(** The summary undercounts when the system message is among the most recent
    ones: three messages are left out, one is reported. *)
Example summary_undercounts :
  chop [{| Role := "user"; Content := "a" |}; {| Role := "user"; Content := "b" |};
        {| Role := "user"; Content := "c" |}; {| Role := "system"; Content := "s" |}] 3 1
  = [{| Role := "system"; Content := "s" |};
     {| Role := "system"; Content := "[... truncated 1 historical messages (~4 tokens) ...]" |}].
Proof. vm_compute. reflexivity. Qed.

(** Pooled requests are not cleared.  A request that does not say whether
    it streams, chopped after a request that did, is sent on with the flag of
    that other request; chopped first, it is sent on without. *)
Theorem stale_stream_flag unmarshal marshal b1 b2 m2 msgs maxMessages keep divisor req1 :
  unmarshal b1 zeroRequest = (req1, true) →
  llen (Messages req1) <= maxMessages → 0 < maxMessages < llen msgs →
  0 < keep → 0 < divisor →
  (∀ req, unmarshal b2 req =
     ({| Model := m2; Stream := Stream req; Messages := msgs |}, true)) →
  (∀ req, is_Some (marshal req)) →
  let send pool body := ChopMessages unmarshal marshal 0 pool body maxMessages keep divisor in
  let sent stream :=
    marshal {| Model := m2; Stream := stream; Messages := chop msgs keep divisor |} in
  Some (send (send [] b1).2 b2).1.1 = sent (Stream req1) ∧
  Some (send [] b2).1.1 = sent false.
Proof.
  intros H1 Hle Hmax Hk Hd H2 Hm send sent. unfold send, sent, ChopMessages, pool_get, chop_with.
  assert (∀ x y z : Z, 0 < x → (if x <=? 0 then y else x) = x) as Hpos
    by (intros x y z Hx; destruct (Z.leb_spec x 0); lia).
  simpl. rewrite !Hpos by (done || lia). rewrite H1, H2. simpl.
  destruct (Z.leb_spec (llen (Messages req1)) maxMessages); [|lia]. simpl.
  rewrite H2. simpl. destruct (Z.leb_spec (llen msgs) maxMessages); [lia|].
  split.
  - destruct (Hm {| Model := m2; Stream := Stream req1; Messages := chop msgs keep divisor |})
      as [o Ho]. by rewrite Ho.
  - destruct (Hm {| Model := m2; Stream := false; Messages := chop msgs keep divisor |})
      as [o Ho]. by rewrite Ho.
Qed.

(** * Concrete instances *)

Definition sample_message (role content : string) : openAIMessage :=
  {| Role := role; Content := content |}.

Definition sample_messages : list openAIMessage :=
  [sample_message "system" "be brief"; sample_message "user" "one"; sample_message "user" "two";
   sample_message "user" "three"; sample_message "user" "four"].

Lemma chop_spec_witness :
  ∃ sm tail, chop sample_messages 2 4 = [sample_message "system" "be brief"] ++ sm ++ tail ∧
    llen tail <= 2 ∧ llen sm <= 1.
Proof.
  destruct (chop_spec sample_messages 2 4) as (sm & tail & H1 & _ & _ & H2 & H3 & _);
    [vm_compute; split; reflexivity|].
  exists sm, tail. split; [exact H1|split; [exact H2|exact H3]].
Defined.

(** A decoder of two bodies, the second of which does not mention the stream. *)
Definition sample_unmarshal (body : string) (req : openAIRequest) : openAIRequest * bool :=
  if streq body "one" then ({| Model := "a"; Stream := true; Messages := [] |}, true)
  else ({| Model := "b"; Stream := Stream req; Messages := sample_messages |}, true).
Definition sample_marshal (req : openAIRequest) : option string :=
  Some (if Stream req then "streamed" else "whole").

Lemma stale_stream_flag_witness :
  let send pool body := ChopMessages sample_unmarshal sample_marshal 0 pool body 4 2 4 in
  (send (send [] "one").2 "two").1.1 = "streamed" ∧ (send [] "two").1.1 = "whole".
Proof.
  intros send.
  destruct (stale_stream_flag sample_unmarshal sample_marshal "one" "two" "b" sample_messages 4 2 4
    {| Model := "a"; Stream := true; Messages := [] |}) as [H1 H2];
    try (vm_compute; reflexivity); try lia.
  - vm_compute. discriminate.
  - vm_compute. split; reflexivity.
  - intros req. eexists. reflexivity.
  - split; apply (inj Some); [exact H1|exact H2].
Defined.
