(* ===== verification/Router.v ===== *)
(** The traffic router ([proxy/router/router.go], [fallback.go]): it turns
    alerts into remedies, subject to the policy engine, and rewrites the requests
    of the processes under remedy.

    [encoding/json] and [net/url] are arguments of the model.  A call that
    panics in the code is [Panics]. *)

From S2P Require Import Prelude GoFloat GoStrings RouterRegistry Chopper.
From S2P Require Import PolicyEvaluator PolicyLedger PolicyEngine.

Inductive outcome (A : Type) := Returns (a : A) | Panics.
Arguments Returns {A} a.
Arguments Panics {A}.

(** * Data *)

Inductive HandshakeStatus :=
  | HandshakeRoutedAndVerified
  | HandshakeChoppedOnly
  | HandshakeNoAction
  | HandshakeFailed.

Record RemedyDetails := {
  ReroutedToLocalEndpoint : string;
  SubstitutedModelString : string;
  TokensSavedByChopper : Z
}.

Record RouterEvent := {
  MitigationTimestamp : Z;
  InterceptedPID : Z;
  OriginalTargetModel : string;
  AppliedType : string;
  Details : RemedyDetails;
  ProcessingOverheadMs : float64;
  RoutingHandshakeStatus : HandshakeStatus
}.

Record AlertTrigger := { AlertPID : Z; AlertType : string }.

(** The configuration; the policy engine is passed separately. *)
Record Config := {
  Enabled : bool;
  MaxMessagesBeforeChop : Z;
  KeepRecentMessages : Z;
  FallbackEndpoint : string;
  CfgFallbackModel : string;
  FallbackAuthToken : string;
  CoolingOffDuration : Z;
  RBufferSize : Z;
  TokenEstimateDivisor : Z
}.

Definition DefaultConfig : Config := {|
  Enabled := false;
  MaxMessagesBeforeChop := 20;
  KeepRecentMessages := 10;
  FallbackEndpoint := "http://127.0.0.1:8000/v1/chat/completions";
  CfgFallbackModel := "meta-llama/Llama-3-8b-Instruct";
  FallbackAuthToken := "";
  CoolingOffDuration := 60 * Second;
  RBufferSize := 64;
  TokenEstimateDivisor := 4
|}.

(** The outgoing request, mutated in place by the code. *)
Record Request := {
  URL : string;
  Host : string;
  Header : gmap string string;
  ContentLength : Z
}.

Definition set_header (r : Request) (k v : string) : Request :=
  {| URL := URL r; Host := Host r; Header := <[k := v]> (Header r);
     ContentLength := ContentLength r |}.
Definition set_length (r : Request) (n : Z) : Request :=
  {| URL := URL r; Host := Host r; Header := Header r; ContentLength := n |}.
Definition set_url (r : Request) (u h : string) : Request :=
  {| URL := u; Host := h; Header := Header r; ContentLength := ContentLength r |}.

Record FallbackRouter := { endpoint : string; fmodel : string; authToken : string }.

Definition NewFallbackRouter (ep model auth : string) : FallbackRouter :=
  {| endpoint := ep; fmodel := model; authToken := auth |}.

(** [Update]: empty arguments leave the field as it is. *)
Definition Update (fr : FallbackRouter) (ep model auth : string) : FallbackRouter :=
  {| endpoint := if negb (streq ep "") then ep else endpoint fr;
     fmodel := if negb (streq model "") then model else fmodel fr;
     authToken := if negb (streq auth "") then auth else authToken fr |}.

(** The fields of a completion response that [RewriteResponse] decodes. *)
Record Choice := { CIndex : Z; CMessage : string; CFinishReason : string }.
Record Usage := { PromptTokens : Z; CompletionTokens : Z; TotalTokens : Z }.
Record OpenAIResponse := {
  RID : string; RObject : string; RCreated : Z; RModel : string;
  RChoices : list Choice; RUsage : option Usage
}.

Definition set_response_model (model : string) (r : OpenAIResponse) : OpenAIResponse :=
  {| RID := RID r; RObject := "chat.completion"; RCreated := RCreated r; RModel := model;
     RChoices := RChoices r; RUsage := RUsage r |}.

(** [json] is the type of decoded JSON values. *)
Record Codec := {
  json : Type;
  JString : string → json;
  decode_map : string → option (option (gmap string json));
  encode_map : gmap string json → option string;
  decode_request : string → openAIRequest → openAIRequest * bool;
  encode_request : openAIRequest → option string;
  decode_response : string → option OpenAIResponse;
  encode_response : OpenAIResponse → option string;
  decode_model : string → option string;
  url_parse : string → option (string * string)
}.

Section router.
Variable J : Codec.

(** [substituteModel]: a JSON [null] decodes to the nil map, and assigning
    into it panics. *)
Definition substituteModel (body fallbackModel : string) : outcome string :=
  match decode_map J body with
  | None => Returns body
  | Some None => Panics
  | Some (Some raw) =>
      match encode_map J (<["model" := JString J fallbackModel]> raw) with
      | None => Returns body
      | Some modified => Returns modified
      end
  end.

(** [RewriteRequest]: the rewritten request and body. *)
Definition RewriteRequest (fr : FallbackRouter) (req : Request) (body : string) :
    outcome (Request * string) :=
  match url_parse J (endpoint fr) with
  | None => Returns (req, body)
  | Some (u, host) =>
      let req := set_url req u host in
      let req := if negb (streq (authToken fr) "")
                 then set_header req "Authorization" ("Bearer " +:+ authToken fr) else req in
      match substituteModel body (fmodel fr) with
      | Panics => Panics
      | Returns modified => Returns (req, modified)
      end
  end.

Definition RewriteResponse (originalBody originalModel : string) : string :=
  match decode_response J originalBody with
  | None => originalBody
  | Some r =>
      match encode_response J (set_response_model originalModel r) with
      | None => originalBody
      | Some modified => modified
      end
  end.

Definition extractModel (body : string) : string :=
  match decode_model J body with None => "" | Some m => m end.

Definition ExtractFallbackModelName (body originalModel : string) : string :=
  let m := extractModel body in if streq m "" then originalModel else m.

(** Looking for the bytes [choices] and [message] in double quotes. *)
Definition responseIsOpenAICompatible (body : string) : bool :=
  contains body (quoted "choices") && contains body (quoted "message").

Record Router := {
  rcfg : Config;
  reg : Registry;
  fr : FallbackRouter;
  revents : chan RouterEvent;
  rconsole : list RouterEvent;
  pool : list openAIRequest
}.

Definition New (c : Config) : Router :=
  let c := {|
    Enabled := Enabled c;
    MaxMessagesBeforeChop :=
      if MaxMessagesBeforeChop c =? 0 then 20 else MaxMessagesBeforeChop c;
    KeepRecentMessages := if KeepRecentMessages c <=? 0 then 10 else KeepRecentMessages c;
    FallbackEndpoint := FallbackEndpoint c;
    CfgFallbackModel := CfgFallbackModel c;
    FallbackAuthToken := FallbackAuthToken c;
    CoolingOffDuration := CoolingOffDuration c;
    RBufferSize := if RBufferSize c <=? 0 then 64 else RBufferSize c;
    TokenEstimateDivisor := if TokenEstimateDivisor c <=? 0 then 4 else TokenEstimateDivisor c
  |} in
  {| rcfg := c; reg := NewRegistry (CoolingOffDuration c);
     fr := NewFallbackRouter (FallbackEndpoint c) (CfgFallbackModel c) (FallbackAuthToken c);
     revents := make_chan (RBufferSize c); rconsole := []; pool := [] |}.

Definition with_reg (r : Router) (g : Registry) : Router :=
  {| rcfg := rcfg r; reg := g; fr := fr r; revents := revents r; rconsole := rconsole r;
     pool := pool r |}.
Definition with_pool (r : Router) (p : list openAIRequest) : Router :=
  {| rcfg := rcfg r; reg := reg r; fr := fr r; revents := revents r; rconsole := rconsole r;
     pool := p |}.

(** A receive from the channel [Events] returns. *)
Definition Events (r : Router) : option RouterEvent * Router :=
  let '(evt, ch) := try_recv (revents r) in
  (evt, {| rcfg := rcfg r; reg := reg r; fr := fr r; revents := ch; rconsole := rconsole r;
           pool := pool r |}).

Definition emitEvent (r : Router) (evt : RouterEvent) : Router :=
  {| rcfg := rcfg r; reg := reg r; fr := fr r; revents := (try_send evt (revents r)).1;
     rconsole := rconsole r ++ [evt]; pool := pool r |}.

Definition remedyForAnomaly (anomalyType : string) : RemedyType :=
  if streq anomalyType "SEMANTIC_REPETITION_LOOP" then RemedyTokenChop
  else if streq anomalyType "HOST_MEMORY_LEAK" then RemedyFallbackRoute
  else if streq anomalyType "IDLE_GPU_HOG" then RemedyFallbackRoute
  else RemedyTokenChop.

(** The readings of the clock and the random bytes of an alert. *)
Record alert_env := {
  tp1 : Z; tp2 : Z; tp3 : Z; rndTx : string; tLookup : Z; tActivate : Z
}.

(** The end of [handleAlert]: start the remedy, or extend the one in force. *)
Definition apply_remedy (r : Router) (pid : Z) (rm : RemedyType) (ev : alert_env) : Router :=
  let '(g, st) := RouterRegistry.Lookup (reg r) (tLookup ev) pid in
  match st with
  | None => with_reg r (Activate g (tActivate ev) pid rm "").1
  | Some _ => with_reg r (RefreshAlert g (tActivate ev) pid)
  end.

Definition handleAlert (r : Router) (pol : option Engine) (alert : AlertTrigger)
    (ev : alert_env) : Router * option Engine :=
  let p := AlertPID alert in
  let rm := remedyForAnomaly (AlertType alert) in
  if bool_decide (rm = RemedyNone) then (r, pol)
  else
    match pol with
    | None => (apply_remedy r p rm ev, None)
    | Some e =>
        let act := if bool_decide (rm = RemedyFallbackRoute) || bool_decide (rm = RemedyBoth)
                   then ActionAPIRouteSwap else ActionTokenChop in
        let '(e, authorized, txID, _) :=
          EvaluateAndRegister e (tp1 ev) (tp2 ev) (tp3 ev) (rndTx ev)
            {| TargetPID := p; ContainerID := ""; ProcessName := ""; IntentAction := act;
               AnomalyType := AlertType alert; SourceModule := "router"; Metadata := ∅ |} in
        if negb authorized then (r, Some e)
        else (apply_remedy r p rm ev, Some (ConfirmExecution e txID))
    end.

(** The clock readings of a request, and the pooled request it is given. *)
Record req_env := { tReqLookup : Z; tReqStart : Z; tReqEnd : Z; tReqUnix : Z; poolIdx : nat }.

Definition run_chopper (r : Router) (pid : Z) (body : string) (ev : req_env) :
    Router * string * Z :=
  let '(out, saved, p) :=
    ChopMessages (decode_request J) (encode_request J) (poolIdx ev) (pool r) body
      (MaxMessagesBeforeChop (rcfg r)) (KeepRecentMessages (rcfg r))
      (TokenEstimateDivisor (rcfg r)) in
  let r := with_pool r p in
  let r := if 0 <? saved then with_reg r (RecordTokensSaved (reg r) pid saved) else r in
  (r, out, saved).

(** The headers of a rerouted request. *)
Definition finish_reroute (req : Request) (body : string) : Request :=
  set_header (set_length req (slen body)) "Content-Type" "application/json".

Definition intercept_event (r : Router) (state : MitigationState) (pid : Z) (model : string)
    (saved : Z) (hs : HandshakeStatus) (ev : req_env) : RouterEvent :=
  let rerouted := bool_decide (Remedy state = RemedyFallbackRoute)
                  || bool_decide (Remedy state = RemedyBoth) in
  {| MitigationTimestamp := tReqUnix ev;
     InterceptedPID := pid;
     OriginalTargetModel := model;
     AppliedType := match Remedy state with RemedyNone => "" | rm => remedy_string rm end;
     Details := {|
       ReroutedToLocalEndpoint := if rerouted then endpoint (fr r) else "";
       SubstitutedModelString := if rerouted then fmodel (fr r) else "";
       TokensSavedByChopper := saved |};
     ProcessingOverheadMs :=
       fmul (duration_seconds (i64 (tReqEnd ev - tReqStart ev))) (f_of_Z 1000);
     RoutingHandshakeStatus := hs |}.

(** [InterceptRequest]: the body to send, whether it was intercepted, the
    event, and the new router and request. *)
Definition InterceptRequest (r : Router) (body : string) (proxyReq : Request)
    (clientPID : Z) (model : string) (ev : req_env) :
    outcome (string * bool * option RouterEvent * Router * Request) :=
  if clientPID <=? 0 then Returns (body, false, None, r, proxyReq)
  else
    let '(g, state) := RouterRegistry.Lookup (reg r) (tReqLookup ev) clientPID in
    let r := with_reg r g in
    match state with
    | None => Returns (body, false, None, r, proxyReq)
    | Some state =>
        let finish r req out saved hs :=
          let evt := intercept_event r state clientPID model saved hs ev in
          Returns (out, true, Some evt, emitEvent r evt, set_length req (slen out)) in
        match Remedy state with
        | RemedyTokenChop =>
            let '(r, out, saved) := run_chopper r clientPID body ev in
            finish r proxyReq out saved HandshakeChoppedOnly
        | RemedyFallbackRoute =>
            match RewriteRequest (fr r) proxyReq body with
            | Panics => Panics
            | Returns (req, out) =>
                finish r (finish_reroute req out) out 0 HandshakeRoutedAndVerified
            end
        | RemedyBoth =>
            let '(r, chopped, saved) := run_chopper r clientPID body ev in
            match RewriteRequest (fr r) proxyReq chopped with
            | Panics => Panics
            | Returns (req, out) =>
                finish r (finish_reroute req out) out saved HandshakeRoutedAndVerified
            end
        | RemedyNone => finish r proxyReq body 0 HandshakeNoAction
        end
    end.

Definition RecordResponse (r : Router) (body : string) (clientPID : Z) (originalModel : string)
    (now : Z) : string * bool * Router :=
  if clientPID <=? 0 then (body, false, r)
  else
    let '(g, state) := RouterRegistry.Lookup (reg r) now clientPID in
    let r := with_reg r g in
    match state with
    | None => (body, false, r)
    | Some state =>
        if negb (bool_decide (Remedy state = RemedyFallbackRoute))
           && negb (bool_decide (Remedy state = RemedyBoth)) then (body, false, r)
        else if negb (responseIsOpenAICompatible body) then (body, false, r)
        else (RewriteResponse body originalModel, true, r)
    end.
End router.

(** * Alerts start remedies *)

Lemma Lookup_cooling g t pid :
  coolingOffDur (RouterRegistry.Lookup g t pid).1 = coolingOffDur g.
Proof. unfold RouterRegistry.Lookup. by repeat case_match. Qed.

(** The entry [apply_remedy] leaves is active until a cooling-off period after
    the alert. *)
Lemma apply_remedy_entry r pid rm ev :
  ∃ s, entries (reg (apply_remedy r pid rm ev)) !! pid = Some s ∧ Active s = true ∧
    CoolingUntil s = i64 (tActivate ev + coolingOffDur (reg r)) ∧
    LastAlertAt s = tActivate ev ∧
    Remedy s = match (RouterRegistry.Lookup (reg r) (tLookup ev) pid).2 with
               | Some old => Remedy old | None => rm end ∧
    ∀ q, q ≠ pid → entries (reg (apply_remedy r pid rm ev)) !! q = entries (reg r) !! q.
Proof.
  unfold apply_remedy, RouterRegistry.Lookup.
  destruct (entries (reg r) !! pid) as [s|] eqn:E; simpl.
  - destruct (Active s) eqn:Ea; simpl; [destruct (_ <? _) eqn:Ec; simpl|].
    + rewrite lookup_insert_eq. simpl. rewrite lookup_insert_eq. eexists.
      split_and!; [done..|]. intros q Hq. by rewrite !lookup_insert_ne.
    + unfold RefreshAlert. rewrite E. simpl. rewrite lookup_insert_eq. eexists.
      split_and!; [done..|]. intros q Hq. by rewrite lookup_insert_ne.
    + rewrite E. simpl. rewrite lookup_insert_eq. eexists.
      split_and!; [done..|]. intros q Hq. by rewrite lookup_insert_ne.
  - rewrite E. simpl. rewrite lookup_insert_eq. eexists.
    split_and!; [done..|]. intros q Hq. by rewrite lookup_insert_ne.
Qed.

(** C25: an alert puts its process under remedy exactly when the policy
    permits it.  A permitted alert is EXECUTED in the policy ledger and leaves
    the process under remedy for a cooling-off period from the alert: the
    remedy in force is kept, a new one is the remedy of the anomaly.  A denied
    one leaves the router as it was.  Other processes are never affected. *)
Theorem handleAlert_spec r e alert ev :
  engine_ok e →
  let p := AlertPID alert in
  let rm := remedyForAnomaly (AlertType alert) in
  let intent := {| TargetPID := p; ContainerID := ""; ProcessName := "";
    IntentAction := if bool_decide (rm = RemedyFallbackRoute) then ActionAPIRouteSwap
                    else ActionTokenChop;
    AnomalyType := AlertType alert; SourceModule := "router"; Metadata := ∅ |} in
  let allowed := permitted (evaluator e) intent (live_count (ledger e) (tp1 ev) p) in
  let '(r', pol') := handleAlert r (Some e) alert ev in
  ∃ e' rec, pol' = Some e' ∧
    records (ledger e') = <[generateTxID (rndTx ev) := rec]> (records (ledger e)) ∧
    RecPID rec = p ∧
    (¬ allowed → r' = r ∧ Status rec = StatusRejected) ∧
    (allowed → Status rec = StatusExecuted ∧
      ∃ s, entries (reg r') !! p = Some s ∧ Active s = true ∧
        CoolingUntil s = i64 (tActivate ev + coolingOffDur (reg r)) ∧
        Remedy s = match (RouterRegistry.Lookup (reg r) (tLookup ev) p).2 with
                   | Some old => Remedy old | None => rm end) ∧
    (∀ q, q ≠ p → entries (reg r') !! q = entries (reg r) !! q).
Proof.
  intros He p rm intent allowed. unfold handleAlert. fold p. fold rm.
  assert (Hrm : rm = RemedyTokenChop ∨ rm = RemedyFallbackRoute).
  { unfold rm, remedyForAnomaly. repeat (destruct (streq _ _); auto). }
  rewrite bool_decide_eq_false_2 by (by destruct Hrm as [-> | ->]).
  assert (Hact : (if bool_decide (rm = RemedyFallbackRoute) || bool_decide (rm = RemedyBoth)
    then ActionAPIRouteSwap else ActionTokenChop) = IntentAction intent).
  { simpl. by destruct Hrm as [-> | ->]. }
  rewrite Hact. change {| TargetPID := p; IntentAction := IntentAction intent |} with intent.
  pose proof (EvaluateAndRegister_record e (tp1 ev) (tp2 ev) (tp3 ev) (rndTx ev) intent He) as Hrec.
  pose proof (evaluate_iff (evaluator e) intent (live_count (ledger e) (tp1 ev) p)) as Hiff.
  destruct (EvaluateAndRegister _ _ _ _ _ _) as [[[e1 ok] txID] evt].
  destruct Hrec as (-> & Hok & (rec & Hr & Hp & _ & _ & Hs & _) & _ & _).
  change (TargetPID intent) with p in *. rewrite <- Hok in Hiff. fold allowed in Hiff.
  destruct ok; simpl.
  - destruct (apply_remedy_entry r p rm ev) as (s & H1 & H2 & H3 & _ & H4 & H5).
    do 2 eexists. split_and!; [done|by apply update_inserted|done| | |done].
    + intros Hn. by destruct Hn; apply Hiff.
    + intros _. split; [done|]. by exists s.
  - do 2 eexists. split_and!; [done|done|done|done| |done]. intros Ha%Hiff. done.
Qed.

(** * Requests *)

Definition rerouted_from (J : Codec) (fr : FallbackRouter) (req req' : Request) : Prop :=
  (∀ u h, url_parse J (endpoint fr) = Some (u, h) →
     URL req' = u ∧ Host req' = h ∧
     (authToken fr ≠ "" →
        Header req' !! "Authorization" = Some ("Bearer " +:+ authToken fr))) ∧
  Header req' !! "Content-Type" = Some "application/json" ∧
  (∀ k, k ≠ "Authorization" → k ≠ "Content-Type" → Header req' !! k = Header req !! k).

Lemma RewriteRequest_rerouted J fr req body n :
  match RewriteRequest J fr req body with
  | Panics => True
  | Returns (req', out) => rerouted_from J fr req (set_length (finish_reroute req' out) n)
  end.
Proof.
  unfold RewriteRequest. destruct (url_parse J (endpoint fr)) as [[u h]|] eqn:Eu.
  2: { split_and!; [by rewrite Eu|simpl; by rewrite lookup_insert_eq|].
       intros k H1 H2. simpl. by rewrite lookup_insert_ne. }
  destruct (substituteModel J body (fmodel fr)) as [out|]; [|done].
  split_and!.
  - rewrite Eu. intros ? ? [= <- <-]. unfold streq. case_bool_decide; simpl; split_and!; try done.
    intros _. rewrite lookup_insert_ne by done. by rewrite lookup_insert_eq.
  - simpl. by rewrite lookup_insert_eq.
  - intros k H1 H2. simpl. rewrite lookup_insert_ne by done.
    destruct (negb _); simpl; [by rewrite lookup_insert_ne|done].
Qed.

Lemma run_chopper_state J r pid body ev :
  let '(r', _, _) := run_chopper J r pid body ev in
  fr r' = fr r ∧ rconsole r' = rconsole r.
Proof.
  unfold run_chopper. destruct (ChopMessages _ _ _ _ _ _ _ _) as [[out saved] p].
  by destruct (0 <? saved).
Qed.

(** C24: what happens to a request.  Requests of processes that are not under a
    remedy in force pass untouched and without an event.  A rerouted request
    goes to the fallback endpoint with its body's length; of its headers only
    the authorization (set when a token is configured) and the content type
    change.  Every intercepted request reports one event for its PID. *)
Theorem InterceptRequest_spec J r body req pid model ev :
  let found := if pid <=? 0 then None else (RouterRegistry.Lookup (reg r) (tReqLookup ev) pid).2 in
  match InterceptRequest J r body req pid model ev, found with
  | Returns (out, hit, evt, r', req'), None =>
      out = body ∧ hit = false ∧ evt = None ∧ req' = req ∧ rconsole r' = rconsole r
  | Returns (out, hit, evt, r', req'), Some st =>
      hit = true ∧ ContentLength req' = slen out ∧
      (∃ v, evt = Some v ∧ rconsole r' = rconsole r ++ [v] ∧ InterceptedPID v = pid) ∧
      match Remedy st with
      | RemedyTokenChop | RemedyNone => URL req' = URL req ∧ Header req' = Header req
      | RemedyFallbackRoute | RemedyBoth =>
          rerouted_from J (fr r) req req'
      end
  | Panics, Some st => Remedy st = RemedyFallbackRoute ∨ Remedy st = RemedyBoth
  | Panics, None => False
  end.
Proof.
  intros found. unfold InterceptRequest, found. destruct (pid <=? 0) eqn:Epid; [done|].
  destruct (RouterRegistry.Lookup _ _ _) as [g st]. simpl. destruct st as [st|]; [|done].
  destruct (Remedy st) eqn:Er.
  - split_and!; try done. eexists. split_and!; done.
  - pose proof (run_chopper_state J (with_reg r g) pid body ev) as Hc.
    destruct (run_chopper _ _ _ _ _) as [[r1 out] saved]. destruct Hc as [_ Hc].
    split_and!; try done. eexists. split_and!; [done|simpl; by rewrite Hc|done].
  - pose proof (RewriteRequest_rerouted J (fr r) req body) as Hr.
    change (fr (with_reg r g)) with (fr r).
    destruct (RewriteRequest _ _ _ _) as [[req1 out]|]; [|auto].
    split_and!; [done|done| |apply Hr]. eexists. split_and!; done.
  - pose proof (run_chopper_state J (with_reg r g) pid body ev) as Hc.
    destruct (run_chopper _ _ _ _ _) as [[r1 chopped] saved]. destruct Hc as [Hf Hc].
    rewrite Hf. change (fr (with_reg r g)) with (fr r).
    pose proof (RewriteRequest_rerouted J (fr r) req chopped) as Hr.
    destruct (RewriteRequest _ _ _ _) as [[req1 out]|]; [|auto].
    split_and!; [done|done| |apply Hr]. eexists. split_and!; [done|simpl; by rewrite Hc|done].
Qed.

(** * Concrete instances *)

Definition sample_router : Router := New DefaultConfig.

Definition sample_alert_env : alert_env :=
  {| tp1 := 0; tp2 := 0; tp3 := 0; rndTx := "a"; tLookup := 0; tActivate := 5 |}.

(** An idle GPU alert reroutes its process. *)
Lemma handleAlert_spec_witness :
  let alert := {| AlertPID := 4321; AlertType := "IDLE_GPU_HOG" |} in
  let '(r', pol') := handleAlert sample_router (Some sample_engine) alert sample_alert_env in
  (Remedy <$> entries (reg r') !! 4321) = Some RemedyFallbackRoute ∧
  ∃ e' rec, pol' = Some e' ∧
    records (ledger e') = <[generateTxID "a" := rec]> (records (ledger sample_engine)).
Proof.
  intros alert.
  pose proof (handleAlert_spec sample_router sample_engine alert sample_alert_env sample_engine_ok)
    as Hs. cbv zeta in Hs.
  assert (Hr : (Remedy <$> entries (reg (handleAlert sample_router (Some sample_engine) alert
    sample_alert_env).1) !! 4321) = Some RemedyFallbackRoute) by (vm_compute; reflexivity).
  destruct (handleAlert _ _ _ _) as [r' pol'].
  destruct Hs as (e' & rec & H1 & H2 & _). split; [exact Hr|]. by exists e', rec.
Defined.
