(* ===== verification/Rollback.v ===== *)
(** The rollback controller ([proxy/rollback]): expired interventions are
    undone, and the mitigation ledger is reconciled with what the host says of
    the processes.

    The controller works on the mitigator, the router's registry, the policy
    engine and the host it is given; its two loops call [checkExpired] and
    [reconcileOnce], which are taken as atomic. *)

From S2P Require Import Prelude GoFloat GoStrings Host.
From S2P Require Import PolicyEvaluator PolicyLedger PolicyEngine.
From S2P Require Import Mitigator RouterRegistry.
From S2P Require Chopper.

(** * Data *)

Inductive RuntimeState :=
  | RuntimeStateRunning
  | RuntimeStateStopped
  | RuntimeStateZombie
  | RuntimeStateNotFound
  | RuntimeStatePaused.

#[global] Instance RuntimeState_eq_dec : EqDecision RuntimeState.
Proof. solve_decision. Defined.

Inductive LedgerState :=
  | LedgerStatePaused
  | LedgerStateThrottled
  | LedgerStateResumed
  | LedgerStateOrphanedCleaned
  | LedgerStateDriftSynced.

#[global] Instance LedgerState_eq_dec : EqDecision LedgerState.
Proof. solve_decision. Defined.

Inductive RemedyApplied := RemedyRollbackExecuted | RemedySynchronizeLedgerToRuntime.

Record Config := {
  ReconciliationInterval : Z;
  RollbackCheckInterval : Z;
  CBufferSize : Z;
  CProcRoot : string
}.

Definition DefaultConfig : Config := {|
  ReconciliationInterval := 5 * Second;
  RollbackCheckInterval := 1 * Second;
  CBufferSize := 64;
  CProcRoot := "/proc"
|}.

Record ReconciliationDetail := {
  DTargetPID : Z;
  DContainerID : string;
  PreviousLedgerState : LedgerState;
  ActualRuntimeState : RuntimeState;
  DRemedy : RemedyApplied;
  FinalSynchronizedState : LedgerState
}.

Record SyncEvent := {
  SyncEventID : string;
  SyTimestamp : Z;
  ScannedActiveInterventions : Z;
  StateDriftDetected : bool;
  ActionsResolvedCount : Z;
  ReconciliationDetails : list ReconciliationDetail;
  TotalActiveLocksHeld : Z;
  SyncLatencyMs : float64
}.

Definition generateSyncEventID (rnd : string) : string := prefixed_id "sync_" rnd.

Record Controller := {
  ccfg : Config;
  cevents : chan SyncEvent;
  cconsole : list SyncEvent
}.

Definition New (c : Config) : Controller :=
  let c := {|
    ReconciliationInterval :=
      if ReconciliationInterval c <=? 0 then 5 * Second else ReconciliationInterval c;
    RollbackCheckInterval :=
      if RollbackCheckInterval c <=? 0 then 1 * Second else RollbackCheckInterval c;
    CBufferSize := if CBufferSize c <=? 0 then 64 else CBufferSize c;
    CProcRoot := if streq (CProcRoot c) "" then "/proc" else CProcRoot c |} in
  {| ccfg := c; cevents := make_chan (CBufferSize c); cconsole := [] |}.

(** A receive from the channel [Events] returns. *)
Definition Events (ctl : Controller) : option SyncEvent * Controller :=
  let '(evt, ch) := try_recv (cevents ctl) in
  (evt, {| ccfg := ccfg ctl; cevents := ch; cconsole := cconsole ctl |}).

Definition emitEvent (ctl : Controller) (evt : SyncEvent) : Controller :=
  {| ccfg := ccfg ctl; cevents := (try_send evt (cevents ctl)).1;
     cconsole := cconsole ctl ++ [evt] |}.

Definition ledgerStateFromAction (a : ActionState) : LedgerState :=
  match a with
  | ActionPaused => LedgerStatePaused
  | ActionThrottle => LedgerStateThrottled
  | ActionResumed => LedgerStateResumed
  | ActionOrphaned => LedgerStateOrphanedCleaned
  | ActionDriftSynced => LedgerStateDriftSynced
  | ActionStateOther _ => LedgerStatePaused
  end.

(** [itoa] of this package drops the sign. *)
Definition itoa (n : Z) : string :=
  if n =? 0 then "0"
  else
    let n := if n <? 0 then i64 (- n) else n in
    Chopper.reverse_onto "" (Chopper.digits 20 n).

(** The state named by the first [State:] line. *)
Fixpoint state_of_lines (lines : list string) : RuntimeState :=
  match lines with
  | [] => RuntimeStateRunning
  | line :: rest =>
      if has_prefix line "State:" then
        match sget 0 (trim_space (sdrop 6 line)) with
        | Some "T"%char => RuntimeStateStopped
        | Some "Z"%char => RuntimeStateZombie
        | _ => RuntimeStateRunning
        end
      else state_of_lines rest
  end.

Section rollback.
Context `{Host W}.

Definition probeProcessState (pid : Z) (root : string) (w : W) : RuntimeState :=
  let procPath := path_join [root; itoa pid] in
  if stat_not_exist procPath w then RuntimeStateNotFound
  else
    match read_file (path_join [procPath; "status"]) w with
    | inl _ => RuntimeStateRunning
    | inr data => state_of_lines (split_byte data newline)
    end.

(** The components a rollback acts on. *)
Record plant := { mit : Mitigator; rreg : Registry; pol : Engine; world : W }.

(** [dispatchRollback]: the new state, and the detail unless it fails. *)
Definition dispatchRollback (s : plant) (rec : MitigationRecord) :
    plant * option ReconciliationDetail :=
  let finish m g w prev :=
    ({| mit := m; rreg := g; pol := Complete (pol s) (TransactionID rec); world := w |},
     Some {| DTargetPID := RecPID rec; DContainerID := RecContainerID rec;
             PreviousLedgerState := prev; ActualRuntimeState := RuntimeStateRunning;
             DRemedy := RemedyRollbackExecuted;
             FinalSynchronizedState := LedgerStateResumed |}) in
  match RecAction rec with
  | ActionSIGSTOP =>
      let '(err, w) := UnfreezeProcess (RecPID rec) (world s) in
      match err with
      | Some _ => ({| mit := mit s; rreg := rreg s; pol := pol s; world := w |}, None)
      | None => finish (mit s) (rreg s) w LedgerStatePaused
      end
  | ActionContainerPause | ActionCgroupFreeze =>
      let '(err, m, w) := RollbackPID (mit s) (RecPID rec) (RecContainerID rec) (world s) in
      match err with
      | Some _ => ({| mit := m; rreg := rreg s; pol := pol s; world := w |}, None)
      | None => finish m (rreg s) w LedgerStatePaused
      end
  | ActionAPIRouteSwap | ActionTokenChop =>
      finish (mit s) (Deactivate (rreg s) (RecPID rec)) (world s) LedgerStateThrottled
  | ActionOther _ => (s, None)
  end.

(** The loop over the expired records. *)
Definition rollback_all (s : plant) (recs : list MitigationRecord) :
    plant * list ReconciliationDetail :=
  foldl (λ '(s, details) rec,
      let '(s, detail) := dispatchRollback s rec in
      (s, match detail with Some d => details ++ [d] | None => details end))
    (s, []) recs.

Definition sync_event (rnd : string) (now scanned : Z) (drift : bool)
    (details : list ReconciliationDetail) : SyncEvent :=
  {| SyncEventID := generateSyncEventID rnd; SyTimestamp := now;
     ScannedActiveInterventions := scanned; StateDriftDetected := drift;
     ActionsResolvedCount := llen details; ReconciliationDetails := details;
     TotalActiveLocksHeld := 0; SyncLatencyMs := f_zero |}.

(** [now] is the reading [ListExecutedExpired] makes, [unix] the event's. *)
Definition checkExpired `{MapRange} (ctl : Controller) (s : plant) (n : nat) (now unix : Z)
    (rnd : string) : Controller * plant :=
  let records := ListExecutedExpired (ledger (pol s)) n now in
  if llen records =? 0 then (ctl, s)
  else
    let '(s, details) := rollback_all s records in
    if llen details =? 0 then (ctl, s)
    else (emitEvent ctl (sync_event rnd unix (llen records) false details), s).

(** [reconcileEntry]: nothing to do for a stopped process. *)
Definition reconcileEntry (ctl : Controller) (w : W) (entry : LedgerEntry) :
    option ReconciliationDetail :=
  let runtime := probeProcessState (LPID entry) (CProcRoot (ccfg ctl)) w in
  let detail final :=
    {| DTargetPID := LPID entry; DContainerID := LContainerID entry;
       PreviousLedgerState := ledgerStateFromAction (LState entry);
       ActualRuntimeState := runtime; DRemedy := RemedySynchronizeLedgerToRuntime;
       FinalSynchronizedState := final |} in
  match runtime with
  | RuntimeStateNotFound => Some (detail LedgerStateOrphanedCleaned)
  | RuntimeStateRunning => Some (detail LedgerStateDriftSynced)
  | RuntimeStateStopped | RuntimeStatePaused => None
  | RuntimeStateZombie => Some (detail LedgerStateDriftSynced)
  end.

Definition sync_entry (m : Mitigator) (entry : LedgerEntry) (detail : ReconciliationDetail) :
    Mitigator :=
  match FinalSynchronizedState detail with
  | LedgerStateOrphanedCleaned => (UpdateMitigationState m (LToken entry) ActionOrphaned).1
  | LedgerStateDriftSynced => (UpdateMitigationState m (LToken entry) ActionDriftSynced).1
  | _ => m
  end.

Definition reconcile_all (ctl : Controller) (w : W) (m : Mitigator) (l : list LedgerEntry) :
    Mitigator * bool * list ReconciliationDetail :=
  foldl (λ '(m, drift, details) entry,
      match reconcileEntry ctl w entry with
      | None => (m, drift, details)
      | Some detail =>
          let drift := drift ||
            (negb (bool_decide (ActualRuntimeState detail = RuntimeStateStopped)) &&
             negb (bool_decide (FinalSynchronizedState detail =
                                ledgerStateFromAction (LState entry)))) in
          (sync_entry m entry detail, drift, details ++ [detail])
      end)
    (m, false, []) l.

Definition reconcileOnce `{MapRange} (ctl : Controller) (m : Mitigator) (w : W) (n : nat)
    (unix : Z) (rnd : string) : Controller * Mitigator :=
  let entries := ActiveMitigations m n in
  if llen entries =? 0 then (ctl, m)
  else
    let '(m, drift, details) := reconcile_all ctl w m entries in
    if llen details =? 0 then (ctl, m)
    else (emitEvent ctl (sync_event rnd unix (llen entries) drift details), m).
End rollback.

(** * Undoing expired interventions *)


Lemma UpdateStatus_lookup tl id st j :
  records (UpdateStatus tl id st).1 !! j =
  if decide (j = id) then set_status st <$> records tl !! j else records tl !! j.
Proof.
  unfold UpdateStatus. destruct (records tl !! id) as [rec|] eqn:E; simpl; case_decide; subst.
  - by rewrite lookup_insert_eq, E.
  - by rewrite lookup_insert_ne.
  - by rewrite E.
  - done.
Qed.

(** Actions that only concern the router's registry. *)
Definition route_action (rec : MitigationRecord) : Prop :=
  RecAction rec = ActionAPIRouteSwap ∨ RecAction rec = ActionTokenChop.

(** The records after completing the transactions [done_]. *)
Definition completed (done_ : list string) (m : gmap string MitigationRecord) (id : string) :
    option MitigationRecord :=
  if decide (id ∈ done_) then set_status StatusCompleted <$> m !! id else m !! id.

Section rollback_spec.
Context `{MapRange, Host W}.

Lemma dispatch_spec (s : plant) rec :
  let '(s', detail) := dispatchRollback s rec in
  (∀ id, records (ledger (pol s')) !! id =
     completed (if detail is Some _ then [TransactionID rec] else [])
       (records (ledger (pol s))) id) ∧
  (∀ p, entries (rreg s) !! p = None → entries (rreg s') !! p = None) ∧
  (route_action rec → is_Some detail ∧ entries (rreg s') !! RecPID rec = None).
Proof.
  unfold completed.
  assert (Hup : ∀ e id, records (ledger (Complete e (TransactionID rec))) !! id =
    if decide (id ∈ [TransactionID rec]) then set_status StatusCompleted <$> records (ledger e) !! id
    else records (ledger e) !! id).
  { intros e id. unfold Complete. simpl. rewrite UpdateStatus_lookup.
    case_decide; subst.
    - rewrite decide_True by set_solver. done.
    - rewrite decide_False by set_solver. done. }
  unfold dispatchRollback, route_action. destruct (RecAction rec).
  - destruct (UnfreezeProcess _ _) as [[err|] w]; split_and!; try done.
    all: try (by intros [? | ?]).
    all: intros id; first [apply Hup | by rewrite decide_False by set_solver].
  - destruct (RollbackPID _ _ _ _) as [[[err|] m] w]; split_and!; try done.
    all: try (by intros [? | ?]).
    all: intros id; first [apply Hup | by rewrite decide_False by set_solver].
  - split_and!; [apply Hup| |].
    + intros p Hp. simpl. by apply lookup_delete_None; right.
    + intros _. split; [by eexists|]. simpl. by rewrite lookup_delete_eq.
  - split_and!; [apply Hup| |].
    + intros p Hp. simpl. by apply lookup_delete_None; right.
    + intros _. split; [by eexists|]. simpl. by rewrite lookup_delete_eq.
  - destruct (RollbackPID _ _ _ _) as [[[err|] m] w]; split_and!; try done.
    all: try (by intros [? | ?]).
    all: intros id; first [apply Hup | by rewrite decide_False by set_solver].
  - split_and!; [|done|by intros [? | ?]].
    intros id; rewrite decide_False by set_solver; done.
Qed.

Lemma completed_twice d1 d2 m1 m2 id :
  (∀ id, m2 !! id = completed d1 m1 id) → completed d2 m2 id = completed (d1 ++ d2) m1 id.
Proof.
  intros Hm. unfold completed. rewrite Hm. unfold completed.
  destruct (decide (id ∈ d1)), (decide (id ∈ d2));
    repeat (first [rewrite decide_True by set_solver | rewrite decide_False by set_solver]);
    try done. by destruct (m1 !! id).
Qed.

Lemma rollback_all_spec (s : plant) recs acc :
  let '(s', details) := foldl (λ '(s, details) rec,
      let '(s, detail) := dispatchRollback s rec in
      (s, match detail with Some d => details ++ [d] | None => details end)) (s, acc) recs in
  ∃ done_, TransactionID <$> done_ `sublist_of` TransactionID <$> recs ∧
    llen details = llen acc + llen done_ ∧
    (∀ id, records (ledger (pol s')) !! id =
       completed (TransactionID <$> done_) (records (ledger (pol s))) id) ∧
    (∀ p, entries (rreg s) !! p = None → entries (rreg s') !! p = None) ∧
    (∀ rec, rec ∈ recs → route_action rec →
       rec ∈ done_ ∧ entries (rreg s') !! RecPID rec = None).
Proof.
  revert s acc. induction recs as [|rec recs IH]; intros s acc.
  { exists []. split_and!; [done|unfold llen; simpl; lia| |done|].
    - intros id. unfold completed. by rewrite decide_False by set_solver.
    - by intros rec ?%elem_of_nil. }
  cbn [foldl]. pose proof (dispatch_spec s rec) as Hd.
  destruct (dispatchRollback s rec) as [s1 detail]. destruct Hd as (Hr1 & Hg1 & Ht1).
  specialize (IH s1 (match detail with Some d => acc ++ [d] | None => acc end)).
  destruct (foldl _ _ recs) as [s2 details].
  destruct IH as (done_ & Hsub & Hlen & Hr2 & Hg2 & Ht2).
  exists (match detail with Some _ => [rec] | None => [] end ++ done_). split_and!.
  - destruct detail; simpl; by constructor.
  - destruct detail; rewrite ?llen_app in *; unfold llen in *; simpl in *; lia.
  - intros id. rewrite Hr2, fmap_app.
    rewrite (completed_twice _ _ _ _ _ Hr1). by destruct detail.
  - eauto.
  - intros x [->|Hx]%elem_of_cons Hroute.
    + destruct (Ht1 Hroute) as [[d ->] Hn]. split; [set_solver|by apply Hg2].
    + destruct (Ht2 x Hx Hroute). split; [set_solver|done].
Qed.

End rollback_spec.

(** * Reconciliation *)

(** The entry after a reconciliation that found the process in [runtime]. *)
Definition reconciled (runtime : RuntimeState) (e : LedgerEntry) : LedgerEntry :=
  match runtime with
  | RuntimeStateNotFound => set_state ActionOrphaned e
  | RuntimeStateRunning | RuntimeStateZombie => set_state ActionDriftSynced e
  | RuntimeStateStopped | RuntimeStatePaused => e
  end.

(** Entries are stored under their own tokens. *)
Definition keyed (l : Ledger) : Prop := ∀ t e, l !! t = Some e → LToken e = t.

Section reconcile_spec.
Context `{MapRange, Host W} (ctl : Controller) (w : W).

Definition runtime_of (e : LedgerEntry) : RuntimeState :=
  probeProcessState (LPID e) (CProcRoot (ccfg ctl)) w.

Lemma reconcile_entry_step (m : Mitigator) e :
  mledger m !! LToken e = Some e →
  let m' := match reconcileEntry ctl w e with Some d => sync_entry m e d | None => m end in
  mledger m' = <[LToken e := reconciled (runtime_of e) e]> (mledger m).
Proof.
  intros He. unfold reconcileEntry. fold (runtime_of e).
  destruct (runtime_of e); simpl; unfold sync_entry, UpdateMitigationState, UpdateState; simpl;
    rewrite ?He; simpl; try done; symmetry; by apply insert_id.
Qed.

Lemma reconcile_all_spec (m : Mitigator) drift details l :
  NoDup (LToken <$> l) → (∀ e, e ∈ l → mledger m !! LToken e = Some e) →
  let '(m', drift', details') := foldl (λ '(m, drift, details) entry,
      match reconcileEntry ctl w entry with
      | None => (m, drift, details)
      | Some detail =>
          let drift := drift ||
            (negb (bool_decide (ActualRuntimeState detail = RuntimeStateStopped)) &&
             negb (bool_decide (FinalSynchronizedState detail =
                                ledgerStateFromAction (LState entry)))) in
          (sync_entry m entry detail, drift, details ++ [detail])
      end) (m, drift, details) l in
  (∀ e, e ∈ l → mledger m' !! LToken e = Some (reconciled (runtime_of e) e)) ∧
  (∀ t, t ∉ LToken <$> l → mledger m' !! t = mledger m !! t) ∧
  (Forall (λ e, is_active e = true) l → (drift = true ∨ llen details' ≠ llen details) → drift' = true).
Proof.
  revert m drift details. induction l as [|e l IH]; intros m drift details Hnd Hl.
  { split_and!; [by intros e ?%elem_of_nil|done|by intros _ [?|?]]. }
  cbn [foldl fmap list_fmap] in *. apply NoDup_cons in Hnd as [Hne Hnd].
  pose proof (reconcile_entry_step m e (Hl e ltac:(left))) as Hm. cbv zeta in Hm.
  set (drift1 := match reconcileEntry ctl w e with
    | Some d => drift || (negb (bool_decide (ActualRuntimeState d = RuntimeStateStopped)) &&
        negb (bool_decide (FinalSynchronizedState d = ledgerStateFromAction (LState e))))
    | None => drift end).
  set (det1 := match reconcileEntry ctl w e with Some d => details ++ [d] | None => details end).
  assert (Hst : match reconcileEntry ctl w e with
      | None => (m, drift, details)
      | Some detail => (sync_entry m e detail,
          drift || (negb (bool_decide (ActualRuntimeState detail = RuntimeStateStopped)) &&
            negb (bool_decide (FinalSynchronizedState detail = ledgerStateFromAction (LState e)))),
          details ++ [detail]) end
    = (match reconcileEntry ctl w e with Some d => sync_entry m e d | None => m end, drift1, det1)).
  { unfold drift1, det1. by destruct (reconcileEntry ctl w e). }
  rewrite Hst. clear Hst.
  set (m1 := match reconcileEntry ctl w e with Some d => sync_entry m e d | None => m end) in *.
  specialize (IH m1 drift1 det1 Hnd). destruct (foldl _ _ l) as [[m' drift'] details'].
  destruct IH as (H1 & H2 & H3).
  { intros x Hx. rewrite Hm, lookup_insert_ne; [by apply Hl; right|].
    intros Heq. apply Hne. rewrite Heq. by apply list_elem_of_fmap_2. }
  split_and!.
  - intros x [->|Hx]%elem_of_cons; [|by apply H1].
    rewrite H2 by done. by rewrite Hm, lookup_insert_eq.
  - intros t [Hte Ht]%not_elem_of_cons. rewrite H2 by done. by rewrite Hm, lookup_insert_ne.
  - intros [Hact Hall]%Forall_cons Hd. apply H3; [done|].
    unfold drift1, det1, reconcileEntry, is_active in *.
    destruct (probeProcessState _ _ _); simpl in *; try done; left;
      destruct (LState e), drift; done.
Qed.

Lemma ListActive_keyed (m : Mitigator) n :
  keyed (mledger m) →
  NoDup (LToken <$> ActiveMitigations m n) ∧
  (∀ e, e ∈ ActiveMitigations m n ↔ mledger m !! LToken e = Some e ∧ is_active e = true).
Proof.
  intros Hk. unfold ActiveMitigations, ListActive. split.
  - assert (Hl : ∀ l : list (string * LedgerEntry), (∀ t e, (t, e) ∈ l → LToken e = t) →
      NoDup l.*1 → NoDup (LToken <$> omap (λ '(_, e), if is_active e then Some e else None) l)).
    { induction l as [|[t e] l IH]; simpl; intros Ht Hnd; [constructor|].
      apply NoDup_cons in Hnd as [Hn Hnd].
      assert (Hrest := IH (λ t e Hte, Ht t e (list_elem_of_further _ _ _ Hte)) Hnd).
      destruct (is_active e); [|done]. simpl. constructor; [|done].
      rewrite (Ht t e) by left. intros Hin. apply Hn.
      apply list_elem_of_fmap in Hin as (x & -> & Hx).
      apply list_elem_of_omap in Hx as ([t' y] & Hy & Hyx).
      destruct (is_active y); simplify_eq. apply list_elem_of_fmap. exists (t', x).
      split; [|done]. simpl. apply Ht. by right. }
    apply Hl; [|apply NoDup_fst_range]. intros t e Hin. apply Hk. by apply elem_of_range in Hin.
  - intros e. rewrite elem_of_omap_range. split.
    + intros (k & Hke & Ha). by rewrite (Hk k e Hke).
    + intros [? ?]. eauto.
Qed.

(** C18: reconciling.  After a reconciliation, every active mitigation whose
    process is gone is ORPHANED_CLEANED, every one whose process runs or is a
    zombie is DRIFT_SYNCED, and those of stopped processes, like the entries
    that were not active, are untouched.  An event is emitted only for a
    change, so the drift flag it carries is always set. *)
Theorem reconcileOnce_spec m n unix rnd :
  keyed (mledger m) →
  let '(ctl', m') := reconcileOnce ctl m w n unix rnd in
  (∀ t, mledger m' !! t =
     (λ e, if is_active e then reconciled (runtime_of e) e else e) <$> mledger m !! t) ∧
  (cconsole ctl' = cconsole ctl ∨
   ∃ evt, cconsole ctl' = cconsole ctl ++ [evt] ∧ StateDriftDetected evt = true ∧
     ReconciliationDetails evt ≠ []).
Proof.
  intros Hk. unfold reconcileOnce. destruct (ListActive_keyed m n Hk) as [Hnd Hl].
  set (l := ActiveMitigations m n) in *.
  assert (Hlook : ∀ m', (∀ e, e ∈ l → mledger m' !! LToken e = Some (reconciled (runtime_of e) e)) →
    (∀ t, t ∉ LToken <$> l → mledger m' !! t = mledger m !! t) →
    ∀ t, mledger m' !! t =
      (λ e, if is_active e then reconciled (runtime_of e) e else e) <$> mledger m !! t).
  { intros m' H1 H2 t. destruct (decide (t ∈ LToken <$> l)) as [Ht|Ht].
    - apply list_elem_of_fmap in Ht as (e & -> & He). rewrite H1 by done.
      apply Hl in He as [He Ha]. rewrite He. simpl. by rewrite Ha.
    - rewrite H2 by done. destruct (mledger m !! t) as [e|] eqn:Et; [|done]. simpl.
      destruct (is_active e) eqn:Ea; [|done]. exfalso. apply Ht.
      pose proof (Hk _ _ Et) as <-. apply list_elem_of_fmap_2. by apply Hl. }
  assert (Hsame : ∀ l', l' = l → l = [] → (∀ e, e ∈ l → mledger m !! LToken e = Some (reconciled (runtime_of e) e)))
    by (intros ? _ Hn e He; rewrite Hn in He; by apply elem_of_nil in He).
  destruct (Z.eqb_spec (llen l) 0) as [Hz|Hz].
  { split; [|by left]. apply Hlook; [|done]. apply (Hsame l); [done|by destruct l]. }
  pose proof (reconcile_all_spec m false [] l Hnd (λ e He, proj1 (proj1 (Hl e) He))) as Hall.
  unfold reconcile_all. destruct (foldl _ _ l) as [[m' drift] details].
  destruct Hall as (H1 & H2 & H3).
  destruct (Z.eqb_spec (llen details) 0) as [Hd|Hd].
  - split; [by apply Hlook|by left].
  - split; [by apply Hlook|]. right. eexists. split_and!; [done| |].
    + simpl. apply H3; [|right; by rewrite llen_nil].
      apply Forall_forall. intros e He. by apply Hl in He as [_ ?].
    + simpl. by intros ->.
Qed.
End reconcile_spec.

(** * Concrete instances *)

(** One paused process that the host, which shows no status file, takes to be
    running. *)
Definition sample_mitigator : Mitigator :=
  record_outcome (Mitigator.New Mitigator.DefaultConfig)
    {| TPID := 4321; TContainerID := ""; TProcessName := "python" |} "IDLE_GPU_HOG"
    MechanismSignalStop None sample_readings.

Lemma reconcileOnce_spec_witness :
  LState <$> mledger (reconcileOnce (New DefaultConfig) sample_mitigator (∅ : gset Z) 0 0 "d").2
    !! generateRevToken "b" = Some ActionDriftSynced.
Proof.
  assert (Hk : keyed (mledger sample_mitigator)).
  { intros t e. unfold sample_mitigator. simpl. rewrite lookup_insert_Some.
    intros [[<- <-]|[_ Hl]]; [done|]. by apply lookup_empty_Some in Hl. }
  pose proof (reconcileOnce_spec (New DefaultConfig) (∅ : gset Z) sample_mitigator 0 0 "d" Hk) as Hs.
  destruct (reconcileOnce _ _ _ _ _ _) as [ctl' m']. destruct Hs as [Hs _].
  simpl. rewrite Hs. vm_compute. reflexivity.
Defined.
