(* ===== verification/Interventions.v ===== *)
(** The components that intervene, together: the mitigator, the router and the
    rollback controller around the policy engine they share ([proxy/engine]
    starts them, each as a goroutine of its own).

    A step of the system is one operation of one component, with the clock it
    reads; steps interleave freely, requests pass through the router, the
    whitelist may be replaced, and the host changes by itself in between.  A
    ghost field records the interventions the policy engine authorised. *)

From S2P Require Import Prelude Host PolicyEvaluator PolicyLedger PolicyEngine.
From S2P Require Alerter Mitigator RouterRegistry Router Rollback.

(** * Authorised interventions *)

(** An authorised intervention: its transaction, when it was registered, and
    the process. *)
Record grant := { GrantID : string; GrantTime : Z; GrantPID : Z }.

(** When a transaction registered at [t0] expires. *)
Definition expiry (cooldown t0 : Z) : Z := i64 (t0 + i64 (cooldown * 1000000000)).

Definition live (cooldown now : Z) (g : grant) : bool := now <=? expiry cooldown (GrantTime g).

(** The grants of an evaluation. *)
Definition granted_by (e : Engine) (t1 t2 t3 : Z) (rnd : string) (intent : MitigationIntent) :
    list grant :=
  let '(_, authorized, txID, _) := EvaluateAndRegister e t1 t2 t3 rnd intent in
  if authorized
  then [{| GrantID := txID; GrantTime := t2; GrantPID := TargetPID intent |}] else [].

(** The engine next to the list of what it authorised.  A sweep evicts no
    unexpired record as long as the ledger is within its capacity. *)
Inductive logged_step `{MapRange} : Engine * Z * list grant → Engine * Z * list grant → Prop :=
  | log_evaluate e t gs t1 t2 t3 rnd intent :
      t <= t1 <= t2 → records (ledger e) !! generateTxID rnd = None →
      logged_step (e, t, gs)
        ((EvaluateAndRegister e t1 t2 t3 rnd intent).1.1.1, t2,
         gs ++ granted_by e t1 t2 t3 rnd intent)
  | log_status e t gs id st :
      st = StatusExecuted ∨ st = StatusCompleted ∨ st = StatusRejected →
      logged_step (e, t, gs) (with_ledger e (UpdateStatus (ledger e) id st).1, t, gs)
  | log_sweep e t gs t' n : t <= t' → Count (ledger e) <= maxEntries (ledger e) →
      logged_step (e, t, gs) (with_ledger e (sweep (ledger e) n t'), t', gs)
  | log_whitelist e t gs names ids :
      logged_step (e, t, gs)
        ({| evaluator := UpdateWhitelist (evaluator e) names ids; ledger := ledger e;
            events := events e; ecfg := ecfg e |}, t, gs)
  | log_receive e t gs : logged_step (e, t, gs)
        ({| evaluator := evaluator e; ledger := ledger e;
            events := (try_recv (events e)).2; ecfg := ecfg e |}, t, gs).

(** Every live grant has its record, and no two have the same one. *)
Definition log_ok (cooldown : Z) (st : Engine * Z * list grant) : Prop :=
  let '(e, t, gs) := st in
  cooldownSecs (ledger e) = cooldown ∧
  NoDup (GrantID <$> filter (λ g, live cooldown t g = true) gs) ∧
  ∀ g, g ∈ gs → live cooldown t g = true →
    ∃ rec, records (ledger e) !! GrantID g = Some rec ∧ RecPID rec = GrantPID g ∧
      RejectionReason rec = ""%string ∧ Expiry rec = expiry cooldown (GrantTime g).

Lemma live_mono cooldown t t' g : t <= t' → live cooldown t' g = true → live cooldown t g = true.
Proof. unfold live. rewrite !Z.leb_le. lia. Qed.

Lemma live_filter_sublist cooldown t t' gs :
  t <= t' →
  filter (λ g, live cooldown t' g = true) gs `sublist_of` filter (λ g, live cooldown t g = true) gs.
Proof.
  intros Ht. induction gs as [|g gs IH]; [done|]. rewrite !filter_cons.
  destruct (decide (live cooldown t' g = true)) as [Hl|Hl].
  - rewrite decide_True by (by apply (live_mono cooldown t t')). by constructor.
  - case_decide; [by apply sublist_cons|done].
Qed.

Section logged.

Context `{MapRange}.

Lemma logged_engine_step st st' : logged_step st st' → engine_step st.1 st'.1.
Proof.
  destruct 1 as [|e t gs id st [->|[->| ->]]| | |]; simpl; try (by constructor).
  apply (step_reject e t id "").
Qed.

Lemma update_keeps tl id st j rec :
  records tl !! j = Some rec →
  ∃ rec', records (UpdateStatus tl id st).1 !! j = Some rec' ∧ RecPID rec' = RecPID rec ∧
    RejectionReason rec' = RejectionReason rec ∧ Expiry rec' = Expiry rec.
Proof.
  intros Hj. unfold UpdateStatus. destruct (records tl !! id) as [r|] eqn:E; [|eauto].
  simpl. destruct (decide (id = j)) as [->|Hne].
  - rewrite lookup_insert_eq. simplify_eq. by eexists.
  - rewrite lookup_insert_ne by done. eauto.
Qed.

Lemma update_cooldown tl id st : cooldownSecs (UpdateStatus tl id st).1 = cooldownSecs tl.
Proof. unfold UpdateStatus. by destruct (records tl !! id). Qed.

Lemma log_step_ok cfg cooldown st st' :
  engine_inv cfg st.1 → log_ok cooldown st → logged_step st st' → log_ok cooldown st'.
Proof.
  intros Hi Hlog Hstep.
  destruct Hstep as [e t gs t1 t2 t3 rnd intent Ht Hf|e t gs id st Hst|e t gs t' n Ht Hroom
    |e t gs names ids|e t gs]; destruct Hlog as (Hcd & Hnd & Hrec); try done.
  - simpl in Hi. unfold granted_by.
    pose proof (EvaluateAndRegister_record e t1 t2 t3 rnd intent (ei_ok _ _ Hi)) as Hr.
    destruct (EvaluateAndRegister e t1 t2 t3 rnd intent) as [[[e' ok] txID] evt]. simpl.
    destruct Hr as (-> & _ & (rec & Hr & Hpid & _ & Hexp & _ & Hno & _) & _ & Hcd').
    assert (Hold : ∀ g, g ∈ gs → live cooldown t2 g = true →
      live cooldown t g = true ∧ GrantID g ≠ generateTxID rnd).
    { intros g Hg Hl. apply (live_mono _ t) in Hl; [|lia]. split; [done|]. intros E.
      destruct (Hrec g Hg Hl) as (r & Hr' & _). rewrite E in Hr'. congruence. }
    split; [by rewrite Hcd'|]. split.
    + rewrite filter_app, fmap_app. apply NoDup_app. split_and!.
      * eapply sublist_NoDup; [exact Hnd|]. apply fmap_sublist, live_filter_sublist. lia.
      * intros id (g & -> & Hg)%list_elem_of_fmap Hin. apply list_elem_of_filter in Hg as [Hl Hg].
        destruct (Hold g Hg Hl) as [_ Hne]. destruct ok; [|by apply elem_of_nil in Hin].
        rewrite filter_cons in Hin. case_decide; simpl in Hin; set_solver.
      * destruct ok; [|constructor]. rewrite filter_cons, filter_nil.
        case_decide; [apply NoDup_singleton|constructor].
    + intros g Hg Hl. rewrite Hr. apply elem_of_app in Hg as [Hg|Hg].
      * destruct (Hold g Hg Hl) as [Hl' Hne]. rewrite lookup_insert_ne by done. by apply Hrec.
      * destruct ok; [|by apply elem_of_nil in Hg]. apply list_elem_of_singleton in Hg as ->.
        simpl. exists rec. rewrite lookup_insert_eq, Hexp, Hcd. split_and!; try done. by apply Hno.
  - simpl. split; [by rewrite update_cooldown|]. split; [done|]. intros g Hg Hl.
    destruct (Hrec g Hg Hl) as (r & Hr & H1 & H2 & H3).
    destruct (update_keeps _ id st _ _ Hr) as (r' & Hr' & E1 & E2 & E3).
    exists r'. by rewrite E1, E2, E3.
  - simpl in Hi. split; [done|]. split.
    + eapply sublist_NoDup; [exact Hnd|]. by apply fmap_sublist, live_filter_sublist.
    + intros g Hg Hl. destruct (Hrec g Hg (live_mono _ _ _ _ Ht Hl)) as (r & Hr & H1 & H2 & H3).
      assert (Hpast : sweepable (ledger e) t')
        by (intros ? ? ?%(ei_past _ _ Hi); simpl in *; lia).
      destruct (sweep_keeps (ledger e) n t' (proj1 (proj2 (ei_ok _ _ Hi))) Hpast)
        as (_ & _ & _ & Hkeep & _).
      exists r. split_and!; try done. apply Hkeep; [done|done|].
      unfold live in Hl. rewrite H3. by apply Z.leb_le.
Qed.

Lemma logged_inv cfg cooldown st st' :
  engine_inv cfg st.1 → log_ok cooldown st → rtc logged_step st st' →
  engine_inv cfg st'.1 ∧ log_ok cooldown st'.
Proof.
  intros Hi Hl Hs. revert Hi Hl. induction Hs as [|x y z Hxy _ IH]; intros Hi Hl; [done|].
  apply IH; [eapply engine_step_inv; [done|by apply logged_engine_step]|by eapply log_step_ok].
Qed.

(** Grants are not from the future. *)
Definition log_past (t0 : Z) (st : Engine * Z * list grant) : Prop :=
  t0 <= st.1.2 ∧ ∀ g, g ∈ st.2 → t0 <= GrantTime g <= st.1.2.

Lemma log_step_past t0 st st' : log_past t0 st → logged_step st st' → log_past t0 st'.
Proof.
  intros [Ht0 Hg] Hstep. destruct Hstep as [e t gs t1 t2 t3 rnd intent Ht Hf|e t gs id st Hst
    |e t gs t' n Ht Hroom|e t gs names ids|e t gs]; simpl in *; try done.
  - split; simpl; [lia|]. intros g [Hin|Hin]%elem_of_app.
    + specialize (Hg g Hin). lia.
    + unfold granted_by in Hin. destruct (EvaluateAndRegister _ _ _ _ _ _) as [[[e' []] txID] evt];
        [|by apply elem_of_nil in Hin]. apply list_elem_of_singleton in Hin as ->. simpl. lia.
  - split; simpl; [lia|]. intros g Hin. specialize (Hg g Hin). lia.
Qed.

Lemma logged_past t0 st st' : log_past t0 st → rtc logged_step st st' → log_past t0 st'.
Proof. intros Hp Hs. induction Hs; [done|]. eauto using log_step_past. Qed.

(** The live grants of a process are among the granted records that the
    velocity cap counts. *)
Lemma live_grants_granted cooldown e t gs pid :
  log_ok cooldown (e, t, gs) →
  llen (filter (λ g, GrantPID g = pid) (filter (λ g, live cooldown t g = true) gs))
    <= granted (ledger e) t pid.
Proof.
  intros (_ & Hnd & Hrec). set (l := filter (λ g, GrantPID g = pid) _).
  assert (Hl : NoDup (GrantID <$> l)).
  { eapply sublist_NoDup; [exact Hnd|]. apply fmap_sublist, sublist_filter. }
  unfold granted, llen. apply Nat2Z.inj_le.
  rewrite <- (length_fmap GrantID l), <- (size_list_to_set (C:=gset string) _ Hl).
  rewrite <- (size_dom (D:=gset string)). apply subseteq_size.
  intros id Hin. apply elem_of_list_to_set, list_elem_of_fmap in Hin as (g & -> & Hg).
  apply list_elem_of_filter in Hg as [<- Hg]. apply list_elem_of_filter in Hg as [Hlive Hg].
  destruct (Hrec g Hg Hlive) as (rec & Hr & H1 & H2 & H3). apply elem_of_dom. exists rec.
  apply map_lookup_filter_Some. split_and!; try done. simpl. rewrite H3.
  unfold live in Hlive. by apply Z.leb_le.
Qed.

End logged.

(** * The system *)

Section system.

Context `{MapRange, Host W} (J : Router.Codec).

Record system := {
  smit : Mitigator.Mitigator;
  srouter : Router.Router;
  sctl : Rollback.Controller;
  spol : Engine;
  sworld : W;
  snow : Z;
  sgrants : list grant
}.

(** As [New] of the engine creates them. *)
Definition start (pcfg : Config) (mcfg : Mitigator.Config) (rcfg : Router.Config)
    (bcfg : Rollback.Config) (w : W) (t0 : Z) : system :=
  {| smit := Mitigator.New mcfg; srouter := Router.New rcfg; sctl := Rollback.New bcfg;
     spol := NewEngine pcfg; sworld := w; snow := t0; sgrants := [] |}.

(** What the rollback controller works on; the registry is the router's. *)
Definition plant_of (s : system) : Rollback.plant :=
  {| Rollback.mit := smit s; Rollback.rreg := Router.reg (srouter s); Rollback.pol := spol s;
     Rollback.world := sworld s |}.

Definition after_rollback (s : system) (t : Z) (ctl : Rollback.Controller) (p : Rollback.plant) :
    system :=
  {| smit := Rollback.mit p; srouter := Router.with_reg (srouter s) (Rollback.rreg p); sctl := ctl;
     spol := Rollback.pol p; sworld := Rollback.world p; snow := t; sgrants := sgrants s |}.

(** The intents the mitigator and the router submit. *)
Definition mitigation_intent (s : system) (alert : Alerter.ConsolidatedAlert) : MitigationIntent :=
  let pid := Alerter.TargetPID (Alerter.Payload alert) in
  Mitigator.intent_of
    {| Mitigator.TPID := pid;
       Mitigator.TContainerID := Mitigator.resolveContainerID (smit s) pid (sworld s);
       Mitigator.TProcessName := Mitigator.resolveProcessName (smit s) pid (sworld s) |}
    (Alerter.AnomalyType (Alerter.Payload alert)).

Definition route_intent (alert : Router.AlertTrigger) : MitigationIntent :=
  let rm := Router.remedyForAnomaly (Router.AlertType alert) in
  {| TargetPID := Router.AlertPID alert; ContainerID := ""; ProcessName := "";
     IntentAction := if bool_decide (rm = RouterRegistry.RemedyFallbackRoute)
                        || bool_decide (rm = RouterRegistry.RemedyBoth)
                     then ActionAPIRouteSwap else ActionTokenChop;
     AnomalyType := Router.AlertType alert; SourceModule := "router"; Metadata := ∅ |}.

Inductive system_step (s : system) : system → Prop :=
  | sys_mitigate alert r m' e' w' :
      snow s <= Mitigator.tPolicy1 r <= Mitigator.tPolicy2 r →
      records (ledger (spol s)) !! generateTxID (Mitigator.rndTx r) = None →
      Mitigator.mitigateFromAlert (smit s) (Some (spol s)) (sworld s) alert r = (m', Some e', w') →
      system_step s
        {| smit := m'; srouter := srouter s; sctl := sctl s; spol := e'; sworld := w';
           snow := Mitigator.tPolicy2 r;
           sgrants := sgrants s ++ granted_by (spol s) (Mitigator.tPolicy1 r) (Mitigator.tPolicy2 r)
             (Mitigator.tPolicyEvent r) (Mitigator.rndTx r) (mitigation_intent s alert) |}
  | sys_route alert ev r' e' :
      snow s <= Router.tp1 ev <= Router.tp2 ev →
      records (ledger (spol s)) !! generateTxID (Router.rndTx ev) = None →
      Router.handleAlert (srouter s) (Some (spol s)) alert ev = (r', Some e') →
      system_step s
        {| smit := smit s; srouter := r'; sctl := sctl s; spol := e'; sworld := sworld s;
           snow := Router.tp2 ev;
           sgrants := sgrants s ++ granted_by (spol s) (Router.tp1 ev) (Router.tp2 ev) (Router.tp3 ev)
             (Router.rndTx ev) (route_intent alert) |}
  | sys_rollback n t unix rnd ctl' p' :
      snow s <= t →
      Rollback.checkExpired (sctl s) (plant_of s) n t unix rnd = (ctl', p') →
      system_step s (after_rollback s (snow s) ctl' p')
  | sys_reconcile n unix rnd ctl' m' :
      Rollback.reconcileOnce (sctl s) (smit s) (sworld s) n unix rnd = (ctl', m') →
      system_step s
        {| smit := m'; srouter := srouter s; sctl := ctl'; spol := spol s; sworld := sworld s;
           snow := snow s; sgrants := sgrants s |}
  | sys_resume token r res m' e' w' :
      Mitigator.Resume (smit s) (Some (spol s)) (sworld s) token r = (res, m', Some e', w') →
      system_step s
        {| smit := m'; srouter := srouter s; sctl := sctl s; spol := e'; sworld := w';
           snow := snow s; sgrants := sgrants s |}
  | sys_request body req pid model ev out b evt r' req' :
      Router.InterceptRequest J (srouter s) body req pid model ev =
        Router.Returns (out, b, evt, r', req') →
      system_step s
        {| smit := smit s; srouter := r'; sctl := sctl s; spol := spol s; sworld := sworld s;
           snow := snow s; sgrants := sgrants s |}
  | sys_sweep n t :
      snow s <= t → Count (ledger (spol s)) <= maxEntries (ledger (spol s)) →
      system_step s
        {| smit := smit s; srouter := srouter s; sctl := sctl s;
           spol := with_ledger (spol s) (sweep (ledger (spol s)) n t); sworld := sworld s;
           snow := t; sgrants := sgrants s |}
  | sys_whitelist names ids :
      system_step s
        {| smit := smit s; srouter := srouter s; sctl := sctl s;
           spol := {| evaluator := UpdateWhitelist (evaluator (spol s)) names ids;
                      ledger := ledger (spol s); events := events (spol s); ecfg := ecfg (spol s) |};
           sworld := sworld s; snow := snow s; sgrants := sgrants s |}
  | sys_log_policy :
      system_step s
        {| smit := smit s; srouter := srouter s; sctl := sctl s;
           spol := (PolicyEngine.Events (spol s)).2;
           sworld := sworld s; snow := snow s; sgrants := sgrants s |}
  | sys_log_mitigator :
      system_step s
        {| smit := (Mitigator.Events (smit s)).2; srouter := srouter s; sctl := sctl s;
           spol := spol s; sworld := sworld s; snow := snow s; sgrants := sgrants s |}
  | sys_log_router :
      system_step s
        {| smit := smit s; srouter := (Router.Events (srouter s)).2; sctl := sctl s;
           spol := spol s; sworld := sworld s; snow := snow s; sgrants := sgrants s |}
  | sys_log_rollback :
      system_step s
        {| smit := smit s; srouter := srouter s; sctl := (Rollback.Events (sctl s)).2;
           spol := spol s; sworld := sworld s; snow := snow s; sgrants := sgrants s |}
  | sys_host w' :
      system_step s
        {| smit := smit s; srouter := srouter s; sctl := sctl s; spol := spol s; sworld := w';
           snow := snow s; sgrants := sgrants s |}.

(** ** Each step is steps of the policy engine *)

Definition engine_view (s : system) : Engine * Z * list grant := (spol s, snow s, sgrants s).

Lemma complete_log e t gs id : logged_step (e, t, gs) (Complete e id, t, gs).
Proof. apply log_status. auto. Qed.

Lemma rollback_log (s : Rollback.plant) recs t gs acc :
  rtc logged_step (Rollback.pol s, t, gs)
    (Rollback.pol (foldl (λ '(s, details) rec,
      let '(s, detail) := Rollback.dispatchRollback s rec in
      (s, match detail with Some d => details ++ [d] | None => details end)) (s, acc) recs).1, t, gs).
Proof.
  revert s acc. induction recs as [|rec recs IH]; intros s acc; [constructor|]. cbn [foldl].
  assert (Hd : rtc logged_step (Rollback.pol s, t, gs)
    (Rollback.pol (Rollback.dispatchRollback s rec).1, t, gs)).
  { unfold Rollback.dispatchRollback. destruct (RecAction rec);
      try destruct (Mitigator.UnfreezeProcess _ _) as [[err|] w];
      try destruct (Mitigator.RollbackPID _ _ _ _) as [[[err|] m] w];
      simpl; first [constructor; fail | apply rtc_once, complete_log]. }
  destruct (Rollback.dispatchRollback s rec) as [s1 d]. etransitivity; [exact Hd|]. apply IH.
Qed.

Lemma system_step_log s s' : system_step s s' → rtc logged_step (engine_view s) (engine_view s').
Proof.
  unfold engine_view.
  destruct 1 as [alert r m' e' w' Ht Hf Hm|alert ev r' e' Ht Hf Hr|n t unix rnd ctl' p' Ht Hc
    |n unix rnd ctl' m' Hc|token r res m' e' w' Hr|body req pid model ev out b evt r' req' Hq
    |n t Ht Hroom|names ids| | | | |w']; simpl; try done.
  - eapply rtc_l; [by apply (log_evaluate _ _ _ (Mitigator.tPolicy1 r) (Mitigator.tPolicy2 r) (Mitigator.tPolicyEvent r)
      (Mitigator.rndTx r) (mitigation_intent s alert))|]. unfold Mitigator.mitigateFromAlert in Hm.
    unfold granted_by, mitigation_intent in *.
    destruct (EvaluateAndRegister _ _ _ _ _ _) as [[[e1 ok] txID] evt]. simpl.
    destruct ok; simpl in Hm; [|simplify_eq; by rewrite app_nil_r].
    destruct (Mitigator.freeze_target _ _ _ _) as [[[mech err] m1] w1]. simplify_eq.
    apply rtc_once. destruct err; apply log_status; auto.
  - eapply rtc_l; [by apply (log_evaluate _ _ _ (Router.tp1 ev) (Router.tp2 ev) (Router.tp3 ev) (Router.rndTx ev) (route_intent alert))|].
    unfold Router.handleAlert in Hr. unfold granted_by, route_intent in *.
    assert (Hrm : Router.remedyForAnomaly (Router.AlertType alert) ≠ RouterRegistry.RemedyNone).
    { unfold Router.remedyForAnomaly. repeat (destruct (streq _ _); [done|]). done. }
    rewrite bool_decide_eq_false_2 in Hr by done.
    destruct (EvaluateAndRegister _ _ _ _ _ _) as [[[e1 ok] txID] evt]. simpl.
    destruct ok; simpl in Hr; [|simplify_eq; by rewrite app_nil_r]. simplify_eq.
    apply rtc_once, log_status. auto.
  - unfold Rollback.checkExpired in Hc. simpl in Hc. destruct (_ =? 0); [by simplify_eq|].
    set (recs := ListExecutedExpired _ _ _) in *.
    pose proof (rollback_log (plant_of s) recs (snow s) (sgrants s) []) as Hlog.
    unfold Rollback.rollback_all in Hc. destruct (foldl _ _ recs) as [p1 details].
    destruct (llen details =? 0); by simplify_eq.
  - unfold Mitigator.Resume in Hr. destruct (Mitigator.ResolveByToken _ _) as [entry|]; [|by simplify_eq].
    destruct (match Mitigator.LMechanism entry with Mitigator.MechanismSignalStop => _ | _ => _ end)
      as [[[mech err] m1] w1].
    destruct err; simplify_eq/=; [done|]. apply rtc_once, complete_log.
  - by apply rtc_once, log_sweep.
  - apply rtc_once, log_whitelist.
  - apply rtc_once, log_receive.
Qed.

Lemma system_log s s' : rtc system_step s s' → rtc logged_step (engine_view s) (engine_view s').
Proof.
  induction 1 as [|x y z Hxy _ IH]; [done|]. etransitivity; [by apply system_step_log|exact IH].
Qed.

Lemma logged_engine_steps st st' : rtc logged_step st st' → rtc engine_step st.1 st'.1.
Proof.
  induction 1 as [|x y z Hxy _ IH]; [done|]. eapply rtc_l; [by apply logged_engine_step|exact IH].
Qed.

Lemma start_log_ok pcfg t0 :
  log_ok (cooldownSecs (NewTransactionLedger pcfg)) (NewEngine pcfg, t0, []).
Proof. split; [done|]. split; [constructor|]. by intros g ?%elem_of_nil. Qed.

(** ** What is in force was authorised *)

Definition has_grant (gs : list grant) (pid : Z) : Prop := ∃ g, g ∈ gs ∧ GrantPID g = pid.

(** The entries of the second ledger are among those of the first, whatever
    their states; likewise the processes of two registries. *)
Definition no_new_entries (l l' : Mitigator.Ledger) : Prop :=
  ∀ t e', l' !! t = Some e' → ∃ t0 e, l !! t0 = Some e ∧ Mitigator.LPID e = Mitigator.LPID e'.

Definition no_new_remedies (g g' : RouterRegistry.Registry) : Prop :=
  ∀ p, is_Some (RouterRegistry.entries g' !! p) → is_Some (RouterRegistry.entries g !! p).

#[local] Instance no_new_entries_preorder : PreOrder no_new_entries.
Proof.
  split; [intros l t e; eauto|]. intros l1 l2 l3 H12 H23 t e He.
  destruct (H23 t e He) as (t2 & e2 & H2 & <-). exact (H12 t2 e2 H2).
Qed.

#[local] Instance no_new_remedies_preorder : PreOrder no_new_remedies.
Proof. split; [by intros g p|]. intros g1 g2 g3 H12 H23 p Hp. auto. Qed.

Lemma UpdateState_no_new l token st : no_new_entries l (Mitigator.UpdateState l token st).1.
Proof.
  unfold Mitigator.UpdateState. destruct (l !! token) as [e|] eqn:E; simpl; [|done].
  intros t e' He. destruct (decide (token = t)) as [->|Hne].
  - rewrite lookup_insert_eq in He. simplify_eq. by exists t, e.
  - rewrite lookup_insert_ne in He by done. by exists t, e'.
Qed.

Lemma update_no_new m token st :
  no_new_entries (Mitigator.mledger m)
    (Mitigator.mledger (Mitigator.UpdateMitigationState m token st).1).
Proof.
  unfold Mitigator.UpdateMitigationState.
  pose proof (UpdateState_no_new (Mitigator.mledger m) token st) as Hu.
  by destruct (Mitigator.UpdateState _ _ _).
Qed.

Lemma Resume_no_new m pol (w : W) token r res m' pol' w' :
  Mitigator.Resume m pol w token r = (res, m', pol', w') →
  no_new_entries (Mitigator.mledger m) (Mitigator.mledger m').
Proof.
  unfold Mitigator.Resume. destruct (Mitigator.ResolveByToken _ _) as [entry|];
    [|intros; by simplify_eq].
  destruct (Mitigator.LMechanism entry);
    try destruct (Mitigator.UnfreezeProcess _ _) as [err w1];
    try destruct (Mitigator.Unpause _ _ _) as [[err c] w1];
    try destruct err; simpl; intros; simplify_eq/=; try done; apply UpdateState_no_new.
Qed.

Lemma reconcile_no_new ctl m (w : W) n unix rnd :
  no_new_entries (Mitigator.mledger m)
    (Mitigator.mledger (Rollback.reconcileOnce ctl m w n unix rnd).2).
Proof.
  unfold Rollback.reconcileOnce, Rollback.reconcile_all. destruct (_ =? 0); [done|].
  match goal with |- context [foldl ?g _ _] => set (f := g) end.
  generalize (Mitigator.ActiveMitigations m n). intros l.
  enough (Hall : ∀ drift details, no_new_entries (Mitigator.mledger m)
    (Mitigator.mledger (foldl f (m, drift, details) l).1.1)).
  { specialize (Hall false []). destruct (foldl f _ l) as [[m1 drift] details].
    by destruct (_ =? 0). }
  revert m. induction l as [|entry l IH]; intros m drift details; [done|]. cbn [foldl].
  unfold f at 2. destruct (Rollback.reconcileEntry ctl w entry) as [d|]; [|apply IH].
  etransitivity; [|apply IH]. unfold Rollback.sync_entry.
  destruct (Rollback.FinalSynchronizedState d); try done; apply update_no_new.
Qed.

Lemma dispatch_no_new (s : Rollback.plant) rec :
  Mitigator.mledger (Rollback.mit (Rollback.dispatchRollback s rec).1) =
    Mitigator.mledger (Rollback.mit s) ∧
  no_new_remedies (Rollback.rreg s) (Rollback.rreg (Rollback.dispatchRollback s rec).1).
Proof.
  assert (Hm : ∀ pid cid, Mitigator.mledger (Mitigator.RollbackPID (Rollback.mit s) pid cid
    (Rollback.world s)).1.2 = Mitigator.mledger (Rollback.mit s)).
  { intros pid cid. unfold Mitigator.RollbackPID. destruct (streq cid "").
    - by destruct (Mitigator.UnfreezeProcess _ _).
    - destruct (Mitigator.Unpause _ _ _) as [[[err|] c] w]; [|done].
      by destruct (Mitigator.UnfreezeProcess _ _). }
  unfold Rollback.dispatchRollback.
  destruct (RecAction rec); try specialize (Hm (RecPID rec) (RecContainerID rec));
    try destruct (Mitigator.UnfreezeProcess _ _) as [[err|] w];
    try destruct (Mitigator.RollbackPID _ _ _ _) as [[[err|] m] w];
    simpl in *; split; try done.
  all: intros p Hp; simpl in Hp; by apply lookup_delete_is_Some in Hp as [_ Hp].
Qed.

Lemma rollback_no_new (s : Rollback.plant) recs acc :
  let s' := (foldl (λ '(s, details) rec,
    let '(s, detail) := Rollback.dispatchRollback s rec in
    (s, match detail with Some d => details ++ [d] | None => details end)) (s, acc) recs).1 in
  Mitigator.mledger (Rollback.mit s') = Mitigator.mledger (Rollback.mit s) ∧
  no_new_remedies (Rollback.rreg s) (Rollback.rreg s').
Proof.
  revert s acc. induction recs as [|rec recs IH]; intros s acc; [done|]. cbn [foldl].
  destruct (dispatch_no_new s rec) as [Hl Hg].
  destruct (Rollback.dispatchRollback s rec) as [s1 d].
  destruct (IH s1 match d with Some d => acc ++ [d] | None => acc end) as [Hl' Hg'].
  cbv zeta in *. rewrite Hl'. split; [exact Hl|]. by etransitivity.
Qed.

Lemma Lookup_no_new g now pid : no_new_remedies g (RouterRegistry.Lookup g now pid).1.
Proof.
  unfold RouterRegistry.Lookup. destruct (RouterRegistry.entries g !! pid) as [s|] eqn:E; [|done].
  destruct (negb _); [done|]. destruct (_ <? _); [|done]. intros p. simpl.
  destruct (decide (pid = p)) as [->|Hne]; [by rewrite E|by rewrite lookup_insert_ne].
Qed.

Lemma chopper_no_new r pid body ev :
  no_new_remedies (Router.reg r) (Router.reg (Router.run_chopper J r pid body ev).1.1).
Proof.
  unfold Router.run_chopper. destruct (Chopper.ChopMessages _ _ _ _ _ _ _ _) as [[out saved] pool].
  simpl. destruct (0 <? saved); [|done]. unfold RouterRegistry.RecordTokensSaved. simpl.
  destruct (RouterRegistry.entries (Router.reg r) !! pid) as [s|] eqn:E; [|done]. intros p. simpl.
  destruct (decide (pid = p)) as [->|Hne]; [by rewrite E|by rewrite lookup_insert_ne].
Qed.

Lemma intercept_no_new r body req pid model ev out b evt r' req' :
  Router.InterceptRequest J r body req pid model ev = Router.Returns (out, b, evt, r', req') →
  no_new_remedies (Router.reg r) (Router.reg r').
Proof.
  unfold Router.InterceptRequest. destruct (pid <=? 0); [by intros; simplify_eq|].
  pose proof (Lookup_no_new (Router.reg r) (Router.tReqLookup ev) pid) as Hl.
  destruct (RouterRegistry.Lookup _ _ _) as [g [state|]]; [|by intros; simplify_eq].
  pose proof (chopper_no_new (Router.with_reg r g) pid body ev) as Hc.
  destruct (RouterRegistry.Remedy state);
    try destruct (Router.run_chopper _ _ _ _ _) as [[r1 chopped] saved];
    try destruct (Router.RewriteRequest _ _ _ _) as [[req1 out1]|];
    intros; simplify_eq/=; try done; by etransitivity.
Qed.

Lemma apply_remedy_no_new r pid rm ev p :
  is_Some (RouterRegistry.entries (Router.reg (Router.apply_remedy r pid rm ev)) !! p) →
  p = pid ∨ is_Some (RouterRegistry.entries (Router.reg r) !! p).
Proof.
  destruct (Router.apply_remedy_entry r pid rm ev) as (s & _ & _ & _ & _ & _ & Hother).
  intros Hp. destruct (decide (p = pid)) as [->|Hne]; [by left|]. right. by rewrite <- Hother.
Qed.

(** An alert adds a mitigation or a remedy for its own process only. *)
Lemma mitigate_entries m pol (w : W) alert r m' pol' w' :
  Mitigator.mitigateFromAlert m pol w alert r = (m', pol', w') →
  ∀ t en, Mitigator.mledger m' !! t = Some en →
    Mitigator.LPID en = Alerter.TargetPID (Alerter.Payload alert) ∨
    Mitigator.mledger m !! t = Some en.
Proof.
  intros Hm t en. unfold Mitigator.mitigateFromAlert in Hm.
  set (pid := Alerter.TargetPID (Alerter.Payload alert)) in *.
  set (cid := Mitigator.resolveContainerID m pid w) in *.
  pose proof (Mitigator.freeze_target_ledger m pid cid w) as Hf.
  destruct (Mitigator.freeze_target m pid cid w) as [[[mech err] m1] w1].
  destruct Hf as (_ & Hl & _).
  assert (Hr : Mitigator.mledger (Mitigator.record_outcome m1
      {| Mitigator.TPID := pid; Mitigator.TContainerID := cid;
         Mitigator.TProcessName := Mitigator.resolveProcessName m pid w |}
      (Alerter.AnomalyType (Alerter.Payload alert)) mech err r) !! t = Some en →
    Mitigator.LPID en = pid ∨ Mitigator.mledger m !! t = Some en).
  { unfold Mitigator.record_outcome. destruct err as [err|]; simpl; rewrite Hl; [by right|].
    intros [[_ <-]|[_ ?]]%lookup_insert_Some; [by left|by right]. }
  destruct pol as [e|]; [|by simplify_eq].
  destruct (EvaluateAndRegister _ _ _ _ _ _) as [[[e1 ok] txID] evt].
  destruct ok; simpl in Hm; simplify_eq; [done|by right].
Qed.

Lemma handleAlert_entries r pol alert ev p :
  is_Some (RouterRegistry.entries (Router.reg (Router.handleAlert r pol alert ev).1) !! p) →
  p = Router.AlertPID alert ∨ is_Some (RouterRegistry.entries (Router.reg r) !! p).
Proof.
  unfold Router.handleAlert. destruct (bool_decide _); [by right|].
  destruct pol as [e|]; [|apply apply_remedy_no_new].
  destruct (EvaluateAndRegister _ _ _ _ _ _) as [[[e1 ok] txID] evt].
  destruct ok; simpl; [apply apply_remedy_no_new|by right].
Qed.

(** Every mitigation on record and every remedy has its grant. *)
Definition backed (s : system) : Prop :=
  (∀ t e, Mitigator.mledger (smit s) !! t = Some e → has_grant (sgrants s) (Mitigator.LPID e)) ∧
  ∀ p, is_Some (RouterRegistry.entries (Router.reg (srouter s)) !! p) → has_grant (sgrants s) p.

Lemma backed_mono s l' g' gs' :
  backed s → no_new_entries (Mitigator.mledger (smit s)) l' →
  no_new_remedies (Router.reg (srouter s)) g' → sgrants s ⊆ gs' →
  (∀ t e, l' !! t = Some e → has_grant gs' (Mitigator.LPID e)) ∧
  ∀ p, is_Some (RouterRegistry.entries g' !! p) → has_grant gs' p.
Proof.
  intros [Hm Hr] Hl Hg Hgs. split.
  - intros t e He. destruct (Hl t e He) as (t0 & e0 & He0 & <-).
    destruct (Hm t0 e0 He0) as (g & Hin & Hp). exists g. auto.
  - intros p Hp. destruct (Hr p (Hg p Hp)) as (g & Hin & Hpid). exists g. auto.
Qed.

Lemma mitigate_backed m e (w : W) alert r m' e' w' gs :
  Mitigator.mitigateFromAlert m (Some e) w alert r = (m', Some e', w') →
  let intent := Mitigator.intent_of
    {| Mitigator.TPID := Alerter.TargetPID (Alerter.Payload alert);
       Mitigator.TContainerID :=
         Mitigator.resolveContainerID m (Alerter.TargetPID (Alerter.Payload alert)) w;
       Mitigator.TProcessName :=
         Mitigator.resolveProcessName m (Alerter.TargetPID (Alerter.Payload alert)) w |}
    (Alerter.AnomalyType (Alerter.Payload alert)) in
  (∀ t en, Mitigator.mledger m !! t = Some en → has_grant gs (Mitigator.LPID en)) →
  ∀ t en, Mitigator.mledger m' !! t = Some en →
    has_grant (gs ++ granted_by e (Mitigator.tPolicy1 r) (Mitigator.tPolicy2 r)
      (Mitigator.tPolicyEvent r) (Mitigator.rndTx r) intent) (Mitigator.LPID en).
Proof.
  intros Hm intent Hold.
  assert (Hmore : ∀ extra t en, Mitigator.mledger m !! t = Some en →
    has_grant (gs ++ extra) (Mitigator.LPID en)).
  { intros extra t en Hen. destruct (Hold t en Hen) as (g & Hin & Hp). exists g. set_solver. }
  unfold Mitigator.mitigateFromAlert in Hm. fold intent in Hm. unfold granted_by.
  destruct (EvaluateAndRegister _ _ _ _ _ _) as [[[e1 ok] txID] evt].
  destruct ok; simpl in Hm; [|simplify_eq; simpl; apply Hmore].
  match type of Hm with context [Mitigator.freeze_target m ?p ?c w] =>
    pose proof (Mitigator.freeze_target_ledger m p c w) as Hf end.
  destruct (Mitigator.freeze_target _ _ _ _) as [[[mech err] m1] w1].
  destruct Hf as (_ & Hl & _). simplify_eq. intros t en Hen.
  unfold Mitigator.record_outcome in Hen. destruct err as [err|]; simpl in Hen; rewrite Hl in Hen;
    [by apply (Hmore _ t)|].
  apply lookup_insert_Some in Hen as [[_ <-]|[_ Hen]]; [|by apply (Hmore _ t)].
  simpl. eexists. split; [apply elem_of_app; right; by left|done].
Qed.

Lemma route_backed r e alert ev r' e' gs :
  Router.handleAlert r (Some e) alert ev = (r', Some e') →
  (∀ p, is_Some (RouterRegistry.entries (Router.reg r) !! p) → has_grant gs p) →
  ∀ p, is_Some (RouterRegistry.entries (Router.reg r') !! p) →
    has_grant (gs ++ granted_by e (Router.tp1 ev) (Router.tp2 ev) (Router.tp3 ev)
      (Router.rndTx ev) (route_intent alert)) p.
Proof.
  intros Hr Hold.
  assert (Hmore : ∀ extra p, is_Some (RouterRegistry.entries (Router.reg r) !! p) →
    has_grant (gs ++ extra) p).
  { intros extra p Hp. destruct (Hold p Hp) as (g & Hin & Hg). exists g. set_solver. }
  unfold Router.handleAlert in Hr. unfold granted_by, route_intent.
  destruct (bool_decide _) in Hr; [simplify_eq; apply Hmore|].
  destruct (EvaluateAndRegister _ _ _ _ _ _) as [[[e1 ok] txID] evt].
  destruct ok; simpl in Hr; [|simplify_eq; apply Hmore]. simplify_eq.
  intros p [->|Hp]%apply_remedy_no_new; [|by apply Hmore].
  eexists. split; [apply elem_of_app; right; by left|done].
Qed.

Lemma system_step_backed s s' : backed s → system_step s s' → backed s'.
Proof.
  intros Hs Hstep. destruct Hstep as [alert r m' e' w' Ht Hf Hm|alert ev r' e' Ht Hf Hr
    |n t unix rnd ctl' p' Ht Hc|n unix rnd ctl' m' Hc|token r res m' e' w' Hr
    |body req pid model ev out b evt r' req' Hq|n t Ht Hroom|names ids| | | | |w'];
    unfold backed; simpl; try exact Hs.
  - split; [eapply mitigate_backed; [exact Hm|apply Hs]|].
    eapply (backed_mono s (Mitigator.mledger (smit s))); [done..|set_solver].
  - split; [|eapply route_backed; [exact Hr|apply Hs]].
    eapply (backed_mono s _ (Router.reg (srouter s))); [done..|set_solver].
  - unfold Rollback.checkExpired in Hc. simpl in Hc. destruct (_ =? 0); [by simplify_eq|].
    set (recs := ListExecutedExpired _ _ _) in *.
    pose proof (rollback_no_new (plant_of s) recs []) as Hno.
    unfold Rollback.rollback_all in Hc. destruct (foldl _ _ recs) as [p1 details].
    destruct Hno as [Hl Hg]. simpl in Hl, Hg.
    assert (Rollback.mit p' = Rollback.mit p1 ∧ Rollback.rreg p' = Rollback.rreg p1) as [-> ->]
      by (destruct (llen details =? 0); by simplify_eq).
    apply (backed_mono s); [done|by rewrite Hl|done|done].
  - apply (backed_mono s); [done| |done|done].
    pose proof (reconcile_no_new (sctl s) (smit s) (sworld s) n unix rnd) as Hno. by rewrite Hc in Hno.
  - apply (backed_mono s); [done| |done|done]. by eapply Resume_no_new.
  - apply (backed_mono s); [done|done| |done]. by eapply intercept_no_new.
  - unfold Mitigator.Events. destruct (try_recv _). exact Hs.
  - unfold Router.Events. destruct (try_recv _). exact Hs.
Qed.

Lemma system_backed s s' : backed s → rtc system_step s s' → backed s'.
Proof. intros Hb Hs. induction Hs; eauto using system_step_backed. Qed.

End system.

Arguments system : clear implicits.

(** * Theorems *)

(** The whole system implements the policy engine's contract.  However the
    mitigator, the router, the rollback controller, resumptions, requests,
    sweeps and changes of the whitelist interleave, and whatever the host does,
    what they do to the shared engine is a run of its own operations, so
    everything proved of the engine holds in the running agent; in particular
    no process has more unexpired authorised transactions than the cap. *)
Theorem system_refines_policy `{MapRange, Host W} (J : Router.Codec) pcfg mcfg rcfg bcfg (w : W) t0 s :
  0 <= BufferSize pcfg → rtc (system_step J) (start pcfg mcfg rcfg bcfg w t0) s →
  reachable pcfg t0 (spol s, snow s) ∧
  ∀ pid, granted (ledger (spol s)) (snow s) pid <=
    (if MaxActionsPerPID pcfg <=? 0 then 5 else MaxActionsPerPID pcfg).
Proof.
  intros Hb Hs. pose proof (logged_engine_steps _ _ (system_log J _ _ Hs)) as He. simpl in He.
  split; [exact He|]. intros pid. destruct (reachable_inv pcfg t0 _ Hb He) as [_ _ Hcap Hmax].
  simpl in *. rewrite <- Hmax. by apply Hcap.
Qed.


(** C5: nothing happens unauthorised.  In every state the system reaches,
    every mitigation on record, in whatever state, and every process that the
    router holds a remedy for goes back to an intervention on that very process
    that the policy engine authorised. *)
Theorem interventions_authorised `{MapRange, Host W} (J : Router.Codec) pcfg mcfg rcfg bcfg (w : W) t0 s :
  rtc (system_step J) (start pcfg mcfg rcfg bcfg w t0) s →
  (∀ token entry, Mitigator.mledger (smit s) !! token = Some entry →
     ∃ g, g ∈ sgrants s ∧ GrantPID g = Mitigator.LPID entry) ∧
  (∀ pid state, RouterRegistry.entries (Router.reg (srouter s)) !! pid = Some state →
     ∃ g, g ∈ sgrants s ∧ GrantPID g = pid).
Proof.
  intros Hs. apply (system_backed J) in Hs as [Hm Hr].
  - split; [exact Hm|]. intros pid state Hp. apply Hr. by eexists.
  - split.
    + intros t e He. by apply (lookup_empty_Some (M:=gmap string) t e) in He.
    + intros p [st Hp]. by apply (lookup_empty_Some (M:=gmap Z) p st) in Hp.
Qed.

(** ** A run: one process is frozen *)

Abbreviation sample_start :=
  (start DefaultConfig Mitigator.DefaultConfig Router.DefaultConfig Rollback.DefaultConfig
    (∅ : gset Z) 0).

Definition sample_codec : Router.Codec := {|
  Router.json := unit; Router.JString := λ _, tt;
  Router.decode_map := λ _, None; Router.encode_map := λ _, None;
  Router.decode_request := λ _ r, (r, false); Router.encode_request := λ _, None;
  Router.decode_response := λ _, None; Router.encode_response := λ _, None;
  Router.decode_model := λ _, None; Router.url_parse := λ _, None |}.

Lemma sample_step :
  ∃ s, system_step sample_codec sample_start s ∧ snow s = Mitigator.tPolicy2 Mitigator.sample_readings ∧
    sgrants s = [{| GrantID := generateTxID "a"; GrantTime := 0; GrantPID := 4321 |}] ∧
    sworld s = {[4321]} ∧
    ∃ token entry, Mitigator.mledger (smit s) !! token = Some entry ∧ Mitigator.LPID entry = 4321.
Proof.
  eexists. split.
  - eapply (sys_mitigate sample_codec sample_start (Mitigator.sample_trigger 4321)
      Mitigator.sample_readings); [done|reflexivity|reflexivity].
  - split_and!; [vm_compute; done..|].
    exists (Mitigator.generateRevToken "b"). eexists. split; [vm_compute; reflexivity|reflexivity].
Qed.

Lemma system_refines_policy_witness :
  ∃ s, rtc (system_step sample_codec) sample_start s ∧ sworld s = {[4321]} ∧
    granted (ledger (spol s)) 0 4321 <= 5.
Proof.
  destruct sample_step as (s & Hs & Ht & _ & Hw & _). exists s.
  split; [exact (rtc_once _ _ Hs)|]. split; [exact Hw|].
  pose proof (system_refines_policy sample_codec DefaultConfig Mitigator.DefaultConfig
    Router.DefaultConfig Rollback.DefaultConfig (∅ : gset Z) 0 s ltac:(done) (rtc_once _ _ Hs))
    as [_ Hcap]. specialize (Hcap 4321). rewrite Ht in Hcap. exact Hcap.
Defined.


Lemma interventions_authorised_witness :
  ∃ s token entry, rtc (system_step sample_codec) sample_start s ∧
    Mitigator.mledger (smit s) !! token = Some entry ∧ Mitigator.LPID entry = 4321 ∧
    ∃ g, g ∈ sgrants s ∧ GrantPID g = 4321.
Proof.
  destruct sample_step as (s & Hs & _ & _ & _ & token & entry & He & Hp).
  exists s, token, entry. split_and!; [exact (rtc_once _ _ Hs)|done|done|].
  destruct (interventions_authorised sample_codec DefaultConfig Mitigator.DefaultConfig
    Router.DefaultConfig Rollback.DefaultConfig (∅ : gset Z) 0 s (rtc_once _ _ Hs)) as [Hm _].
  rewrite <- Hp. exact (Hm token entry He).
Defined.
