(* ===== verification/Webhook.v ===== *)
(** The webhook hub ([proxy/webhook]): the registry of tenants' endpoints with
    its HTTP handlers, the dispatcher, the retry queue and the event-stream
    broker.

    HTTP round trips are an oracle of [http_outcome]; the keyed hash of
    [crypto/hmac] and JSON decoding are arguments.  Dispatch workers and the
    retry loop take one job or task at a time; their interleaving is the step
    relation [retry_step].  Timestamps, latencies and the time of the next retry,
    which nothing reads, are left out. *)

From S2P Require Import Prelude GoFloat GoStrings.

(** * Data *)

Inductive DeliveryStatus :=
  | DeliveryStatusDelivered
  | DeliveryStatusFailed
  | DeliveryStatusRetrying
  | DeliveryStatusDead.

Record Config := {
  RetryMaxAttempts : Z;
  RetryBaseDelay : Z;
  RetryMaxDelay : Z;
  DispatchTimeout : Z;
  WorkerCount : Z;
  JobQueueSize : Z;
  SSEKeepAlive : Z
}.

Definition DefaultConfig : Config := {|
  RetryMaxAttempts := 5;
  RetryBaseDelay := 1 * Second;
  RetryMaxDelay := 30 * Second;
  DispatchTimeout := 10 * Second;
  WorkerCount := 4;
  JobQueueSize := 256;
  SSEKeepAlive := 30 * Second
|}.

Record WebhookConfig := {
  TenantID : string;
  WURL : string;
  Secret : string;
  WActive : bool;
  Headers : gmap string string
}.

Record RetryTask := {
  TaskTenant : string;
  TargetURL : string;
  TaskSecret : string;
  TaskHeaders : gmap string string;
  TaskBody : string;
  Attempt : Z;
  LastError : string;
  LastStatus : Z
}.

Record DispatchJob := {
  JobTenant : string;
  JobConfig : WebhookConfig;
  JobBody : string;
  AlertID : string;
  JobSeverity : string
}.

(** The telemetry of a delivery, without its time and latency. *)
Record Telemetry := {
  TargetTenantID : string;
  TelURL : string;
  HTTPStatusCode : Z;
  TelStatus : DeliveryStatus;
  RetryAttempt : Z;
  SignaturePresent : bool
}.

(** * The registry *)

Definition NewWebhookRegistry : gmap string WebhookConfig := ∅.

Definition Add (c : WebhookConfig) (r : gmap string WebhookConfig) : gmap string WebhookConfig :=
  <[TenantID c := c]> r.
Definition Get (t : string) (r : gmap string WebhookConfig) : option WebhookConfig := r !! t.
Definition Update (c : WebhookConfig) (r : gmap string WebhookConfig) : gmap string WebhookConfig :=
  <[TenantID c := c]> r.
Definition Remove (t : string) (r : gmap string WebhookConfig) : gmap string WebhookConfig :=
  delete t r.

Definition redact (c : WebhookConfig) : WebhookConfig :=
  {| TenantID := TenantID c; WURL := WURL c; Secret := ""; WActive := WActive c;
     Headers := Headers c |}.

Definition List `{MapRange} (n : nat) (r : gmap string WebhookConfig) : list WebhookConfig :=
  (λ '(_, c), redact c) <$> range n r.

Definition ListActive `{MapRange} (n : nat) (r : gmap string WebhookConfig) : list WebhookConfig :=
  omap (λ '(_, c), if WActive c then Some c else None) (range n r).

(** ** Its HTTP handlers *)

Inductive reply :=
  | ReplyList (status : Z) (cs : list WebhookConfig)
  | ReplyConfig (status : Z) (c : WebhookConfig)
  | ReplyError (status : Z) (msg : string)
  | ReplyEmpty (status : Z).

Definition reply_status (p : reply) : Z :=
  match p with ReplyList s _ | ReplyConfig s _ | ReplyError s _ | ReplyEmpty s => s end.

Definition handleList `{MapRange} (n : nat) (r : gmap string WebhookConfig) : reply :=
  ReplyList 200 (List n r).

(** [decoded] is the request body, [None] when it is not valid JSON. *)
Definition handleCreate (decoded : option WebhookConfig) (r : gmap string WebhookConfig) :
    gmap string WebhookConfig * reply :=
  match decoded with
  | None => (r, ReplyError 400 "invalid JSON")
  | Some c =>
      if streq (TenantID c) "" || streq (WURL c) ""
      then (r, ReplyError 422 "tenant_id and url are required")
      else (Add c r, ReplyConfig 201 c)
  end.

Definition handleGet (t : string) (r : gmap string WebhookConfig) : reply :=
  match Get t r with
  | None => ReplyError 404 "not found"
  | Some c => ReplyConfig 200 c
  end.

(** [cfg.TenantID = tenantID] *)
Definition renamed (t : string) (c : WebhookConfig) : WebhookConfig :=
  {| TenantID := t; WURL := WURL c; Secret := Secret c; WActive := WActive c;
     Headers := Headers c |}.

Definition handleUpdate (t : string) (decoded : option WebhookConfig)
    (r : gmap string WebhookConfig) : gmap string WebhookConfig * reply :=
  match Get t r with
  | None => (r, ReplyError 404 "not found")
  | Some _ =>
      match decoded with
      | None => (r, ReplyError 400 "invalid JSON")
      | Some c =>
          let c := renamed t c in
          (Update c r, ReplyConfig 200 c)
      end
  end.

Definition handleDelete (t : string) (r : gmap string WebhookConfig) :
    gmap string WebhookConfig * reply :=
  (Remove t r, ReplyEmpty 204).

(** [MountCRUDRoutes]: the requests the routes accept. *)
Inductive api_request :=
  | GET_config
  | POST_config (decoded : option WebhookConfig)
  | GET_tenant (t : string)
  | PUT_tenant (t : string) (decoded : option WebhookConfig)
  | DELETE_tenant (t : string).

Definition MountCRUDRoutes `{MapRange} (n : nat) (r : gmap string WebhookConfig)
    (q : api_request) : gmap string WebhookConfig * reply :=
  match q with
  | GET_config => (r, handleList n r)
  | POST_config d => handleCreate d r
  | GET_tenant t => (r, handleGet t r)
  | PUT_tenant t d => handleUpdate t d r
  | DELETE_tenant t => handleDelete t r
  end.

(** * Requests *)

(** Standard base64 ([encoding/base64]) and the JSON encoding of a byte slice,
    which is its base64 text in quotes. *)
Definition b64_char (n : Z) : ascii :=
  let code :=
    if n <? 26 then 65 + n else if n <? 52 then 71 + n else if n <? 62 then n - 4
    else if n =? 62 then 43 else 47 in
  ascii_of_nat (Z.to_nat code).

Definition byte_at (c : ascii) : Z := Z.of_nat (nat_of_ascii c).

Fixpoint base64 (s : string) : string :=
  match s with
  | EmptyString => ""
  | String a EmptyString =>
      let v := Z.shiftl (byte_at a) 16 in
      String (b64_char (Z.shiftr v 18)) (String (b64_char (Z.land (Z.shiftr v 12) 63)) "==")
  | String a (String b EmptyString) =>
      let v := Z.lor (Z.shiftl (byte_at a) 16) (Z.shiftl (byte_at b) 8) in
      String (b64_char (Z.shiftr v 18)) (String (b64_char (Z.land (Z.shiftr v 12) 63))
        (String (b64_char (Z.land (Z.shiftr v 6) 63)) "="))
  | String a (String b (String c rest)) =>
      let v := Z.lor (Z.lor (Z.shiftl (byte_at a) 16) (Z.shiftl (byte_at b) 8)) (byte_at c) in
      String (b64_char (Z.shiftr v 18)) (String (b64_char (Z.land (Z.shiftr v 12) 63))
        (String (b64_char (Z.land (Z.shiftr v 6) 63)) (String (b64_char (Z.land v 63))
          (base64 rest))))
  end.

Definition marshal_bytes (b : string) : string := quoted (base64 b).

Example base64_example : base64 "{a}" = "e2F9"%string.
Proof. vm_compute. reflexivity. Qed.
Example base64_padded : base64 "light w" = "bGlnaHQgdw=="%string.
Proof. vm_compute. reflexivity. Qed.

Record HTTPRequest := { ReqURL : string; ReqHeader : gmap string string; ReqBody : string }.

(** The outcome of a round trip: the request cannot be built, the transport
    fails, or a status code is received. *)
Inductive http_outcome :=
  | RequestError (msg : string)
  | TransportError (msg : string)
  | StatusCode (code : Z).

Definition success_code (code : Z) : bool := (200 <=? code) && (code <? 300).

Section http.

(** [hex(hmac-sha256)] of a body under a secret, and the canonical form of a
    header name. *)
Variable hmac : string → string → string.
Variable canonical : string → string.

Definition signPayload (body secret : string) : string := hmac body secret.
Definition formatSignature (sig : string) : string := "sha256=" +:+ sig.

(** The request both the dispatcher and the retry queue build. *)
Definition build_request `{MapRange} (n : nat) (url body secret : string)
    (headers : gmap string string) : HTTPRequest :=
  let h := <["Content-Type" := "application/json"]> (∅ : gmap string string) in
  let h := foldl (λ h '(k, v), <[canonical k := v]> h) h (range n headers) in
  let h := if streq secret "" then h
           else <["X-Aicp-Signature" := formatSignature (signPayload body secret)]> h in
  {| ReqURL := url; ReqHeader := h; ReqBody := body |}.

Definition dispatch_request `{MapRange} (n : nat) (job : DispatchJob) : HTTPRequest :=
  build_request n (WURL (JobConfig job)) (marshal_bytes (JobBody job)) (Secret (JobConfig job))
    (Headers (JobConfig job)).

Definition retry_request `{MapRange} (n : nat) (task : RetryTask) : HTTPRequest :=
  build_request n (TargetURL task) (TaskBody task) (TaskSecret task) (TaskHeaders task).

End http.

(** * Dispatching *)

Definition job_telemetry (job : DispatchJob) (code : Z) (st : DeliveryStatus) : Telemetry :=
  {| TargetTenantID := JobTenant job; TelURL := WURL (JobConfig job); HTTPStatusCode := code;
     TelStatus := st; RetryAttempt := 0;
     SignaturePresent := negb (streq (Secret (JobConfig job)) "") |}.

Definition retry_task (job : DispatchJob) (code : Z) (msg : string) : RetryTask :=
  {| TaskTenant := JobTenant job; TargetURL := WURL (JobConfig job);
     TaskSecret := Secret (JobConfig job); TaskHeaders := Headers (JobConfig job);
     TaskBody := JobBody job; Attempt := 1; LastError := msg; LastStatus := code |}.

(** [dispatch]: the retry channel and the telemetry afterwards. *)
Definition dispatch (job : DispatchJob) (result : http_outcome)
    (retryCh : chan RetryTask) (diag : list Telemetry) : chan RetryTask * list Telemetry :=
  let enqueueRetry code msg :=
    ((try_send (retry_task job code msg) retryCh).1,
     diag ++ [job_telemetry job code DeliveryStatusRetrying]) in
  match result with
  | RequestError _ => (retryCh, diag)
  | TransportError msg => enqueueRetry 0 msg
  | StatusCode code =>
      if success_code code
      then (retryCh, diag ++ [job_telemetry job code DeliveryStatusDelivered])
      else enqueueRetry code ("HTTP " +:+ fmt_d code)
  end.

(** [Enqueue]: a full queue drops the job. *)
Definition Enqueue (job : DispatchJob) (jobCh : chan DispatchJob) : chan DispatchJob :=
  (try_send job jobCh).1.

(** The job [processAlert] makes for an endpoint. *)
Definition alert_job (alert : string) (c : WebhookConfig) : DispatchJob :=
  {| JobTenant := TenantID c; JobConfig := c; JobBody := alert; AlertID := ""; JobSeverity := "" |}.

(** [processAlert] without the broadcast: a job for every active endpoint. *)
Definition enqueue_jobs `{MapRange} (n : nat) (r : gmap string WebhookConfig) (alert : string)
    (jobCh : chan DispatchJob) : chan DispatchJob :=
  foldl (λ ch c, Enqueue (alert_job alert c) ch) jobCh (ListActive n r).

(** * Retrying *)

(** The capped delay in milliseconds before jitter, at least one. *)
Definition backoff_cap (c : Config) (attempt : Z) : float64 :=
  let b := f_of_Z (duration_millis (RetryBaseDelay c)) in
  let m := f_of_Z (duration_millis (RetryMaxDelay c)) in
  let e := fmul b (f_pow2 (attempt - 1)) in
  let x := f_min e m in
  if fle x f_zero then f_one else x.

(** [backoff], in nanoseconds; [rnd] is the reading of [rand.Float64]. *)
Definition backoff (c : Config) (attempt : Z) (rnd : float64) : Z :=
  let x := backoff_cap c attempt in
  let j := fmul rnd x in
  i64 (f_trunc (fadd x j) * Millisecond).

Definition task_telemetry (t : RetryTask) (code : Z) (st : DeliveryStatus) (attempt : Z) : Telemetry :=
  {| TargetTenantID := TaskTenant t; TelURL := TargetURL t; HTTPStatusCode := code;
     TelStatus := st; RetryAttempt := attempt;
     SignaturePresent := negb (streq (TaskSecret t) "") |}.

Definition bump (t : RetryTask) (code : Z) (msg : string) : RetryTask :=
  {| TaskTenant := TaskTenant t; TargetURL := TargetURL t; TaskSecret := TaskSecret t;
     TaskHeaders := TaskHeaders t; TaskBody := TaskBody t; Attempt := i64 (Attempt t + 1);
     LastError := msg; LastStatus := code |}.

(** [handleFailure]: the telemetry, and the task to put back unless it is
    given up. *)
Definition handleFailure (c : Config) (t : RetryTask) (code : Z) (msg : string) :
    Telemetry * option RetryTask :=
  let t := bump t code msg in
  if RetryMaxAttempts c <? Attempt t
  then (task_telemetry t code DeliveryStatusDead (Attempt t - 1), None)
  else (task_telemetry t code DeliveryStatusRetrying (Attempt t), Some t).

(** [retry] *)
Definition retry (c : Config) (t : RetryTask) (result : http_outcome) :
    Telemetry * option RetryTask :=
  match result with
  | RequestError msg | TransportError msg => handleFailure c t 0 msg
  | StatusCode code =>
      if success_code code
      then (task_telemetry t code DeliveryStatusDelivered (Attempt t), None)
      else handleFailure c t code ("HTTP " +:+ fmt_d code)
  end.

(** The life of a task: its attempts, one after the other, against the results
    its endpoint gives, until it is delivered or given up. *)
Fixpoint attempts (c : Config) (t : RetryTask) (results : list http_outcome) :
    list Telemetry * option RetryTask :=
  match results with
  | [] => ([], Some t)
  | result :: rest =>
      let '(tel, again) := retry c t result in
      match again with
      | None => ([tel], None)
      | Some t => let '(tels, last) := attempts c t rest in (tel :: tels, last)
      end
  end.

(** ** The retry loop as a process

    The loop is idle, waiting before the retry of a task, or blocked sending a
    failed task back to the channel it alone consumes. *)
Inductive loop_state := Idle | Waiting (t : RetryTask) | Resending (t : RetryTask).

Record retry_state := {
  tasks : chan RetryTask;
  loop : loop_state;
  diag : list Telemetry
}.

(** One step: the loop takes a task, retries it, or gets its send through; or a
    worker dispatches a job, which may offer a task without blocking. *)
Inductive retry_step (c : Config) : retry_state → retry_state → Prop :=
  | step_take t rest cap d :
      retry_step c {| tasks := Chan cap (t :: rest); loop := Idle; diag := d |}
                   {| tasks := Chan cap rest; loop := Waiting t; diag := d |}
  | step_retry ch t d result :
      retry_step c {| tasks := ch; loop := Waiting t; diag := d |}
        (let '(tel, again) := retry c t result in
         {| tasks := ch;
            loop := match again with Some t => Resending t | None => Idle end;
            diag := d ++ [tel] |})
  | step_resend ch t d :
      llen (chan_buf ch) < chan_cap ch →
      retry_step c {| tasks := ch; loop := Resending t; diag := d |}
                   {| tasks := (try_send t ch).1; loop := Idle; diag := d |}
  | step_dispatch s job result :
      retry_step c s
        (let '(ch, d) := dispatch job result (tasks s) (diag s) in
         {| tasks := ch; loop := loop s; diag := d |}).

Definition NewRetryQueue (c : Config) : retry_state :=
  {| tasks := make_chan (JobQueueSize c); loop := Idle; diag := [] |}.

(** * The event stream *)

Record sseClient := { sseCh : chan string; sseTenant : string; clientIP : string; sseEvents : Z }.

Definition sse_frame (eventType data : string) : string :=
  let nl := String (ascii_of_nat 10) "" in
  "event: " +:+ eventType +:+ nl +:+ "data: " +:+ data +:+ nl +:+ nl.

(** Sending to one client, counting what its buffer accepts. *)
Definition sse_send (msg : string) (cl : sseClient) : sseClient :=
  let '(ch, ok) := try_send msg (sseCh cl) in
  {| sseCh := ch; sseTenant := sseTenant cl; clientIP := clientIP cl;
     sseEvents := if ok then sseEvents cl + 1 else sseEvents cl |}.

(** [Broadcast] visits every connected client; the visits are independent. *)
Definition Broadcast (eventType data : string) (clients : gmap Z sseClient) : gmap Z sseClient :=
  sse_send (sse_frame eventType data) <$> clients.

Definition heartbeat : string :=
  let nl := String (ascii_of_nat 10) "" in ": heartbeat" +:+ nl +:+ nl.

Definition keepAlive (clients : gmap Z sseClient) : gmap Z sseClient :=
  (λ cl, {| sseCh := (try_send heartbeat (sseCh cl)).1; sseTenant := sseTenant cl;
            clientIP := clientIP cl; sseEvents := sseEvents cl |}) <$> clients.

Definition connect (id : Z) (tenant ip : string) (clients : gmap Z sseClient) : gmap Z sseClient :=
  <[id := {| sseCh := make_chan 64; sseTenant := tenant; clientIP := ip; sseEvents := 0 |}]> clients.

Definition cleanupClient (id : Z) (clients : gmap Z sseClient) : gmap Z sseClient :=
  delete id clients.

(** One turn of the loop of [ServeHTTP] for a connected client: the oldest
    message of its buffer is written; a failed write disconnects it. *)
Definition serve_client (id : Z) (write_ok : bool) (clients : gmap Z sseClient) :
    option string * gmap Z sseClient :=
  match clients !! id with
  | None => (None, clients)
  | Some cl =>
      let '(msg, ch) := try_recv (sseCh cl) in
      match msg with
      | None => (None, clients)
      | Some _ =>
          (msg,
           if write_ok
           then <[id := {| sseCh := ch; sseTenant := sseTenant cl; clientIP := clientIP cl;
                           sseEvents := sseEvents cl |}]> clients
           else cleanupClient id clients)
      end
  end.

Definition ActiveClients (clients : gmap Z sseClient) : Z := Z.of_nat (size clients).

Definition extractClientIP (forwardedFor realIP remoteAddr : string) : string :=
  if negb (streq forwardedFor "") then forwardedFor
  else if negb (streq realIP "") then realIP else remoteAddr.

(** [processAlert] *)
Definition processAlert `{MapRange} (n : nat) (r : gmap string WebhookConfig) (alert : string)
    (jobCh : chan DispatchJob) (clients : gmap Z sseClient) :
    chan DispatchJob * gmap Z sseClient :=
  (enqueue_jobs n r alert jobCh, Broadcast "alert" alert clients).


(** * Lemmas on the registry and the fan-out *)

(** Every entry is filed under its own tenant, whose name is not empty. *)
Definition registry_wf (r : gmap string WebhookConfig) : Prop :=
  ∀ t c, r !! t = Some c → TenantID c = t ∧ t ≠ ""%string.

Lemma Add_wf c r : TenantID c ≠ ""%string → registry_wf r → registry_wf (Add c r).
Proof.
  unfold Add. intros Hc Hr t d [[<- <-]|[_ Hd]]%lookup_insert_Some; [done|by apply Hr].
Qed.

Lemma Remove_wf t r : registry_wf r → registry_wf (Remove t r).
Proof. unfold Remove. intros Hr u d [_ Hd]%lookup_delete_Some. by apply Hr. Qed.

#[export] Hint Resolve Add_wf Remove_wf : kc_inv.

Section registry.
Context `{MapRange}.
Implicit Types (r : gmap string WebhookConfig) (c : WebhookConfig).

Lemma MountCRUDRoutes_wf n r q : registry_wf r → registry_wf (MountCRUDRoutes n r q).1.
Proof.
  intros Hr. destruct q as [|d|t|t d|t]; simpl; [done| |done| |kc].
  - unfold handleCreate. destruct d as [c|]; [|done]. cases; [done|].
    apply Add_wf; [by apply streq_false|done].
  - unfold handleUpdate, Get, Update. destruct (r !! t) as [c0|] eqn:E; [|done].
    destruct d as [c|]; [|done]. simpl. apply Hr in E as [_ Ht].
    intros u e [[<- <-]|[_ He]]%lookup_insert_Some; [done|by apply Hr].
Qed.

Lemma elem_of_List n r c : c ∈ List n r ↔ ∃ t d, r !! t = Some d ∧ c = redact d.
Proof.
  unfold List. rewrite list_elem_of_fmap. split.
  - intros ([t d] & -> & Hd). apply elem_of_range in Hd. by exists t, d.
  - intros (t & d & Hd & ->). exists (t, d). by rewrite elem_of_range.
Qed.

Lemma length_List n r : length (List n r) = size r.
Proof. unfold List. by rewrite length_fmap, length_range. Qed.

Lemma List_entries n r c :
  registry_wf r →
  c ∈ List n r ↔ Secret c = ""%string ∧
    ∃ d, r !! TenantID c = Some d ∧ WURL d = WURL c ∧ WActive d = WActive c ∧
      Headers d = Headers c.
Proof.
  intros Hr. rewrite elem_of_List. split.
  - intros (t & d & Hd & ->). split; [done|]. exists d. simpl.
    destruct (Hr _ _ Hd) as [-> _]. done.
  - intros (Hs & d & Hd & Hu & Ha & Hh). exists (TenantID c), d. split; [done|].
    destruct (Hr _ _ Hd) as [Ht _]. destruct c, d; simpl in *. by subst.
Qed.

(** A refused creation or update changes nothing. *)
Lemma handleCreate_cases d r r' p :
  handleCreate d r = (r', p) →
  (r' = r ∧ 400 <= reply_status p) ∨
  ∃ c, d = Some c ∧ TenantID c ≠ ""%string ∧ WURL c ≠ ""%string ∧
    r' = <[TenantID c := c]> r ∧ p = ReplyConfig 201 c.
Proof.
  unfold handleCreate. intros Hq. destruct d as [c|]; [|by simplify_eq; left].
  destruct (_ || _) eqn:E; simplify_eq; [by left|]. apply orb_false_iff in E as [E1 E2].
  right. exists c. by rewrite <- !streq_false.
Qed.

Lemma handleUpdate_cases t d r r' p :
  handleUpdate t d r = (r', p) →
  (r' = r ∧ 400 <= reply_status p) ∨
  ∃ c, is_Some (r !! t) ∧ d = Some c ∧ r' = <[t := renamed t c]> r ∧
    p = ReplyConfig 200 (renamed t c).
Proof.
  unfold handleUpdate, Get. intros Hq. destruct (r !! t); [|by simplify_eq; left].
  destruct d as [c|]; simplify_eq; [|by left]. right. by exists c.
Qed.

Lemma elem_of_ListActive n r c : c ∈ ListActive n r ↔ ∃ t, r !! t = Some c ∧ WActive c = true.
Proof.
  unfold ListActive. rewrite list_elem_of_omap. split.
  - intros ([t d] & Hd & Hc). apply elem_of_range in Hd. cases_in Hc. by exists t.
  - intros (t & Hc & Ha). exists (t, c). rewrite elem_of_range. by rewrite Ha.
Qed.

Lemma NoDup_ListActive n r : registry_wf r → NoDup (TenantID <$> ListActive n r).
Proof.
  intros Hr. unfold ListActive.
  assert (Hl : ∀ t c, (t, c) ∈ range n r → TenantID c = t)
    by (intros t c Hc; apply elem_of_range in Hc; by apply Hr in Hc as [? _]).
  pose proof (NoDup_fst_range n r) as Hn. revert Hl Hn.
  induction (range n r) as [|[t c] l IH]; intros Hl Hn; simpl; [constructor|].
  simpl in Hn. apply NoDup_cons in Hn as [Ht Hn].
  assert (IH' := IH (λ u d Hd, Hl u d (list_elem_of_further _ _ _ Hd)) Hn).
  destruct (WActive c) eqn:Ea; simpl; [|done]. constructor; [|done].
  intros (d & Heq & Hd)%list_elem_of_fmap.
  apply list_elem_of_omap in Hd as ([u e] & Hu & He). destruct (WActive e); simplify_eq.
  apply Ht. rewrite <- (Hl t c) by left. rewrite Heq.
  rewrite (Hl u d) by (by right). apply list_elem_of_fmap. by exists (u, d).
Qed.

End registry.

(** ** Sending several values *)

Lemma try_send_all {A B} (f : A → B) (l : list A) (ch : chan B) :
  llen (chan_buf ch) + llen l <= chan_cap ch →
  foldl (λ ch x, (try_send (f x) ch).1) ch l = Chan (chan_cap ch) (chan_buf ch ++ (f <$> l)).
Proof.
  revert ch. induction l as [|x l IH]; intros [cap buf] Hl; simpl.
  - by rewrite app_nil_r.
  - simpl in Hl. rewrite llen_cons in Hl. pose proof (llen_nonneg l).
    rewrite try_send_accept by (simpl; lia). rewrite IH; simpl.
    + by rewrite <- app_assoc.
    + rewrite llen_app, llen_cons. unfold llen at 2. simpl. lia.
Qed.

Lemma try_sends_prefix {A B} (f : A → B) (l : list A) (ch : chan B) :
  ∃ k, k `sublist_of` l ∧
    chan_buf (foldl (λ ch x, (try_send (f x) ch).1) ch l) = chan_buf ch ++ (f <$> k).
Proof.
  revert ch. induction l as [|x l IH]; intros ch; simpl.
  - exists []. by rewrite app_nil_r.
  - destruct (IH (try_send (f x) ch).1) as (k & Hk & ->).
    destruct (try_send_prefix (f x) ch) as (m & -> & [-> | ->]).
    + exists k. rewrite app_nil_r. by split; [apply sublist_cons|].
    + exists (x :: k). rewrite <- app_assoc. by split; [apply sublist_skip|].
Qed.

#[global] Instance alert_job_inj alert : Inj (=) (=) (alert_job alert).
Proof. by intros c d [= _ ?]. Qed.

(** * Lemmas on the life of a task *)

Definition failing (result : http_outcome) : bool :=
  match result with StatusCode code => negb (success_code code) | _ => true end.

Lemma retry_success c t code :
  success_code code = true →
  retry c t (StatusCode code) = (task_telemetry t code DeliveryStatusDelivered (Attempt t), None).
Proof. intros Hc. unfold retry. by rewrite Hc. Qed.

(** What is left of a task's figures once bodies and error texts are dropped. *)
Definition outcome_of (tel : Telemetry) : DeliveryStatus * Z := (TelStatus tel, RetryAttempt tel).

Definition with_attempt (t : RetryTask) (a : Z) (code : Z) (msg : string) : RetryTask :=
  {| TaskTenant := TaskTenant t; TargetURL := TargetURL t; TaskSecret := TaskSecret t;
     TaskHeaders := TaskHeaders t; TaskBody := TaskBody t; Attempt := a;
     LastError := msg; LastStatus := code |}.

Lemma retry_fails c t result :
  failing result = true → in_i64 (Attempt t + 1) →
  ∃ code msg,
    retry c t result =
      if RetryMaxAttempts c <? Attempt t + 1
      then (task_telemetry t code DeliveryStatusDead (Attempt t), None)
      else (task_telemetry t code DeliveryStatusRetrying (Attempt t + 1),
            Some (with_attempt t (Attempt t + 1) code msg)).
Proof.
  intros Hf Hi.
  assert (Hh : ∀ code msg, handleFailure c t code msg =
    if RetryMaxAttempts c <? Attempt t + 1
    then (task_telemetry t code DeliveryStatusDead (Attempt t), None)
    else (task_telemetry t code DeliveryStatusRetrying (Attempt t + 1),
          Some (with_attempt t (Attempt t + 1) code msg))).
  { intros code msg. unfold handleFailure, bump. simpl. rewrite i64_id by done.
    destruct (_ <? _); [|done]. unfold task_telemetry. simpl.
    by replace (Attempt t + 1 - 1) with (Attempt t) by lia. }
  destruct result as [msg|msg|code]; simpl in Hf |- *.
  - exists 0, msg. apply Hh.
  - exists 0, msg. apply Hh.
  - exists code, ("HTTP " +:+ fmt_d code)%string. apply negb_true_iff in Hf. by rewrite Hf.
Qed.

(** A failing prefix of the results that does not exhaust the attempts. *)
Lemma attempts_failing c t fs rest :
  Forall (λ r, failing r = true) fs → 0 <= Attempt t →
  RetryMaxAttempts c < 2 ^ 63 - 1 → Attempt t + llen fs <= RetryMaxAttempts c →
  ∃ tels t', Attempt t' = Attempt t + llen fs ∧
    attempts c t (fs ++ rest) =
      (let '(tels', last) := attempts c t' rest in (tels ++ tels', last)) ∧
    outcome_of <$> tels =
      (λ a, (DeliveryStatusRetrying, a)) <$> seqZ (Attempt t + 1) (llen fs).
Proof.
  intros Hf. revert t. induction Hf as [|f fs Hf Hfs IH]; intros t Ha Hm Hl.
  - exists [], t. unfold llen. simpl. split_and!; [lia| |done]. by destruct (attempts c t rest).
  - rewrite llen_cons in *. pose proof (llen_nonneg fs).
    destruct (retry_fails c t f Hf) as (code & msg & Hr); [unfold in_i64; lia|].
    rewrite (proj2 (Z.ltb_ge _ _)) in Hr by lia.
    destruct (IH (with_attempt t (Attempt t + 1) code msg)) as (tels & t' & Ht' & Hs & Ht);
      simpl; [lia..|].
    exists (task_telemetry t code DeliveryStatusRetrying (Attempt t + 1) :: tels), t'.
    simpl in Ht', Ht. rewrite Hr, Hs. split_and!; [lia|by destruct (attempts c t' rest)|].
    rewrite (seqZ_cons (Attempt t + 1)) by lia. rewrite !fmap_cons, Ht.
    replace (Z.pred (1 + llen fs)) with (llen fs) by lia. done.
Qed.

(** * Lemmas on the retry loop *)

(** No task is ever tried more often than allowed; a task is only given up
    after its last attempt. *)
Definition last_attempt (c : Config) : Z := Z.max 1 (RetryMaxAttempts c).

Definition task_ok (c : Config) (t : RetryTask) : Prop := 1 <= Attempt t <= last_attempt c.

Definition telemetry_ok (c : Config) (tel : Telemetry) : Prop :=
  match TelStatus tel with
  | DeliveryStatusDead => RetryAttempt tel = last_attempt c
  | DeliveryStatusDelivered | DeliveryStatusRetrying => 0 <= RetryAttempt tel <= last_attempt c
  | DeliveryStatusFailed => False
  end.

Definition loop_tasks (l : loop_state) : list RetryTask :=
  match l with Idle => [] | Waiting t | Resending t => [t] end.

Definition retry_inv (c : Config) (s : retry_state) : Prop :=
  chan_ok (tasks s) ∧ Forall (task_ok c) (chan_buf (tasks s)) ∧
  Forall (task_ok c) (loop_tasks (loop s)) ∧ Forall (telemetry_ok c) (diag s).

Lemma retry_ok c t result :
  RetryMaxAttempts c < 2 ^ 63 - 1 → task_ok c t →
  telemetry_ok c (retry c t result).1 ∧
  match (retry c t result).2 with Some t' => task_ok c t' | None => True end.
Proof.
  intros Hm Ht. unfold task_ok, last_attempt in Ht.
  destruct (failing result) eqn:Hf.
  - destruct (retry_fails c t result Hf) as (code & msg & ->); [unfold in_i64; lia|].
    destruct (_ <? _) eqn:E; bool_prop;
      unfold telemetry_ok, task_ok, last_attempt; simpl; split; try done; lia.
  - destruct result as [| |code]; try done. simpl in Hf. bool_prop.
    rewrite retry_success by done. split; [|done]. unfold telemetry_ok, last_attempt. simpl. lia.
Qed.

Lemma dispatch_inv c job result ch d :
  chan_ok ch → Forall (task_ok c) (chan_buf ch) → Forall (telemetry_ok c) d →
  chan_ok (dispatch job result ch d).1 ∧
  Forall (task_ok c) (chan_buf (dispatch job result ch d).1) ∧
  Forall (telemetry_ok c) (dispatch job result ch d).2.
Proof.
  intros Hch Ht Hd.
  assert (Htask : ∀ code msg, task_ok c (retry_task job code msg))
    by (intros; unfold task_ok, last_attempt; simpl; lia).
  assert (Htel : ∀ code st, st = DeliveryStatusDelivered ∨ st = DeliveryStatusRetrying →
            Forall (telemetry_ok c) (d ++ [job_telemetry job code st])).
  { intros code st Hst. apply Forall_app_2; [done|]. constructor; [|done].
    unfold telemetry_ok, last_attempt. destruct Hst as [-> | ->]; simpl; lia. }
  destruct result as [msg|msg|code]; simpl; [done|split_and!; auto with kc_inv|].
  destruct (success_code code); simpl; split_and!; auto with kc_inv.
Qed.

Lemma retry_step_inv c s s' :
  RetryMaxAttempts c < 2 ^ 63 - 1 → retry_step c s s' → retry_inv c s → retry_inv c s'.
Proof.
  intros Hm Hstep (Hch & Hb & Hl & Hd). unfold retry_inv.
  destruct Hstep as [t rest cap d|ch t d result|ch t d Hroom|s job result]; simpl in *.
  - apply Forall_cons in Hb as [Ht Hb]. split_and!; auto.
    unfold chan_ok in *. simpl in *. rewrite llen_cons in Hch. lia.
  - apply Forall_cons in Hl as [Hl _]. pose proof (retry_ok c t result Hm Hl) as [Htel Hagain].
    destruct (retry c t result) as [tel [t'|]]; simpl in *;
      split_and!; auto; apply Forall_app_2; auto.
  - apply Forall_cons in Hl as [Hl _]. split_and!; auto with kc_inv.
  - pose proof (dispatch_inv c job result _ _ Hch Hb Hd) as (? & ? & ?).
    by destruct (dispatch job result (tasks s) (diag s)).
Qed.

Lemma retry_reachable_inv c s :
  0 <= JobQueueSize c → RetryMaxAttempts c < 2 ^ 63 - 1 →
  rtc (retry_step c) (NewRetryQueue c) s → retry_inv c s.
Proof.
  intros Hj Hm Hs.
  assert (Hall : ∀ s0, rtc (retry_step c) s0 s → retry_inv c s0 → retry_inv c s).
  { intros s0 Hr. induction Hr; eauto using retry_step_inv. }
  apply (Hall _ Hs). unfold retry_inv, chan_ok. simpl. unfold llen. simpl. auto.
Qed.

(** ** Filling the channel *)

Definition stuck (c : Config) (t : RetryTask) (s : retry_state) : Prop :=
  loop s = Resending t ∧ chan_cap (tasks s) <= llen (chan_buf (tasks s)).

(** While the loop is blocked on a full channel only dispatches happen, and
    they change neither. *)
Lemma stuck_step c t s s' :
  stuck c t s → retry_step c s s' → stuck c t s' ∧ tasks s' = tasks s.
Proof.
  intros [Hl Hfull] Hstep. unfold stuck.
  destruct Hstep as [t0 rest cap d|ch t0 d result|ch t0 d Hroom|s job result]; simpl in *;
    [done|done|lia|].
  assert (Hs : (dispatch job result (tasks s) (diag s)).1 = tasks s).
  { destruct result as [msg|msg|code]; simpl; [done|by rewrite try_send_full|].
    destruct (success_code code); simpl; [done|by rewrite try_send_full]. }
  destruct (dispatch _ _ _ _) as [ch d] eqn:E. simpl in Hs. by subst.
Qed.

Lemma stuck_forever c t s s' :
  stuck c t s → rtc (retry_step c) s s' → stuck c t s' ∧ tasks s' = tasks s.
Proof.
  intros Hs Hr. revert Hs. induction Hr as [|x y z Hxy Hyz IH]; intros Hs; [done|].
  destruct (stuck_step _ _ _ _ Hs Hxy) as [Hy Hty].
  destruct (IH Hy) as [Hz Htz]. by rewrite Htz.
Qed.

(** Failed dispatches fill the channel, whatever the loop does. *)
Lemma fill_channel c l ch d job msg (n : nat) :
  llen (chan_buf ch) + Z.of_nat n <= chan_cap ch →
  ∃ d', rtc (retry_step c) {| tasks := ch; loop := l; diag := d |}
    {| tasks := Chan (chan_cap ch) (chan_buf ch ++ replicate n (retry_task job 0 msg));
       loop := l; diag := d' |}.
Proof.
  revert ch d. induction n as [|n IH]; intros ch d Hn.
  - exists d. rewrite app_nil_r. destruct ch. constructor.
  - pose proof (step_dispatch c {| tasks := ch; loop := l; diag := d |} job (TransportError msg))
      as Hstep. simpl in Hstep. rewrite try_send_accept in Hstep by lia. simpl in Hstep.
    match type of Hstep with retry_step _ _ {| tasks := ?ch1; loop := _; diag := ?d1 |} =>
      destruct (IH ch1 d1) as (d' & Hr) end.
    { simpl. rewrite llen_app, llen_cons. unfold llen at 2. simpl. lia. }
    exists d'. simpl in *. rewrite <- app_assoc in Hr. by eapply rtc_l.
Qed.

(** * Theorems *)

(** An alert is fanned out to exactly the active endpoints: when the job
    queue has room, one job per active tenant is appended, in some order, each
    with the alert as its body and the endpoint's configuration, secret
    included; when it has not, a part of these.  Every connected
    event-stream client whose buffer has room receives the framed alert and is
    counted; the others are left as they were. *)
Theorem processAlert_spec `{MapRange} n r alert jobCh clients :
  registry_wf r →
  let '(ch, cls) := processAlert n r alert jobCh clients in
  (∃ cs, NoDup (TenantID <$> cs) ∧
     (∀ c, c ∈ cs → r !! TenantID c = Some c ∧ WActive c = true) ∧
     chan_buf ch = chan_buf jobCh ++ (alert_job alert <$> cs) ∧
     (llen (chan_buf jobCh) + llen (ListActive n r) <= chan_cap jobCh →
      ∀ t c, r !! t = Some c → WActive c = true → c ∈ cs)) ∧
  (∀ id cl, clients !! id = Some cl →
     if llen (chan_buf (sseCh cl)) <? chan_cap (sseCh cl)
     then ∃ cl', cls !! id = Some cl' ∧ sseEvents cl' = sseEvents cl + 1 ∧
          chan_buf (sseCh cl') = chan_buf (sseCh cl) ++ [sse_frame "alert" alert]
     else cls !! id = Some cl) ∧
  dom cls = dom clients.
Proof.
  intros Hr. unfold processAlert. split_and!.
  - unfold enqueue_jobs.
    destruct (try_sends_prefix (alert_job alert) (ListActive n r) jobCh) as (cs & Hcs & Hbuf).
    assert (Hsub : ∀ c, c ∈ cs → c ∈ ListActive n r)
      by (intros c Hc; eapply sublist_subseteq; eauto).
    exists cs. split_and!.
    + eapply sublist_NoDup; [by apply (NoDup_ListActive n r)|]. by apply fmap_sublist.
    + intros c Hc. apply Hsub, elem_of_ListActive in Hc as (t & Hc & Ha).
      destruct (Hr _ _ Hc) as [-> _]. done.
    + exact Hbuf.
    + intros Hroom t c Hc Ha. rewrite (try_send_all (alert_job alert)) in Hbuf by done.
      simpl in Hbuf. apply app_inv_head in Hbuf.
      apply (inj (fmap (alert_job alert))) in Hbuf as <-.
      apply elem_of_ListActive. by exists t.
  - intros id cl Hcl. unfold Broadcast. rewrite lookup_fmap, Hcl. simpl. unfold sse_send, try_send.
    cases; [|by destruct cl].
    eexists. split_and!; [done|done|done].
  - unfold Broadcast. apply dom_fmap_L.
Qed.

Definition witness_hook (t : string) (active : bool) : WebhookConfig :=
  {| TenantID := t; WURL := "http://" +:+ t; Secret := "k"; WActive := active; Headers := ∅ |}.

Definition witness_hooks : gmap string WebhookConfig :=
  Add (witness_hook "a" true) (Add (witness_hook "b" false) NewWebhookRegistry).

Lemma processAlert_spec_witness :
  registry_wf witness_hooks ∧
  ∃ ch cls, processAlert 0 witness_hooks "{}" (make_chan 4) (connect 1 "a" "ip" ∅) = (ch, cls) ∧
    length (chan_buf ch) = 1%nat ∧
    ∃ cs, chan_buf ch = [] ++ (alert_job "{}" <$> cs) ∧ witness_hook "a" true ∈ cs.
Proof.
  assert (Hw : registry_wf witness_hooks).
  { apply Add_wf; [done|]. apply Add_wf; [done|]. by intros t c Hc. }
  split; [done|].
  pose proof (processAlert_spec 0 witness_hooks "{}" (make_chan 4) (connect 1 "a" "ip" ∅) Hw) as Hp.
  destruct (processAlert _ _ _ _ _) as [ch cls] eqn:E. exists ch, cls. split; [done|].
  split; [injection E as <- _; vm_compute; reflexivity|].
  destruct Hp as [(cs & _ & _ & Hb & Hall) _]. exists cs. split; [exact Hb|].
  apply (Hall ltac:(vm_compute; done) "a"%string); reflexivity.
Defined.

(** The management routes, over any sequence of requests on a new
    registry.  Every stored endpoint is filed under its own, non-empty tenant;
    a request changes the entry of one tenant at most; only complete new
    endpoints are accepted (201), a tenant is updated only if it exists (200),
    whatever the request is refused with (400, 404, 422) changes nothing; and
    the listing returns every stored endpoint, none with its secret. *)
Theorem routes_spec `{MapRange} (qs : list (nat * api_request)) n q r r' p :
  r = foldl (λ r '(n, q), (MountCRUDRoutes n r q).1) NewWebhookRegistry qs →
  MountCRUDRoutes n r q = (r', p) →
  registry_wf r ∧ registry_wf r' ∧
  (400 <= reply_status p → r' = r) ∧
  match q with
  | GET_config => r' = r ∧ ∃ cs, p = ReplyList 200 cs ∧ length cs = size r ∧
      ∀ c, c ∈ cs ↔ Secret c = ""%string ∧
        ∃ d, r !! TenantID c = Some d ∧ WURL d = WURL c ∧ WActive d = WActive c ∧
          Headers d = Headers c
  | POST_config d =>
      reply_status p = 201 ↔
        ∃ c, d = Some c ∧ TenantID c ≠ ""%string ∧ WURL c ≠ ""%string ∧
          r' = <[TenantID c := c]> r ∧ p = ReplyConfig 201 c
  | GET_tenant t => r' = r ∧ (reply_status p = 200 ↔ is_Some (r !! t))
  | PUT_tenant t d =>
      reply_status p = 200 ↔
        is_Some (r !! t) ∧ ∃ c c', d = Some c ∧ r' = <[t := c']> r ∧ p = ReplyConfig 200 c' ∧
          TenantID c' = t ∧ WURL c' = WURL c ∧ Secret c' = Secret c ∧
          WActive c' = WActive c ∧ Headers c' = Headers c
  | DELETE_tenant t => r' = delete t r ∧ p = ReplyEmpty 204
  end.
Proof.
  intros Hr Hq.
  assert (Hwf : registry_wf r).
  { rewrite Hr. apply foldl_inv; [done|]. intros a [m x]. apply MountCRUDRoutes_wf. }
  assert (Hwf' : registry_wf r') by (by rewrite <- (f_equal fst Hq : _ = r'); apply MountCRUDRoutes_wf).
  clear Hr. split_and!; [done|done| |].
  - intros Hs. destruct q as [|d|t|t d|t]; simpl in Hq; simplify_eq/=; try done.
    + apply handleCreate_cases in Hq as [[-> _]|(c & _ & _ & _ & _ & ->)]; [done|]. simpl in Hs. lia.
    + apply handleUpdate_cases in Hq as [[-> _]|(c & _ & _ & _ & ->)]; [done|]. simpl in Hs. lia.
    + unfold handleDelete in Hq. simplify_eq. by destruct (Hs eq_refl).
  - destruct q as [|d|t|t d|t]; simpl in Hq; simplify_eq/=.
    + split; [done|]. eexists. split; [done|]. split; [apply length_List|].
      intros c. by apply List_entries.
    + split.
      * intros Hs. apply handleCreate_cases in Hq as [[-> Hp]|(c & ? & ? & ? & ? & ?)]; [lia|eauto 10].
      * intros (c & ? & ? & ? & ? & ->). done.
    + split; [done|]. unfold handleGet, Get. destruct (r' !! t); simpl; split; try done.
    + split.
      * intros Hs. apply handleUpdate_cases in Hq as [[-> Hp]|(c & ? & -> & ? & ?)]; [lia|].
        split; [done|]. by exists c, (renamed t c).
      * intros (_ & c & c' & _ & _ & -> & _). done.
    + unfold handleDelete in Hq. by simplify_eq.
Qed.

Lemma routes_spec_witness :
  registry_wf witness_hooks ∧
  ∃ c', (MountCRUDRoutes 0 witness_hooks (PUT_tenant "b" (Some (witness_hook "x" true)))).1 =
    <["b" := c']> witness_hooks ∧ TenantID c' = "b"%string.
Proof.
  destruct (routes_spec
    [(0%nat, POST_config (Some (witness_hook "b" false)));
     (0%nat, POST_config (Some (witness_hook "a" true)))] 0
    (PUT_tenant "b" (Some (witness_hook "x" true))) witness_hooks _ _ eq_refl
    eq_refl) as (Hw & _ & _ & [Hq _]).
  destruct (Hq eq_refl) as (_ & c & c' & _ & Hr & _ & Ht & _).
  split; [exact Hw|]. by exists c'.
Defined.

(** The life of a task whose dispatch has failed (so that its attempt is
    the first).  While its endpoint fails it is put back with the next attempt
    number; if the endpoint succeeds before the attempts are exhausted the task
    is delivered at that attempt, and otherwise the last attempt allowed ends
    it as a dead letter.  In both cases nothing is left to retry, and every
    attempt is reported exactly once. *)
Theorem attempts_spec c t fs rest :
  Attempt t = 1 → 1 <= RetryMaxAttempts c < 2 ^ 63 - 1 →
  Forall (λ r, failing r = true) fs →
  (∀ code, success_code code = true → llen fs < RetryMaxAttempts c →
     ∃ tels, attempts c t (fs ++ StatusCode code :: rest) = (tels, None) ∧
       outcome_of <$> tels =
         ((λ a, (DeliveryStatusRetrying, a)) <$> seqZ 2 (llen fs)) ++
         [(DeliveryStatusDelivered, 1 + llen fs)]) ∧
  (llen fs = RetryMaxAttempts c →
     ∃ tels, attempts c t (fs ++ rest) = (tels, None) ∧
       outcome_of <$> tels =
         ((λ a, (DeliveryStatusRetrying, a)) <$> seqZ 2 (RetryMaxAttempts c - 1)) ++
         [(DeliveryStatusDead, RetryMaxAttempts c)]).
Proof.
  intros Ht Hm Hf. split.
  - intros code Hc Hl.
    destruct (attempts_failing c t fs (StatusCode code :: rest)) as (tels & t' & Ht' & -> & Ho);
      [done|lia..|].
    cbn [attempts]. rewrite retry_success by done. eexists. split; [done|].
    rewrite fmap_app, Ho, Ht. simpl. unfold outcome_of. simpl. by rewrite Ht', Ht.
  - intros Hl. destruct fs as [|f fs _] using rev_ind; [unfold llen in Hl; simpl in Hl; lia|].
    apply Forall_app in Hf as [Hfs [Hf _]%Forall_cons].
    rewrite llen_app, llen_cons in Hl. unfold llen at 2 in Hl. simpl in Hl.
    destruct (attempts_failing c t fs (f :: rest)) as (tels & t' & Ht' & Hs & Ho); [done|lia..|].
    destruct (retry_fails c t' f Hf) as (code & msg & Hr); [unfold in_i64; lia|].
    rewrite (proj2 (Z.ltb_lt _ _)) in Hr by lia.
    rewrite <- app_assoc. change ([f] ++ rest) with (f :: rest). rewrite Hs.
    cbn [attempts]. rewrite Hr. eexists. split; [done|].
    rewrite fmap_app, Ho, Ht. replace (RetryMaxAttempts c - 1) with (llen fs) by lia.
    simpl. unfold outcome_of. simpl. repeat f_equal. lia.
Qed.

Lemma attempts_spec_witness :
  ∃ tels,
    attempts DefaultConfig
      (retry_task (alert_job "{}" (witness_hook "a" true)) 0 "refused")
      (replicate 5 (StatusCode 503) ++ []) = (tels, None) ∧
    outcome_of <$> tels =
      [(DeliveryStatusRetrying, 2); (DeliveryStatusRetrying, 3); (DeliveryStatusRetrying, 4);
       (DeliveryStatusRetrying, 5); (DeliveryStatusDead, 5)].
Proof.
  apply (attempts_spec DefaultConfig
    (retry_task (alert_job "{}" (witness_hook "a" true)) 0 "refused")
    (replicate 5 (StatusCode 503)) []); [done|simpl; lia|repeat constructor|done].
Defined.

(** In every state the dispatch workers and the retry loop can reach, the
    channel keeps its bound, no pending task has an attempt number outside
    1..[RetryMaxAttempts], a task is reported dead only after its last attempt,
    and no delivery is ever reported as FAILED. *)
Theorem retry_loop_inv c s :
  0 <= JobQueueSize c → 1 <= RetryMaxAttempts c < 2 ^ 63 - 1 →
  rtc (retry_step c) (NewRetryQueue c) s →
  llen (chan_buf (tasks s)) <= chan_cap (tasks s) ∧
  (∀ t, t ∈ chan_buf (tasks s) ++ loop_tasks (loop s) → 1 <= Attempt t <= RetryMaxAttempts c) ∧
  (∀ tel, tel ∈ diag s →
     TelStatus tel ≠ DeliveryStatusFailed ∧ 0 <= RetryAttempt tel <= RetryMaxAttempts c ∧
     (TelStatus tel = DeliveryStatusDead → RetryAttempt tel = RetryMaxAttempts c)).
Proof.
  intros Hj Hm Hs. destruct (retry_reachable_inv c s Hj ltac:(lia) Hs) as (Hch & Hb & Hl & Hd).
  assert (Hlast : last_attempt c = RetryMaxAttempts c) by (unfold last_attempt; lia).
  split_and!; [exact Hch| |].
  - intros t Ht. rewrite Forall_forall in Hb, Hl. rewrite <- Hlast.
    apply elem_of_app in Ht as [Ht|Ht]; [by apply Hb|by apply Hl].
  - intros tel Htel. rewrite Forall_forall in Hd. specialize (Hd tel Htel).
    unfold telemetry_ok in Hd. rewrite Hlast in Hd.
    destruct (TelStatus tel); split_and!; try done; lia.
Qed.

Lemma retry_loop_inv_witness :
  rtc (retry_step DefaultConfig) (NewRetryQueue DefaultConfig) (NewRetryQueue DefaultConfig) ∧
  llen (chan_buf (tasks (NewRetryQueue DefaultConfig))) <= JobQueueSize DefaultConfig.
Proof.
  split; [constructor|].
  apply (retry_loop_inv DefaultConfig (NewRetryQueue DefaultConfig)); [done|done|constructor].
Defined.

(** C40: the retry loop can block for good.  It sends a task that failed again
    to the channel that only it receives from, waiting for room; with any
    channel size and at least two attempts a state is reachable in which it
    waits on a full channel, and from there on, whatever the dispatch workers
    do, it keeps waiting and no task of the channel is ever retried. *)
Theorem retry_queue_deadlock c :
  1 <= JobQueueSize c → 2 <= RetryMaxAttempts c →
  ∃ s t, rtc (retry_step c) (NewRetryQueue c) s ∧ loop s = Resending t ∧
    llen (chan_buf (tasks s)) = JobQueueSize c ∧
    ∀ s', rtc (retry_step c) s s' → loop s' = Resending t ∧ tasks s' = tasks s.
Proof.
  intros Hj Hm. set (job := alert_job "{}" (witness_hook "a" true)).
  set (t := retry_task job 0 "refused"). set (n := Z.to_nat (JobQueueSize c - 1)).
  destruct (fill_channel c Idle (make_chan (JobQueueSize c)) [] job "refused" (S n)) as [d Hfill].
  { unfold llen. simpl. lia. }
  destruct (fill_channel c (Waiting t) (Chan (JobQueueSize c) (replicate n t)) d job "refused" 1)
    as [d' Hfill']; [unfold llen; simpl; rewrite length_replicate; lia|].
  pose proof (step_retry c (Chan (JobQueueSize c) (replicate n t ++ [t])) t d' (TransportError "refused"))
    as Hretry.
  destruct (retry_fails c t (TransportError "refused")) as (code & msg & Hr); [done|done|].
  rewrite (proj2 (Z.ltb_ge _ _)) in Hr by (simpl; lia). rewrite Hr in Hretry.
  match type of Hretry with retry_step _ _ ?s => set (s1 := s) in Hretry end.
  assert (Hs : rtc (retry_step c) (NewRetryQueue c) s1).
  { etransitivity; [exact Hfill|]. eapply rtc_l; [apply step_take|].
    etransitivity; [exact Hfill'|]. eapply rtc_l; [exact Hretry|constructor]. }
  assert (Hlen : llen (replicate n t ++ [t]) = JobQueueSize c)
    by (unfold llen; rewrite length_app, length_replicate; simpl; lia).
  assert (Hstuck : stuck c (with_attempt t (Attempt t + 1) code msg) s1)
    by (split; [done|simpl; lia]).
  exists s1, (with_attempt t (Attempt t + 1) code msg). split_and!; [done|done|exact Hlen|].
  intros s' Hs'. destruct (stuck_forever _ _ _ _ Hstuck Hs') as [[? _] ?]. done.
Qed.

Lemma retry_queue_deadlock_witness :
  ∃ s t, rtc (retry_step DefaultConfig) (NewRetryQueue DefaultConfig) s ∧ loop s = Resending t ∧
    llen (chan_buf (tasks s)) = 256.
Proof.
  destruct (retry_queue_deadlock DefaultConfig ltac:(done) ltac:(done)) as (s & t & H1 & H2 & H3 & _).
  exact (ex_intro _ s (ex_intro _ t (conj H1 (conj H2 H3)))).
Defined.

Section requests.
Context `{MapRange}.
Variables (hmac : string → string → string) (canonical : string → string).

Lemma build_request_signature n url body secret headers :
  secret ≠ ""%string →
  ReqHeader (build_request hmac canonical n url body secret headers) !! "X-Aicp-Signature"%string =
    Some ("sha256=" +:+ hmac body secret)%string.
Proof.
  intros Hs. unfold build_request. simpl.
  rewrite (proj2 (streq_false _ _) Hs). apply lookup_insert_eq.
Qed.

(** The requests of a delivery.  Under a secret, the first request and
    every retry carry the keyed hash of the very bytes they send, whatever the
    endpoint's own headers say.  But the bytes differ: the first request sends
    the alert as a base64 string in quotes, the retries send the alert itself,
    so an endpoint that receives both sees different bodies (and signatures of
    different bodies), unless the alert begins with a quote. *)
Theorem delivery_requests n job code msg :
  let first := dispatch_request hmac canonical n job in
  let again := retry_request hmac canonical n (retry_task job code msg) in
  (Secret (JobConfig job) ≠ ""%string →
   ReqHeader first !! "X-Aicp-Signature"%string =
     Some ("sha256=" +:+ hmac (ReqBody first) (Secret (JobConfig job)))%string ∧
   ReqHeader again !! "X-Aicp-Signature"%string =
     Some ("sha256=" +:+ hmac (ReqBody again) (Secret (JobConfig job)))%string) ∧
  ReqURL first = WURL (JobConfig job) ∧ ReqURL again = WURL (JobConfig job) ∧
  ReqBody first = String quote (base64 (JobBody job) +:+ String quote "") ∧
  ReqBody again = JobBody job ∧
  ((∀ rest, JobBody job ≠ String quote rest) → ReqBody first ≠ ReqBody again).
Proof.
  split_and!; try done.
  - intros Hs. split; by apply build_request_signature.
  - simpl. intros Hq Heq. symmetry in Heq. by apply Hq in Heq.
Qed.

End requests.

Lemma delivery_requests_witness :
  let job := alert_job "{}" (witness_hook "a" true) in
  let h := λ body secret, (body +:+ secret)%string in
  ReqBody (dispatch_request h id 0 job) ≠ ReqBody (retry_request h id 0 (retry_task job 0 "refused")).
Proof.
  intros job h.
  destruct (delivery_requests h id 0 job 0 "refused") as (_ & _ & _ & _ & _ & Hd).
  apply Hd. intros rest. discriminate.
Defined.
