(* ===== verification/WebhookHub.v ===== *)
(** The webhook engine at work ([proxy/webhook/engine.go], [dispatcher.go]): the
    alert loop, the workers, the retry loop and the event stream around the
    channels they share, the routes with their middleware, and what becomes of
    every delivery.

    One step is one turn of one goroutine; the results of HTTP round trips are
    part of the step. *)

From S2P Require Import Prelude GoStrings Webhook.

(** What ends a delivery: success, a request that cannot be built, a full job
    queue, a full retry queue, or too many attempts. *)
Inductive fate := Delivered | Unbuildable | JobDropped | TaskDropped | DeadLetter.

#[global] Instance fate_eq_dec : EqDecision fate.
Proof. solve_decision. Defined.

#[global] Instance DeliveryStatus_eq_dec : EqDecision DeliveryStatus.
Proof. solve_decision. Defined.

(** What a delivery is for: tenant, endpoint and body. *)
Abbreviation delivery := (string * string * string)%type.

Definition job_delivery (j : DispatchJob) : delivery := (JobTenant j, WURL (JobConfig j), JobBody j).
Definition task_delivery (t : RetryTask) : delivery := (TaskTenant t, TargetURL t, TaskBody t).

(** [WebhookEngine] with its dispatcher: [pending] are the jobs the alert loop
    has yet to enqueue for the alert it handles, [workers] what each worker is
    dispatching; [made] and [fates] record the deliveries due and ended. *)
Record WebhookEngine := {
  hcfg : Config;
  registry : gmap string WebhookConfig;
  alertCh : chan string;
  pending : list DispatchJob;
  jobCh : chan DispatchJob;
  workers : list (option DispatchJob);
  retryQueue : retry_state;
  clients : gmap Z sseClient;
  made : list delivery;
  fates : list (fate * delivery)
}.

(** [NewWebhookEngine], with [NewWebhookDispatcher]: the retry channel is as
    long as the job queue; [alerts] is the channel it is given. *)
Definition NewWebhookEngine (c : Config) (reg : option (gmap string WebhookConfig))
    (alerts : chan string) : WebhookEngine :=
  {| hcfg := c; registry := default NewWebhookRegistry reg; alertCh := alerts; pending := [];
     jobCh := make_chan (JobQueueSize c); workers := []; retryQueue := NewRetryQueue c;
     clients := ∅; made := []; fates := [] |}.

(** [Start]: the dispatcher starts its workers. *)
Definition Start (e : WebhookEngine) : WebhookEngine :=
  {| hcfg := hcfg e; registry := registry e; alertCh := alertCh e; pending := pending e;
     jobCh := jobCh e; workers := replicate (Z.to_nat (WorkerCount (hcfg e))) None;
     retryQueue := retryQueue e; clients := clients e; made := made e; fates := fates e |}.

(** ** Assignments *)

Definition set_alerts (e : WebhookEngine) (ch : chan string) (jobs : list DispatchJob)
    (due : list delivery) (cls : gmap Z sseClient) : WebhookEngine :=
  {| hcfg := hcfg e; registry := registry e; alertCh := ch; pending := jobs; jobCh := jobCh e;
     workers := workers e; retryQueue := retryQueue e; clients := cls; made := made e ++ due;
     fates := fates e |}.

Definition set_jobs (e : WebhookEngine) (jobs : list DispatchJob) (ch : chan DispatchJob)
    (ws : list (option DispatchJob)) (ended : list (fate * delivery)) : WebhookEngine :=
  {| hcfg := hcfg e; registry := registry e; alertCh := alertCh e; pending := jobs; jobCh := ch;
     workers := ws; retryQueue := retryQueue e; clients := clients e; made := made e;
     fates := fates e ++ ended |}.

Definition set_retry (e : WebhookEngine) (q : retry_state) (ws : list (option DispatchJob))
    (ended : list (fate * delivery)) : WebhookEngine :=
  {| hcfg := hcfg e; registry := registry e; alertCh := alertCh e; pending := pending e;
     jobCh := jobCh e; workers := ws; retryQueue := q; clients := clients e; made := made e;
     fates := fates e ++ ended |}.

Definition set_outside (e : WebhookEngine) (reg : gmap string WebhookConfig) (cls : gmap Z sseClient) :
    WebhookEngine :=
  {| hcfg := hcfg e; registry := reg; alertCh := alertCh e; pending := pending e; jobCh := jobCh e;
     workers := workers e; retryQueue := retryQueue e; clients := cls; made := made e;
     fates := fates e |}.

(** ** The alert loop *)

(** A turn of [alertLoop] that finds an alert: the beginning of [processAlert]. *)
Definition alertLoop `{MapRange} (n : nat) (e : WebhookEngine) : WebhookEngine :=
  match pending e with
  | _ :: _ => e
  | [] =>
      match try_recv (alertCh e) with
      | (None, _) => e
      | (Some alert, ch) =>
          let jobs := alert_job alert <$> ListActive n (registry e) in
          set_alerts e ch jobs (job_delivery <$> jobs) (Broadcast "alert" alert (clients e))
      end
  end.

(** The loop of [processAlert], one [Enqueue] at a time. *)
Definition enqueue_next (e : WebhookEngine) : WebhookEngine :=
  match pending e with
  | [] => e
  | job :: rest =>
      set_jobs e rest (Enqueue job (jobCh e)) (workers e)
        (if (try_send job (jobCh e)).2 then [] else [(JobDropped, job_delivery job)])
  end.

(** ** The workers *)

Definition worker_take (i : nat) (e : WebhookEngine) : WebhookEngine :=
  match workers e !! i with
  | Some None =>
      match try_recv (jobCh e) with
      | (Some job, ch) => set_jobs e (pending e) ch (<[i := Some job]> (workers e)) []
      | (None, _) => e
      end
  | _ => e
  end.

Definition dispatch_fate (job : DispatchJob) (result : http_outcome) (room : bool) :
    list (fate * delivery) :=
  match result with
  | RequestError _ => [(Unbuildable, job_delivery job)]
  | TransportError _ => if room then [] else [(TaskDropped, job_delivery job)]
  | StatusCode code =>
      if success_code code then [(Delivered, job_delivery job)]
      else if room then [] else [(TaskDropped, job_delivery job)]
  end.

(** The end of a worker's [dispatch]. *)
Definition worker_done (i : nat) (result : http_outcome) (e : WebhookEngine) : WebhookEngine :=
  match workers e !! i with
  | Some (Some job) =>
      let q := retryQueue e in
      let '(ch, d) := dispatch job result (tasks q) (diag q) in
      set_retry e {| tasks := ch; loop := loop q; diag := d |} (<[i := None]> (workers e))
        (dispatch_fate job result (llen (chan_buf (tasks q)) <? chan_cap (tasks q)))
  | _ => e
  end.

(** ** The retry loop *)

Definition retry_take (e : WebhookEngine) : WebhookEngine :=
  let q := retryQueue e in
  match loop q, try_recv (tasks q) with
  | Idle, (Some t, ch) =>
      set_retry e {| tasks := ch; loop := Waiting t; diag := diag q |} (workers e) []
  | _, _ => e
  end.

(** The retry after the wait; a task that is not put back is delivered or dead. *)
Definition retry_done (result : http_outcome) (e : WebhookEngine) : WebhookEngine :=
  let q := retryQueue e in
  match loop q with
  | Waiting t =>
      let '(tel, again) := retry (hcfg e) t result in
      set_retry e
        {| tasks := tasks q; loop := match again with Some t => Resending t | None => Idle end;
           diag := diag q ++ [tel] |} (workers e)
        (match again with
         | Some _ => []
         | None => [(match TelStatus tel with DeliveryStatusDelivered => Delivered | _ => DeadLetter end,
                     task_delivery t)]
         end)
  | _ => e
  end.

(** The send of a failed task, which waits for room. *)
Definition retry_resend (e : WebhookEngine) : WebhookEngine :=
  let q := retryQueue e in
  match loop q with
  | Resending t =>
      if llen (chan_buf (tasks q)) <? chan_cap (tasks q)
      then set_retry e {| tasks := (try_send t (tasks q)).1; loop := Idle; diag := diag q |} (workers e) []
      else e
  | _ => e
  end.

(** ** The engine *)

Inductive hub_event :=
  | AlertOffered (alert : string)
  | AlertLoop (n : nat)
  | EnqueueNext
  | WorkerTake (i : nat)
  | WorkerDone (i : nat) (result : http_outcome)
  | RetryTake
  | RetryDone (result : http_outcome)
  | RetryResend
  | Api (n : nat) (q : api_request)
  | Connect (id : Z) (tenant ip : string)
  | ServeClient (id : Z) (write_ok : bool)
  | Heartbeat.

Definition hub_step `{MapRange} (e : WebhookEngine) (ev : hub_event) : WebhookEngine :=
  match ev with
  | AlertOffered alert => set_alerts e (try_send alert (alertCh e)).1 (pending e) [] (clients e)
  | AlertLoop n => alertLoop n e
  | EnqueueNext => enqueue_next e
  | WorkerTake i => worker_take i e
  | WorkerDone i result => worker_done i result e
  | RetryTake => retry_take e
  | RetryDone result => retry_done result e
  | RetryResend => retry_resend e
  | Api n q => set_outside e (MountCRUDRoutes n (registry e) q).1 (clients e)
  | Connect id tenant ip => set_outside e (registry e) (connect id tenant ip (clients e))
  | ServeClient id write_ok => set_outside e (registry e) (serve_client id write_ok (clients e)).2
  | Heartbeat => set_outside e (registry e) (keepAlive (clients e))
  end.

Definition hub_run `{MapRange} (c : Config) (reg : option (gmap string WebhookConfig))
    (alerts : chan string) (evs : list hub_event) : WebhookEngine :=
  foldl hub_step (Start (NewWebhookEngine c reg alerts)) evs.

(** * Routes

    A handler reads and changes the engine; [RouteRegistrator] puts the
    middleware it is given around the event stream and the registry. *)
Section routes.

Context `{MapRange} {R A : Type}.

Definition handler := R → WebhookEngine → WebhookEngine * A.

Definition RouteRegistrator (authMW viewerMW adminMW : handler → handler) (stream crud : handler) :
    handler * handler :=
  (authMW (viewerMW stream), authMW (adminMW crud)).

(** Middleware that lets a request pass or answers it itself. *)
Definition gate (allows : R → bool) (denied : A) : handler → handler :=
  λ h q e, if allows q then h q e else (e, denied).

End routes.

(** * Every delivery is accounted for *)

Definition occ (k : delivery) (l : list delivery) : Z := llen (filter (λ x, x = k) l).

Lemma occ_nil k : occ k [] = 0.
Proof. done. Qed.

Lemma occ_cons k x l : occ k (x :: l) = occ k [x] + occ k l.
Proof.
  unfold occ. rewrite !filter_cons, filter_nil. case_decide; [by rewrite llen_cons|done].
Qed.

Lemma occ_app k l1 l2 : occ k (l1 ++ l2) = occ k l1 + occ k l2.
Proof. unfold occ. by rewrite filter_app, llen_app. Qed.

(** The jobs the workers are dispatching. *)
Definition dispatching (ws : list (option DispatchJob)) : list delivery := job_delivery <$> omap id ws.

Lemma dispatching_middle l1 x l2 :
  dispatching (l1 ++ x :: l2) =
    dispatching l1 ++ dispatching [x] ++ dispatching l2.
Proof.
  unfold dispatching. rewrite omap_app, fmap_app. by destruct x.
Qed.

Lemma occ_set_worker k ws i x y :
  ws !! i = Some x →
  occ k (dispatching (<[i := y]> ws)) + occ k (dispatching [x]) =
  occ k (dispatching ws) + occ k (dispatching [y]).
Proof.
  intros Hi. rewrite <- (take_drop_middle ws i x Hi) at 2.
  rewrite insert_take_drop by (by eapply lookup_lt_Some). rewrite !dispatching_middle, !occ_app. lia.
Qed.

(** Where the deliveries due are. *)
Definition whereabouts (e : WebhookEngine) (k : delivery) : Z :=
  occ k (job_delivery <$> pending e) + occ k (job_delivery <$> chan_buf (jobCh e)) +
  occ k (dispatching (workers e)) + occ k (task_delivery <$> chan_buf (tasks (retryQueue e))) +
  occ k (task_delivery <$> loop_tasks (loop (retryQueue e))) + occ k (fates e).*2.

Definition accounted (e : WebhookEngine) : Prop := ∀ k, occ k (made e) = whereabouts e k.

(** What a channel holds after an attempt to send. *)
Lemma occ_send {A} (f : A → delivery) k x (ch : chan A) :
  occ k (f <$> chan_buf (try_send x ch).1) =
  occ k (f <$> chan_buf ch) + (if llen (chan_buf ch) <? chan_cap ch then occ k [f x] else 0).
Proof.
  unfold try_send. destruct (_ <? _); simpl; [|lia]. by rewrite fmap_app, occ_app.
Qed.

Lemma occ_recv {A} (f : A → delivery) k (ch : chan A) :
  occ k (f <$> chan_buf ch) =
  occ k (f <$> chan_buf (try_recv ch).2) +
    match (try_recv ch).1 with Some x => occ k [f x] | None => 0 end.
Proof.
  unfold try_recv. destruct (chan_buf ch) as [|x l] eqn:E.
  - cbn [fst snd]. rewrite E. cbn. lia.
  - cbn [fst snd chan_buf]. rewrite fmap_cons, occ_cons. lia.
Qed.

Lemma send_flag {A} (x : A) (ch : chan A) : (try_send x ch).2 = (llen (chan_buf ch) <? chan_cap ch).
Proof. unfold try_send. by destruct (_ <? _). Qed.

Lemma retry_task_delivery job code msg : task_delivery (retry_task job code msg) = job_delivery job.
Proof. done. Qed.

(** The end of a dispatch moves its job to the retry queue or ends it. *)
Lemma occ_dispatch k job result ch d :
  occ k (task_delivery <$> chan_buf (dispatch job result ch d).1) +
  occ k (dispatch_fate job result (llen (chan_buf ch) <? chan_cap ch)).*2 =
  occ k (task_delivery <$> chan_buf ch) + occ k [job_delivery job].
Proof.
  unfold dispatch, dispatch_fate. destruct result as [msg|msg|code]; simpl; [lia| |].
  - rewrite occ_send, retry_task_delivery. destruct (_ <? _); simpl; rewrite ?occ_nil; lia.
  - destruct (success_code code); simpl; [lia|]. rewrite occ_send, retry_task_delivery.
    destruct (_ <? _); simpl; rewrite ?occ_nil; lia.
Qed.

Lemma retry_delivery c t result :
  let '(tel, again) := retry c t result in
  match again with Some t' => task_delivery t' = task_delivery t | None => True end.
Proof.
  unfold retry, handleFailure. destruct result as [msg|msg|code]; simpl.
  - by destruct (_ <? _).
  - by destruct (_ <? _).
  - destruct (success_code code); [done|]. simpl. by destruct (_ <? _).
Qed.

Section accounted.
Context `{MapRange}.

Lemma hub_step_accounted e ev : accounted e → accounted (hub_step e ev).
Proof.
  intros He k. specialize (He k). unfold whereabouts in *.
  destruct ev; simpl; try exact He.
  - by rewrite app_nil_r.
  - unfold alertLoop. destruct (pending e) as [|j l] eqn:Ep; [|by rewrite Ep].
    destruct (try_recv (alertCh e)) as [[alert|] ch]; [|by rewrite Ep]. simpl.
    rewrite fmap_nil, occ_nil in He. rewrite occ_app. lia.
  - unfold enqueue_next. destruct (pending e) as [|job rest] eqn:Ep; [by rewrite Ep|]. simpl.
    rewrite fmap_cons, occ_cons in He. rewrite send_flag. unfold Enqueue.
    rewrite occ_send, fmap_app, occ_app.
    destruct (_ <? _); simpl; rewrite ?occ_nil; lia.
  - unfold worker_take. destruct (workers e !! i) as [[job|]|] eqn:Ei; try done.
    pose proof (occ_recv job_delivery k (jobCh e)) as Hr.
    destruct (try_recv (jobCh e)) as [[job|] ch]; [|done]. simpl.
    pose proof (occ_set_worker k (workers e) i None (Some job) Ei) as Hw.
    cbn [fst snd] in Hr. rewrite app_nil_r.
    change (dispatching [None]) with (@nil delivery) in Hw.
    change (dispatching [Some job]) with [job_delivery job] in Hw. rewrite occ_nil in Hw. lia.
  - unfold worker_done. destruct (workers e !! i) as [[job|]|] eqn:Ei; try done.
    pose proof (occ_dispatch k job result (tasks (retryQueue e)) (diag (retryQueue e))) as Hd.
    destruct (dispatch _ _ _ _) as [ch d]. simpl. cbn [fst snd] in Hd.
    pose proof (occ_set_worker k (workers e) i (Some job) None Ei) as Hw.
    change (dispatching [None]) with (@nil delivery) in Hw.
    change (dispatching [Some job]) with [job_delivery job] in Hw. rewrite occ_nil in Hw.
    rewrite fmap_app, occ_app. lia.
  - unfold retry_take. destruct (loop (retryQueue e)) as [|t|t] eqn:El; try (by rewrite El).
    pose proof (occ_recv task_delivery k (tasks (retryQueue e))) as Hr.
    destruct (try_recv _) as [[t|] ch]; [|by rewrite El]. cbn [fst snd] in Hr.
    unfold set_retry. cbn [pending jobCh workers retryQueue tasks loop fates loop_tasks].
    rewrite app_nil_r. cbn [loop_tasks] in He. rewrite fmap_nil, occ_nil in He.
    simpl in *. lia.
  - unfold retry_done. destruct (loop (retryQueue e)) as [|t|t] eqn:El; try (by rewrite El).
    pose proof (retry_delivery (hcfg e) t result) as Hr.
    destruct (retry _ _ _) as [tel [t'|]]; unfold set_retry;
      cbn [made pending jobCh workers retryQueue tasks loop fates loop_tasks] in *.
    + rewrite app_nil_r. change (task_delivery <$> [t']) with [task_delivery t']. rewrite Hr. exact He.
    + rewrite fmap_app, occ_app, fmap_nil, occ_nil. change (task_delivery <$> [t]) with [task_delivery t] in He.
      cbn [fmap list_fmap snd]. lia.
  - unfold retry_resend. destruct (loop (retryQueue e)) as [|t|t] eqn:El; try (by rewrite El).
    destruct (_ <? _) eqn:E; [|by rewrite El]. unfold set_retry.
    cbn [made pending jobCh workers retryQueue tasks loop fates loop_tasks] in *.
    rewrite occ_send, E, app_nil_r, fmap_nil, occ_nil.
    change (task_delivery <$> [t]) with [task_delivery t] in He. lia.
Qed.

(** ** Reports

    Of the ends of a delivery only success and the dead letter are reported. *)

Definition telemetry_of (st : DeliveryStatus) (tenant url : string) (d : list Telemetry) : Z :=
  llen (filter (λ t, TelStatus t = st ∧ TargetTenantID t = tenant ∧ TelURL t = url) d).

Definition fated (f : fate) (tenant url : string) (l : list (fate * delivery)) : Z :=
  llen (filter (λ x, x.1 = f ∧ x.2.1.1 = tenant ∧ x.2.1.2 = url) l).

Lemma telemetry_of_app st tenant url d1 d2 :
  telemetry_of st tenant url (d1 ++ d2) = telemetry_of st tenant url d1 + telemetry_of st tenant url d2.
Proof. unfold telemetry_of. by rewrite filter_app, llen_app. Qed.

Lemma fated_app f tenant url l1 l2 :
  fated f tenant url (l1 ++ l2) = fated f tenant url l1 + fated f tenant url l2.
Proof. unfold fated. by rewrite filter_app, llen_app. Qed.

Definition same_reports (d : list Telemetry) (l : list (fate * delivery)) : Prop :=
  ∀ tenant url,
    telemetry_of DeliveryStatusDelivered tenant url d = fated Delivered tenant url l ∧
    telemetry_of DeliveryStatusDead tenant url d = fated DeadLetter tenant url l.

Lemma same_reports_app d1 d2 l1 l2 :
  same_reports d1 l1 → same_reports d2 l2 → same_reports (d1 ++ d2) (l1 ++ l2).
Proof.
  intros H1 H2 tenant url. rewrite !telemetry_of_app, !fated_app.
  destruct (H1 tenant url), (H2 tenant url). lia.
Qed.

Lemma same_reports_nil : same_reports [] [].
Proof. done. Qed.

(** One piece of telemetry against at most one end. *)
Ltac one_report :=
  intros tenant url; unfold telemetry_of, fated; simpl;
  rewrite ?filter_cons, ?filter_nil; simpl; repeat case_decide; naive_solver.

Lemma dispatch_reports job result ch d :
  ∃ d', (dispatch job result ch d).2 = d ++ d' ∧
    same_reports d' (dispatch_fate job result (llen (chan_buf ch) <? chan_cap ch)).
Proof.
  unfold dispatch, dispatch_fate. destruct result as [msg|msg|code]; simpl.
  - exists []. split; [by rewrite app_nil_r|]. one_report.
  - eexists. split; [done|]. destruct (_ <? _); one_report.
  - destruct (success_code code); simpl; (eexists; split; [done|]); [|destruct (_ <? _)]; one_report.
Qed.

Lemma retry_reports c t result :
  let '(tel, again) := retry c t result in
  same_reports [tel] (match again with
    | Some _ => []
    | None => [(match TelStatus tel with DeliveryStatusDelivered => Delivered | _ => DeadLetter end,
                task_delivery t)]
    end).
Proof.
  unfold retry, handleFailure. destruct result as [msg|msg|code]; simpl.
  - destruct (_ <? _); one_report.
  - destruct (_ <? _); one_report.
  - destruct (success_code code); [one_report|]. destruct (_ <? _); one_report.
Qed.

Lemma hub_step_reports e ev :
  same_reports (diag (retryQueue e)) (fates e) →
  same_reports (diag (retryQueue (hub_step e ev))) (fates (hub_step e ev)).
Proof.
  intros He. destruct ev; simpl; try exact He.
  - unfold alertLoop. destruct (pending e); [|done].
    by destruct (try_recv (alertCh e)) as [[alert|] ch].
  - unfold enqueue_next. destruct (pending e); [done|]. simpl.
    rewrite <- (app_nil_r (diag _)). apply same_reports_app; [done|].
    destruct (_.2); one_report.
  - unfold worker_take. destruct (workers e !! i) as [[job|]|]; try done.
    destruct (try_recv (jobCh e)) as [[job|] ch]; [|done]. simpl. by rewrite app_nil_r.
  - unfold worker_done. destruct (workers e !! i) as [[job|]|]; try done.
    destruct (dispatch_reports job result (tasks (retryQueue e)) (diag (retryQueue e))) as (d' & Hd & Hr).
    destruct (dispatch _ _ _ _) as [ch d]. simpl in *. subst d. by apply same_reports_app.
  - unfold retry_take. destruct (loop (retryQueue e)); try done.
    destruct (try_recv _) as [[t|] ch]; [|done]. simpl. by rewrite app_nil_r.
  - unfold retry_done. destruct (loop (retryQueue e)) as [|t|t]; try done.
    pose proof (retry_reports (hcfg e) t result) as Hr.
    destruct (retry _ _ _) as [tel again]. simpl. by apply same_reports_app.
  - unfold retry_resend. destruct (loop (retryQueue e)); try done.
    destruct (_ <? _); [|done]. simpl. by rewrite app_nil_r.
Qed.

(** ** The retry queue's own steps *)

Lemma retry_state_eta q : q = {| tasks := tasks q; loop := loop q; diag := diag q |}.
Proof. by destruct q. Qed.

Lemma hub_step_config e ev : hcfg (hub_step e ev) = hcfg e.
Proof.
  destruct ev; simpl; try done.
  - unfold alertLoop. destruct (pending e); [|done]. by destruct (try_recv _) as [[?|] ?].
  - unfold enqueue_next. by destruct (pending e).
  - unfold worker_take. destruct (workers e !! i) as [[?|]|]; try done.
    by destruct (try_recv _) as [[?|] ?].
  - unfold worker_done. destruct (workers e !! i) as [[?|]|]; try done. by destruct (dispatch _ _ _ _).
  - unfold retry_take. destruct (loop _); try done. by destruct (try_recv _) as [[?|] ?].
  - unfold retry_done. destruct (loop _); try done. by destruct (retry _ _ _).
  - unfold retry_resend. destruct (loop _); try done. by destruct (_ <? _).
Qed.

Lemma hub_step_retry e ev :
  rtc (retry_step (hcfg e)) (retryQueue e) (retryQueue (hub_step e ev)).
Proof.
  destruct ev; simpl; try apply rtc_refl.
  - unfold alertLoop. destruct (pending e); [|done]. by destruct (try_recv _) as [[?|] ?].
  - unfold enqueue_next. by destruct (pending e).
  - unfold worker_take. destruct (workers e !! i) as [[?|]|]; try done.
    by destruct (try_recv _) as [[?|] ?].
  - unfold worker_done. destruct (workers e !! i) as [[job|]|]; try done.
    eapply rtc_l; [apply (step_dispatch _ _ job result)|]. by destruct (dispatch _ _ _ _).
  - unfold retry_take. destruct (retryQueue e) as [[cap [|t l]] [|t'|t'] d] eqn:Eq; simpl; rewrite ?Eq; try done.
    eapply rtc_l; [apply step_take|done].
  - unfold retry_done. destruct (retryQueue e) as [ch [|t|t] d] eqn:Eq; simpl; rewrite ?Eq; try done.
    eapply rtc_l; [apply (step_retry _ _ _ _ result)|]. by destruct (retry _ _ _).
  - unfold retry_resend. destruct (retryQueue e) as [ch [|t|t] d] eqn:Eq; simpl; rewrite ?Eq; try done.
    destruct (_ <? _) eqn:El; rewrite ?Eq; [|done]. apply Z.ltb_lt in El.
    eapply rtc_l; [by apply step_resend|done].
Qed.

(** ** Sizes *)

Definition sized (c : Config) (e : WebhookEngine) : Prop :=
  hcfg e = c ∧ chan_ok (jobCh e) ∧ chan_cap (jobCh e) = JobQueueSize c ∧
  length (workers e) = Z.to_nat (WorkerCount c).

Lemma hub_step_sized c e ev : sized c e → sized c (hub_step e ev).
Proof.
  intros (Hc & Hj & Hcap & Hw). split; [by rewrite hub_step_config|]. destruct ev; simpl; try done.
  - unfold alertLoop. destruct (pending e); [|done]. by destruct (try_recv _) as [[?|] ?].
  - unfold enqueue_next. destruct (pending e) as [|job l]; [done|]. simpl.
    split_and!; [by apply try_send_ok| |done]. unfold Enqueue, try_send. by destruct (_ <? _).
  - unfold worker_take. destruct (workers e !! i) as [[?|]|]; try done.
    pose proof (try_recv_ok (jobCh e) Hj) as Hr.
    assert (chan_cap (try_recv (jobCh e)).2 = JobQueueSize c)
      by (unfold try_recv; by destruct (chan_buf (jobCh e))).
    destruct (try_recv _) as [[job|] ch]; [|done]. simpl in *. by rewrite length_insert.
  - unfold worker_done. destruct (workers e !! i) as [[job|]|]; try done.
    destruct (dispatch _ _ _ _). simpl. by rewrite length_insert.
  - unfold retry_take. destruct (loop _); try done. by destruct (try_recv _) as [[?|] ?].
  - unfold retry_done. destruct (loop _); try done. by destruct (retry _ _ _).
  - unfold retry_resend. destruct (loop _); try done. by destruct (_ <? _).
Qed.

Lemma hub_run_retry c reg alerts evs :
  rtc (retry_step c) (NewRetryQueue c) (retryQueue (hub_run c reg alerts evs)) ∧
  hcfg (hub_run c reg alerts evs) = c.
Proof.
  unfold hub_run. apply (foldl_inv (λ e, rtc (retry_step c) (NewRetryQueue c) (retryQueue e) ∧ hcfg e = c)).
  - split; [apply rtc_refl|done].
  - intros e ev [He Hc]. rewrite hub_step_config. split; [|done].
    etransitivity; [exact He|]. rewrite <- Hc. apply hub_step_retry.
Qed.

(** The alert loop undisturbed: [processAlert] in one go. *)
Lemma enqueue_all e :
  let e' := foldl hub_step e (replicate (length (pending e)) EnqueueNext) in
  pending e' = [] ∧ jobCh e' = foldl (λ ch job, Enqueue job ch) (jobCh e) (pending e) ∧
  workers e' = workers e ∧ retryQueue e' = retryQueue e ∧ clients e' = clients e ∧
  registry e' = registry e.
Proof.
  simpl. remember (pending e) as l eqn:El. revert e El.
  induction l as [|job l IH]; intros e El; [done|]. cbn [length replicate foldl].
  specialize (IH (hub_step e EnqueueNext)). simpl in IH.
  unfold enqueue_next in IH. rewrite <- El in IH. specialize (IH eq_refl).
  simpl. unfold enqueue_next. rewrite <- El. exact IH.
Qed.

End accounted.

(** [processAlert] when nothing comes between its turns: the alert goes to every
    client's queue and a job per active endpoint to the job queue. *)
Lemma processAlert_uninterrupted `{MapRange} n e alert ch :
  pending e = [] → try_recv (alertCh e) = (Some alert, ch) →
  let e' := foldl hub_step (hub_step e (AlertLoop n))
              (replicate (length (ListActive n (registry e))) EnqueueNext) in
  pending e' = [] ∧ clients e' = Broadcast "alert" alert (clients e) ∧
  jobCh e' = enqueue_jobs n (registry e) alert (jobCh e).
Proof.
  intros Hp Hr e'. pose proof (enqueue_all (hub_step e (AlertLoop n))) as He.
  subst e'. cbn zeta in He. simpl in *. unfold alertLoop in *. rewrite Hp, Hr in *. simpl in *.
  rewrite length_fmap in He. destruct He as (-> & -> & _ & _ & -> & _). split_and!; [done..|].
  unfold enqueue_jobs. generalize (jobCh e).
  induction (ListActive n (registry e)) as [|x l IH]; intros q; [done|]. apply IH.
Qed.

(** * Properties *)

(** C36: no delivery gets lost in the engine.  After any sequence of turns of
    the alert loop, the workers, the retry loop and the routes, each delivery
    due (an endpoint's tenant, address and body, counted as often as it became
    due) is in exactly one place: still to be enqueued, in the job queue, with a
    worker, in the retry queue, with the retry loop, or at its end; the queues
    hold at most [JobQueueSize] entries each, and there are [WorkerCount]
    workers.  Of the ends, the successes are exactly the deliveries reported as
    delivered and the dead letters exactly those reported as dead; a delivery
    dropped by a full queue, or whose request cannot be built, is never
    reported as ended.  When the channels are empty and the loops idle, every
    delivery due has ended. *)
Theorem deliveries_accounted `{MapRange} c reg alerts evs :
  1 <= JobQueueSize c → RetryMaxAttempts c < 2 ^ 63 - 1 →
  let e := hub_run c reg alerts evs in
  (∀ k, occ k (made e) =
     occ k (job_delivery <$> pending e) + occ k (job_delivery <$> chan_buf (jobCh e)) +
     occ k (dispatching (workers e)) + occ k (task_delivery <$> chan_buf (tasks (retryQueue e))) +
     occ k (task_delivery <$> loop_tasks (loop (retryQueue e))) + occ k (fates e).*2) ∧
  llen (chan_buf (jobCh e)) <= JobQueueSize c ∧
  llen (chan_buf (tasks (retryQueue e))) <= chan_cap (tasks (retryQueue e)) ∧
  length (workers e) = Z.to_nat (WorkerCount c) ∧
  (∀ tenant url,
     telemetry_of DeliveryStatusDelivered tenant url (diag (retryQueue e)) =
       fated Delivered tenant url (fates e) ∧
     telemetry_of DeliveryStatusDead tenant url (diag (retryQueue e)) =
       fated DeadLetter tenant url (fates e)) ∧
  (pending e = [] → chan_buf (jobCh e) = [] → Forall (λ w, w = None) (workers e) →
   chan_buf (tasks (retryQueue e)) = [] → loop (retryQueue e) = Idle →
   ∀ k, occ k (made e) = occ k (fates e).*2).
Proof.
  intros Hj Hm e.
  assert (Ha : accounted e).
  { subst e. unfold hub_run. apply (foldl_inv accounted); [|intros; by apply hub_step_accounted].
    intros k. unfold whereabouts. simpl. unfold dispatching.
    replace (omap id (replicate _ None)) with (@nil DispatchJob); [by rewrite !occ_nil|].
    by induction (Z.to_nat (WorkerCount c)). }
  assert (Hs : sized c e).
  { subst e. unfold hub_run. apply (foldl_inv (sized c)); [|intros; by apply hub_step_sized].
    split_and!; simpl; [done|unfold chan_ok, llen; simpl; lia|done|by rewrite length_replicate]. }
  destruct Hs as (Hc & Hjob & Hcap & Hw). split_and!.
  - exact Ha.
  - by rewrite <- Hcap.
  - apply (retry_reachable_inv c); [lia|done|]. apply hub_run_retry.
  - exact Hw.
  - by apply (foldl_inv (λ e, same_reports (diag (retryQueue e)) (fates e)));
      [|intros; apply hub_step_reports].
  - intros Hp Hjb Hws Ht Hl k. rewrite Ha. unfold whereabouts, dispatching. rewrite Hp, Hjb, Ht, Hl.
    replace (omap id (workers e)) with (@nil DispatchJob); [by rewrite !fmap_nil, !occ_nil|].
    clear - Hws. induction Hws as [|w ws -> _ IH]; [done|]. exact IH.
Qed.

(** Two endpoints, one worker: an alert is delivered to the first and retried
    for the second. *)
Definition sample_hooks : gmap string WebhookConfig :=
  Add (witness_hook "a" true) (Add (witness_hook "b" true) NewWebhookRegistry).

Definition sample_turns : list hub_event :=
  [AlertOffered "{}"; AlertLoop 0; EnqueueNext; EnqueueNext; WorkerTake 0;
   WorkerDone 0 (StatusCode 200); WorkerTake 0; WorkerDone 0 (StatusCode 503); RetryTake;
   RetryDone (TransportError "refused"); RetryResend; RetryTake; RetryDone (StatusCode 204)].

Lemma deliveries_accounted_witness :
  let e := hub_run DefaultConfig (Some sample_hooks) (make_chan 8) sample_turns in
  llen (made e) = 2 ∧ llen (fates e) = 2 ∧
  ∀ k, occ k (made e) = occ k (fates e).*2.
Proof.
  pose proof (deliveries_accounted DefaultConfig (Some sample_hooks) (make_chan 8) sample_turns
    ltac:(done) ltac:(done)) as (_ & _ & _ & _ & _ & Hq).
  split_and!; [vm_compute; reflexivity..|].
  apply Hq; [vm_compute; reflexivity..| |vm_compute; reflexivity|vm_compute; reflexivity].
  repeat constructor.
Defined.

(** A [gate] around a handler: a request it refuses leaves the engine as it is. *)
Lemma gate_denies `{MapRange} {R A} (allows : R → bool) (denied : A) h q e :
  allows q = false → gate allows denied h q e = (e, denied).
Proof. intros Ha. unfold gate. by rewrite Ha. Qed.
