(* ===== verification/Ebpf.v ===== *)
(** The eBPF process tracker ([proxy/ebpf]): decoding the samples of the kernel
    program, the bounded queue between the reader and the collector, and the
    fall-back mode.

    What the kernel and the eBPF library answer when the program is attached
    are arguments; the links and maps are only tracked as held or not.
    Bytes are integers from 0 to 255; the machine is little-endian. *)

From S2P Require Import Prelude.

Definition EventExec : Z := 1.
Definition EventExit : Z := 2.

Record ProcessEvent := { PID : Z; PPID : Z; ExitCode : Z; Comm : list Z; EventType : Z }.

(** [Uint32] of the little-endian byte order on four bytes. *)
Definition le_uint32 (b : list Z) : Z :=
  match b with
  | [b0; b1; b2; b3] => b0 + b1 * 2 ^ 8 + b2 * 2 ^ 16 + b3 * 2 ^ 24
  | _ => 0
  end.

Definition slice (b : list Z) (i j : nat) : list Z := take (j - i) (drop i b).

(** A sample: skipped, decoded, or an index beyond its end.  A slice expression
    may extend to the capacity of the buffer, so 25 bytes are enough when the
    capacity is at least 28; what lies behind them is [behind]. *)
Inductive sample_result := Skipped | Decoded (ev : ProcessEvent) | SamplePanics.

Definition decode_sample (raw behind : list Z) : sample_result :=
  if (length raw <? 24)%nat then Skipped
  else
    match raw !! 24%nat with
    | None => SamplePanics
    | Some ty =>
        if (length (raw ++ behind) <? 28)%nat then SamplePanics
        else Decoded {|
          PID := le_uint32 (slice raw 0 4);
          PPID := le_uint32 (slice raw 4 8);
          ExitCode := le_uint32 (slice raw 8 12);
          Comm := slice (raw ++ behind) 12 28;
          EventType := ty |}
    end.

(** * The tracker *)

(** What attaching acquires and [cleanup] closes. *)
Inductive resource := Objects | ExecLink | ExitLink | RingReader.

#[global] Instance resource_eq_dec : EqDecision resource.
Proof. solve_decision. Defined.

(** A field is true when it is not nil. *)
Record linuxTracker := {
  objs : bool;
  execLink : bool;
  exitLink : bool;
  ringReader : bool;
  events : chan ProcessEvent
}.

Definition newPlatformTracker : linuxTracker :=
  {| objs := false; execLink := false; exitLink := false; ringReader := false;
     events := make_chan 1024 |}.

Definition with_events (ch : chan ProcessEvent) (lt : linuxTracker) : linuxTracker :=
  {| objs := objs lt; execLink := execLink lt; exitLink := exitLink lt; ringReader := ringReader lt;
     events := ch |}.

(** What the kernel answers to each step of attaching. *)
Record attach_env := { loads : bool; exec_ok : bool; exit_ok : bool; reader_ok : bool }.

(** [cleanup]: the resources it closes, in this order; the fields stay. *)
Definition cleanup (lt : linuxTracker) : list resource :=
  (if ringReader lt then [RingReader] else []) ++ (if execLink lt then [ExecLink] else []) ++
  (if exitLink lt then [ExitLink] else []) ++ (if objs lt then [Objects] else []).

(** [start]: the tracker, whether it succeeded, and what it closed. *)
Definition start (env : attach_env) (lt : linuxTracker) : linuxTracker * bool * list resource :=
  let attached o x e r :=
    {| objs := o; execLink := x; exitLink := e; ringReader := r; events := events lt |} in
  if negb (loads env) then (lt, false, [])
  else if negb (exec_ok env) then
    let lt := attached true false (exitLink lt) (ringReader lt) in (lt, false, cleanup lt)
  else if negb (exit_ok env) then
    let lt := attached true true false (ringReader lt) in (lt, false, cleanup lt)
  else if negb (reader_ok env) then
    let lt := attached true true true false in (lt, false, cleanup lt)
  else (attached true true true true, true, []).

(** One sample in the loop of [pollRingBuffer]; [None] is the panic. *)
Definition poll_sample (raw behind : list Z) (lt : linuxTracker) : option linuxTracker :=
  match decode_sample raw behind with
  | Skipped => Some lt
  | Decoded ev => Some (with_events (try_send ev (events lt)).1 lt)
  | SamplePanics => None
  end.

(** The loop: what each read returns, [None] for an error, which ends it. *)
Fixpoint pollRingBuffer (reads : list (option (list Z * list Z))) (lt : linuxTracker) :
    option linuxTracker :=
  match reads with
  | [] | None :: _ => Some lt
  | Some (raw, behind) :: rest => lt ← poll_sample raw behind lt; pollRingBuffer rest lt
  end.

Fixpoint drain_loop (n : nat) (lt : linuxTracker) : list ProcessEvent * linuxTracker :=
  match n with
  | O => ([], lt)
  | S n =>
      let '(ev, ch) := try_recv (events lt) in
      match ev with
      | None => ([], lt)
      | Some ev => let '(evs, lt) := drain_loop n (with_events ch lt) in (ev :: evs, lt)
      end
  end.

Definition drain (maxEvents : Z) (lt : linuxTracker) : list ProcessEvent * linuxTracker :=
  drain_loop (Z.to_nat maxEvents) lt.

Definition close (lt : linuxTracker) : list resource := cleanup lt.

Record Tracker := { impl : option linuxTracker; fallbackMode : bool }.

(** [platform]: the platform has a tracker. *)
Definition NewTracker (platform : bool) : Tracker :=
  if platform then {| impl := Some newPlatformTracker; fallbackMode := false |}
  else {| impl := None; fallbackMode := true |}.

(** [Start] never reports an error; the list is what was closed. *)
Definition Start (env : attach_env) (t : Tracker) : Tracker * list resource :=
  if fallbackMode t then (t, [])
  else
    match impl t with
    | None => (t, [])
    | Some lt =>
        let '(lt, ok, closed) := start env lt in
        ({| impl := Some lt; fallbackMode := negb ok |}, closed)
    end.

Definition Fallback (t : Tracker) : bool := fallbackMode t.

Definition Drain (maxEvents : Z) (t : Tracker) : list ProcessEvent * Tracker :=
  if fallbackMode t then ([], t)
  else
    match impl t with
    | None => ([], t)
    | Some lt =>
        let '(evs, lt) := drain maxEvents lt in
        (evs, {| impl := Some lt; fallbackMode := fallbackMode t |})
    end.

Definition Close (t : Tracker) : list resource :=
  match impl t with Some lt => close lt | None => [] end.

(** [Uptime]; [tNow] and [tSince] are its two readings of the clock. *)
Definition Uptime (tNow tSince : Z) (t : Tracker) : Z :=
  if fallbackMode t then 0 else tSince - (tNow - Minute).

(** * The kernel's side *)

(** The little-endian bytes of a [__u32]. *)
Definition le_bytes (z : Z) : list Z :=
  [z mod 2 ^ 8; z / 2 ^ 8 mod 2 ^ 8; z / 2 ^ 16 mod 2 ^ 8; z / 2 ^ 24 mod 2 ^ 8].

(** [struct event] of [program.c]: three words, 16 bytes of name, the type, and
    three bytes of padding. *)
Definition encode_event (ev : ProcessEvent) (padding : list Z) : list Z :=
  le_bytes (PID ev) ++ le_bytes (PPID ev) ++ le_bytes (ExitCode ev) ++ Comm ev ++
  [EventType ev] ++ padding.

(** * Lemmas *)

Lemma le_roundtrip z : 0 <= z < 2 ^ 32 → le_uint32 (le_bytes z) = z.
Proof.
  intros Hz. unfold le_uint32, le_bytes.
  pose proof (Z.div_mod z (2 ^ 8) ltac:(lia)) as H0.
  pose proof (Z.div_mod (z / 2 ^ 8) (2 ^ 8) ltac:(lia)) as H1.
  pose proof (Z.div_mod (z / 2 ^ 16) (2 ^ 8) ltac:(lia)) as H2.
  rewrite Z.div_div in H1, H2 by lia.
  change (2 ^ 8 * 2 ^ 8) with (2 ^ 16) in H1. change (2 ^ 16 * 2 ^ 8) with (2 ^ 24) in H2.
  rewrite (Z.mod_small (z / 2 ^ 24) (2 ^ 8)); [lia|].
  split; [apply Z.div_pos; lia|]. apply Z.div_lt_upper_bound; lia.
Qed.

Lemma take_loop_spec n lt :
  drain_loop n lt =
    (take n (chan_buf (events lt)),
     with_events (Chan (chan_cap (events lt)) (drop n (chan_buf (events lt)))) lt).
Proof.
  revert lt. induction n as [|n IH]; intros [o x e r [cap buf]]; [done|].
  cbn [drain_loop]. destruct buf as [|ev buf]; [done|]. unfold try_recv. simpl.
  by rewrite IH.
Qed.

(** What is acquired before the first step that fails. *)
Definition acquired (env : attach_env) : list resource :=
  if negb (loads env) then []
  else Objects ::
    if negb (exec_ok env) then []
    else ExecLink ::
      if negb (exit_ok env) then []
      else ExitLink :: if reader_ok env then [RingReader] else [].

Definition attaches (env : attach_env) : bool :=
  loads env && exec_ok env && exit_ok env && reader_ok env.

Lemma Start_New env :
  let '(t, closed) := Start env (NewTracker true) in
  Fallback t = negb (attaches env) ∧ Close t ≡ₚ acquired env ∧
  closed = if attaches env then [] else Close t.
Proof.
  destruct env as [[] [] [] []]; split_and!; try done;
    apply (bool_decide_unpack _); vm_compute; exact I.
Qed.

Lemma drain_cleanup n lt : cleanup (drain n lt).2 = cleanup lt.
Proof. unfold drain. by rewrite take_loop_spec. Qed.

(** Draining changes neither the mode nor what is held. *)
Lemma Drain_rest n t : Fallback (Drain n t).2 = Fallback t ∧ Close (Drain n t).2 = Close t.
Proof.
  destruct t as [[lt|] []]; try done. unfold Drain. simpl.
  pose proof (drain_cleanup n lt) as Hd. destruct (drain n lt) as [evs lt']. done.
Qed.

(** * Theorems *)

(** C34: decoding against what the kernel program writes.  Of every event it
    submits, the three words and the 16 bytes of the name arrive intact.  The
    type does not: it is read at offset 24, which is the thirteenth byte of the
    name, so that a process with a shorter name always has type 0, which is
    neither an exec nor an exit.  The events queue up to 1024, later ones are
    lost, and draining takes them in order. *)
Theorem event_decoding ev padding behind lt n :
  0 <= PID ev < 2 ^ 32 → 0 <= PPID ev < 2 ^ 32 → 0 <= ExitCode ev < 2 ^ 32 →
  length (Comm ev) = 16%nat →
  ∃ b, Comm ev !! 12%nat = Some b ∧
    let seen := {| PID := PID ev; PPID := PPID ev; ExitCode := ExitCode ev; Comm := Comm ev;
                   EventType := b |} in
    decode_sample (encode_event ev padding) behind = Decoded seen ∧
    poll_sample (encode_event ev padding) behind lt = Some (with_events (try_send seen (events lt)).1 lt) ∧
    (drain n lt).1 ++ chan_buf (events (drain n lt).2) = chan_buf (events lt) ∧
    (drain n lt).1 = take (Z.to_nat n) (chan_buf (events lt)).
Proof.
  intros H1 H2 H3 Hc. destruct ev as [pid ppid code comm ty]. simpl in *.
  do 16 (destruct comm as [|? comm]; [done|]). destruct comm; [|done].
  eexists. split; [reflexivity|].
  assert (E1 := le_roundtrip pid H1). assert (E2 := le_roundtrip ppid H2).
  assert (E3 := le_roundtrip code H3). unfold le_uint32, le_bytes in E1, E2, E3.
  unfold poll_sample, decode_sample, slice. simpl. rewrite E1, E2, E3.
  unfold drain. rewrite take_loop_spec. simpl. by rewrite take_drop.
Qed.

Definition sample_event : ProcessEvent := {|
  PID := 4660; PPID := 1; ExitCode := 0; Comm := [98; 97; 115; 104] ++ replicate 12 0;
  EventType := EventExec |}.

(** The exec of a process named [bash] is seen with type 0. *)
Lemma event_decoding_witness :
  ∃ seen, decode_sample (encode_event sample_event [0; 0; 0]) [] = Decoded seen ∧
    PID seen = 4660 ∧ EventType seen = 0.
Proof.
  destruct (event_decoding sample_event [0; 0; 0] [] newPlatformTracker 256
    ltac:(simpl; lia) ltac:(simpl; lia) ltac:(simpl; lia) eq_refl) as (b & Hb & Hd & _).
  eexists. split; [exact Hd|]. split; [reflexivity|]. simpl in Hb |- *. by injection Hb as <-.
Defined.

(** C23: the resources of the tracker.  Whatever step of attaching fails, all
    that was acquired before is closed before [Start] returns, which is then in
    fall-back mode and drains nothing; if no step fails nothing is closed until
    [Close], which closes all four.  Nothing is held without being closed, but
    the fields are not reset: a [Close] after a failed start closes the same
    resources a second time. *)
Theorem attach_releases env :
  let '(t, closed) := Start env (NewTracker true) in
  Fallback t = negb (attaches env) ∧
  Close t ≡ₚ acquired env ∧ NoDup (Close t) ∧
  (Fallback t = true → closed ≡ₚ acquired env ∧ ∀ n, Drain n t = ([], t)) ∧
  (Fallback t = false → closed = []).
Proof.
  pose proof (Start_New env) as Hs. destruct (Start env _) as [t closed].
  destruct Hs as (Hf & Hc & ->). rewrite Hf. split_and!; [done|done| | |].
  - rewrite Hc. destruct env as [[] [] [] []]; apply (bool_decide_unpack _); vm_compute; exact I.
  - destruct (attaches env); [done|]. intros _. split; [done|]. intros n. unfold Drain.
    unfold Fallback in Hf. by rewrite Hf.
  - by destruct (attaches env).
Qed.
