(* ===== verification/Procfs.v ===== *)
(** The readers of [/proc] ([proxy/procfs]): the total processor time, the
    memory of the host, and the times and sizes of a process.

    A reader opens a file and reads once into a buffer of fixed size; the bytes
    that read returned are an argument, [None] when the file cannot be opened or
    read.  Error values are [proc_error], without their texts; indexing past the
    end of a buffer is the outcome [Panics]. *)

From S2P Require Import Prelude GoStrings GoFloat.

Inductive proc_error := ErrRead | ErrMalformed | ErrNumber | ErrMissing.

Definition lines_of (buf : string) : list string := split_byte buf newline.

(** The value after the colon of a [Name: value kB] line; the same code twice. *)
Definition parseMeminfoValue (line : string) : proc_error + Z :=
  match index_byte line ":" with
  | None => inl ErrMalformed
  | Some colonIdx =>
      match fields (trim_space (sdrop (colonIdx + 1) line)) with
      | [] => inl ErrMalformed
      | part :: _ =>
          match parse_uint part 10 64 with Some v => inr v | None => inl ErrNumber end
      end
  end.

Definition parseStatusValue (line : string) : proc_error + Z := parseMeminfoValue line.

(** * Processor time *)

Record CPUStats := {
  User : Z; Nice : Z; System : Z; Idle : Z; IOwait : Z;
  IRQ : Z; SoftIRQ : Z; Steal : Z; Guest : Z
}.

Record CPUUtilCalculator := { prev : CPUStats; firstRead : bool }.

Definition NewCPUUtilCalculator : CPUUtilCalculator :=
  {| prev := {| User := 0; Nice := 0; System := 0; Idle := 0; IOwait := 0; IRQ := 0;
                SoftIRQ := 0; Steal := 0; Guest := 0 |};
     firstRead := true |}.

(** Field [i] of the line: 0 when the line is shorter, [None] when it is not a
    number. *)
Definition stat_field (fs : list string) (i : nat) : option Z :=
  match fs !! i with None => Some 0 | Some f => parse_uint f 10 64 end.

Definition parseCPUStatLine (line : string) : proc_error + CPUStats :=
  let fs := fields line in
  if llen fs <? 5 then inl ErrMalformed
  else
    match stat_field fs 1, stat_field fs 2, stat_field fs 3, stat_field fs 4, stat_field fs 5,
          stat_field fs 6, stat_field fs 7, stat_field fs 8, stat_field fs 9 with
    | Some u, Some n, Some s, Some i, Some w, Some q, Some sq, Some st, Some g =>
        inr {| User := u; Nice := n; System := s; Idle := i; IOwait := w; IRQ := q;
               SoftIRQ := sq; Steal := st; Guest := g |}
    | _, _, _, _, _, _, _, _, _ => inl ErrNumber
    end.

Definition sumCPU (s : CPUStats) : Z :=
  u64 (User s + Nice s + System s + Idle s + IOwait s + IRQ s + SoftIRQ s + Steal s + Guest s).

(** The first line that starts with [cpu ]. *)
Definition cpu_line (buf : string) : option string :=
  list_find (λ line, has_prefix line "cpu " = true) (lines_of buf) ≫= λ '(_, line), Some line.

(** The utilisation computed from two readings, before scaling to a percentage. *)
Definition cpu_util (p current : CPUStats) (totalDelta : Z) : float64 :=
  let idleDelta := u64 (Idle current - Idle p) in
  let iowaitDelta := u64 (IOwait current - IOwait p) in
  let util := fsub f_one (fdiv (f_of_Z (u64 (idleDelta + iowaitDelta))) (f_of_Z totalDelta)) in
  let util := if flt util f_zero then f_zero else util in
  if flt f_one util then f_one else util.

Definition ReadAndCompute (head : option string) (c : CPUUtilCalculator) :
    CPUUtilCalculator * (proc_error + float64) :=
  match head with
  | None => (c, inl ErrRead)
  | Some buf =>
      match cpu_line buf with
      | None => (c, inl ErrMissing)
      | Some line =>
          match parseCPUStatLine line with
          | inl e => (c, inl e)
          | inr current =>
              if firstRead c then ({| prev := current; firstRead := false |}, inr f_zero)
              else
                let totalDelta := u64 (sumCPU current - sumCPU (prev c)) in
                if totalDelta =? 0 then (c, inr f_zero)
                else ({| prev := current; firstRead := firstRead c |},
                      inr (fmul (cpu_util (prev c) current totalDelta) (f_of_Z 100)))
          end
      end
  end.

(** * Memory *)

Record MemoryInfo := { TotalBytes : Z; AvailableBytes : Z; UsedBytes : Z }.

(** The loop over the lines: the first value of each name, stopping when both
    are known. *)
Fixpoint meminfo_loop (lines : list string) (total avail : option Z) :
    proc_error + (option Z * option Z) :=
  match total, avail, lines with
  | Some _, Some _, _ | _, _, [] => inr (total, avail)
  | _, _, line :: rest =>
      let read name old :=
        match old with
        | Some v => inr (Some v)
        | None => if has_prefix line name
                  then match parseMeminfoValue line with inl e => inl e | inr v => inr (Some v) end
                  else inr None
        end in
      match read "MemTotal:"%string total with
      | inl e => inl e
      | inr total =>
          match read "MemAvailable:"%string avail with
          | inl e => inl e
          | inr avail => meminfo_loop rest total avail
          end
      end
  end.

Definition ReadMemoryInfo (head : option string) : proc_error + MemoryInfo :=
  match head with
  | None => inl ErrRead
  | Some buf =>
      match meminfo_loop (lines_of buf) None None with
      | inl e => inl e
      | inr (None, _) => inl ErrMissing
      | inr (Some totalKB, avail) =>
          let availKB := default totalKB avail in
          let totalBytes := u64 (totalKB * 1024) in
          let availBytes := u64 (availKB * 1024) in
          inr {| TotalBytes := totalBytes; AvailableBytes := availBytes;
                 UsedBytes := u64 (totalBytes - availBytes) |}
      end
  end.

(** * Processes *)

Record ProcMetrics := {
  PID : Z; Comm : string; UTime : Z; STime : Z; RSS : Z; VSize : Z
}.

Inductive stat_result :=
  | StatOk (m : ProcMetrics)
  | StatError (e : proc_error)
  | StatPanics.

(** [buf[i:]]; slicing from beyond the end panics. *)
Definition slice_from (i : nat) (buf : string) : option string :=
  if (i <=? String.length buf)%nat then Some (sdrop i buf) else None.

Definition parseProcStat (buf : string) (pid : Z) : stat_result :=
  match last_index_byte buf ")", index_byte buf "(" with
  | None, _ | _, None => StatError ErrMalformed
  | Some rparen, Some lparen =>
      if (rparen <=? lparen)%nat then StatError ErrMalformed
      else
        let comm := stake (rparen - (lparen + 1)) (sdrop (lparen + 1) buf) in
        match slice_from (rparen + 2) buf with
        | None => StatPanics
        | Some rest =>
            let fs := fields rest in
            if llen fs <? 22 then StatError ErrMalformed
            else
              match stat_field fs 11, stat_field fs 12, stat_field fs 20, stat_field fs 21 with
              | Some utime, Some stime, Some vsize, Some rss =>
                  StatOk {| PID := pid; Comm := comm; UTime := utime; STime := stime;
                            RSS := u64 (rss * 4096); VSize := vsize |}
              | _, _, _, _ => StatError ErrNumber
              end
        end
  end.

Definition ReadProcStat (head : option string) (pid : Z) : stat_result :=
  match head with
  | None => StatError ErrRead
  | Some buf => parseProcStat buf pid
  end.

Fixpoint status_loop (lines : list string) (rss vsize : Z) : proc_error + (Z * Z) :=
  match lines with
  | [] => inr (rss, vsize)
  | line :: rest =>
      let read name old :=
        if has_prefix line name
        then match parseStatusValue line with inl e => inl e | inr v => inr (u64 (v * 1024)) end
        else inr old in
      match read "VmRSS:"%string rss with
      | inl e => inl e
      | inr rss =>
          match read "VmSize:"%string vsize with
          | inl e => inl e
          | inr vsize => status_loop rest rss vsize
          end
      end
  end.

Definition parseProcStatus (buf : string) : proc_error + (Z * Z) := status_loop (lines_of buf) 0 0.

(** One read of the file into a buffer of 4096 bytes. *)
Definition ReadProcStatus (file : option string) : proc_error + (Z * Z) :=
  match file with
  | None => inl ErrRead
  | Some data => parseProcStatus (stake (Z.to_nat 4096) data)
  end.

(** [bytes.ReplaceAll(data, {0}, " ")] *)
Fixpoint nul_to_space (s : string) : string :=
  match s with
  | EmptyString => ""
  | String c rest =>
      String (if (nat_of_ascii c =? 0)%nat then ascii_of_nat 32 else c) (nul_to_space rest)
  end.

Definition ReadProcCmdline (file : option string) : option string :=
  data ← file;
  let cmdline := trim_space (nul_to_space data) in
  if streq cmdline "" then None else Some cmdline.

(** The inputs of the program's own tests. *)
Example parseProcStat_parens :
  parseProcStat "9999 ((sd-pam)) S 1 9999 9999 34816 1234 4194304 1234 0 0 0 10 20 0 0 20 0 1 0 12345 1000000 9999 18446744073709551615 1" 9999 =
  StatOk {| PID := 9999; Comm := "(sd-pam)"; UTime := 10; STime := 20; RSS := 9999 * 4096;
            VSize := 1000000 |}.
Proof. vm_compute. reflexivity. Qed.
Example parseCPUStatLine_short :
  parseCPUStatLine "cpu  12345 678 9012 345678" =
  inr {| User := 12345; Nice := 678; System := 9012; Idle := 345678; IOwait := 0; IRQ := 0;
         SoftIRQ := 0; Steal := 0; Guest := 0 |}.
Proof. vm_compute. reflexivity. Qed.

(** A file that ends at the closing parenthesis makes the slice after it panic. *)
Example parseProcStat_panics : parseProcStat "1 (a)" 1 = StatPanics.
Proof. vm_compute. reflexivity. Qed.

(** * Lemmas *)

Lemma stat_field_number fs i z :
  fs !! i = Some (fmt_d z) → in_u64 z → stat_field fs i = Some z.
Proof.
  intros Hi Hz. unfold stat_field. rewrite Hi. apply parse_uint_fmt_d. exact Hz.
Qed.

Lemma join_words_lacks ws b :
  b ≠ ascii_of_nat 32 → Forall (λ w, lacks w b = true) ws → lacks (join_words ws) b = true.
Proof.
  intros Hb. induction 1 as [|w ws Hw Hws IH]; [done|]. cbn [join_words].
  rewrite lacks_app, Hw. cbn [lacks]. rewrite IH, andb_true_r.
  apply negb_true_iff, Ascii.eqb_neq. by intros <-.
Qed.

(** The line of a process: its id, its name in parentheses and the fields. *)
Definition stat_line (pid : Z) (comm : string) (fs : list string) : string :=
  fmt_d pid +:+ " (" +:+ comm +:+ ") " +:+ join_words fs.

(** The name is found whatever it contains, and the fields after it. *)
Lemma parseProcStat_line pid comm fs :
  0 <= pid → Forall (λ w, word w = true ∧ lacks w ")" = true) fs →
  parseProcStat (stat_line pid comm fs) pid =
    if llen fs <? 22 then StatError ErrMalformed
    else
      match stat_field fs 11, stat_field fs 12, stat_field fs 20, stat_field fs 21 with
      | Some utime, Some stime, Some vsize, Some rss =>
          StatOk {| PID := pid; Comm := comm; UTime := utime; STime := stime;
                    RSS := u64 (rss * 4096); VSize := vsize |}
      | _, _, _, _ => StatError ErrNumber
      end.
Proof.
  intros Hpid Hfs. apply Forall_and in Hfs as [Hw Hl].
  set (s1 := fmt_d pid +:+ " "). set (s2 := s1 +:+ String "(" comm).
  assert (H1 : stat_line pid comm fs = s1 +:+ String "(" (comm +:+ ") " +:+ join_words fs))
    by (unfold s1, stat_line; by rewrite app_string_assoc).
  assert (H2 : stat_line pid comm fs = s2 +:+ String ")" (String " " (join_words fs)))
    by (rewrite H1; unfold s2; by rewrite app_string_assoc).
  assert (Hlast : last_index_byte (stat_line pid comm fs) ")" = Some (String.length s2)).
  { rewrite H2. apply last_index_app. cbn [lacks]. apply andb_true_iff.
    split; [done|]. by apply join_words_lacks. }
  assert (Hfirst : index_byte (stat_line pid comm fs) "(" = Some (String.length s1)).
  { rewrite H1. apply index_lacks. unfold s1. rewrite lacks_app. apply andb_true_iff.
    split; [|done]. apply fmt_d_lacks; [done|]. by intros c Hc ->. }
  assert (Hlen2 : String.length s2 = (String.length s1 + 1 + String.length comm)%nat)
    by (unfold s2; rewrite app_string_length; simpl; lia).
  unfold parseProcStat. rewrite Hlast, Hfirst.
  rewrite (proj2 (Nat.leb_gt _ _)) by lia.
  replace (stake (String.length s2 - (String.length s1 + 1))
    (sdrop (String.length s1 + 1) (stat_line pid comm fs))) with comm.
  2: { rewrite H1, sdrop_app_plus. cbn [sdrop].
       replace (String.length s2 - (String.length s1 + 1))%nat with (String.length comm) by lia.
       by rewrite stake_app. }
  unfold slice_from. rewrite H2, sdrop_app_plus, app_string_length.
  rewrite (proj2 (Nat.leb_le _ _)) by (simpl; lia). cbn [sdrop]. by rewrite fields_join.
Qed.

(** The first value a meminfo file gives for a name. *)
Definition first_value (name : string) (lines : list string) : option (proc_error + Z) :=
  list_find (λ line, has_prefix line name = true) lines ≫= λ '(_, line),
    Some (parseMeminfoValue line).

Lemma first_value_cons name line rest :
  first_value name (line :: rest) =
    if has_prefix line name then Some (parseMeminfoValue line) else first_value name rest.
Proof.
  unfold first_value. simpl. destruct (has_prefix line name) eqn:E.
  - by rewrite decide_True.
  - rewrite decide_False by congruence. by destruct (list_find _ rest) as [[]|].
Qed.

(** What the loop still looks for when some values are known. *)
Lemma meminfo_loop_spec lines total avail T :
  (total = Some T ∨ total = None ∧ first_value "MemTotal:" lines = Some (inr T)) →
  ∀ A, (avail = Some A ∨ avail = None ∧ first_value "MemAvailable:" lines = Some (inr A)) →
  meminfo_loop lines total avail = inr (Some T, Some A).
Proof.
  revert total avail. induction lines as [|line rest IH]; intros total avail HT A HA.
  - destruct HT as [->|[_ HT]]; [|done]. destruct HA as [->|[_ HA]]; [|done]. done.
  - rewrite !first_value_cons in HT, HA.
    destruct HT as [->|[-> HT]], HA as [->|[-> HA]]; cbn [meminfo_loop]; [done|..].
    all: try (destruct (has_prefix line "MemTotal:"); [injection HT as HT|]).
    all: try (destruct (has_prefix line "MemAvailable:"); [injection HA as HA|]).
    all: rewrite ?HT, ?HA; apply IH; first [by auto|left; congruence].
Qed.

Lemma meminfo_loop_no_avail lines total T :
  (total = Some T ∨ total = None ∧ first_value "MemTotal:" lines = Some (inr T)) →
  first_value "MemAvailable:" lines = None →
  meminfo_loop lines total None = inr (Some T, None).
Proof.
  revert total. induction lines as [|line rest IH]; intros total HT HA.
  - destruct HT as [->|[_ HT]]; done.
  - rewrite !first_value_cons in HT, HA.
    destruct (has_prefix line "MemAvailable:") eqn:E; [done|].
    destruct HT as [->|[-> HT]]; cbn [meminfo_loop]; rewrite E; [by apply IH; auto|].
    destruct (has_prefix line "MemTotal:"); [injection HT as ->|]; apply IH; auto.
Qed.

(** * Theorems *)

(** C31: parsing inverts the format of [/proc/<pid>/stat].  Whatever bytes the
    name of the process contains, blanks and parentheses included, a line made
    of the id, the name in parentheses and at least 22 fields yields that name
    and the fields 12, 13, 21 and 22 after it as times and sizes, resident
    pages counted as 4096 bytes; fewer fields are an error. *)
Theorem parseProcStat_roundtrip pid comm fs utime stime vsize rss :
  0 <= pid → Forall (λ w, word w = true ∧ lacks w ")" = true) fs →
  in_u64 utime → in_u64 stime → in_u64 vsize → in_u64 rss →
  fs !! 11%nat = Some (fmt_d utime) → fs !! 12%nat = Some (fmt_d stime) →
  fs !! 20%nat = Some (fmt_d vsize) → fs !! 21%nat = Some (fmt_d rss) →
  parseProcStat (stat_line pid comm fs) pid =
    StatOk {| PID := pid; Comm := comm; UTime := utime; STime := stime;
              RSS := u64 (rss * 4096); VSize := vsize |} ∧
  (∀ short : nat, (short < 22)%nat →
     parseProcStat (stat_line pid comm (take short fs)) pid = StatError ErrMalformed).
Proof.
  intros Hpid Hfs Hu Hs Hv Hr Eu Es Ev Er. split.
  - rewrite parseProcStat_line by done. apply lookup_lt_Some in Er as Hlen.
    rewrite (proj2 (Z.ltb_ge _ _)) by (unfold llen; lia).
    by rewrite (stat_field_number _ _ _ Eu Hu), (stat_field_number _ _ _ Es Hs),
      (stat_field_number _ _ _ Ev Hv), (stat_field_number _ _ _ Er Hr).
  - intros short Hshort. rewrite parseProcStat_line; [|done|by apply Forall_take].
    rewrite (proj2 (Z.ltb_lt _ _)); [done|]. unfold llen. rewrite length_take. lia.
Qed.

Definition sample_fields : list string :=
  replicate 11 "0"%string ++ ["7"; "8"]%string ++ replicate 7 "0"%string ++ ["9"; "3"]%string.

Lemma parseProcStat_roundtrip_witness :
  parseProcStat (stat_line 42 "a) (b" sample_fields) 42 =
  StatOk {| PID := 42; Comm := "a) (b"; UTime := 7; STime := 8; RSS := 12288; VSize := 9 |}.
Proof.
  apply (parseProcStat_roundtrip 42 "a) (b"
    sample_fields 7 8 9 3);
    [lia|repeat (constructor; [split; reflexivity|]); constructor|split; lia|split; lia|split; lia
    |split; lia|reflexivity|reflexivity|reflexivity|reflexivity].
Defined.

(** The memory of the host is computed from the first MemTotal and
    MemAvailable lines of the file, wherever they are and whatever the other
    lines hold.  When no more is available than there is, the used bytes are
    their difference and at most the total; without a MemAvailable line nothing
    counts as used; when more were available than there is in total, the
    unsigned subtraction wraps. *)
Theorem ReadMemoryInfo_spec buf T A :
  first_value "MemTotal:" (lines_of buf) = Some (inr T) →
  (first_value "MemAvailable:" (lines_of buf) = Some (inr A) ∨
   first_value "MemAvailable:" (lines_of buf) = None ∧ A = T) →
  0 <= T < 2 ^ 54 → 0 <= A < 2 ^ 54 →
  ∃ used, ReadMemoryInfo (Some buf) =
      inr {| TotalBytes := T * 1024; AvailableBytes := A * 1024; UsedBytes := used |} ∧
    (A <= T → used = (T - A) * 1024 ∧ 0 <= used <= T * 1024) ∧
    (T < A → used = 2 ^ 64 - (A - T) * 1024).
Proof.
  intros HT HA HTr HAr.
  assert (Hl : ∃ avail, meminfo_loop (lines_of buf) None None = inr (Some T, avail) ∧ default T avail = A).
  { destruct HA as [HA|[HA ->]].
    - exists (Some A). split; [|done]. apply meminfo_loop_spec; auto.
    - exists None. split; [|done]. apply meminfo_loop_no_avail; auto. }
  destruct Hl as (avail & Hl & Hd). exists (u64 (T * 1024 - A * 1024)).
  unfold ReadMemoryInfo. rewrite Hl, Hd.
  rewrite !(u64_id (_ * 1024)) by (unfold in_u64; lia). split_and!; [done| |].
  - intros Hle. rewrite u64_id by (unfold in_u64; lia). lia.
  - intros Hlt. unfold u64. rewrite <- (Z_mod_plus_full _ 1), Z.mod_small; lia.
Qed.

Lemma ReadMemoryInfo_spec_witness :
  ∃ used, ReadMemoryInfo (Some ("MemTotal: 100 kB" +:+ String newline "MemAvailable: 60 kB")) =
    inr {| TotalBytes := 102400; AvailableBytes := 61440; UsedBytes := used |} ∧
    used = 40960.
Proof.
  destruct (ReadMemoryInfo_spec ("MemTotal: 100 kB" +:+ String newline "MemAvailable: 60 kB") 100 60
    ltac:(vm_compute; reflexivity) ltac:(left; vm_compute; reflexivity) ltac:(lia) ltac:(lia))
    as (used & Hr & Hu & _).
  exists used. split; [exact Hr|]. apply Hu. lia.
Defined.
