(* ===== verification/Cgroup.v ===== *)
(** The cgroup resolver ([proxy/cgroup]): the container id of a process from
    the first line of its [cgroup] file, with a cache.

    The bytes of the file are an argument, [None] when it cannot be read. *)

From S2P Require Import Prelude GoStrings ProcText.

(** * Segments of the path *)

Definition isHex (s : string) : bool := if slen s =? 0 then false else all_hex s.

(** [isHex(s) && len(s) >= 8] *)
Definition is_short_id (s : string) : bool := isHex s && (8 <=? slen s).

Definition without_suffix (n : nat) (seg : string) : string := stake (String.length seg - n) seg.

Definition containerIDFromScope (seg : string) : string :=
  if negb (has_suffix seg ".scope") then ""
  else
    let base := without_suffix 6 seg in
    let whole := if isHex base && (8 <=? slen base) then base else "" in
    match last_index_byte base "-" with
    | None => whole
    | Some lastHyphen =>
        let candidate := sdrop (lastHyphen + 1) base in
        if is_short_id candidate then candidate
        else
          match last_index_byte (stake lastHyphen base) "-" with
          | None => whole
          | Some prevHyphen =>
              let candidate := sdrop (prevHyphen + 1) base in
              if is_short_id candidate then candidate else whole
          end
    end.

Definition containerIDFromSlice (seg : string) : string :=
  if negb (has_suffix seg ".slice") then ""
  else
    let base := without_suffix 6 seg in
    let by_hyphen :=
      match last_index_byte base "-" with
      | None => ""
      | Some lastHyphen =>
          let candidate := sdrop (lastHyphen + 1) base in
          if is_short_id candidate then candidate else ""
      end in
    if contains base "pod" then
      match last_index_str base "pod" with
      | Some podIdx =>
          if (podIdx + 3 <? String.length base)%nat then sdrop (podIdx + 3) base else by_hyphen
      | None => by_hyphen
      end
    else by_hyphen.

(** What the loop does with a segment: nothing, keep a candidate, or return. *)
Inductive verdict := Skip | Candidate (id : string) | Bare (id : string).

Definition segment_verdict (s : string) : verdict :=
  if streq s "" || streq s "system.slice" || streq s "kubepods.slice" || streq s "docker" then Skip
  else if streq s ".scope" || streq s ".slice" then Skip
  else if has_suffix s ".scope" then
    (if streq (containerIDFromScope s) "" then Skip else Candidate (containerIDFromScope s))
  else if has_suffix s ".slice" then
    (if streq (containerIDFromSlice s) "" then Skip else Candidate (containerIDFromSlice s))
  else if (32 <=? slen s) && isHex s then Bare s
  else Skip.

Fixpoint scan_segments (best : string) (segments : list string) : string :=
  match segments with
  | [] => best
  | s :: rest =>
      match segment_verdict s with
      | Skip => scan_segments best rest
      | Candidate id => scan_segments (if slen best <? slen id then id else best) rest
      | Bare id => id
      end
  end.

Definition extractContainerID (cgroupData : string) : string :=
  let line := match index_byte cgroupData newline with
              | Some nl => stake nl cgroupData
              | None => cgroupData
              end in
  let line := trim_space line in
  match split_byte line ":" !! 2%nat with
  | None => ""
  | Some part =>
      let path := trim_space part in
      if has_prefix path "/" then scan_segments "" (split_byte path "/") else ""
  end.

Example extract_docker_scope :
  extractContainerID "0::/system.slice/docker-0123456789abcdef.scope" = "0123456789abcdef"%string.
Proof. vm_compute. reflexivity. Qed.

(** The name of an intermediate slice is taken for an id when nothing better
    follows: "pod" is found inside "kubepods". *)
Example extract_intermediate_slice :
  extractContainerID "0::/kubepods.slice/kubepods-burstable.slice/x" = "s-burstable"%string.
Proof. vm_compute. reflexivity. Qed.

(** A path with a colon is cut there. *)
Example extract_colon :
  extractContainerID
    "0::/system.slice/containerd.service/kubepods-pod1:cri-containerd:0123456789abcdef0123456789abcdef"
  = ""%string.
Proof. vm_compute. reflexivity. Qed.

(** * The resolver *)

Abbreviation Resolver := (gmap Z string).

Definition NewResolver : Resolver := ∅.

(** [readCgroupContainerID] of a file: one read into a buffer of 1024 bytes. *)
Definition readCgroupContainerID (file : option string) : option string :=
  (λ data, extractContainerID (stake (Z.to_nat 1024) data)) <$> file.

(** [Resolve]; [file] is the process's file, if it can be read. *)
Definition Resolve (pid : Z) (file : option string) (cache : Resolver) : Resolver * string :=
  match cache !! pid with
  | Some cached => (cache, cached)
  | None =>
      match readCgroupContainerID file with
      | None => (cache, ""%string)
      | Some cid =>
          (if 0 <? slen cid then <[pid := cid]> cache else cache, cid)
      end
  end.

Definition Evict (pid : Z) (cache : Resolver) : Resolver := delete pid cache.

(** * Lemmas *)

Lemma Resolve_dom pid file cache : dom (Resolve pid file cache).1 ⊆ dom cache ∪ {[pid]}.
Proof.
  unfold Resolve. destruct (cache !! pid); simpl; [set_solver|].
  destruct (readCgroupContainerID file); simpl; [|set_solver]. destruct (_ <? _); simpl; [|set_solver].
  rewrite dom_insert_L. set_solver.
Qed.

(** An answer is remembered until it is evicted, whatever is read later. *)
Lemma Resolve_again pid file file' cache :
  (Resolve pid file cache).2 ≠ ""%string →
  Resolve pid file' (Resolve pid file cache).1 = ((Resolve pid file cache).1, (Resolve pid file cache).2).
Proof.
  unfold Resolve at 1 3 4 5. destruct (cache !! pid) as [c|] eqn:E; simpl.
  - intros _. unfold Resolve. by rewrite E.
  - destruct (readCgroupContainerID file) as [cid|]; [|done]. simpl. intros Hne.
    rewrite (proj2 (Z.ltb_lt _ _)).
    + unfold Resolve. by rewrite lookup_insert_eq.
    + pose proof (slen_nonneg cid) as Hn.
      destruct (Z.eq_dec (slen cid) 0) as [Hz|]; [|lia].
      by apply slen_zero in Hz.
Qed.

(** The candidates of a path, in order. *)
Definition candidates (segments : list string) : list string :=
  omap (λ s, match segment_verdict s with Candidate id => Some id | _ => None end) segments.

Definition bare (s : string) : bool := match segment_verdict s with Bare _ => true | _ => false end.

Lemma bare_verdict s : bare s = true → segment_verdict s = Bare s.
Proof.
  unfold bare. unfold segment_verdict.
  repeat (destruct (_ || _); [done|]). destruct (has_suffix s ".scope"); [by destruct (streq _ _)|].
  destruct (has_suffix s ".slice"); [by destruct (streq _ _)|]. by destruct (_ && _).
Qed.

Lemma scan_segments_bare best before s rest :
  Forall (λ x, bare x = false) before → bare s = true →
  scan_segments best (before ++ s :: rest) = s.
Proof.
  intros Hb Hs. revert best. induction Hb as [|x l Hx Hl IH]; intros best; simpl.
  - by rewrite bare_verdict.
  - unfold bare in Hx. destruct (segment_verdict x); [apply IH|apply IH|done].
Qed.

(** Without a bare id the loop returns the first of the longest candidates. *)
Lemma scan_segments_longest best segments :
  Forall (λ x, bare x = false) segments →
  scan_segments best segments ∈ best :: candidates segments ∧
  slen best <= slen (scan_segments best segments) ∧
  (∀ c, c ∈ candidates segments → slen c <= slen (scan_segments best segments)).
Proof.
  intros Hb. revert best. induction Hb as [|x l Hx Hl IH]; intros best; simpl.
  - split_and!; [set_solver|lia|set_solver].
  - unfold bare in Hx. unfold candidates. simpl. fold (candidates l).
    destruct (segment_verdict x) as [|id|id]; [apply IH| |done].
    change (omap _ l) with (candidates l).
    destruct (IH (if slen best <? slen id then id else best)) as (H1 & H2 & H3).
    destruct (Z.ltb_spec (slen best) (slen id)); split_and!; try lia; try set_solver.
    all: intros c [->|Hc]%elem_of_cons; [lia|by apply H3].
Qed.

(** * The format of the file *)

Fixpoint join_slash (segments : list string) : string :=
  match segments with
  | [] => ""
  | s :: rest => String "/" (s +:+ join_slash rest)
  end.

Lemma split_join_slash segments :
  segments ≠ [] → Forall (λ s, lacks s "/" = true) segments →
  split_byte (join_slash segments) "/" = ""%string :: segments.
Proof.
  intros Hne Hl. destruct Hl as [|s segments Hs Hl]; [done|]. clear Hne.
  cbn [join_slash split_byte]. rewrite Ascii.eqb_refl. f_equal.
  revert s Hs. induction Hl as [|t segments Ht Hl IH]; intros s Hs.
  - cbn [join_slash]. rewrite app_string_nil_r. by apply split_byte_lacks.
  - cbn [join_slash]. rewrite split_byte_app by done. by rewrite IH.
Qed.

(** A segment as container runtimes write them. *)
Definition segment_ok (s : string) : Prop :=
  plain s = true ∧ lacks s "/" = true ∧ lacks s ":" = true.

Lemma join_slash_plain segments :
  Forall segment_ok segments →
  plain (join_slash segments) = true ∧ lacks (join_slash segments) ":" = true.
Proof.
  induction 1 as [|s segments (Hp & _ & Hc) Hs [IHp IHc]]; [done|]. cbn [join_slash].
  cbn [plain lacks]. rewrite plain_app, lacks_app, Hp, Hc, IHp, IHc. done.
Qed.

Lemma extract_scan hier ctl segments tail :
  plain hier = true → lacks hier ":" = true → plain ctl = true → lacks ctl ":" = true →
  segments ≠ [] → Forall segment_ok segments →
  extractContainerID
    (hier +:+ String ":" (ctl +:+ String ":" (join_slash segments)) +:+ String newline tail) =
    scan_segments "" segments.
Proof.
  intros Hh1 Hh2 Hc1 Hc2 Hne Hs. destruct (join_slash_plain segments Hs) as [Hp Hc].
  set (line := hier +:+ String ":" (ctl +:+ String ":" (join_slash segments))).
  assert (Hplain : plain line = true).
  { unfold line. rewrite plain_app. cbn [plain]. rewrite plain_app. cbn [plain].
    by rewrite Hh1, Hc1, Hp. }
  assert (Hnl : lacks line newline = true).
  { clear -Hplain. induction line as [|c l IH]; [done|]. cbn [plain lacks] in *.
    apply andb_true_iff in Hplain as [Hc Hl]. rewrite IH, andb_true_r by done.
    apply negb_true_iff, Ascii.eqb_neq. by intros ->. }
  unfold extractContainerID. rewrite <- app_string_assoc. fold line.
  rewrite index_lacks by done. rewrite stake_app, trim_space_plain by done.
  unfold line. rewrite !split_byte_app, split_byte_lacks by done. simpl.
  rewrite trim_space_plain by done.
  destruct segments as [|s segments]; [done|]. cbn [join_slash has_prefix].
  rewrite Ascii.eqb_refl, has_prefix_nil. simpl andb. cbv iota.
  change (String "/" (s +:+ join_slash segments)) with (join_slash (s :: segments)).
  rewrite split_join_slash; [reflexivity|discriminate|].
  apply (Forall_impl _ _ _ Hs). by intros x (_ & Hx & _).
Qed.

Lemma hex_short_id id : all_hex id = true → 8 <= slen id → is_short_id id = true.
Proof.
  intros Hh Hl. unfold is_short_id, isHex. rewrite (proj2 (Z.eqb_neq _ _)) by lia.
  rewrite Hh. by apply Z.leb_le.
Qed.

Lemma scope_verdict p id :
  all_hex id = true → 8 <= slen id →
  segment_verdict (p +:+ String "-" id +:+ ".scope") = Candidate id.
Proof.
  intros Hh Hl. rewrite <- app_string_assoc.
  set (base := p +:+ String "-" id). set (seg := base +:+ ".scope").
  assert (Hsuf : has_suffix seg ".scope" = true) by apply has_suffix_app.
  assert (Hbase : without_suffix 6 seg = base).
  { unfold without_suffix, seg. rewrite app_string_length.
    replace (String.length base + String.length ".scope" - 6)%nat with (String.length base)
      by (simpl; lia). apply stake_app. }
  assert (Hid : containerIDFromScope seg = id).
  { unfold containerIDFromScope. rewrite Hsuf, Hbase. simpl negb. cbv iota.
    replace (last_index_byte base "-") with (Some (String.length p))
      by (symmetry; apply last_index_app; by apply all_hex_lacks).
    replace (sdrop (String.length p + 1) base) with id
      by (unfold base; by rewrite sdrop_app_plus).
    by rewrite hex_short_id. }
  assert (Hlen : (15 <= String.length seg)%nat).
  { unfold seg, base. rewrite !app_string_length. simpl. unfold slen in Hl. lia. }
  assert (Hne : ∀ t, (String.length t < 15)%nat → streq seg t = false).
  { intros t Ht. unfold streq. apply bool_decide_eq_false. intros Heq.
    rewrite Heq in Hlen. lia. }
  unfold segment_verdict. rewrite !Hne by (simpl; lia). simpl orb. cbv iota.
  rewrite Hsuf, Hid. unfold streq. rewrite bool_decide_eq_false_2; [done|].
  intros ->. unfold slen in Hl. simpl in Hl. lia.
Qed.

(** * Theorems *)

(** The container id of a process.  For any cgroup file whose first line
    is [hierarchy:controllers:/path], the result is the first segment of the
    path that is itself an id of at least 32 hexadecimal digits; if there is
    none, it is the longest id that a scope or slice of the path contains, and
    empty if none contains one.  A scope whose name ends in a dash and an id of
    eight or more digits, as docker, podman and containerd name them, contains
    that id.  Only the first line is read. *)
Theorem extractContainerID_spec hier ctl segments tail :
  plain hier = true → lacks hier ":" = true → plain ctl = true → lacks ctl ":" = true →
  segments ≠ [] → Forall segment_ok segments →
  let r := extractContainerID
    (hier +:+ String ":" (ctl +:+ String ":" (join_slash segments)) +:+ String newline tail) in
  (∀ before s rest, segments = before ++ s :: rest →
     Forall (λ x, bare x = false) before → bare s = true → r = s) ∧
  (Forall (λ x, bare x = false) segments →
     (r = ""%string ∨ r ∈ candidates segments) ∧
     (∀ c, c ∈ candidates segments → slen c <= slen r)) ∧
  (∀ p id, all_hex id = true → 8 <= slen id → Forall (λ x, bare x = false) segments →
     (p +:+ String "-" id +:+ ".scope")%string ∈ segments →
     (∀ c, c ∈ candidates segments → c ≠ id → slen c < slen id) → r = id).
Proof.
  intros Hh1 Hh2 Hc1 Hc2 Hne Hs. rewrite extract_scan by done. cbv zeta. split_and!.
  - intros before s rest -> Hb Hbare. by apply scan_segments_bare.
  - intros Hb. destruct (scan_segments_longest "" segments Hb) as (H1 & _ & H3).
    split; [by apply elem_of_cons in H1|exact H3].
  - intros p id Hh Hl Hb Hin Hlong.
    assert (Hc : id ∈ candidates segments).
    { unfold candidates. apply list_elem_of_omap. eexists. split; [exact Hin|].
      by rewrite scope_verdict. }
    destruct (scan_segments_longest "" segments Hb) as ([Hr|Hr]%elem_of_cons & _ & H3).
    + specialize (H3 id Hc). rewrite Hr in H3. unfold slen at 2 in H3. simpl in H3. lia.
    + destruct (decide (scan_segments "" segments = id)) as [|Hd]; [done|].
      specialize (Hlong _ Hr Hd). specialize (H3 id Hc). lia.
Qed.

Definition sample_segments : list string :=
  ["kubepods.slice"; "kubepods-burstable.slice"; "cri-containerd-0123456789abcdef.scope"]%string.

Lemma extractContainerID_spec_witness :
  extractContainerID
    ("0" +:+ String ":" ("" +:+ String ":" (join_slash sample_segments)) +:+ String newline "1:x:/y")
  = "0123456789abcdef"%string.
Proof.
  destruct (extractContainerID_spec "0" "" sample_segments "1:x:/y" eq_refl eq_refl eq_refl eq_refl
    ltac:(discriminate) ltac:(repeat (constructor; [split_and!; reflexivity|]); constructor))
    as (_ & _ & Hscope).
  apply (Hscope "cri-containerd" "0123456789abcdef"); try (vm_compute; congruence).
  - repeat constructor.
  - apply list_elem_of_In. vm_compute. auto.
  - intros c Hc. apply list_elem_of_In in Hc.
    change (candidates sample_segments) with ["s-burstable"; "0123456789abcdef"]%string in Hc.
    destruct Hc as [<-|[<-|[]]]; intros; [vm_compute; reflexivity|congruence].
Defined.
