(* ===== verification/Gpu.v ===== *)
(** The GPU sampler ([proxy/gpu]): enumeration of the devices and their MIG
    partitions, one sample of all of them, and the life cycle of the sampler.

    The NVML library is not part of the repository.  Device handles are an
    abstract type; what the library answers to each call is an argument, [None]
    where a call does not return [SUCCESS] (the value is then never used).  GPU
    and compute instances, which the code only passes back to the library, are
    represented by what the library answers about them. *)

From S2P Require Import Prelude GoFloat GoStrings Model.

Inductive Return := SUCCESS | ERROR_LIBRARY_NOT_FOUND | ERROR_OTHER (code : Z).

(** The errors of [init], [sample] and [Run]. *)
Inductive gpu_error :=
  | LibraryNotFound                  (* wraps ErrGPUNotAvailable *)
  | InitFailed (ret : Return)
  | CountFailed
  | NotInitialised
  | ErrGPUNotAvailable.

Record ProcessInfo := { Pid : Z; UsedGpuMemory : Z }.

(** * The platform sampler on Linux *)

Section sampler.

Context {Device : Type}.

Record nvmlMigInstance := {
  MiIndex : Z;
  MiHandle : Device;
  MiGpuInstanceID : Z;
  MiComputeInstanceID : Z
}.

Record nvmlDevice := {
  NdIndex : Z;
  NdHandle : Device;
  NdUUID : string;
  NdModel : string;
  NdPCIBusID : string;
  NdHasMIG : bool;
  NdMigInstances : list nvmlMigInstance
}.

(** A GPU instance: its info (the device and the id), and its compute
    instances, each with its id. *)
Record gpu_instance := {
  GetInfo : option (Device * Z);
  GetComputeInstances : option (list (option Z))
}.

(** What the library answers about the device of one index. *)
Record device_info := {
  GetHandle : option Device;
  GetUUID : option string;
  GetName : option string;
  GetPciInfo : option string;
  GetMigMode : option Z;
  GetGpuInstances : option (list gpu_instance)
}.

(** [trimNull]; a [range] over a string visits a zero byte as the rune 0. *)
Fixpoint trimNull (s : string) : string :=
  match s with
  | EmptyString => ""
  | String c rest => if (nat_of_ascii c =? 0)%nat then "" else String c (trimNull rest)
  end.

(** The instances of one GPU instance, numbered from [next]. *)
Definition instances_of (next : Z) (gi : gpu_instance) : list nvmlMigInstance :=
  match GetInfo gi with
  | None => []
  | Some (device, gid) =>
      let whole := [{| MiIndex := next; MiHandle := device; MiGpuInstanceID := gid;
                       MiComputeInstanceID := 0 |}] in
      match GetComputeInstances gi with
      | None | Some [] => whole
      | Some cis =>
          imap (λ k ci, {| MiIndex := next + Z.of_nat k; MiHandle := device; MiGpuInstanceID := gid;
                           MiComputeInstanceID := ci |}) (omap id cis)
      end
  end.

Definition enumerateMIGInstances (d : device_info) : list nvmlMigInstance :=
  match GetMigMode d with
  | None | Some 0 => []
  | Some _ =>
      foldl (λ instances gi, instances ++ instances_of (llen instances) gi) []
        (default [] (GetGpuInstances d))
  end.

(** One iteration of the loop of [init]. *)
Definition open_device (i : Z) (d : device_info) : option nvmlDevice :=
  dev ← GetHandle d;
  let migs := enumerateMIGInstances d in
  Some {| NdIndex := i; NdHandle := dev;
          NdUUID := default "" (GetUUID d);
          NdModel := default "" (GetName d);
          NdPCIBusID := default "" (trimNull <$> GetPciInfo d);
          NdHasMIG := 0 <? llen migs;
          NdMigInstances := migs |}.

Record platformSampler := { PsDevices : list nvmlDevice; PsInitd : bool }.

Definition newPlatformSampler : platformSampler := {| PsDevices := []; PsInitd := false |}.

(** The library as one initialisation finds it. *)
Record library := {
  Init : Return;
  DeviceGetCount : option Z;
  device_at : Z → device_info
}.

(** [init]; the last component is the change in the number of successful
    initialisations of the library not yet shut down. *)
Definition init (lib : library) (p : platformSampler) : platformSampler * option gpu_error * Z :=
  match Init lib with
  | ERROR_LIBRARY_NOT_FOUND => (p, Some LibraryNotFound, 0)
  | ERROR_OTHER code => (p, Some (InitFailed (ERROR_OTHER code)), 0)
  | SUCCESS =>
      match DeviceGetCount lib with
      | None => (p, Some CountFailed, 0)  (* initialised, and shut down again *)
      | Some count =>
          ({| PsDevices := PsDevices p ++ omap (λ i, open_device i (device_at lib i)) (seqZ 0 count);
              PsInitd := true |}, None, 1)
      end
  end.

(** ** One sample *)

(** What the library answers about a device when it is sampled: utilisation
    (GPU, memory), memory (total, used), the other figures, and the lists of
    compute and graphics processes. *)
Record answers := {
  GetUtilizationRates : option (Z * Z);
  GetMemoryInfo : option (Z * Z);
  GetPowerUsage : option Z;
  GetTemperature : option Z;
  GetGraphicsClock : option Z;
  GetMemoryClock : option Z;
  GetComputeRunningProcesses : option (list ProcessInfo);
  GetGraphicsRunningProcesses : option (list ProcessInfo)
}.

(** The body of both loops of [collectProcesses]. *)
Definition see (seen : gmap Z Z) (p : ProcessInfo) : gmap Z Z :=
  if Pid p =? 0 then seen
  else
    match seen !! Pid p with
    | Some existing =>
        if existing <? UsedGpuMemory p then <[Pid p := UsedGpuMemory p]> seen else seen
    | None => <[Pid p := UsedGpuMemory p]> seen
    end.

Definition see_all (procs : option (list ProcessInfo)) (seen : gmap Z Z) : gmap Z Z :=
  foldl see seen (default [] procs).

Definition collectProcesses `{MapRange} (n : nat) (a : answers) : list GPUProcessMetrics :=
  let seen := see_all (GetComputeRunningProcesses a) ∅ in
  let seen := see_all (GetGraphicsRunningProcesses a) seen in
  (λ '(pid, vram), {| GPID := pid; GVRAMUsedBytes := vram |}) <$> range n seen.

(** [math.Round(float64(used)/float64(total)*1000) / 10] *)
Definition memory_pct (total used : Z) : float64 :=
  fdiv (f_round (fmul (fdiv (f_of_Z used) (f_of_Z total)) (f_of_Z 1000))) (f_of_Z 10).

Definition collectDeviceMetrics `{MapRange} (n : nat) (a : answers) (globalIndex : Z) (nd : nvmlDevice) :
    GPUDeviceMetrics :=
  let '(sm, memutil) :=
    match GetUtilizationRates a with
    | Some (g, m) => (f_of_Z g, f_of_Z m)
    | None => (f_zero, f_zero)
    end in
  let '(total, used, memutil) :=
    match GetMemoryInfo a with
    | Some (total, used) => (total, used, if 0 <? total then memory_pct total used else memutil)
    | None => (0, 0, memutil)
    end in
  {| GIndex := globalIndex; GUUID := NdUUID nd; GModel := NdModel nd; GPCIBusID := NdPCIBusID nd;
     GMigDeviceGUID := "";
     GSMUtilizationPct := sm; GMemoryUtilizationPct := memutil;
     GMemoryTotalBytes := total; GMemoryUsedBytes := used;
     GPowerDrawWatts := match GetPowerUsage a with
                        | Some p => fdiv (f_of_Z p) (f_of_Z 1000) | None => f_zero end;
     GTemperatureCelsius := default 0 (GetTemperature a);
     GGraphicsClockMHz := default 0 (GetGraphicsClock a);
     GMemoryClockMHz := default 0 (GetMemoryClock a);
     GRunningProcesses := collectProcesses n a |}.

Definition mig_guid (nd : nvmlDevice) (mi : nvmlMigInstance) : string :=
  "MIG-" +:+ NdUUID nd +:+ "/" +:+ fmt_d (MiGpuInstanceID mi) +:+ "/" +:+
    fmt_d (MiComputeInstanceID mi).

Definition with_guid (guid : string) (m : GPUDeviceMetrics) : GPUDeviceMetrics :=
  {| GIndex := GIndex m; GUUID := GUUID m; GModel := GModel m; GPCIBusID := GPCIBusID m;
     GMigDeviceGUID := guid;
     GSMUtilizationPct := GSMUtilizationPct m; GMemoryUtilizationPct := GMemoryUtilizationPct m;
     GMemoryTotalBytes := GMemoryTotalBytes m; GMemoryUsedBytes := GMemoryUsedBytes m;
     GPowerDrawWatts := GPowerDrawWatts m; GTemperatureCelsius := GTemperatureCelsius m;
     GGraphicsClockMHz := GGraphicsClockMHz m; GMemoryClockMHz := GMemoryClockMHz m;
     GRunningProcesses := GRunningProcesses m |}.

(** The library answers about a handle at the position [globalIndex] of the
    sample, so that readings of one handle may differ within a sample; the map
    order may differ as well. *)
Context `{MapRange}.

Definition sample_device (n : nat) (query : Device → Z → answers) (all : list GPUDeviceMetrics)
    (nd : nvmlDevice) : list GPUDeviceMetrics :=
  let metrics h all :=
    collectDeviceMetrics (n + length all) (query h (llen all)) (llen all) nd in
  if NdHasMIG nd && (0 <? llen (NdMigInstances nd)) then
    foldl (λ all mi, all ++ [with_guid (mig_guid nd mi) (metrics (MiHandle mi) all)])
      all (NdMigInstances nd)
  else all ++ [metrics (NdHandle nd) all].

(** [sample]; the global index is the number of entries so far. *)
Definition sample (n : nat) (query : Device → Z → answers) (p : platformSampler) :
    gpu_error + list GPUDeviceMetrics :=
  if negb (PsInitd p) then inl NotInitialised
  else inr (foldl (sample_device n query) [] (PsDevices p)).

Definition close (p : platformSampler) : platformSampler * Z :=
  if PsInitd p then ({| PsDevices := PsDevices p; PsInitd := false |}, -1) else (p, 0).

(** * The sampler *)

Record GPUSampler := {
  impl : platformSampler;
  devices : list GPUDeviceMetrics;
  avail : bool
}.

(** [NewGPUSampler]: creating the platform's sampler cannot fail. *)
Definition NewGPUSampler : GPUSampler :=
  {| impl := newPlatformSampler; devices := []; avail := true |}.

Definition Run (lib : library) (s : GPUSampler) : GPUSampler * option gpu_error * Z :=
  if negb (avail s) then (s, Some ErrGPUNotAvailable, 0)
  else
    match init lib (impl s) with
    | (p, Some err, d) => ({| impl := p; devices := devices s; avail := false |}, Some err, d)
    | (p, None, d) => ({| impl := p; devices := devices s; avail := true |}, None, d)
    end.

Definition Sample (n : nat) (query : Device → Z → answers) (s : GPUSampler) : GPUSampler :=
  if negb (avail s) then s
  else
    match sample n query (impl s) with
    | inl _ => s
    | inr ds => {| impl := impl s; devices := ds; avail := avail s |}
    end.

Definition Available (s : GPUSampler) : bool := avail s.

Definition LastGPUDevices (s : GPUSampler) : list GPUDeviceMetrics := devices s.

Definition Close (s : GPUSampler) : GPUSampler * Z :=
  let '(p, d) := close (impl s) in
  ({| impl := p; devices := devices s; avail := avail s |}, d).

End sampler.

Arguments nvmlMigInstance : clear implicits.
Arguments nvmlDevice : clear implicits.
Arguments gpu_instance : clear implicits.
Arguments device_info : clear implicits.
Arguments platformSampler : clear implicits.
Arguments library : clear implicits.
Arguments GPUSampler : clear implicits.

(** * Lemmas *)

(** The running maximum of the usages of one process. *)
Definition omax (o : option Z) (v : Z) : option Z := Some (from_option (Z.max v) v o).

Lemma omax_spec us o v :
  foldl omax o us = Some v ↔
  (o = Some v ∨ v ∈ us) ∧ (∀ u, u ∈ us → u <= v) ∧ (∀ u, o = Some u → u <= v).
Proof.
  revert o. induction us as [|x us IH]; intros o; simpl.
  - split; [|intros [[?|?%elem_of_nil] _]; done].
    intros ->. split_and!; [by left|by intros u ?%elem_of_nil|]. intros u [= ->]. lia.
  - rewrite IH. setoid_rewrite elem_of_cons. unfold omax. destruct o as [e|]; simpl.
    + split.
      * intros (Hv & Hus & He). specialize (He _ eq_refl). split_and!.
        -- destruct Hv as [[= Hv]|Hv]; [|tauto].
           destruct (Z.max_spec x e) as [[_ E]|[_ E]]; rewrite E in Hv; subst; auto.
        -- intros u [->|Hu]; [lia|auto].
        -- intros u [= <-]. lia.
      * intros (Hv & Hus & He). specialize (He _ eq_refl). pose proof (Hus x ltac:(auto)).
        split_and!; [|by auto|intros u [= <-]; lia].
        destruct Hv as [[= ->]|[->|Hv]]; [left; f_equal; lia|left; f_equal; lia|by right].
    + split.
      * intros (Hv & Hus & He). specialize (He _ eq_refl). split_and!; [|intros u [->|?]; auto|done].
        destruct Hv as [[= ->]|?]; auto.
      * intros (Hv & Hus & _). split_and!; [|by auto|intros u [= <-]; auto].
        destruct Hv as [?|[->|?]]; auto; done.
Qed.

Definition usages (p : Z) (l : list ProcessInfo) : list Z :=
  UsedGpuMemory <$> filter (λ i, Pid i = p) l.

Lemma elem_of_usages p v l : v ∈ usages p l ↔ ∃ i, i ∈ l ∧ Pid i = p ∧ UsedGpuMemory i = v.
Proof.
  unfold usages. rewrite list_elem_of_fmap. setoid_rewrite list_elem_of_filter. naive_solver.
Qed.

Lemma see_lookup seen x p :
  see seen x !! p =
    if bool_decide (p ≠ 0 ∧ Pid x = p) then omax (seen !! p) (UsedGpuMemory x) else seen !! p.
Proof.
  unfold see. case_bool_decide as Hp.
  - destruct Hp as [Hp ->]. rewrite (proj2 (Z.eqb_neq _ _)) by done.
    unfold omax. destruct (seen !! p) as [e|] eqn:E; simpl; [|by rewrite lookup_insert_eq].
    destruct (Z.ltb_spec e (UsedGpuMemory x)); [rewrite lookup_insert_eq|rewrite E]; f_equal; lia.
  - destruct (Z.eqb_spec (Pid x) 0); [done|]. assert (Pid x ≠ p) by naive_solver.
    destruct (seen !! Pid x); [destruct (_ <? _)|]; by rewrite ?lookup_insert_ne.
Qed.

Lemma see_fold l seen p :
  foldl see seen l !! p = if bool_decide (p = 0) then seen !! p else foldl omax (seen !! p) (usages p l).
Proof.
  revert seen. induction l as [|x l IH]; intros seen; [by case_bool_decide|].
  simpl. rewrite IH, see_lookup. unfold usages. rewrite filter_cons.
  repeat case_bool_decide; try destruct (decide _); naive_solver.
Qed.

(** Every process that either list mentions. *)
Definition mentioned (a : answers) : list ProcessInfo :=
  default [] (GetComputeRunningProcesses a) ++ default [] (GetGraphicsRunningProcesses a).

Lemma elem_of_processes `{MapRange} n a p v :
  {| GPID := p; GVRAMUsedBytes := v |} ∈ collectProcesses n a ↔
  p ≠ 0 ∧ v ∈ usages p (mentioned a) ∧ ∀ u, u ∈ usages p (mentioned a) → u <= v.
Proof.
  assert (E : {| GPID := p; GVRAMUsedBytes := v |} ∈ collectProcesses n a ↔
    foldl see ∅ (mentioned a) !! p = Some v).
  { unfold collectProcesses, see_all, mentioned. rewrite list_elem_of_fmap, foldl_app.
    split.
    - intros ([q w] & [= -> ->] & Hin). by apply elem_of_range in Hin.
    - intros Hv. exists (p, v). by rewrite elem_of_range. }
  rewrite E, see_fold, lookup_empty. case_bool_decide; [naive_solver|].
  rewrite omax_spec. naive_solver.
Qed.

Lemma NoDup_processes `{MapRange} n a : NoDup (GPID <$> collectProcesses n a).
Proof.
  unfold collectProcesses. rewrite <- list_fmap_compose.
  erewrite list_fmap_ext; [apply (NoDup_fst_range n)|]. by intros ? [? ?] _.
Qed.

(** ** The entries of a sample *)

Section entries.

Context {Device : Type} `{MapRange}.
Implicit Types (nd : nvmlDevice Device) (query : Device → Z → answers).

Lemma with_guid_none n a k nd :
  with_guid "" (collectDeviceMetrics n a k nd) = collectDeviceMetrics n a k nd.
Proof.
  unfold collectDeviceMetrics. destruct (GetUtilizationRates a) as [[? ?]|];
    by destruct (GetMemoryInfo a) as [[? ?]|].
Qed.

(** What a device contributes: the handle asked and the identifier of the
    partition, for each of its partitions, or once for the whole device. *)
Definition device_entries nd : list (nvmlDevice Device * Device * string) :=
  if NdHasMIG nd && (0 <? llen (NdMigInstances nd))
  then (λ mi, (nd, MiHandle mi, mig_guid nd mi)) <$> NdMigInstances nd
  else [(nd, NdHandle nd, ""%string)].

Definition sample_entries (devs : list (nvmlDevice Device)) : list (nvmlDevice Device * Device * string) :=
  devs ≫= device_entries.

(** The metrics of one entry at a position of the sample. *)
Definition entry_metrics (n : nat) query (k : nat) (e : nvmlDevice Device * Device * string) :
    GPUDeviceMetrics :=
  let '(nd, h, guid) := e in
  with_guid guid (collectDeviceMetrics (n + k) (query h (Z.of_nat k)) (Z.of_nat k) nd).

Lemma imap_snoc {A B} (f : nat → A → B) l x : imap f (l ++ [x]) = imap f l ++ [f (length l) x].
Proof. rewrite imap_app. simpl. by rewrite Nat.add_0_r. Qed.

Lemma sample_device_entries n query es nd :
  sample_device n query (imap (entry_metrics n query) es) nd =
  imap (entry_metrics n query) (es ++ device_entries nd).
Proof.
  assert (Hlen : ∀ es, llen (imap (entry_metrics n query) es) = Z.of_nat (length es))
    by (intros; unfold llen; by rewrite length_imap).
  unfold sample_device, device_entries. destruct (_ && _).
  - revert es. induction (NdMigInstances nd) as [|mi mis IH]; intros es; simpl;
      [by rewrite app_nil_r|].
    rewrite Hlen, length_imap, (cons_middle _ es), app_assoc, <- IH, imap_snoc. done.
  - rewrite Hlen, length_imap, imap_snoc. do 2 f_equal. simpl. by rewrite with_guid_none.
Qed.

Lemma sample_imap n query devs :
  foldl (sample_device n query) [] devs = imap (entry_metrics n query) (sample_entries devs).
Proof.
  change [] with (imap (entry_metrics n query) []) at 1.
  enough (Hgen : ∀ es, foldl (sample_device n query) (imap (entry_metrics n query) es) devs =
    imap (entry_metrics n query) (es ++ sample_entries devs)) by apply (Hgen []).
  induction devs as [|nd devs IH]; intros es; simpl; [by rewrite app_nil_r|].
  unfold sample_entries. simpl. by rewrite sample_device_entries, IH, app_assoc.
Qed.

Lemma entry_metrics_index n query k e : GIndex (entry_metrics n query k e) = Z.of_nat k.
Proof.
  destruct e as [[nd h] guid]. simpl. unfold collectDeviceMetrics.
  destruct (GetUtilizationRates _) as [[? ?]|]; by destruct (GetMemoryInfo _) as [[? ?]|].
Qed.

(** ** The numbering of partitions *)

(** The partitions the library reports, without their numbers: those of a GPU
    instance without compute instances count as one. *)
Definition partitions (gi : gpu_instance Device) : list (Device * Z * Z) :=
  match GetInfo gi with
  | None => []
  | Some (dev, gid) =>
      match GetComputeInstances gi with
      | None | Some [] => [(dev, gid, 0)]
      | Some cis => (λ ci, (dev, gid, ci)) <$> omap (λ ci, ci) cis
      end
  end.

Definition number (k : nat) (x : Device * Z * Z) : nvmlMigInstance Device :=
  let '(dev, gid, cid) := x in
  {| MiIndex := Z.of_nat k; MiHandle := dev; MiGpuInstanceID := gid; MiComputeInstanceID := cid |}.

Lemma instances_of_number (xs : list (Device * Z * Z)) gi :
  instances_of (llen xs) gi = imap (λ k, number (length xs + k)%nat) (partitions gi).
Proof.
  unfold instances_of, partitions. destruct (GetInfo gi) as [[dev gid]|]; [|done].
  assert (Hone : ∀ c, [{| MiIndex := llen xs; MiHandle := dev; MiGpuInstanceID := gid;
      MiComputeInstanceID := c |}] = imap (λ k, number (length xs + k)%nat) [(dev, gid, c)])
    by (intros c; unfold llen; simpl; by rewrite Nat.add_0_r).
  destruct (GetComputeInstances gi) as [[|ci cis]|]; [apply Hone| |apply Hone].
  rewrite imap_fmap. apply imap_ext. intros k c _. simpl. f_equal. unfold llen. lia.
Qed.

Lemma enumerate_number (d : device_info Device) :
  enumerateMIGInstances d =
    match GetMigMode d with
    | None | Some 0 => []
    | Some _ => imap number (default [] (GetGpuInstances d) ≫= partitions)
    end.
Proof.
  unfold enumerateMIGInstances. destruct (GetMigMode d) as [[| |]|]; try done.
  all: generalize (default [] (GetGpuInstances d)); intros gis.
  all: change [] with (imap number []) at 1.
  all: enough (Hgen : ∀ xs, foldl (λ mis gi, mis ++ instances_of (llen mis) gi) (imap number xs) gis =
    imap number (xs ++ (gis ≫= partitions))) by apply (Hgen []).
  all: induction gis as [|gi gis IH]; intros xs; simpl; [by rewrite app_nil_r|].
  all: replace (llen (imap number xs)) with (llen xs) by (unfold llen; by rewrite length_imap).
  all: rewrite instances_of_number, app_assoc, <- IH, (imap_app number xs); done.
Qed.

End entries.

Section balance.

Context {Device : Type} `{MapRange}.

Lemma Sample_impl n (query : Device → Z → answers) s :
  impl (Sample n query s) = impl s ∧ Available (Sample n query s) = Available s.
Proof. unfold Sample, Available. destruct (avail s) eqn:E; [|done]. simpl. destruct (sample n query (impl s)); by split. Qed.

(** Starting succeeds when the library initialises and counts its devices. *)
Definition nvml_ok (lib : library Device) : bool :=
  match Init lib, DeviceGetCount lib with SUCCESS, Some _ => true | _, _ => false end.

Lemma Run_New lib :
  let '(s, _, opened) := Run lib (NewGPUSampler (Device := Device)) in
  Available s = nvml_ok lib ∧ PsInitd (impl s) = nvml_ok lib ∧
  opened = if nvml_ok lib then 1 else 0.
Proof. unfold Run, init, nvml_ok. simpl. destruct (Init lib), (DeviceGetCount lib); by split_and!. Qed.

Lemma Close_spec (s : GPUSampler Device) :
  Available (Close s).1 = Available s ∧ (Close s).2 = if PsInitd (impl s) then -1 else 0.
Proof. unfold Close, close. destruct (PsInitd (impl s)); by split. Qed.

End balance.

(** * Types *)

Definition in_u32 (z : Z) : Prop := 0 <= z < 2 ^ 32.
Definition NUL : ascii := ascii_of_nat 0.

#[local] Instance in_u32_dec z : Decision (in_u32 z).
Proof. unfold in_u32. apply _. Defined.

(** The ranges of the types of the library. *)
Definition process_info_typed (p : ProcessInfo) : Prop := in_u32 (Pid p) ∧ in_u64 (UsedGpuMemory p).

Definition answers_typed (a : answers) : Prop :=
  (∀ t u, GetMemoryInfo a = Some (t, u) → in_u64 t ∧ in_u64 u) ∧
  (∀ z, GetTemperature a = Some z ∨ GetGraphicsClock a = Some z ∨ GetMemoryClock a = Some z → in_u32 z) ∧
  Forall process_info_typed (mentioned a).

(** What the rest of the agent relies on: every field in the range of its
    type, no percentage or power that is NaN, and the processes are real ones,
    each listed once. *)
Definition metrics_typed (m : GPUDeviceMetrics) : Prop :=
  0 <= GIndex m ∧ lacks (GPCIBusID m) NUL = true ∧
  not_nan (GSMUtilizationPct m) ∧ not_nan (GMemoryUtilizationPct m) ∧ not_nan (GPowerDrawWatts m) ∧
  in_u64 (GMemoryTotalBytes m) ∧ in_u64 (GMemoryUsedBytes m) ∧
  in_u32 (GTemperatureCelsius m) ∧ in_u32 (GGraphicsClockMHz m) ∧ in_u32 (GMemoryClockMHz m) ∧
  NoDup (GPID <$> GRunningProcesses m) ∧
  ∀ p, p ∈ GRunningProcesses m → 0 < GPID p < 2 ^ 32 ∧ in_u64 (GVRAMUsedBytes p).

Lemma trimNull_lacks s : lacks (trimNull s) NUL = true.
Proof.
  induction s as [|c s IH]; simpl; [done|]. destruct (Nat.eqb_spec (nat_of_ascii c) 0) as [E|E]; [done|].
  simpl. rewrite IH, andb_true_r. destruct (Ascii.eqb_spec c NUL); [|done]. by subst.
Qed.

Lemma memory_pct_not_nan total used : 0 < total < 2 ^ 64 → not_nan (memory_pct total used).
Proof.
  intros Ht. unfold memory_pct. apply fdiv_not_nan; [|done]. apply f_round_not_nan.
  apply fmul_not_nan; [|done]. apply fdiv_not_nan; [apply f_of_Z_not_nan|by apply f_of_Z_regular].
Qed.

Lemma default_u32 o : (∀ z : Z, o = Some z → in_u32 z) → in_u32 (default 0 o).
Proof. destruct o; simpl; [by auto|]. intros _. unfold in_u32. lia. Qed.

Lemma processes_typed `{MapRange} n a p :
  Forall process_info_typed (mentioned a) → p ∈ collectProcesses n a →
  0 < GPID p < 2 ^ 32 ∧ in_u64 (GVRAMUsedBytes p).
Proof.
  destruct p as [pid v]. simpl. intros Ht (Hp & Hv & _)%elem_of_processes.
  apply elem_of_usages in Hv as (i & Hi & <- & <-). rewrite Forall_forall in Ht.
  destruct (Ht i Hi) as [Hpid Hu]. unfold in_u32 in Hpid. split; [lia|done].
Qed.

Section types.

Context {Device : Type} `{MapRange}.
Implicit Types (nd : nvmlDevice Device) (query : Device → Z → answers).

Lemma entry_metrics_typed n query k nd h guid :
  answers_typed (query h (Z.of_nat k)) → lacks (NdPCIBusID nd) NUL = true →
  metrics_typed (entry_metrics n query k (nd, h, guid)).
Proof.
  intros (Hmem & Hsmall & Hprocs) Hpci. unfold metrics_typed.
  rewrite entry_metrics_index. split; [lia|]. simpl. unfold collectDeviceMetrics.
  set (a := query h (Z.of_nat k)) in *.
  assert (Hrest : not_nan match GetPowerUsage a with
    Some p => fdiv (f_of_Z p) (f_of_Z 1000) | None => f_zero end).
  { destruct (GetPowerUsage a); [|done]. apply fdiv_not_nan; [apply f_of_Z_not_nan|done]. }
  destruct (GetUtilizationRates a) as [[g m]|];
    (destruct (GetMemoryInfo a) as [[t u]|]; [destruct (Hmem t u eq_refl) as [Hmt Hmu]|]; simpl).
  all: split_and!; try done; try apply f_of_Z_not_nan;
    try (apply default_u32; intros; apply Hsmall; by auto);
    try apply NoDup_processes; try (intros p; by apply processes_typed).
  all: destruct (Z.ltb_spec 0 t); [|by try apply f_of_Z_not_nan].
  all: apply memory_pct_not_nan; unfold in_u64 in Hmt; lia.
Qed.

(** ** Runs of the sampler *)

Inductive gpu_op :=
  | OpRun (lib : library Device)
  | OpSample (n : nat) (query : Device → Z → answers)
  | OpClose.

Definition gpu_step (s : GPUSampler Device) (op : gpu_op) : GPUSampler Device :=
  match op with
  | OpRun lib => (Run lib s).1.1
  | OpSample n query => Sample n query s
  | OpClose => (Close s).1
  end.

Definition gpu_run (ops : list gpu_op) : GPUSampler Device := foldl gpu_step NewGPUSampler ops.

Definition op_typed (op : gpu_op) : Prop :=
  match op with OpSample _ query => ∀ h k, answers_typed (query h k) | _ => True end.

Definition sampler_inv (s : GPUSampler Device) : Prop :=
  Forall (λ nd, lacks (NdPCIBusID nd) NUL = true) (PsDevices (impl s)) ∧
  ∀ k m, devices s !! k = Some m → GIndex m = Z.of_nat k ∧ metrics_typed m.

Lemma open_device_pci i (d : device_info Device) nd :
  open_device i d = Some nd → lacks (NdPCIBusID nd) NUL = true.
Proof.
  unfold open_device. destruct (GetHandle d); simpl; [|done]. intros [= <-]. simpl.
  destruct (GetPciInfo d); simpl; [apply trimNull_lacks|done].
Qed.

Lemma init_pci (lib : library Device) p :
  Forall (λ nd, lacks (NdPCIBusID nd) NUL = true) (PsDevices p) →
  Forall (λ nd, lacks (NdPCIBusID nd) NUL = true) (PsDevices (init lib p).1.1).
Proof.
  intros Hp. unfold init. destruct (Init lib); [|done..]. destruct (DeviceGetCount lib); [|done].
  simpl. apply Forall_app_2; [done|]. rewrite Forall_forall. intros nd Hnd.
  apply list_elem_of_omap in Hnd as (i & _ & Hi). by eapply open_device_pci.
Qed.

Lemma gpu_step_inv s op : op_typed op → sampler_inv s → sampler_inv (gpu_step s op).
Proof.
  intros Hop [Hp Hd]. destruct op as [lib|n query|]; simpl in *.
  - unfold Run. destruct (avail s); simpl; [|done]. pose proof (init_pci lib _ Hp) as Hi.
    by destruct (init lib (impl s)) as [[p [err|]] d]; split.
  - unfold Sample, sample. destruct (avail s); [|done]. simpl.
    destruct (PsInitd (impl s)); [|done]. simpl. split; [done|]. simpl.
    rewrite sample_imap. intros k m Hk. apply list_lookup_imap_Some in Hk as ([[nd h] guid] & He & ->).
    split; [apply entry_metrics_index|]. apply entry_metrics_typed; [apply Hop|].
    apply list_elem_of_lookup_2, list_elem_of_bind in He as (nd' & He & Hnd').
    rewrite Forall_forall in Hp. replace nd with nd'; [by apply Hp|].
    unfold device_entries in He. destruct (_ && _); [|apply list_elem_of_singleton in He; congruence].
    apply list_elem_of_fmap in He as (mi & [= <- _ _] & _). done.
  - unfold Close, close. by destruct (PsInitd (impl s)); split.
Qed.

End types.

(** * Theorems *)

(** The processes of a device, in whatever order the map is visited.  A
    process is listed exactly when one of the two lists of the library mentions
    it and its id is not zero; it is listed once, with the largest memory that
    any mention gives it. *)
Theorem collectProcesses_spec `{MapRange} n a :
  let procs := collectProcesses n a in
  NoDup (GPID <$> procs) ∧
  ∀ p v, {| GPID := p; GVRAMUsedBytes := v |} ∈ procs ↔
    p ≠ 0 ∧ (∃ i, i ∈ mentioned a ∧ Pid i = p ∧ UsedGpuMemory i = v) ∧
    ∀ i, i ∈ mentioned a → Pid i = p → UsedGpuMemory i <= v.
Proof.
  split; [apply NoDup_processes|]. intros p v. rewrite elem_of_processes.
  setoid_rewrite elem_of_usages. naive_solver.
Qed.

(** C21: typing of the figures.  Whatever the library answers within its own
    types, and in every run of initialisations, samples and closings, each
    device the sampler reports is well typed: its numbers are in range, its
    percentages and its power are not NaN (a device without memory is not
    divided by), its bus id ends before the first zero byte, its processes are
    distinct and real; and devices are indexed by their position. *)
Theorem sampler_typed {Device : Type} `{MapRange} (ops : list (@gpu_op Device)) k m :
  Forall op_typed ops → LastGPUDevices (gpu_run ops) !! k = Some m →
  GIndex m = Z.of_nat k ∧ metrics_typed m.
Proof.
  intros Hops. enough (Hinv : sampler_inv (gpu_run ops)) by apply Hinv.
  unfold gpu_run. assert (Hs : sampler_inv (@NewGPUSampler Device)) by (split; [constructor|done]).
  revert Hs. generalize (@NewGPUSampler Device). induction Hops as [|op ops Hop _ IH]; intros s Hs;
    simpl; [done|]. apply IH. by apply gpu_step_inv.
Qed.

(** C22: a sample against its reference.  The devices reported are, in order,
    the partitions of each device, or the device itself where it has none, each
    with the figures of its own handle at its own position. *)
Theorem sample_refines {Device : Type} `{MapRange} n (query : Device → Z → answers) p :
  sample n query p =
    if PsInitd p then inr (imap (entry_metrics n query) (sample_entries (PsDevices p)))
    else inl NotInitialised.
Proof. unfold sample. destruct (PsInitd p); [|done]. simpl. by rewrite sample_imap. Qed.

(** Samples one after the other. *)
Definition sample_ops {Device} (qs : list (nat * (Device → Z → answers))) : list gpu_op :=
  (λ '(n, q), OpSample n q) <$> qs.

Section lifecycle.

Context {Device : Type} `{MapRange}.

Lemma samples_unavailable qs (s : GPUSampler Device) :
  Available s = false → foldl gpu_step s (sample_ops qs) = s.
Proof.
  unfold Available. intros Ha. induction qs as [|[n q] qs IH]; simpl; [done|].
  unfold Sample. by rewrite Ha.
Qed.

Lemma samples_closed qs (s : GPUSampler Device) :
  PsInitd (impl s) = false → foldl gpu_step s (sample_ops qs) = s.
Proof.
  intros Hi. induction qs as [|[n q] qs IH]; simpl; [done|].
  unfold Sample, sample. rewrite Hi. by destruct (avail s).
Qed.

Lemma samples_open qs n q (s : GPUSampler Device) :
  avail s = true → PsInitd (impl s) = true →
  foldl gpu_step s (sample_ops (qs ++ [(n, q)])) =
    {| impl := impl s; devices := imap (entry_metrics n q) (sample_entries (PsDevices (impl s)));
       avail := true |}.
Proof.
  intros Ha Hi. unfold sample_ops. rewrite fmap_app, foldl_app. simpl.
  enough (Hs : impl (foldl gpu_step s (sample_ops qs)) = impl s ∧
    avail (foldl gpu_step s (sample_ops qs)) = true).
  { destruct Hs as [Hs1 Hs2]. unfold sample_ops in *. unfold Sample, sample.
    rewrite Hs1, Hs2, Hi. simpl. by rewrite sample_imap. }
  revert s Ha Hi. induction qs as [|[m r] qs IH]; intros s Ha Hi; [done|]. simpl.
  destruct (IH (Sample m r s)) as [-> ->];
    unfold Sample, sample; rewrite Ha; simpl; by rewrite Hi.
Qed.

End lifecycle.

(** The life of the sampler as the collector uses it: one start, samples,
    one closing.  If starting fails, the library is left as it was, and the
    sampler reports no device, ever.  If it succeeds, one initialisation is
    outstanding until the closing, which leaves none; in between the report is
    that of the last sample, and after the closing it stays what it was, though
    no device is read any more. *)
Theorem sampler_lifecycle {Device : Type} `{MapRange} (lib : library Device) qs n q qs' :
  let '(s, err, opened) := Run lib NewGPUSampler in
  let sampled := foldl gpu_step s (sample_ops (qs ++ [(n, q)])) in
  let '(closed, shut) := Close sampled in
  opened + shut = 0 ∧ Available s = bool_decide (err = None) ∧
  foldl gpu_step closed (sample_ops qs') = closed ∧ (Close closed).2 = 0 ∧
  match err with
  | Some _ => opened = 0 ∧ LastGPUDevices sampled = [] ∧ LastGPUDevices closed = []
  | None =>
      opened = 1 ∧ LastGPUDevices closed = LastGPUDevices sampled ∧
      ∃ count devs, DeviceGetCount lib = Some count ∧
        devs = omap (λ i, open_device i (device_at lib i)) (seqZ 0 count) ∧
        LastGPUDevices sampled = imap (entry_metrics n q) (sample_entries devs)
  end.
Proof.
  assert (Hfail : ∀ s : GPUSampler Device,
    avail s = false → devices s = [] → PsInitd (impl s) = false →
    foldl gpu_step s (sample_ops (qs ++ [(n, q)])) = s ∧
    foldl gpu_step s (sample_ops qs') = s ∧ Close s = (s, 0)).
  { intros s Ha Hd Hi. rewrite !samples_closed by done. split_and!; [done|done|].
    unfold Close, close. rewrite Hi. by destruct s. }
  unfold Run, init. simpl.
  destruct (Init lib); [destruct (DeviceGetCount lib) as [count|]|..]; simpl;
    try (match goal with |- context [foldl gpu_step ?s (sample_ops (qs ++ _))] =>
      destruct (Hfail s eq_refl eq_refl eq_refl) as (E1 & E2 & E3); rewrite E1, E3, E2, E3 end;
      split_and!; done).
  rewrite samples_open by done. simpl.
  rewrite samples_closed by done. split_and!; try done. eexists count, _. done.
Qed.

(** What the partitions of a GPU report.  The handle kept for a partition
    is the device of its GPU instance, which the library documents to be the
    parent; with it, and while the figures of a handle do not change, a GPU
    with partitions reports all its memory in use once per partition, so the
    sum over the report counts it that many times. *)
Theorem mig_counts_parent {Device : Type} `{MapRange} n (q : Device → answers) p ds :
  (∀ nd mi, nd ∈ PsDevices p → mi ∈ NdMigInstances nd → MiHandle mi = NdHandle nd) →
  sample n (λ h _, q h) p = inr ds →
  zsum GMemoryUsedBytes ds =
    zsum (λ nd, Z.of_nat (length (device_entries nd)) *
                from_option snd 0 (GetMemoryInfo (q (NdHandle nd)))) (PsDevices p).
Proof.
  intros Hparent. unfold sample. destruct (PsInitd p); [|done]. simpl. rewrite sample_imap.
  intros [= <-].
  assert (Hused : ∀ k e, GMemoryUsedBytes (entry_metrics n (λ h _, q h) k e) =
    from_option snd 0 (GetMemoryInfo (q e.1.2))).
  { intros k [[nd h] guid]. simpl. unfold collectDeviceMetrics.
    destruct (GetUtilizationRates _) as [[? ?]|]; by destruct (GetMemoryInfo _) as [[? ?]|]. }
  assert (Hsum : ∀ es (f : nat → _ → GPUDeviceMetrics),
    (∀ k e, GMemoryUsedBytes (f k e) = from_option snd 0 (GetMemoryInfo (q e.1.2))) →
    zsum GMemoryUsedBytes (imap f es) =
    zsum (λ e : nvmlDevice Device * Device * string,
      from_option snd 0 (GetMemoryInfo (q e.1.2))) es).
  { induction es as [|e es IH]; intros f Hf; [done|]. simpl.
    rewrite Hf, (IH (f ∘ S)); [done|]. intros. apply Hf. }
  rewrite Hsum by done. clear Hsum Hused. revert Hparent.
  induction (PsDevices p) as [|nd nds IH]; intros Hparent; [done|].
  unfold sample_entries. simpl. rewrite zsum_app.
  rewrite <- (IH ltac:(intros ? ? Hnd; apply Hparent; by right)). f_equal.
  assert (Hhandles : ∀ e, e ∈ device_entries nd → e.1.2 = NdHandle nd).
  { intros e. unfold device_entries. destruct (_ && _).
    - intros (mi & -> & Hmi)%list_elem_of_fmap. simpl. apply Hparent; [left|done].
    - by intros ->%list_elem_of_singleton. }
  induction (device_entries nd) as [|e es IHe]; [done|]. simpl length. rewrite Nat2Z.inj_succ.
  simpl. rewrite (Hhandles e) by left. rewrite IHe by (intros; apply Hhandles; by right). lia.
Qed.

(** ** A GPU with two partitions *)

Definition sample_answers : answers := {|
  GetUtilizationRates := Some (40, 10); GetMemoryInfo := Some (1000, 250);
  GetPowerUsage := Some 150500; GetTemperature := Some 65; GetGraphicsClock := Some 1755;
  GetMemoryClock := None;
  GetComputeRunningProcesses := Some [{| Pid := 7; UsedGpuMemory := 100 |}; {| Pid := 0; UsedGpuMemory := 9 |}];
  GetGraphicsRunningProcesses := Some [{| Pid := 7; UsedGpuMemory := 120 |}] |}.

Definition sample_library : library Z := {|
  Init := SUCCESS; DeviceGetCount := Some 2;
  device_at i :=
    if i =? 0 then {|
      GetHandle := Some 10; GetUUID := Some "GPU-a"%string; GetName := Some "A100"%string;
      GetPciInfo := Some ("0000:3b" +:+ String NUL "x")%string; GetMigMode := Some 1;
      GetGpuInstances := Some [
        {| GetInfo := Some (10, 1); GetComputeInstances := Some [Some 0; None; Some 2] |};
        {| GetInfo := None; GetComputeInstances := None |}] |}
    else {|
      GetHandle := None; GetUUID := None; GetName := None; GetPciInfo := None; GetMigMode := None;
      GetGpuInstances := None |} |}.

Definition sample_query (h k : Z) : answers := sample_answers.

Example sample_guids :
  GMigDeviceGUID <$> LastGPUDevices (gpu_run [OpRun sample_library; OpSample 0 sample_query]) =
  ["MIG-GPU-a/1/0"; "MIG-GPU-a/1/2"]%string.
Proof. vm_compute. reflexivity. Qed.

Lemma sample_answers_typed : answers_typed sample_answers.
Proof.
  split_and!.
  - intros t u [= <- <-]. unfold in_u64. lia.
  - intros z [[= <-]|[[= <-]|[=]]]; unfold in_u32; lia.
  - repeat constructor; simpl; unfold in_u32, in_u64; lia.
Qed.

Lemma sampler_typed_witness :
  ∃ m, LastGPUDevices (gpu_run [OpRun sample_library; OpSample 0 sample_query]) !! 1%nat = Some m ∧
    GIndex m = 1 ∧ metrics_typed m ∧ GPCIBusID m = "0000:3b"%string.
Proof.
  eexists. split; [vm_compute; reflexivity|].
  match goal with |- GIndex ?m = _ ∧ _ =>
    destruct (sampler_typed [OpRun sample_library; OpSample 0 sample_query] 1 m) as [H1 H2];
      [apply Forall_cons; split; [exact I|]; apply Forall_singleton; intros ? ?;
       apply sample_answers_typed|vm_compute; reflexivity|] end.
  split; [exact H1|]. split; [exact H2|reflexivity].
Defined.

Lemma mig_counts_parent_witness :
  ∃ ds, sample 0 (λ h _, sample_answers) (impl (gpu_run [OpRun sample_library])) = inr ds ∧
    zsum GMemoryUsedBytes ds = 500.
Proof.
  eexists. split; [reflexivity|].
  rewrite (mig_counts_parent 0 (λ _ : Z, sample_answers) (impl (gpu_run [OpRun sample_library]))).
  - vm_compute. reflexivity.
  - intros nd mi Hnd Hmi. vm_compute in Hnd. apply list_elem_of_singleton in Hnd as ->.
    simpl in Hmi. apply elem_of_cons in Hmi as [->|Hmi]; [done|].
    by apply list_elem_of_singleton in Hmi as ->.
  - reflexivity.
Defined.
