(* ===== verification/AgentConfig.v ===== *)
(** The configuration of the agent ([proxy/config]): defaults, a file, and the
    environment, in this order.

    The environment is a function that gives the empty string for a variable
    that is not set, as [os.Getenv] does.  Reading the file and the decoders of
    JSON and YAML, which overwrite a given configuration, are arguments. *)

From S2P Require Import Prelude GoStrings.

Record Config := {
  PollInterval : Z;
  ProcRoot : string;
  SysRoot : string;
  HTTPListenAddr : string;
  EnableBPF : bool;
  BpfProgPath : string;
  Verbose : bool;
  ProxyEnabled : bool;
  ProxyListenAddr : string;
  ProxyLogFilePath : string;
  AgentID : string;
  UpstreamEndpoint : string;
  AuthToken : string;
  RingBufferMaxMB : Z;
  DashboardAddr : string;
  DetectorEnabled : bool;
  ProfilerEnabled : bool;
  MitigationEnabled : bool;
  MitigationWhitelist : option (list string);
  DockerSocketPath : string;
  DockerAPITimeout : Z;
  RouterEnabled : bool;
  RouterTokenCap : Z;
  RouterKeepRecent : Z;
  RouterFallbackEndpoint : string;
  RouterFallbackModel : string;
  RouterFallbackAuthToken : string;
  RouterCoolingOffSeconds : Z;
  PolicyMaxActionsPerPID : Z;
  PolicyVelocityWindowMin : Z;
  PolicyCooldownSeconds : Z;
  PolicyLedgerMaxEntries : Z;
  PolicyPidThreshold : Z
}.

Definition DefaultConfig (hostname : string) : Config := {|
  PollInterval := 500 * Millisecond;
  ProcRoot := "/proc";
  SysRoot := "/sys";
  HTTPListenAddr := ":9090";
  EnableBPF := true;
  BpfProgPath := "";
  Verbose := false;
  ProxyEnabled := false;
  ProxyListenAddr := ":9999";
  ProxyLogFilePath := "";
  AgentID := hostname;
  UpstreamEndpoint := "";
  AuthToken := "";
  RingBufferMaxMB := 50;
  DashboardAddr := "127.0.0.1:8088";
  DetectorEnabled := true;
  ProfilerEnabled := true;
  MitigationEnabled := false;
  MitigationWhitelist := None;
  DockerSocketPath := "unix:///var/run/docker.sock";
  DockerAPITimeout := 5 * Second;
  RouterEnabled := false;
  RouterTokenCap := 20;
  RouterKeepRecent := 10;
  RouterFallbackEndpoint := "http://127.0.0.1:8000/v1/chat/completions";
  RouterFallbackModel := "meta-llama/Llama-3-8b-Instruct";
  RouterFallbackAuthToken := "";
  RouterCoolingOffSeconds := 60;
  PolicyMaxActionsPerPID := 5;
  PolicyVelocityWindowMin := 10;
  PolicyCooldownSeconds := 60;
  PolicyLedgerMaxEntries := 10000;
  PolicyPidThreshold := 100
|}.

(** * The file *)

(** [filepath.Ext]: from the last dot of the last element. *)
Definition path_ext (path : string) : string :=
  let base := match last_index_byte path "/" with
              | Some i => sdrop (i + 1) path
              | None => path
              end in
  match last_index_byte base "." with Some i => sdrop i base | None => "" end.

Inductive load_error :=
  | ErrReadFile (path : string)
  | ErrParseFile (path : string)
  | ErrUnsupported (ext : string)
  | ErrPollInterval (v : string).

Section load.

Variable read_file : string → option string.
Variable decode_json decode_yaml : string → Config → option Config.
Variable env : string → string.

Definition loadConfigFile (path : string) (c : Config) : load_error + Config :=
  match read_file path with
  | None => inl (ErrReadFile path)
  | Some data =>
      let ext := to_lower (path_ext path) in
      let decoded decode :=
        match decode data c with Some c => inr c | None => inl (ErrParseFile path) end in
      if streq ext ".json" then decoded decode_json
      else if streq ext ".yaml" || streq ext ".yml" then decoded decode_yaml
      else inl (ErrUnsupported ext)
  end.

(** * The environment *)

(** [if v := os.Getenv(k); v != "" { x = v }] and its variants for booleans
    and for positive integers. *)
Definition env_string (k old : string) : string := if streq (env k) "" then old else env k.
Definition env_bool (k : string) (old : bool) : bool :=
  if streq (env k) "" then old else streq (env k) "true".
Definition env_positive (k : string) (old : Z) (scale : Z) : Z :=
  if streq (env k) "" then old
  else match atoi (env k) with Some n => if 0 <? n then i64 (n * scale) else old | None => old end.

(** The overrides after the poll interval. *)
Definition apply_env (c : Config) : Config := {|
  PollInterval := PollInterval c;
  ProcRoot := env_string "PROFILER_PROC_ROOT" (ProcRoot c);
  SysRoot := SysRoot c;
  HTTPListenAddr := env_string "PROFILER_HTTP_ADDR" (HTTPListenAddr c);
  EnableBPF := env_bool "PROFILER_ENABLE_BPF" (EnableBPF c);
  BpfProgPath := BpfProgPath c;
  Verbose := env_bool "PROFILER_VERBOSE" (Verbose c);
  ProxyEnabled := env_bool "PROFILER_PROXY_ENABLED" (ProxyEnabled c);
  ProxyListenAddr := env_string "PROFILER_PROXY_ADDR" (ProxyListenAddr c);
  ProxyLogFilePath := env_string "PROFILER_PROXY_LOG_FILE" (ProxyLogFilePath c);
  AgentID := env_string "AGENT_ID" (AgentID c);
  UpstreamEndpoint := env_string "UPSTREAM_ENDPOINT" (UpstreamEndpoint c);
  AuthToken := env_string "AUTH_TOKEN" (AuthToken c);
  RingBufferMaxMB := env_positive "RING_BUFFER_MAX_MB" (RingBufferMaxMB c) 1;
  DashboardAddr := env_string "PROFILER_DASHBOARD_ADDR" (DashboardAddr c);
  DetectorEnabled := env_bool "PROFILER_DETECTOR_ENABLED" (DetectorEnabled c);
  ProfilerEnabled := env_bool "PROFILER_PROFILER_ENABLED" (ProfilerEnabled c);
  MitigationEnabled := env_bool "PROFILER_MITIGATION_ENABLED" (MitigationEnabled c);
  MitigationWhitelist := MitigationWhitelist c;
  DockerSocketPath := env_string "PROFILER_DOCKER_SOCKET" (DockerSocketPath c);
  DockerAPITimeout := env_positive "PROFILER_DOCKER_TIMEOUT_MS" (DockerAPITimeout c) Millisecond;
  RouterEnabled := env_bool "PROFILER_ROUTER_ENABLED" (RouterEnabled c);
  RouterTokenCap := RouterTokenCap c;
  RouterKeepRecent := RouterKeepRecent c;
  RouterFallbackEndpoint := env_string "PROFILER_ROUTER_FALLBACK_ENDPOINT" (RouterFallbackEndpoint c);
  RouterFallbackModel := env_string "PROFILER_ROUTER_FALLBACK_MODEL" (RouterFallbackModel c);
  RouterFallbackAuthToken := RouterFallbackAuthToken c;
  RouterCoolingOffSeconds :=
    env_positive "PROFILER_ROUTER_COOLING_OFF_SECONDS" (RouterCoolingOffSeconds c) 1;
  PolicyMaxActionsPerPID := env_positive "PROFILER_POLICY_MAX_ACTIONS" (PolicyMaxActionsPerPID c) 1;
  PolicyVelocityWindowMin :=
    env_positive "PROFILER_POLICY_VELOCITY_WINDOW_MIN" (PolicyVelocityWindowMin c) 1;
  PolicyCooldownSeconds :=
    env_positive "PROFILER_POLICY_COOLDOWN_SECONDS" (PolicyCooldownSeconds c) 1;
  PolicyLedgerMaxEntries := PolicyLedgerMaxEntries c;
  PolicyPidThreshold := PolicyPidThreshold c
|}.

Definition set_poll (i : Z) (c : Config) : Config := {|
  PollInterval := i; ProcRoot := ProcRoot c; SysRoot := SysRoot c;
  HTTPListenAddr := HTTPListenAddr c; EnableBPF := EnableBPF c; BpfProgPath := BpfProgPath c;
  Verbose := Verbose c; ProxyEnabled := ProxyEnabled c; ProxyListenAddr := ProxyListenAddr c;
  ProxyLogFilePath := ProxyLogFilePath c; AgentID := AgentID c;
  UpstreamEndpoint := UpstreamEndpoint c; AuthToken := AuthToken c;
  RingBufferMaxMB := RingBufferMaxMB c; DashboardAddr := DashboardAddr c;
  DetectorEnabled := DetectorEnabled c; ProfilerEnabled := ProfilerEnabled c;
  MitigationEnabled := MitigationEnabled c; MitigationWhitelist := MitigationWhitelist c;
  DockerSocketPath := DockerSocketPath c; DockerAPITimeout := DockerAPITimeout c;
  RouterEnabled := RouterEnabled c; RouterTokenCap := RouterTokenCap c;
  RouterKeepRecent := RouterKeepRecent c; RouterFallbackEndpoint := RouterFallbackEndpoint c;
  RouterFallbackModel := RouterFallbackModel c;
  RouterFallbackAuthToken := RouterFallbackAuthToken c;
  RouterCoolingOffSeconds := RouterCoolingOffSeconds c;
  PolicyMaxActionsPerPID := PolicyMaxActionsPerPID c;
  PolicyVelocityWindowMin := PolicyVelocityWindowMin c;
  PolicyCooldownSeconds := PolicyCooldownSeconds c;
  PolicyLedgerMaxEntries := PolicyLedgerMaxEntries c; PolicyPidThreshold := PolicyPidThreshold c
|}.

Definition Load (hostname : string) : load_error + Config :=
  let cfgFile := env "PROFILER_CONFIG" in
  match (if streq cfgFile "" then inr (DefaultConfig hostname)
         else loadConfigFile cfgFile (DefaultConfig hostname)) with
  | inl e => inl e
  | inr c =>
      let v := env "PROFILER_POLL_INTERVAL_MS" in
      if streq v "" then inr (apply_env c)
      else match atoi v with
           | None => inl (ErrPollInterval v)
           | Some ms => inr (apply_env (set_poll (i64 (ms * Millisecond)) c))
           end
  end.

End load.

Example path_ext_example : to_lower (path_ext "/etc/k.d/agent.YAML") = ".yaml"%string.
Proof. vm_compute. reflexivity. Qed.

(** * Lemmas *)

Lemma atoi_in_i64 s n : atoi s = Some n → in_i64 n.
Proof.
  assert (Hd : ∀ t m, (n ← (if streq t "" then None else digits_from 10 0 t);
      if n <? 2 ^ 63 then Some n else None) = Some m → in_i64 m).
  { intros t m. destruct (streq t ""); simpl; [done|].
    destruct (digits_from 10 0 t) as [k|] eqn:E; simpl; [|done].
    apply digits_from_nonneg in E; [|lia..]. unfold in_i64.
    destruct (Z.ltb_spec k (2 ^ 63)); intros; simplify_eq; lia. }
  assert (Hm : ∀ t m, (n ← (if streq t "" then None else digits_from 10 0 t);
      if n <=? 2 ^ 63 then Some (- n) else None) = Some m → in_i64 m).
  { intros t m. destruct (streq t ""); simpl; [done|].
    destruct (digits_from 10 0 t) as [k|] eqn:E; simpl; [|done].
    apply digits_from_nonneg in E; [|lia..]. unfold in_i64.
    destruct (Z.leb_spec k (2 ^ 63)); intros; simplify_eq; lia. }
  unfold atoi. destruct s as [|c s]; [apply Hd|].
  destruct (ascii_dec c "-") as [->|H1]; [apply Hm|].
  destruct (ascii_dec c "+") as [->|H2]; [apply Hd|].
  intros H. apply (Hd (String c s) n). revert H.
  destruct c as [[] [] [] [] [] [] [] []]; try exact id; congruence.
Qed.

(** An integer from the environment is positive, or the setting is kept. *)
Lemma env_positive_pos env k old : 0 < old → 0 < env_positive env k old 1.
Proof.
  intros Ho. unfold env_positive. destruct (streq _ _); [done|].
  destruct (atoi (env k)) as [n|] eqn:E; [|done].
  destruct (Z.ltb_spec 0 n) as [Hn|]; [|done].
  apply atoi_in_i64 in E. rewrite i64_id; [lia|]. unfold in_i64 in *. lia.
Qed.

(** The settings the environment does not touch the poll interval of. *)
Lemma apply_env_spec env hostname (f : Config → Config) :
  (∀ c, f c = c ∨ ∃ i, f c = set_poll i c) →
  let c := apply_env env (f (DefaultConfig hostname)) in
  0 < RingBufferMaxMB c ∧ 0 < RouterCoolingOffSeconds c ∧ 0 < PolicyMaxActionsPerPID c ∧
  0 < PolicyVelocityWindowMin c ∧ 0 < PolicyCooldownSeconds c ∧
  (UpstreamEndpoint c = env "UPSTREAM_ENDPOINT"%string) ∧
  (AgentID c = if streq (env "AGENT_ID"%string) "" then hostname else env "AGENT_ID"%string) ∧
  (MitigationEnabled c = streq (env "PROFILER_MITIGATION_ENABLED"%string) "true") ∧
  (RouterEnabled c = streq (env "PROFILER_ROUTER_ENABLED"%string) "true") ∧
  (DetectorEnabled c = streq (env "PROFILER_DETECTOR_ENABLED"%string) "true" ∨
   env "PROFILER_DETECTOR_ENABLED"%string = ""%string ∧ DetectorEnabled c = true).
Proof.
  intros Hf. cbv zeta.
  assert (Hb : ∀ k, env_bool env k false = streq (env k) "true").
  { intros k. unfold env_bool. destruct (streq (env k) "") eqn:E; [|done].
    apply bool_decide_eq_true in E. by rewrite E. }
  assert (Hs : env_string env "UPSTREAM_ENDPOINT" "" = env "UPSTREAM_ENDPOINT"%string).
  { unfold env_string. destruct (streq _ "") eqn:E; [|done]. by apply bool_decide_eq_true in E. }
  destruct (Hf (DefaultConfig hostname)) as [->|[i ->]]; simpl; rewrite !Hb, Hs;
    (split_and!; [by apply env_positive_pos..|done|done|done|done|]);
    unfold env_bool; destruct (streq _ "") eqn:E; auto;
    apply bool_decide_eq_true in E; auto.
Qed.

(** * Theorems *)

(** Loading without a configuration file.  It fails exactly when the poll
    interval of the environment is set and not an integer.  Otherwise every
    numeric limit of the result is positive, whatever the environment holds, a
    string setting is the variable's value when that is not empty and the
    default when it is, and a switch that is set is on exactly for the text
    "true".  The poll interval alone is unchecked: it is the number of
    milliseconds given, which may be zero or negative. *)
Theorem Load_spec read_file decode_json decode_yaml env hostname :
  env "PROFILER_CONFIG"%string = ""%string →
  let v := env "PROFILER_POLL_INTERVAL_MS"%string in
  let d := DefaultConfig hostname in
  match Load read_file decode_json decode_yaml env hostname with
  | inl e => e = ErrPollInterval v ∧ v ≠ ""%string ∧ atoi v = None
  | inr c =>
      (v = ""%string ∧ PollInterval c = 500 * Millisecond ∨
       ∃ ms, atoi v = Some ms ∧ PollInterval c = i64 (ms * Millisecond)) ∧
      0 < RingBufferMaxMB c ∧ 0 < RouterCoolingOffSeconds c ∧ 0 < PolicyMaxActionsPerPID c ∧
      0 < PolicyVelocityWindowMin c ∧ 0 < PolicyCooldownSeconds c ∧
      (UpstreamEndpoint c = env "UPSTREAM_ENDPOINT"%string) ∧
      (AgentID c = if streq (env "AGENT_ID"%string) "" then hostname else env "AGENT_ID"%string) ∧
      (MitigationEnabled c = streq (env "PROFILER_MITIGATION_ENABLED"%string) "true") ∧
      (RouterEnabled c = streq (env "PROFILER_ROUTER_ENABLED"%string) "true") ∧
      (DetectorEnabled c = streq (env "PROFILER_DETECTOR_ENABLED"%string) "true" ∨
       env "PROFILER_DETECTOR_ENABLED"%string = ""%string ∧ DetectorEnabled c = true)
  end.
Proof.
  intros Hcfg. cbv zeta. unfold Load. rewrite Hcfg, streq_refl.
  set (v := env "PROFILER_POLL_INTERVAL_MS"%string).
  destruct (streq v "") eqn:Ev.
  - apply bool_decide_eq_true in Ev.
    split; [by left|]. apply (apply_env_spec env hostname id). by left.
  - apply bool_decide_eq_false in Ev.
    destruct (atoi v) as [ms|] eqn:Ea; [|done].
    split; [right; by exists ms|]. apply (apply_env_spec env hostname (set_poll (i64 (ms * Millisecond)))). by eauto.
Qed.

Lemma Load_spec_witness :
  let env := λ k, if streq k "PROFILER_POLL_INTERVAL_MS" then "0"%string else ""%string in
  ∃ c, Load (λ _, None) (λ _ c, Some c) (λ _ c, Some c) env "host" = inr c ∧
    PollInterval c = 0 ∧ AgentID c = "host"%string.
Proof.
  intros env.
  pose proof (Load_spec (λ _, None) (λ _ c, Some c) (λ _ c, Some c) env "host" eq_refl) as H.
  destruct (Load _ _ _ env "host") as [e|c] eqn:E; [vm_compute in E; discriminate|].
  exists c. split; [done|]. destruct H as (Hp & _ & _ & _ & _ & _ & _ & Hid & _).
  split; [|exact Hid]. destruct Hp as [[Hv _]|(ms & Hms & Hp)]; [vm_compute in Hv; discriminate|].
  vm_compute in Hms. injection Hms as <-. exact Hp.
Defined.
