(* ===== verification/Collector.v ===== *)
(** The collector ([proxy/collector]): one poll of the host, which computes the
    share of processor time of every process from two readings, sorts them,
    and publishes a snapshot.

    What a poll reads is the record [readings]; the encoder of snapshots is an
    argument.  A panic of a parser, which ends the agent, is [None]. *)

From S2P Require Import Prelude GoStrings GoFloat Model Procfs Cgroup.
From S2P Require Ebpf Gpu AgentConfig.

Record ProcDelta := { PrevUTime : Z; PrevSTime : Z }.

(** Handles of GPU devices are the pointers the library returns. *)
Record Collector := {
  cfg : AgentConfig.Config;
  cpucalc : CPUUtilCalculator;
  cg : Resolver;
  tracker : Ebpf.Tracker;
  gpuSampler : Gpu.GPUSampler Z;
  procDeltas : gmap Z ProcDelta;
  prevCPUPct : gmap Z float64;
  lastSnapshot : option string;
  SnapshotOutput : option (chan string);
  startedAt : Z;
  pollCount : Z
}.

Abbreviation PollInterval c := (AgentConfig.PollInterval (cfg c)).

(** [New], on a platform with a tracker; the engine sets the output. *)
Definition New (c : AgentConfig.Config) (output : option (chan string)) : Collector := {|
  cfg := c;
  cpucalc := NewCPUUtilCalculator;
  cg := NewResolver;
  tracker := Ebpf.NewTracker true;
  gpuSampler := Gpu.NewGPUSampler;
  procDeltas := ∅;
  prevCPUPct := ∅;
  lastSnapshot := None;
  SnapshotOutput := output;
  startedAt := 0;
  pollCount := 0
|}.

(** Assignments to fields. *)
Definition set_cg (r : Resolver) (c : Collector) : Collector :=
  {| cfg := cfg c; cpucalc := cpucalc c; cg := r; tracker := tracker c; gpuSampler := gpuSampler c;
     procDeltas := procDeltas c; prevCPUPct := prevCPUPct c; lastSnapshot := lastSnapshot c;
     SnapshotOutput := SnapshotOutput c; startedAt := startedAt c; pollCount := pollCount c |}.

Definition set_deltas (ds : gmap Z ProcDelta) (ps : gmap Z float64) (c : Collector) : Collector :=
  {| cfg := cfg c; cpucalc := cpucalc c; cg := cg c; tracker := tracker c; gpuSampler := gpuSampler c;
     procDeltas := ds; prevCPUPct := ps; lastSnapshot := lastSnapshot c;
     SnapshotOutput := SnapshotOutput c; startedAt := startedAt c; pollCount := pollCount c |}.

Definition set_poll (calc : CPUUtilCalculator) (polls : Z) (c : Collector) : Collector :=
  {| cfg := cfg c; cpucalc := calc; cg := cg c; tracker := tracker c; gpuSampler := gpuSampler c;
     procDeltas := procDeltas c; prevCPUPct := prevCPUPct c; lastSnapshot := lastSnapshot c;
     SnapshotOutput := SnapshotOutput c; startedAt := startedAt c; pollCount := polls |}.

Definition set_sources (tr : Ebpf.Tracker) (gs : Gpu.GPUSampler Z) (c : Collector) : Collector :=
  {| cfg := cfg c; cpucalc := cpucalc c; cg := cg c; tracker := tr; gpuSampler := gs;
     procDeltas := procDeltas c; prevCPUPct := prevCPUPct c; lastSnapshot := lastSnapshot c;
     SnapshotOutput := SnapshotOutput c; startedAt := startedAt c; pollCount := pollCount c |}.

Definition set_started (now : Z) (c : Collector) : Collector :=
  {| cfg := cfg c; cpucalc := cpucalc c; cg := cg c; tracker := tracker c; gpuSampler := gpuSampler c;
     procDeltas := procDeltas c; prevCPUPct := prevCPUPct c; lastSnapshot := lastSnapshot c;
     SnapshotOutput := SnapshotOutput c; startedAt := now; pollCount := pollCount c |}.

(** The latest snapshot is kept and offered to the output. *)
Definition publish (data : string) (c : Collector) : Collector :=
  {| cfg := cfg c; cpucalc := cpucalc c; cg := cg c; tracker := tracker c; gpuSampler := gpuSampler c;
     procDeltas := procDeltas c; prevCPUPct := prevCPUPct c; lastSnapshot := Some data;
     SnapshotOutput := (λ ch, (try_send data ch).1) <$> SnapshotOutput c;
     startedAt := startedAt c; pollCount := pollCount c |}.

(** [math.Round(x*100) / 100] *)
Definition round2 (x : float64) : float64 := fdiv (f_round (fmul x (f_of_Z 100))) (f_of_Z 100).

Definition clkTck : float64 := f_of_Z 100.

(** * One process *)

(** The percentage from the ticks used since the last poll. *)
Definition cpu_percent (pollInterval ticks : Z) : float64 :=
  let intervalSec := duration_seconds pollInterval in
  let cpuPct := fmul (fdiv (f_of_Z ticks) (fmul intervalSec clkTck)) (f_of_Z 100) in
  let cpuPct := if flt cpuPct f_zero then f_zero else cpuPct in
  let cpuPct := if flt (fmul (f_of_Z 100) intervalSec) cpuPct then f_zero else cpuPct in
  round2 cpuPct.

Definition computeProcessCPU (pid : Z) (pm : ProcMetrics) (c : Collector) : Collector * float64 :=
  let now := {| PrevUTime := UTime pm; PrevSTime := STime pm |} in
  let ds := <[pid := now]> (procDeltas c) in
  match procDeltas c !! pid with
  | None => (set_deltas ds (prevCPUPct c) c, f_zero)
  | Some prev =>
      let utimeDelta := u64 (UTime pm - PrevUTime prev) in
      let stimeDelta := u64 (STime pm - PrevSTime prev) in
      if fle (duration_seconds (PollInterval c)) f_zero
      then (set_deltas ds (prevCPUPct c) c, f_zero)
      else
        let cpuPct := cpu_percent (PollInterval c) (u64 (utimeDelta + stimeDelta)) in
        (set_deltas ds (<[pid := cpuPct]> (prevCPUPct c)) c, cpuPct)
  end.

(** * All processes *)

(** An entry of the [/proc] directory, with what reading its files gives. *)
Record proc_entry := {
  EName : string;
  EIsDir : bool;
  EStat : option string;
  ECgroup : option string
}.

(** The id of an entry that is a process. *)
Definition entry_pid (e : proc_entry) : option Z :=
  if EIsDir e then
    match atoi (EName e) with Some pid => if pid <=? 0 then None else Some pid | None => None end
  else None.

Definition seenPIDs (entries : list proc_entry) : gset Z := list_to_set (omap entry_pid entries).

(** The loop over the entries; the processes are appended to [acc]. *)
Fixpoint collect_entries (entries : list proc_entry) (c : Collector) (acc : list ProcessMetrics) :
    option (Collector * list ProcessMetrics) :=
  match entries with
  | [] => Some (c, acc)
  | e :: rest =>
      match entry_pid e with
      | None => collect_entries rest c acc
      | Some pid =>
          match ReadProcStat (EStat e) pid with
          | StatPanics => None
          | StatError _ => collect_entries rest c acc
          | StatOk pm =>
              let '(r, containerID) := Resolve pid (ECgroup e) (cg c) in
              let '(c, cpuPct) := computeProcessCPU pid pm (set_cg r c) in
              collect_entries rest c
                (acc ++ [{| PPID := pid; PContainerID := containerID; PProcessName := Comm pm;
                            PCPUUsagePct := cpuPct; PRSSBytes := RSS pm; PVSizeBytes := VSize pm |}])
          end
      end
  end.

(** Forgetting the processes that are gone. *)
Definition prune `{MapRange} (n : nat) (seen : gset Z) (c : Collector) : Collector :=
  foldl (λ c '(pid, _),
      if bool_decide (pid ∈ seen) then c
      else set_cg (Evict pid (cg c))
             (set_deltas (delete pid (procDeltas c)) (delete pid (prevCPUPct c)) c))
    c (range n (procDeltas c)).

(** [dir] is what [os.ReadDir] returns, [None] on an error. *)
Definition collectProcessMetrics `{MapRange} (n : nat) (dir : option (list proc_entry)) (c : Collector) :
    option (Collector * list ProcessMetrics) :=
  match dir with
  | None => Some (c, [])
  | Some entries =>
      '(c, procs) ← collect_entries entries c [];
      Some (prune n (seenPIDs entries) c, procs)
  end.

(** * Sorting *)

(** The insertion sort on an array: the sorted part is kept last element
    first; the key moves left past the smaller elements. *)
Fixpoint insert_rev (key : ProcessMetrics) (sorted : list ProcessMetrics) : list ProcessMetrics :=
  match sorted with
  | [] => [key]
  | p :: rest =>
      if flt (PCPUUsagePct p) (PCPUUsagePct key) then p :: insert_rev key rest else key :: sorted
  end.

Definition sortByCPU (procs : list ProcessMetrics) : list ProcessMetrics :=
  rev (foldl (λ sorted key, insert_rev key sorted) [] procs).

(** * One poll *)

Record readings := {
  stat_file : option string;
  meminfo_file : option string;
  proc_dir : option (list proc_entry);
  gpu_query : Z → Z → Gpu.answers;
  unix_now : Z
}.

Definition processLimit : nat := 1000.

(** [collectOnce]; [marshal] is [json.Marshal].  The
    events drained from the tracker are not used. *)
Definition collectOnce `{MapRange} (marshal : Snapshot → option string) (n : nat) (rd : readings)
    (c : Collector) : option Collector :=
  let '(calc, total) := ReadAndCompute (stat_file rd) (cpucalc c) in
  let totalCPUPct := match total with inr x => x | inl _ => f_zero end in
  let c := set_poll calc (i64 (pollCount c + 1)) c in
  let '(totalBytes, usedBytes) :=
    match ReadMemoryInfo (meminfo_file rd) with
    | inr m => (TotalBytes m, UsedBytes m)
    | inl _ => (0, 0)
    end in
  '(c, procs) ← collectProcessMetrics n (proc_dir rd) c;
  let '(_, tr) := Ebpf.Drain 256 (tracker c) in
  let gs := Gpu.Sample n (gpu_query rd) (gpuSampler c) in
  let c := set_sources tr gs c in
  let snap := {|
    SnTimestamp := 0;
    SnHostMetrics := {| CPUUtilizationPct := round2 totalCPUPct; HMemoryTotalBytes := totalBytes;
                        HMemoryUsedBytes := usedBytes |};
    SnMonitoredProcesses := take processLimit (sortByCPU procs);
    SnGPUDevices := Gpu.LastGPUDevices gs |} in
  match JSON marshal (unix_now rd) snap with
  | (_, None) => Some c
  | (_, Some data) => Some (publish (data +:+ String newline "")%string c)
  end.

Definition LastSnapshot (c : Collector) : option string := lastSnapshot c.

(** [handleMetrics]: the status and the body. *)
Definition handleMetrics (c : Collector) : Z * string :=
  match lastSnapshot c with
  | None => (503, ("{" +:+ quoted "error" +:+ ":" +:+ quoted "no data collected yet" +:+ "}")%string)
  | Some data => (200, data)
  end.

(** [handleHealth]; [now] is its reading of the clock. *)
Record Health := {
  Status : string;
  HUptime : string;
  HPollInterval : string;
  Polls : Z;
  EBPFMode : string;
  GPUMode : string;
  HProcRoot : string
}.

Definition handleHealth (now : Z) (c : Collector) : Health := {|
  Status := "ok";
  HUptime := duration_string (now - startedAt c);
  HPollInterval := duration_string (PollInterval c);
  Polls := pollCount c;
  EBPFMode := if Ebpf.Fallback (tracker c) then "fallback (/proc-only)" else "enabled";
  GPUMode := if Gpu.Available (gpuSampler c) then "active" else "not available";
  HProcRoot := AgentConfig.ProcRoot (cfg c)
|}.

Definition Stats (now : Z) (c : Collector) : string :=
  "polls=" +:+ fmt_d (pollCount c) +:+
  " uptime=" +:+ duration_string (duration_round (now - startedAt c) Second) +:+
  " ebpf=" +:+ (if Ebpf.Fallback (tracker c) then "fallback (/proc-only)" else "active") +:+
  " gpu=" +:+ (if Gpu.Available (gpuSampler c) then "active" else "not available").

(** The routes of [startHTTPServer]: status and body; the banner is served for
    the root only. *)
Definition banner : string :=
  let nl := String newline "" in
  "AI Compute Profiler Agent" +:+ nl +:+ nl +:+ "Endpoints:" +:+ nl +:+
  "  /metrics  - latest telemetry snapshot (JSON)" +:+ nl +:+ "  /health   - health check" +:+ nl.

Inductive http_reply := Body (status : Z) (body : string) | HealthReply (h : Health) | NotFound.

Definition startHTTPServer (path : string) (now : Z) (c : Collector) : http_reply :=
  if streq path "/metrics" then let '(status, body) := handleMetrics c in Body status body
  else if streq path "/health" then HealthReply (handleHealth now c)
  else if streq path "/" then Body 200 banner
  else NotFound.

(** * The life of the collector *)

(** The state after polls without a panic. *)
Fixpoint polls `{MapRange} (marshal : Snapshot → option string) (rds : list (nat * readings))
    (c : Collector) : option Collector :=
  match rds with
  | [] => Some c
  | (n, rd) :: rest => c ← collectOnce marshal n rd c; polls marshal rest c
  end.

(** What starting meets: the clock, the kernel, the NVML library. *)
Record run_env := {
  run_now : Z;
  run_attach : Ebpf.attach_env;
  run_nvml : Gpu.library Z
}.

(** The beginning of [Run], up to the ticker: the state, the initialisations of
    the library, and the tracker's resources closed. *)
Definition Run_start (env : run_env) (c : Collector) : Collector * Z * list Ebpf.resource :=
  let c := set_started (run_now env) c in
  let '(tr, closed) :=
    if AgentConfig.EnableBPF (cfg c) then Ebpf.Start (run_attach env) (tracker c)
    else (tracker c, []) in
  let '(gs, _, opened) := Gpu.Run (run_nvml env) (gpuSampler c) in
  (set_sources tr gs c, opened, closed).

(** Its end, when the context is cancelled. *)
Definition Run_stop (c : Collector) : Collector * Z * list Ebpf.resource :=
  let closed := Ebpf.Close (tracker c) in
  let '(gs, shut) := Gpu.Close (gpuSampler c) in
  (set_sources (tracker c) gs c, shut, closed).

(** [Run]: [first] is what the poll before the first tick reads, if there is
    one; [ticks] are the readings of the ticks until the cancellation.
    [time.NewTicker] panics on an interval that is not positive. *)
Definition Run `{MapRange} (marshal : Snapshot → option string) (env : run_env)
    (first : nat * readings) (ticks : list (nat * readings)) (c : Collector) :
    option (Collector * Z * list Ebpf.resource) :=
  let '(c, opened, closed) := Run_start env c in
  if PollInterval c <=? 0 then None else
  c ← polls marshal (if AgentConfig.Verbose (cfg c) then [first] else []) c;
  c ← polls marshal ticks c;
  let '(c, shut, closed') := Run_stop c in
  Some (c, opened + shut, closed ++ closed').

(** * Lemmas on sorting *)

(** Not less busy. *)
Definition busier (p q : ProcessMetrics) : Prop := flt (PCPUUsagePct p) (PCPUUsagePct q) = false.

Definition cpu_ok (p : ProcessMetrics) : Prop := not_nan (PCPUUsagePct p).

Lemma insert_rev_perm key sorted : insert_rev key sorted ≡ₚ key :: sorted.
Proof.
  induction sorted as [|p rest IH]; simpl; [done|]. destruct (flt _ _); [|done].
  rewrite IH. apply Permutation_swap.
Qed.

Lemma sort_loop_perm procs acc :
  foldl (λ sorted key, insert_rev key sorted) acc procs ≡ₚ procs ++ acc.
Proof.
  revert acc. induction procs as [|p procs IH]; intros acc; simpl; [done|].
  rewrite IH, insert_rev_perm. by rewrite Permutation_middle.
Qed.

Lemma sortByCPU_perm procs : sortByCPU procs ≡ₚ procs.
Proof.
  unfold sortByCPU. rewrite <- (Permutation_rev (foldl _ _ _)), sort_loop_perm.
  by rewrite app_nil_r.
Qed.

(** The sorted part, last element first, is increasing. *)
Abbreviation increasing := (StronglySorted (λ p q, busier q p)).

Lemma insert_rev_sorted key sorted :
  cpu_ok key → Forall cpu_ok sorted → increasing sorted → increasing (insert_rev key sorted).
Proof.
  intros Hk Hok Hs. induction Hs as [|p rest Hs IH Hp]; simpl; [by repeat constructor|].
  apply Forall_cons in Hok as [Hpok Hok]. destruct (flt _ _) eqn:E.
  - constructor; [by apply IH|]. rewrite insert_rev_perm. constructor; [|done].
    unfold busier. by apply flt_asym.
  - constructor; [by constructor|]. constructor; [done|].
    rewrite Forall_forall in Hp, Hok |- *. intros q Hq. unfold busier in *.
    by apply (flt_negtrans _ (PCPUUsagePct p)); auto; apply Hok.
Qed.

Lemma sort_loop_sorted procs acc :
  Forall cpu_ok procs → Forall cpu_ok acc → increasing acc →
  increasing (foldl (λ sorted key, insert_rev key sorted) acc procs).
Proof.
  intros Hp. revert acc. induction Hp as [|p procs Hp Hps IH]; intros acc Ha Hs; simpl; [done|].
  apply IH; [|by apply insert_rev_sorted]. rewrite insert_rev_perm. by constructor.
Qed.

Lemma sortByCPU_sorted procs :
  Forall cpu_ok procs → StronglySorted busier (sortByCPU procs).
Proof.
  intros Hp. unfold sortByCPU.
  pose proof (sort_loop_sorted procs [] Hp (Forall_nil_2 _) (SSorted_nil _)) as Hs.
  induction Hs as [|p l Hs IH Hx]; simpl; [constructor|].
  apply StronglySorted_app_2; [|exact IH|by repeat constructor].
  intros x y Hx' Hy. apply list_elem_of_singleton in Hy as ->.
  rewrite Forall_forall in Hx. apply Hx.
  rewrite list_elem_of_In in Hx' |- *. by apply in_rev.
Qed.

(** * Lemmas on a poll *)

(** A poll interval whose ticks are a proper number. *)
Definition interval_ok (c : Collector) : Prop :=
  f_regular (fmul (duration_seconds (PollInterval c)) clkTck) = true.

Lemma round2_not_nan x : not_nan x → not_nan (round2 x).
Proof.
  intros Hx. unfold round2. apply fdiv_not_nan; [|done].
  apply f_round_not_nan. by apply fmul_not_nan.
Qed.

Lemma cpu_percent_not_nan i ticks :
  f_regular (fmul (duration_seconds i) clkTck) = true → not_nan (cpu_percent i ticks).
Proof.
  intros Hi. unfold cpu_percent. apply round2_not_nan.
  destruct (flt (fmul _ _) _); [done|]. destruct (flt _ f_zero); [done|].
  apply fmul_not_nan; [|done]. apply fdiv_not_nan; [|done]. apply f_of_Z_not_nan.
Qed.

(** The fields a poll of the processes leaves alone. *)
Definition same_rest (c c' : Collector) : Prop :=
  cfg c' = cfg c ∧ cpucalc c' = cpucalc c ∧ lastSnapshot c' = lastSnapshot c ∧
  SnapshotOutput c' = SnapshotOutput c ∧ pollCount c' = pollCount c ∧
  tracker c' = tracker c ∧ gpuSampler c' = gpuSampler c ∧ startedAt c' = startedAt c.

(** The caches only hold processes whose ticks are known. *)
Definition tracked (c : Collector) : Prop :=
  dom (cg c) ⊆ dom (procDeltas c) ∧ dom (prevCPUPct c) ⊆ dom (procDeltas c).

Lemma computeProcessCPU_spec pid pm c :
  let '(c', x) := computeProcessCPU pid pm c in
  same_rest c c' ∧ cg c' = cg c ∧
  procDeltas c' = <[pid := {| PrevUTime := UTime pm; PrevSTime := STime pm |}]> (procDeltas c) ∧
  dom (prevCPUPct c') ⊆ dom (prevCPUPct c) ∪ {[pid]} ∧
  (interval_ok c → not_nan x).
Proof.
  unfold computeProcessCPU, same_rest.
  destruct (procDeltas c !! pid) as [p|]; [destruct (fle _ _)|]; simpl;
    split_and!; try done; try set_solver.
  intros Hi. by apply cpu_percent_not_nan.
Qed.

(** One readable process. *)
Definition readable (e : proc_entry) : option Z :=
  pid ← entry_pid e;
  match ReadProcStat (EStat e) pid with StatOk _ => Some pid | _ => None end.

Definition panics (e : proc_entry) : Prop :=
  ∃ pid, entry_pid e = Some pid ∧ ReadProcStat (EStat e) pid = StatPanics.

Lemma collect_entries_spec entries c acc :
  Forall (λ e, ¬ panics e) entries → interval_ok c → tracked c → Forall cpu_ok acc →
  ∃ c' procs, collect_entries entries c acc = Some (c', acc ++ procs) ∧
    PPID <$> procs = omap readable entries ∧ Forall cpu_ok procs ∧
    same_rest c c' ∧ tracked c' ∧
    dom (procDeltas c') = dom (procDeltas c) ∪ list_to_set (omap readable entries).
Proof.
  intros He. revert c acc. induction He as [|e rest He _ IH]; intros c acc Hi Ht Ha.
  - exists c, []. rewrite app_nil_r. split_and!; try done. set_solver.
  - change (omap readable (e :: rest)) with
      (match readable e with Some y => y :: omap readable rest | None => omap readable rest end).
    assert (Hread : readable e =
      match entry_pid e with
      | Some pid => match ReadProcStat (EStat e) pid with StatOk _ => Some pid | _ => None end
      | None => None
      end) by (unfold readable; by destruct (entry_pid e)).
    rewrite Hread. clear Hread. cbn [collect_entries]. unfold panics in He.
    destruct (entry_pid e) as [pid|]; [|by apply IH].
    destruct (ReadProcStat (EStat e) pid) as [pm|err|] eqn:Er; [|by apply IH|by destruct He; eauto].
    pose proof (Resolve_dom pid (ECgroup e) (cg c)) as Hr.
    destruct (Resolve pid (ECgroup e) (cg c)) as [r cid]. simpl in Hr.
    pose proof (computeProcessCPU_spec pid pm (set_cg r c)) as Hc.
    destruct (computeProcessCPU pid pm (set_cg r c)) as [c1 x].
    destruct Hc as (Hsame & Hcg & Hd & Hp & Hx). simpl in Hcg, Hd, Hp.
    set (p := {| PPID := pid; PContainerID := cid; PProcessName := Comm pm; PCPUUsagePct := x;
                 PRSSBytes := RSS pm; PVSizeBytes := VSize pm |}).
    destruct Ht as [Ht1 Ht2].
    destruct (IH c1 (acc ++ [p])) as (c' & procs & -> & Hids & Hok & Hs' & Ht' & Hd').
    { unfold interval_ok in *. by destruct Hsame as (-> & _). }
    { split; rewrite Hd, ?Hcg, dom_insert_L; set_solver. }
    { apply Forall_app_2; [done|]. constructor; [|done]. by apply Hx. }
    exists c', (p :: procs). rewrite <- app_assoc. split_and!; [done| | |  |done|].
    + by rewrite fmap_cons, Hids.
    + constructor; [by apply Hx|done].
    + unfold same_rest in *. simpl in Hsame. destruct Hs' as (-> & -> & -> & -> & -> & -> & -> & ->). done.
    + rewrite Hd', Hd, dom_insert_L. set_solver.
Qed.

Definition prune_step (seen : gset Z) (c : Collector) (pid : Z) : Collector :=
  if bool_decide (pid ∈ seen) then c
  else set_cg (Evict pid (cg c))
         (set_deltas (delete pid (procDeltas c)) (delete pid (prevCPUPct c)) c).

Lemma prune_loop_spec {A} seen (l : list (Z * A)) c :
  let c' := foldl (λ c '(pid, _), prune_step seen c pid) c l in
  same_rest c c' ∧ (tracked c → tracked c') ∧
  dom (procDeltas c') = dom (procDeltas c) ∖ (list_to_set l.*1 ∖ seen).
Proof.
  revert c. induction l as [|[pid x] l IH]; intros c; cbn [foldl fmap list_fmap].
  - split_and!; [done|done|]. simpl. set_solver.
  - destruct (IH (prune_step seen c pid)) as (Hs & Ht & Hd).
    assert (Hstep : same_rest c (prune_step seen c pid) ∧
      (tracked c → tracked (prune_step seen c pid)) ∧
      dom (procDeltas (prune_step seen c pid)) = dom (procDeltas c) ∖ ({[pid]} ∖ seen)).
    { unfold prune_step. destruct (decide (pid ∈ seen)) as [Hp|Hp].
      - rewrite bool_decide_eq_true_2 by done. split_and!; [done|done|]. set_solver.
      - rewrite bool_decide_eq_false_2 by done. split_and!; [done| |].
        + intros [H1 H2]. unfold tracked, set_cg, set_deltas, Evict. simpl.
          rewrite !dom_delete_L. split; set_solver.
        + simpl. rewrite dom_delete_L. set_solver. }
    destruct Hstep as (Hs1 & Ht1 & Hd1). split_and!.
    + unfold same_rest in *. destruct Hs as (-> & -> & -> & -> & -> & -> & -> & ->). done.
    + auto.
    + rewrite Hd, Hd1. simpl. set_solver.
Qed.

Lemma prune_spec `{MapRange} n seen c :
  same_rest c (prune n seen c) ∧ (tracked c → tracked (prune n seen c)) ∧
  dom (procDeltas (prune n seen c)) = dom (procDeltas c) ∩ seen.
Proof.
  destruct (prune_loop_spec seen (range n (procDeltas c)) c) as (Hs & Ht & Hd).
  unfold prune. split_and!; [exact Hs|exact Ht|]. unfold prune_step in Hd. rewrite Hd.
  apply set_eq. intros pid.
  assert (Hin : pid ∈ (list_to_set (range n (procDeltas c)).*1 : gset Z) ↔ pid ∈ dom (procDeltas c)).
  { rewrite elem_of_list_to_set, elem_of_dom, list_elem_of_fmap. split.
    - intros ([k x] & -> & Hk). apply elem_of_range in Hk. by exists x.
    - intros [x Hx]. exists (pid, x). by rewrite elem_of_range. }
  destruct (decide (pid ∈ seen)); set_solver.
Qed.

Lemma readable_seen entries :
  list_to_set (omap readable entries) ⊆ seenPIDs entries.
Proof.
  unfold seenPIDs. intros pid. rewrite !elem_of_list_to_set, !list_elem_of_omap.
  intros (e & He & Hr). exists e. split; [done|]. unfold readable in Hr.
  destruct (entry_pid e) as [p|]; [|done]. simpl in Hr.
  destruct (ReadProcStat (EStat e) p); by simplify_eq.
Qed.

Definition entries_of (rd : readings) : list proc_entry := default [] (proc_dir rd).

(** The processes of a poll: what is kept is the busiest, and the state only
    remembers what was seen. *)
Lemma collectProcessMetrics_spec `{MapRange} n dir c :
  Forall (λ e, ¬ panics e) (default [] dir) → interval_ok c → tracked c →
  ∃ c' procs, collectProcessMetrics n dir c = Some (c', procs) ∧
    PPID <$> procs = omap readable (default [] dir) ∧ Forall cpu_ok procs ∧
    same_rest c c' ∧ tracked c' ∧
    (∀ entries, dir = Some entries →
       dom (procDeltas c') =
         (dom (procDeltas c) ∩ seenPIDs entries) ∪ list_to_set (omap readable entries)).
Proof.
  intros He Hi Ht. destruct dir as [entries|]; simpl in *.
  - destruct (collect_entries_spec entries c [] He Hi Ht (Forall_nil_2 _))
      as (c1 & procs & -> & Hids & Hok & Hs1 & Ht1 & Hd1). simpl.
    destruct (prune_spec n (seenPIDs entries) c1) as (Hs2 & Ht2 & Hd2).
    eexists _, _. split_and!; [done|done|done| |by auto|].
    + unfold same_rest in *. by destruct Hs2 as (-> & -> & -> & -> & -> & -> & -> & ->).
    + intros es [= <-]. rewrite Hd2, Hd1. pose proof (readable_seen entries). set_solver.
  - exists c, []. by split_and!.
Qed.

(** Cutting a ranking keeps the busiest. *)
Lemma take_ranked n procs p q :
  StronglySorted busier procs → p ∈ take n procs → q ∈ drop n procs → busier p q.
Proof.
  intros Hs Hp Hq. rewrite <- (take_drop n procs) in Hs. by eapply StronglySorted_app_1_elem_of.
Qed.

(** * Theorems *)

Definition no_panics (rd : readings) : Prop := Forall (λ e, ¬ panics e) (entries_of rd).

Lemma collectOnce_cases `{MapRange} marshal n rd c :
  no_panics rd → interval_ok c → tracked c →
  ∃ c' snap ranked procs, collectOnce marshal n rd c = Some c' ∧
    (cfg c' = cfg c ∧ gpuSampler c' = Gpu.Sample n (gpu_query rd) (gpuSampler c) ∧
     tracker c' = (Ebpf.Drain 256 (tracker c)).2 ∧ pollCount c' = i64 (pollCount c + 1) ∧
     startedAt c' = startedAt c) ∧
    SnGPUDevices snap = Gpu.LastGPUDevices (gpuSampler c') ∧ tracked c' ∧
    (∀ entries, proc_dir rd = Some entries →
       dom (procDeltas c') =
         (dom (procDeltas c) ∩ seenPIDs entries) ∪ list_to_set (omap readable entries)) ∧
    SnMonitoredProcesses snap = take processLimit ranked ∧ ranked ≡ₚ procs ∧
    StronglySorted busier ranked ∧ PPID <$> procs = omap readable (entries_of rd) ∧
    match marshal snap with
    | None => lastSnapshot c' = lastSnapshot c ∧ SnapshotOutput c' = SnapshotOutput c
    | Some data =>
        let data := (data +:+ String newline "")%string in
        lastSnapshot c' = Some data ∧
        SnapshotOutput c' = (λ ch, (try_send data ch).1) <$> SnapshotOutput c
    end.
Proof.
  intros Hp Hi Ht. unfold collectOnce.
  destruct (ReadAndCompute (stat_file rd) (cpucalc c)) as [calc total].
  destruct (match ReadMemoryInfo (meminfo_file rd) with inr m => _ | inl _ => _ end) as [tb ub].
  match goal with |- context [collectProcessMetrics n (proc_dir rd) ?c0] =>
    destruct (collectProcessMetrics_spec n (proc_dir rd) c0 Hp Hi Ht)
      as (c1 & procs & -> & Hids & Hok & (Hs1 & _ & Hs3 & Hs4 & Hs5 & Hs6 & Hs7 & Hs8) & Ht1 & Hd1) end.
  cbn [mbind option_bind]. simpl in Hs1, Hs3, Hs4, Hs5, Hs6, Hs7, Hs8, Hd1.
  rewrite Hs6, Hs7. destruct (Ebpf.Drain 256 (tracker c)) as [evs tr] eqn:Etr. unfold JSON, stamped.
  cbn [SnHostMetrics SnMonitoredProcesses SnGPUDevices].
  match goal with |- context [marshal ?s] => set (snap := s) end.
  destruct (marshal snap) as [data|] eqn:Em;
    eexists _, snap, (sortByCPU procs), procs; rewrite Em;
    (split_and!; [done|done|done|done|exact Hs5|exact Hs8|done|exact Ht1|exact Hd1|done
                 |apply sortByCPU_perm|by apply sortByCPU_sorted|exact Hids|..]); simpl; try done.
  by rewrite Hs4.
Qed.

(** Polls keep the sources as they were started. *)
Lemma polls_spec `{MapRange} marshal rds c :
  Forall (λ '(_, rd), no_panics rd) rds → interval_ok c → tracked c →
  in_i64 (pollCount c + llen rds) → 0 <= pollCount c →
  ∃ c', polls marshal rds c = Some c' ∧ interval_ok c' ∧ tracked c' ∧
    cfg c' = cfg c ∧ startedAt c' = startedAt c ∧ pollCount c' = pollCount c + llen rds ∧
    Ebpf.Close (tracker c') = Ebpf.Close (tracker c) ∧
    Ebpf.Fallback (tracker c') = Ebpf.Fallback (tracker c) ∧
    Gpu.impl (gpuSampler c') = Gpu.impl (gpuSampler c) ∧
    Gpu.Available (gpuSampler c') = Gpu.Available (gpuSampler c).
Proof.
  intros Hp. revert c. induction Hp as [|[n rd] rds Hrd Hp IH]; intros c Hi Ht Hc Hc0.
  - exists c. rewrite llen_nil. split_and!; try done. lia.
  - rewrite llen_cons in Hc |- *. pose proof (llen_nonneg rds).
    destruct (collectOnce_cases marshal n rd c Hrd Hi Ht)
      as (c1 & _ & _ & _ & Hone & (Hcfg & Hg & Htr & Hn & Hst) & _ & Ht1 & _).
    rewrite i64_id in Hn by (unfold in_i64 in *; lia).
    destruct (IH c1) as (c' & Hc' & Hi' & Ht' & E1 & E2 & E3 & E4 & E5 & E6 & E7).
    { unfold interval_ok in *. by rewrite Hcfg. }
    { done. } { rewrite Hn. unfold in_i64 in *. lia. } { lia. }
    destruct (Ebpf.Drain_rest 256 (tracker c)) as [Hd1 Hd2].
    destruct (Gpu.Sample_impl n (gpu_query rd) (gpuSampler c)) as [Hs1 Hs2].
    exists c'. simpl. rewrite Hone. simpl. rewrite Hc', E1, E2, E3, E4, E5, E6, E7, Hcfg, Hst, Hn, Htr, Hg,
      Hd1, Hd2, Hs1, Hs2. split_and!; try done. lia.
Qed.

(** C20: the life of the collector, from [Run] to the cancellation.  If no poll
    panics it ends, having polled once per tick and, when verbose, once before;
    the NVML library is left with no initialisation outstanding, and of the
    tracker's resources exactly those that were acquired are closed.  The health
    page counts the polls and says whether the GPU sampler started; it says that
    process tracking is enabled when the program is attached, but also when
    tracking is switched off in the configuration. *)
Theorem Run_spec `{MapRange} marshal env first ticks config out :
  let rds := (if AgentConfig.Verbose config then [first] else []) ++ ticks in
  0 < AgentConfig.PollInterval config → interval_ok (New config out) →
  Forall (λ '(_, rd), no_panics rd) rds → in_i64 (llen rds) →
  ∃ c closed, Run marshal env first ticks (New config out) = Some (c, 0, closed) ∧
    (∀ r, r ∈ closed ↔
       AgentConfig.EnableBPF config = true ∧ r ∈ Ebpf.acquired (run_attach env)) ∧
    ∀ now, let h := handleHealth now c in
      Polls h = llen rds ∧
      (EBPFMode h = "enabled"%string ↔
         AgentConfig.EnableBPF config = false ∨ Ebpf.attaches (run_attach env) = true) ∧
      (GPUMode h = "active"%string ↔ Gpu.nvml_ok (run_nvml env) = true).
Proof.
  intros rds Hpos Hi Hp Hlen. unfold Run.
  pose proof (Ebpf.Start_New (run_attach env)) as Htr.
  pose proof (Gpu.Run_New (run_nvml env)) as Hg.
  destruct (Run_start env (New config out)) as [[c0 opened] closed0] eqn:E.
  assert (Hc0 : cfg c0 = config ∧ pollCount c0 = 0 ∧ tracked c0 ∧
    (∀ r, r ∈ closed0 ++ Ebpf.Close (tracker c0) ↔
       AgentConfig.EnableBPF config = true ∧ r ∈ Ebpf.acquired (run_attach env)) ∧
    Ebpf.Fallback (tracker c0) =
      AgentConfig.EnableBPF config && negb (Ebpf.attaches (run_attach env)) ∧
    Gpu.Available (gpuSampler c0) = Gpu.nvml_ok (run_nvml env) ∧
    opened = if Gpu.PsInitd (Gpu.impl (gpuSampler c0)) then 1 else 0).
  { unfold Run_start, New in E. simpl in E. destruct (Gpu.Run _ _) as [[gs err] d].
    destruct Hg as (Hg1 & Hg2 & Hg3).
    destruct (AgentConfig.EnableBPF config); [destruct (Ebpf.Start _ _) as [tr cl]|];
      injection E as <- <- <-; simpl; rewrite Hg2.
    - destruct Htr as (Hf & Hcl & ->). rewrite Hf. split_and!; try done.
      intros r. rewrite elem_of_app, <- Hcl. destruct (Ebpf.attaches _); [rewrite elem_of_nil|]; tauto.
    - split_and!; try done. intros r. split; [intros []%elem_of_nil|by intros []]. }
  destruct Hc0 as (Hcfg & Hn & Ht0 & Hcl & Hfb & Hav & ->).
  rewrite (proj2 (Z.leb_gt _ _)) by (by rewrite Hcfg).
  assert (Hi0 : interval_ok c0) by (unfold interval_ok in *; by rewrite Hcfg).
  unfold rds in Hp, Hlen. rewrite llen_app in Hlen.
  apply Forall_app in Hp as [Hp1 Hp2]. rewrite <- Hcfg in Hp1, Hlen.
  pose proof (llen_nonneg ticks) as Hl2.
  match type of Hlen with in_i64 (?a + _) => assert (Hl1 : 0 <= a) by apply llen_nonneg end.
  destruct (polls_spec marshal _ c0 Hp1 Hi0 Ht0) as (c1 & -> & Hi1 & Ht1 & A1 & _ & A3 & A4 & A5 & A6 & A7);
    [rewrite Hn; unfold in_i64 in *; lia|lia|].
  destruct (polls_spec marshal _ c1 Hp2 Hi1 Ht1) as (c2 & Hc2 & _ & _ & B1 & _ & B3 & B4 & B5 & B6 & B7);
    [rewrite A3, Hn; unfold in_i64 in *; lia|lia|].
  cbn [mbind option_bind]. rewrite Hc2. cbn [mbind option_bind]. unfold Run_stop.
  destruct (Gpu.Close_spec (gpuSampler c2)) as [Hs1 Hs2].
  destruct (Gpu.Close (gpuSampler c2)) as [gs shut]. simpl in Hs1, Hs2. subst shut.
  rewrite B6, A6. eexists _, _. split_and!.
  - destruct (Gpu.PsInitd _); reflexivity.
  - intros r. by rewrite B4, A4.
  - intros now. unfold handleHealth. simpl. rewrite Hs1, B7, A7, Hav, B5, A5, Hfb, B3, A3, Hn.
    unfold rds. rewrite llen_app, Hcfg. split_and!; [lia| |].
    + destruct (AgentConfig.EnableBPF config), (Ebpf.attaches _); simpl; split; intros Hx; auto;
        try done; by destruct Hx.
    + by destruct (Gpu.nvml_ok _).
Qed.

(** C30: one poll.  As long as no file of a process makes its parser panic, the
    poll finishes, and the snapshot it encodes lists every process whose
    statistics could be read, once, in decreasing order of processor share, cut
    after the first 1000: no process left out is busier than one listed; its
    devices are the last the GPU sampler could read.  The encoded snapshot, with a newline, becomes the latest one and is offered to
    the output without blocking; if encoding fails the previous one stays. *)
Theorem collectOnce_spec `{MapRange} marshal n rd c :
  no_panics rd → interval_ok c → tracked c →
  ∃ c' snap ranked, collectOnce marshal n rd c = Some c' ∧
    SnGPUDevices snap = Gpu.LastGPUDevices (Gpu.Sample n (gpu_query rd) (gpuSampler c)) ∧
    SnMonitoredProcesses snap = take 1000 ranked ∧
    PPID <$> ranked ≡ₚ omap readable (entries_of rd) ∧
    (∀ i j p q, (i < j)%nat → ranked !! i = Some p → ranked !! j = Some q →
       flt (PCPUUsagePct p) (PCPUUsagePct q) = false) ∧
    match marshal snap with
    | None => LastSnapshot c' = LastSnapshot c ∧ SnapshotOutput c' = SnapshotOutput c
    | Some data =>
        let data := (data +:+ String newline "")%string in
        handleMetrics c' = (200, data) ∧
        SnapshotOutput c' = (λ ch, (try_send data ch).1) <$> SnapshotOutput c
    end.
Proof.
  intros Hp Hi Ht.
  destruct (collectOnce_cases marshal n rd c Hp Hi Ht)
    as (c' & snap & ranked & procs & Hc & (_ & Hgpu & _) & Hdev & _ & _ & Hsnap & Hperm & Hsorted & Hids & Hm).
  exists c', snap, ranked. split_and!; [done|by rewrite Hdev, Hgpu|done| | |].
  - by rewrite Hperm, Hids.
  - intros i j p q Hij Hpi Hqj. exact (StronglySorted_lookup_lt _ _ _ _ _ _ Hsorted Hij Hpi Hqj).
  - destruct (marshal snap); [|done]. destruct Hm as [Hl Ho].
    split; [|done]. unfold handleMetrics. by rewrite Hl.
Qed.

(** The memory of the collector stays proportional to the processes of the
    host.  After any polls of a new collector, the last of which could list
    the processes, the ticks, shares and container ids remembered are all of
    processes that this last poll saw. *)
Theorem polls_tracked `{MapRange} marshal config out rds n rd entries :
  interval_ok (New config out) →
  Forall (λ '(_, rd), no_panics rd) (rds ++ [(n, rd)]) → proc_dir rd = Some entries →
  ∃ c, polls marshal (rds ++ [(n, rd)]) (New config out) = Some c ∧
    dom (procDeltas c) ⊆ seenPIDs entries ∧ dom (cg c) ⊆ seenPIDs entries ∧
    dom (prevCPUPct c) ⊆ seenPIDs entries.
Proof.
  intros Hi Hp He.
  assert (Hrun : ∀ c, interval_ok c → tracked c →
    ∃ c', polls marshal (rds ++ [(n, rd)]) c = Some c' ∧ tracked c' ∧
      dom (procDeltas c') ⊆ seenPIDs entries).
  { induction rds as [|[m rd0] rds IH]; intros c Hc Ht; simpl in Hp;
      apply Forall_cons in Hp as [Hp0 Hp]; simpl.
    - destruct (collectOnce_cases marshal n rd c Hp0 Hc Ht)
        as (c1 & _ & _ & _ & -> & _ & _ & Ht1 & Hd1 & _).
      exists c1. split_and!; [done|done|]. rewrite (Hd1 entries He).
      pose proof (readable_seen entries). set_solver.
    - destruct (collectOnce_cases marshal m rd0 c Hp0 Hc Ht)
        as (c1 & _ & _ & _ & -> & (Hi1 & _) & _ & Ht1 & _).
      apply IH; [done| |done]. unfold interval_ok in *. by rewrite Hi1. }
  destruct (Hrun (New config out) Hi) as (c & Hc & [Ht1 Ht2] & Hd).
  { split; unfold New; simpl; set_solver. }
  exists c. split_and!; [done|done|set_solver|set_solver].
Qed.

Definition exact_share (t : Z) : bool :=
  bool_decide (cpu_percent (500 * Millisecond) t = f_of_Z (2 * t)).
Definition zero_share (t : Z) : bool :=
  bool_decide (cpu_percent (500 * Millisecond) t = f_zero).

(** The share of a process at the default interval of half a second, whose
    ticks are hundredths of a second.  Up to 25 ticks, half a core, the share is
    exactly two percent per tick; a process that used more, up to 20 cores, is
    reported as using nothing, because the bound on plausible shares multiplies
    100% by the length of the interval. *)
Theorem busy_process_reads_idle ticks :
  (0 <= ticks <= 25 → cpu_percent (500 * Millisecond) ticks = f_of_Z (2 * ticks)) ∧
  (25 < ticks <= 1000 → cpu_percent (500 * Millisecond) ticks = f_zero).
Proof.
  split; intros Ht.
  - assert (H : exact_share ticks = true)
      by (apply (range_check _ 0 26); [vm_compute; reflexivity|lia]).
    by apply bool_decide_eq_true in H.
  - assert (H : zero_share ticks = true)
      by (apply (range_check _ 26 975); [vm_compute; reflexivity|lia]).
    by apply bool_decide_eq_true in H.
Qed.

Lemma busy_process_reads_idle_witness :
  cpu_percent (500 * Millisecond) 25 = f_of_Z 50 ∧ cpu_percent (500 * Millisecond) 26 = f_zero.
Proof.
  split; [apply (proj1 (busy_process_reads_idle 25)); lia
         |apply (proj2 (busy_process_reads_idle 26)); lia].
Defined.

(** ** A sample poll *)

Definition sample_readings : readings := {|
  stat_file := Some "cpu  1 2 3 4"%string;
  meminfo_file := None;
  proc_dir := Some [
    {| EName := "1"; EIsDir := true; EStat := Some (stat_line 1 "init" sample_fields);
       ECgroup := None |};
    {| EName := "self"; EIsDir := true; EStat := None; ECgroup := None |}];
  gpu_query := λ _ _, Gpu.sample_answers;
  unix_now := 0
|}.

Definition sample_collector : Collector :=
  New (AgentConfig.DefaultConfig "h") (Some (make_chan 64)).

Lemma sample_no_panics : no_panics sample_readings.
Proof.
  repeat constructor; intros (pid & Hp & Hs); vm_compute in Hp; simplify_eq; vm_compute in Hs; done.
Qed.

Lemma sample_tracked : tracked sample_collector.
Proof. split; simpl; set_solver. Qed.

Lemma collectOnce_spec_witness :
  ∃ c' snap ranked, collectOnce (λ _, Some "{}"%string) 0 sample_readings sample_collector = Some c' ∧
    SnMonitoredProcesses snap = take 1000 ranked ∧ PPID <$> ranked ≡ₚ [1] ∧
    handleMetrics c' = (200, ("{}" +:+ String newline "")%string).
Proof.
  destruct (collectOnce_spec (λ _, Some "{}"%string) 0 sample_readings sample_collector
    sample_no_panics eq_refl sample_tracked) as (c' & snap & ranked & H1 & _ & H2 & H3 & _ & H4 & _).
  exists c', snap, ranked. split_and!; [exact H1|exact H2|exact H3|exact H4].
Defined.

Lemma polls_tracked_witness :
  ∃ c, polls (λ _, Some "{}"%string) [(0%nat, sample_readings)] sample_collector = Some c ∧
    dom (procDeltas c) ⊆ {[1]}.
Proof.
  assert (Hp : Forall (λ '(_, rd), no_panics rd) ([] ++ [(0%nat, sample_readings)]))
    by (constructor; [apply sample_no_panics|constructor]).
  destruct (polls_tracked (λ _, Some "{}"%string) (AgentConfig.DefaultConfig "h") (Some (make_chan 64)) [] 0
    sample_readings _ eq_refl Hp eq_refl)
    as (c & H1 & H2 & _).
  exists c. split; [exact H1|].
  assert (Hs : seenPIDs (entries_of sample_readings) = {[1]}) by (vm_compute; reflexivity).
  change (entries_of sample_readings) with
    (default [] (proc_dir sample_readings)) in Hs. simpl in Hs. by rewrite Hs in H2.
Defined.

Definition sample_env : run_env := {|
  run_now := 0;
  run_attach := {| Ebpf.loads := true; Ebpf.exec_ok := true; Ebpf.exit_ok := false; Ebpf.reader_ok := true |};
  run_nvml := Gpu.sample_library
|}.

Lemma Run_spec_witness :
  ∃ c closed,
    Run (λ _, Some "{}"%string) sample_env (0%nat, sample_readings) [(1%nat, sample_readings)]
      sample_collector = Some (c, 0, closed) ∧
    Polls (handleHealth Second c) = 1 ∧ Ebpf.ExecLink ∈ closed ∧
    GPUMode (handleHealth Second c) = "active"%string.
Proof.
  destruct (Run_spec (λ _, Some "{}"%string) sample_env (0%nat, sample_readings)
    [(1%nat, sample_readings)] (AgentConfig.DefaultConfig "h") (Some (make_chan 64)))
    as (c & closed & H1 & H2 & H3).
  - reflexivity.
  - reflexivity.
  - apply Forall_singleton. apply sample_no_panics.
  - unfold in_i64, llen. simpl. lia.
  - destruct (H3 Second) as (H4 & _ & H5). exists c, closed. split; [exact H1|]. split; [exact H4|].
    split; [|by apply H5]. apply H2. split; [done|]. right. left.
Defined.
