(* ===== verification/Aggregator.v ===== *)
(** The aggregator and the pipeline around it ([proxy/pipeline/aggregator.go],
    [types.go], [pipeline.go]): each period one snapshot and the token events
    received since become an upstream payload in the telemetry buffer.

    The JSON codecs and the SHA-256 hash are arguments; [None] is an error of
    the codec. *)

From S2P Require Import Prelude GoFloat Model RingBuffer Streamer.

(** * Data *)

Inductive AIProvider := ProviderOpenAI | ProviderAnthropic | ProviderCustom.

#[global] Instance AIProvider_eq_dec : EqDecision AIProvider.
Proof. solve_decision. Defined.

Record TokenMetrics := { PromptTokens : Z; CompletionTokens : Z; TotalTokens : Z }.

Record TokenUsageEvent := {
  TTimestamp : Z;
  TClientPID : Z;
  TProvider : AIProvider;
  TModel : string;
  IsStreaming : bool;
  TMetrics : TokenMetrics
}.

Record ProxyEvent := { ClientPID : Z; PModel : string; TotalTokensConsumed : Z }.

Record PayloadBlock := {
  Timestamp : Z;
  Host : option HostMetrics;
  GPU : list GPUDeviceMetrics;
  Proxy : list ProxyEvent
}.

Record UpstreamPayload := { AgentID : string; AuthTokenHash : string; Payload : PayloadBlock }.

Record Aggregator := {
  agentID : string;
  authToken : string;
  snapshotCh : chan string;
  tokenCh : chan TokenUsageEvent;
  ringBuf : RingBuffer
}.

Definition NewAggregator (agent token : string) (snaps : chan string)
    (tokens : chan TokenUsageEvent) (rb : RingBuffer) : Aggregator :=
  {| agentID := agent; authToken := token; snapshotCh := snaps; tokenCh := tokens; ringBuf := rb |}.

(** What a period came to; it is only logged. *)
Inductive outcome :=
  | NoSnapshot (dropped : list ProxyEvent)
  | BadSnapshot (data : string)
  | NotEncoded (data : string) (dropped : list ProxyEvent)
  | Pushed (data : string) (payload : UpstreamPayload).

Definition to_proxy (ev : TokenUsageEvent) : ProxyEvent :=
  {| ClientPID := TClientPID ev; PModel := TModel ev;
     TotalTokensConsumed := TotalTokens (TMetrics ev) |}.

Section codecs.

(** [hex(sha256)], [json.Unmarshal] of a snapshot, [json.Marshal] of a payload. *)
Variable hex_sha256 : string → string.
Variable unmarshal : string → option Snapshot.
Variable marshal : UpstreamPayload → option string.

Definition sha256Hex (s : string) : string := if streq s "" then "" else hex_sha256 s.

Definition NewUpstreamPayload (agent token : string) (block : PayloadBlock) : UpstreamPayload :=
  {| AgentID := agent; AuthTokenHash := sha256Hex token; Payload := block |}.

Definition PayloadFromSnapshot (snap : Snapshot) (proxyEvents : list ProxyEvent)
    (agent token : string) : UpstreamPayload :=
  NewUpstreamPayload agent token
    {| Timestamp := SnTimestamp snap; Host := Some (SnHostMetrics snap);
       GPU := SnGPUDevices snap; Proxy := proxyEvents |}.

(** [drainProxyEvents]: what is buffered now, oldest first. *)
Definition drainProxyEvents (a : Aggregator) : list TokenUsageEvent * Aggregator :=
  (chan_buf (tokenCh a),
   {| agentID := agentID a; authToken := authToken a; snapshotCh := snapshotCh a;
      tokenCh := Chan (chan_cap (tokenCh a)) []; ringBuf := ringBuf a |}).

Definition with_snapshots (ch : chan string) (a : Aggregator) : Aggregator :=
  {| agentID := agentID a; authToken := authToken a; snapshotCh := ch;
     tokenCh := tokenCh a; ringBuf := ringBuf a |}.

Definition with_ring (rb : RingBuffer) (a : Aggregator) : Aggregator :=
  {| agentID := agentID a; authToken := authToken a; snapshotCh := snapshotCh a;
     tokenCh := tokenCh a; ringBuf := rb |}.

Definition aggregate (a : Aggregator) : Aggregator * outcome :=
  let '(latestSnap, ch) := try_recv (snapshotCh a) in
  let a := with_snapshots ch a in
  match latestSnap with
  | None =>
      let '(proxyEvents, a) := drainProxyEvents a in (a, NoSnapshot (to_proxy <$> proxyEvents))
  | Some data =>
      match unmarshal data with
      | None => (a, BadSnapshot data)
      | Some snap =>
          let '(proxyEvents, a) := drainProxyEvents a in
          let payload := PayloadFromSnapshot snap (to_proxy <$> proxyEvents) (agentID a) (authToken a) in
          match marshal payload with
          | None => (a, NotEncoded data (to_proxy <$> proxyEvents))
          | Some enc => (with_ring (Push enc (ringBuf a)) a, Pushed data payload)
          end
      end
  end.

(** ** Runs

    Snapshots and token events are offered without blocking, periods pass. *)
Inductive agg_event := Snap (data : string) | Token (ev : TokenUsageEvent) | Tick.

Definition with_tokens (ch : chan TokenUsageEvent) (a : Aggregator) : Aggregator :=
  {| agentID := agentID a; authToken := authToken a; snapshotCh := snapshotCh a;
     tokenCh := ch; ringBuf := ringBuf a |}.

(** The aggregator, the outcomes so far and the token events accepted so far. *)
Definition agg_step (s : Aggregator * list outcome * list TokenUsageEvent) (e : agg_event) :
    Aggregator * list outcome * list TokenUsageEvent :=
  let '(a, out, accepted) := s in
  match e with
  | Snap data => (with_snapshots (try_send data (snapshotCh a)).1 a, out, accepted)
  | Token ev =>
      let '(ch, ok) := try_send ev (tokenCh a) in
      (with_tokens ch a, out, if ok then accepted ++ [ev] else accepted)
  | Tick => let '(a, o) := aggregate a in (a, out ++ [o], accepted)
  end.

(** The token events an outcome accounts for. *)
Definition accounted (o : outcome) : list ProxyEvent :=
  match o with
  | NoSnapshot evs | NotEncoded _ evs => evs
  | BadSnapshot _ => []
  | Pushed _ p => Proxy (Payload p)
  end.

Definition delivered (o : outcome) : list ProxyEvent :=
  match o with Pushed _ p => Proxy (Payload p) | _ => [] end.

(** * Lemmas *)

(** One period, by what it found. *)
Lemma aggregate_cases a :
  let '(a', o) := aggregate a in
  agentID a' = agentID a ∧ authToken a' = authToken a ∧
  match chan_buf (snapshotCh a) with
  | [] =>
      o = NoSnapshot (to_proxy <$> chan_buf (tokenCh a)) ∧ a' = with_tokens (Chan (chan_cap (tokenCh a)) []) a
  | data :: rest =>
      chan_buf (snapshotCh a') = rest ∧
      match unmarshal data with
      | None => o = BadSnapshot data ∧ tokenCh a' = tokenCh a ∧ ringBuf a' = ringBuf a
      | Some snap =>
          let payload := PayloadFromSnapshot snap (to_proxy <$> chan_buf (tokenCh a))
                           (agentID a) (authToken a) in
          tokenCh a' = Chan (chan_cap (tokenCh a)) [] ∧
          match marshal payload with
          | None => o = NotEncoded data (to_proxy <$> chan_buf (tokenCh a)) ∧ ringBuf a' = ringBuf a
          | Some enc => o = Pushed data payload ∧ ringBuf a' = Push enc (ringBuf a)
          end
      end
  end.
Proof.
  unfold aggregate, try_recv, with_tokens. destruct (chan_buf (snapshotCh a)) as [|data rest] eqn:Es; simpl.
  - destruct a; simpl in *. by split_and!.
  - destruct (unmarshal data) as [snap|]; simpl; [|done].
    destruct (marshal _) as [enc|]; simpl; by split_and!.
Qed.

Lemma aggregate_accounted a :
  let '(a', o) := aggregate a in
  accounted o ++ (to_proxy <$> chan_buf (tokenCh a')) = to_proxy <$> chan_buf (tokenCh a).
Proof.
  pose proof (aggregate_cases a) as H. destruct (aggregate a) as [a' o].
  destruct H as (_ & _ & H). destruct (chan_buf (snapshotCh a)) as [|data rest].
  - destruct H as [-> ->]. simpl. by rewrite app_nil_r.
  - destruct H as [_ H]. destruct (unmarshal data) as [snap|]; [|by destruct H as (-> & -> & _)].
    destruct H as [Ht H]. rewrite Ht. simpl. rewrite app_nil_r.
    destruct (marshal _); by destruct H as [-> _].
Qed.

Lemma agg_step_accounted s e :
  let '(a, out, accepted) := s in
  let '(a', out', accepted') := agg_step s e in
  concat (accounted <$> out) ++ (to_proxy <$> chan_buf (tokenCh a)) = to_proxy <$> accepted →
  concat (accounted <$> out') ++ (to_proxy <$> chan_buf (tokenCh a')) = to_proxy <$> accepted'.
Proof.
  destruct s as [[a out] accepted]. destruct e as [data|ev|]; simpl; [done| |].
  - unfold try_send. destruct (_ <? _); simpl; [|done].
    intros H. by rewrite !fmap_app, app_assoc, H.
  - pose proof (aggregate_accounted a) as Ha. destruct (aggregate a) as [a' o]. simpl.
    intros H. rewrite fmap_app, concat_app. simpl. by rewrite app_nil_r, <- app_assoc, Ha.
Qed.

End codecs.

(** * The pipeline *)

(** The aggregator shares its channels and the buffer with the pipeline; the
    streamer exists once the pipeline is started. *)
Record Pipeline := { agg : Aggregator; streamer : option Streamer }.

(** [New] ignores the upstream endpoint and the poll period. *)
Definition New (agentID authToken upstreamEndpoint : string) (pollPeriod ringBufMaxMB : Z) : Pipeline :=
  let mb := if ringBufMaxMB <=? 0 then 50 else ringBufMaxMB in
  {| agg := NewAggregator agentID authToken (make_chan 64) (make_chan 16384)
              (NewRingBuffer (i64 (mb * 1024 * 1024)));
     streamer := None |}.

Definition Start (p : Pipeline) : Pipeline :=
  {| agg := agg p; streamer := Some (NewStreamer "") |}.

Definition SetUpstreamEndpoint (ep : string) (p : Pipeline) : Pipeline :=
  {| agg := agg p;
     streamer := (λ s, {| endpoint := ep; batchSize := batchSize s |}) <$> streamer p |}.

(** Entries and bytes of the buffer; the counts of snapshots and tokens are
    always zero. *)
Definition Stats (p : Pipeline) : Z * Z * Z * Z := (Len (ringBuf (agg p)), Bytes (ringBuf (agg p)), 0, 0).

(** * Theorems *)

(** One period of the aggregator, completely.  With no snapshot waiting the
    token events are taken and lost; a snapshot that does not decode is lost and
    leaves the token events; otherwise the oldest waiting snapshot gives the time,
    the host figures and the GPUs of one payload that holds every token event
    waiting, in order, under the agent's id and the hash of its token (none for
    an empty token), and its encoding enters the telemetry buffer. *)
Theorem aggregate_spec hex_sha256 unmarshal marshal a :
  let '(a', o) := aggregate hex_sha256 unmarshal marshal a in
  let events := to_proxy <$> chan_buf (tokenCh a) in
  match chan_buf (snapshotCh a) with
  | [] => o = NoSnapshot events ∧ chan_buf (tokenCh a') = [] ∧ ringBuf a' = ringBuf a ∧
          snapshotCh a' = snapshotCh a
  | data :: rest =>
      chan_buf (snapshotCh a') = rest ∧
      match unmarshal data with
      | None => o = BadSnapshot data ∧ tokenCh a' = tokenCh a ∧ ringBuf a' = ringBuf a
      | Some snap =>
          let payload := {|
            AgentID := agentID a;
            AuthTokenHash := if streq (authToken a) "" then "" else hex_sha256 (authToken a);
            Payload := {| Timestamp := SnTimestamp snap; Host := Some (SnHostMetrics snap);
                          GPU := SnGPUDevices snap; Proxy := events |} |} in
          chan_buf (tokenCh a') = [] ∧
          match marshal payload with
          | None => o = NotEncoded data events ∧ ringBuf a' = ringBuf a
          | Some enc => o = Pushed data payload ∧ ringBuf a' = Push enc (ringBuf a)
          end
      end
  end.
Proof.
  pose proof (aggregate_cases hex_sha256 unmarshal marshal a) as H.
  destruct (aggregate hex_sha256 unmarshal marshal a) as [a' o]. cbv zeta.
  destruct H as (_ & _ & H). destruct (chan_buf (snapshotCh a)) as [|data rest].
  - destruct H as [-> ->]. done.
  - destruct H as [Hs H]. split; [done|]. destruct (unmarshal data) as [snap|]; [|done].
    unfold PayloadFromSnapshot, NewUpstreamPayload, sha256Hex in H.
    destruct H as [-> H]. split; [done|]. destruct (marshal _); exact H.
Qed.

(** C29: every token event that the channel accepted is accounted for exactly
    once and in order: over any sequence of snapshots, token events and periods,
    the events of the periods, each in a payload or lost for want of a usable
    snapshot, followed by those still waiting, are the accepted ones. *)
Theorem tokens_accounted hex_sha256 unmarshal marshal agent token snaps rb cap evs a out accepted :
  foldl (agg_step hex_sha256 unmarshal marshal)
    (NewAggregator agent token snaps (make_chan cap) rb, [], []) evs = (a, out, accepted) →
  concat (accounted <$> out) ++ (to_proxy <$> chan_buf (tokenCh a)) = to_proxy <$> accepted ∧
  concat (delivered <$> out) `sublist_of` to_proxy <$> accepted.
Proof.
  intros Hrun.
  assert (Hinv : concat (accounted <$> out) ++ (to_proxy <$> chan_buf (tokenCh a)) = to_proxy <$> accepted).
  { set (P := λ s : Aggregator * list outcome * list TokenUsageEvent,
      concat (accounted <$> s.1.2) ++ (to_proxy <$> chan_buf (tokenCh s.1.1)) = to_proxy <$> s.2).
    change (P (a, out, accepted)). rewrite <- Hrun. apply foldl_inv; [done|].
    intros [[a0 o0] acc0] e. unfold P.
    pose proof (agg_step_accounted hex_sha256 unmarshal marshal (a0, o0, acc0) e) as H.
    destruct (agg_step _ _ _ (a0, o0, acc0) e) as [[a1 o1] acc1]. exact H. }
  split; [exact Hinv|]. rewrite <- Hinv. apply sublist_inserts_r. clear.
  induction out as [|o out IH]; [done|]. rewrite !fmap_cons. simpl.
  apply sublist_app; [|exact IH]. destruct o; simpl; try apply sublist_nil_l; done.
Qed.

Definition sample_token : TokenUsageEvent := {|
  TTimestamp := 0; TClientPID := 42; TProvider := ProviderOpenAI; TModel := "m";
  IsStreaming := false; TMetrics := {| PromptTokens := 1; CompletionTokens := 2; TotalTokens := 3 |}
|}.

Definition sample_snapshot : Snapshot := {|
  SnTimestamp := 5;
  SnHostMetrics := {| CPUUtilizationPct := f_zero; HMemoryTotalBytes := 0; HMemoryUsedBytes := 0 |};
  SnMonitoredProcesses := []; SnGPUDevices := []
|}.

Lemma tokens_accounted_witness :
  ∃ a out accepted,
    foldl (agg_step id (λ _, Some sample_snapshot) (λ _, Some "{}"%string))
      (NewAggregator "n" "" (make_chan 64) (make_chan 4) (NewRingBuffer 100), [], [])
      [Token sample_token; Tick; Token sample_token; Snap "s"; Tick] = (a, out, accepted) ∧
    length accepted = 2%nat ∧ concat (delivered <$> out) = [to_proxy sample_token] ∧
    concat (accounted <$> out) = to_proxy <$> accepted.
Proof.
  destruct (foldl (agg_step id (λ _, Some sample_snapshot) (λ _, Some "{}"%string))
    (NewAggregator "n" "" (make_chan 64) (make_chan 4) (NewRingBuffer 100), [], [])
    [Token sample_token; Tick; Token sample_token; Snap "s"; Tick]) as [[a out] accepted] eqn:E.
  exists a, out, accepted. split; [done|].
  pose proof (tokens_accounted id (λ _, Some sample_snapshot) (λ _, Some "{}"%string) "n" ""
    (make_chan 64) (NewRingBuffer 100) 4 _ _ _ _ E) as [H _].
  vm_compute in E. simplify_eq. split_and!; [reflexivity|reflexivity|].
  simpl in H |- *. exact H.
Defined.
