(* ===== verification/ProxyLog.v ===== *)
(** The metrics log of the proxy ([proxy/proxy/model.go]): the line of an event,
    and the logger that writes the lines through a channel.

    [literal] is [%q] of [fmt], a Go string literal; what is needed of it is
    stated where it is needed. *)

From S2P Require Import Prelude GoStrings Aggregator.

Definition provider_name (p : AIProvider) : string :=
  match p with
  | ProviderOpenAI => "openai"
  | ProviderAnthropic => "anthropic"
  | ProviderCustom => "custom"
  end.

(** [%t] *)
Definition fmt_t (b : bool) : string := if b then "true" else "false".

Definition newline_str : string := String newline "".

(** [MetricsLogger]: its channel, and the lines it has written. *)
Record MetricsLogger := { events : chan TokenUsageEvent; lines : list string }.

Definition NewMetricsLogger : MetricsLogger := {| events := make_chan 4096; lines := [] |}.

(** [ev.Timestamp = ...] *)
Definition stamp (now : Z) (ev : TokenUsageEvent) : TokenUsageEvent :=
  {| TTimestamp := now; TClientPID := TClientPID ev; TProvider := TProvider ev; TModel := TModel ev;
     IsStreaming := IsStreaming ev; TMetrics := TMetrics ev |}.

Definition LogEvent (ev : TokenUsageEvent) (ml : MetricsLogger) : MetricsLogger :=
  {| events := (try_send ev (events ml)).1; lines := lines ml |}.

Section log.

Variable literal : string → string.

Definition LogLine (e : TokenUsageEvent) : string :=
  "timestamp=" +:+ fmt_d (TTimestamp e) +:+ " pid=" +:+ fmt_d (TClientPID e) +:+
  " provider=" +:+ provider_name (TProvider e) +:+ " model=" +:+ literal (TModel e) +:+
  " streaming=" +:+ fmt_t (IsStreaming e) +:+
  " prompt_tokens=" +:+ fmt_d (PromptTokens (TMetrics e)) +:+
  " completion_tokens=" +:+ fmt_d (CompletionTokens (TMetrics e)) +:+
  " total_tokens=" +:+ fmt_d (TotalTokens (TMetrics e)) +:+ newline_str.

(** A turn of the loop, which stamps the event anew. *)
Definition log_loop (now : Z) (ml : MetricsLogger) : MetricsLogger :=
  match try_recv (events ml) with
  | (Some ev, ch) => {| events := ch; lines := lines ml ++ [LogLine (stamp now ev)] |}
  | (None, _) => ml
  end.

(** The logger at work: an event is offered, or the loop takes one. *)
Definition logger_step (ml : MetricsLogger) (x : TokenUsageEvent + Z) : MetricsLogger :=
  match x with inl ev => LogEvent ev ml | inr now => log_loop now ml end.

(** * Lines are unambiguous *)

(** A field that ends before a byte it lacks is determined. *)
Lemma cut_inj b s t s' t' :
  lacks s b = true → lacks s' b = true →
  s +:+ String b t = s' +:+ String b t' → s = s' ∧ t = t'.
Proof.
  revert s'. induction s as [|c s IH]; intros [|c' s'] Hs Hs' He; simpl in *.
  - by simplify_eq.
  - injection He as -> _. by rewrite Ascii.eqb_refl in Hs'.
  - injection He as -> _. by rewrite Ascii.eqb_refl in Hs.
  - apply andb_true_iff in Hs as [_ Hs], Hs' as [_ Hs']. injection He as -> He.
    destruct (IH s' Hs Hs' He). by simplify_eq.
Qed.

Lemma prefix_inj p s t : p +:+ s = p +:+ t → s = t.
Proof. induction p as [|c p IH]; [done|]. rewrite !app_cons. intros [= H]. auto. Qed.

Lemma fmt_d_lacks_byte z b :
  b ≠ "-"%char → (∀ c, digit_value 10 c ≠ None → c ≠ b) → lacks (fmt_d z) b = true.
Proof.
  intros Hm Hb. destruct (Z.le_gt_cases 0 z) as [Hz|Hz]; [by apply fmt_d_lacks|].
  destruct z as [|p|p]; [lia..|].
  change (fmt_d (Z.neg p)) with (String "-" (fmt_d (Z.pos p))).
  cbn [lacks]. rewrite fmt_d_lacks by done. rewrite andb_true_r. by apply negb_true_iff, Ascii.eqb_neq.
Qed.

Lemma fmt_d_lacks_space z : lacks (fmt_d z) " " = true.
Proof. apply fmt_d_lacks_byte; [done|]. by intros c Hc ->. Qed.

Lemma fmt_d_lacks_newline z : lacks (fmt_d z) newline = true.
Proof. apply fmt_d_lacks_byte; [done|]. by intros c Hc ->. Qed.

Lemma provider_name_inj p q : provider_name p = provider_name q → p = q.
Proof. by destruct p, q. Qed.

(** What a Go string literal promises: it is read back without looking past its
    closing quote, and it has no line break. *)
Context (unquote : string → option (string * string)).
Hypothesis quote_read : ∀ s rest, unquote (literal s +:+ rest) = Some (s, rest).
Hypothesis quote_line : ∀ s, lacks (literal s) newline = true.

Lemma quote_inj s t u v : literal s +:+ u = literal t +:+ v → s = t ∧ u = v.
Proof using quote_read. intros H. apply (f_equal unquote) in H. rewrite !quote_read in H. by simplify_eq. Qed.

(** A numeral after a constant. *)
Lemma numeral_inj p x y s t :
  p +:+ fmt_d x +:+ String " " s = p +:+ fmt_d y +:+ String " " t → x = y ∧ s = t.
Proof.
  intros H%prefix_inj%cut_inj; [|apply fmt_d_lacks_space..]. destruct H as [H ->].
  by apply fmt_d_inj in H.
Qed.

Lemma LogLine_inj e1 e2 : LogLine e1 = LogLine e2 → e1 = e2.
Proof using quote_read.
  destruct e1 as [ts1 pid1 pr1 m1 st1 [p1 c1 t1]], e2 as [ts2 pid2 pr2 m2 st2 [p2 c2 t2]].
  unfold LogLine. cbn [TTimestamp TClientPID TProvider TModel IsStreaming TMetrics PromptTokens
    CompletionTokens TotalTokens]. intros H.
  apply numeral_inj in H as [-> H]. apply (numeral_inj "pid=") in H as [-> H].
  apply (prefix_inj "provider=") in H. apply (cut_inj " ") in H as [Hp H]; [|by destruct pr1|by destruct pr2].
  apply provider_name_inj in Hp as ->. apply (prefix_inj "model=") in H.
  apply quote_inj in H as [-> H]. apply (prefix_inj " streaming=") in H.
  apply (cut_inj " ") in H as [Hs H]; [|by destruct st1|by destruct st2].
  assert (st1 = st2) as -> by (by destruct st1, st2).
  apply (numeral_inj "prompt_tokens=") in H as [-> H].
  apply (numeral_inj "completion_tokens=") in H as [-> H]. apply (prefix_inj "total_tokens=") in H.
  apply (cut_inj newline) in H as [H _]; [|apply fmt_d_lacks_newline..]. by apply fmt_d_inj in H as ->.
Qed.

Lemma LogLine_one_line e :
  ∃ body, LogLine e = body +:+ newline_str ∧ lacks body newline = true.
Proof using quote_line.
  eexists ("timestamp=" +:+ fmt_d (TTimestamp e) +:+ " pid=" +:+ fmt_d (TClientPID e) +:+
    " provider=" +:+ provider_name (TProvider e) +:+ " model=" +:+ literal (TModel e) +:+
    " streaming=" +:+ fmt_t (IsStreaming e) +:+
    " prompt_tokens=" +:+ fmt_d (PromptTokens (TMetrics e)) +:+
    " completion_tokens=" +:+ fmt_d (CompletionTokens (TMetrics e)) +:+
    " total_tokens=" +:+ fmt_d (TotalTokens (TMetrics e))).
  split; [unfold LogLine; by rewrite !app_string_assoc|].
  rewrite !lacks_app, quote_line, !fmt_d_lacks_newline.
  by destruct (TProvider e), (IsStreaming e).
Qed.

End log.

(** ** The logger at work *)

(** The events that are offered, and the times the loop stamps. *)
Definition offered (xs : list (TokenUsageEvent + Z)) : list TokenUsageEvent :=
  omap (λ x, match x with inl ev => Some ev | inr _ => None end) xs.

Lemma sublist_snoc {A} (l k : list A) x : l `sublist_of` k → l `sublist_of` k ++ [x].
Proof. intros H. by apply sublist_inserts_r. Qed.

(** The lines written, without their stamps, and the events waiting are the
    events offered, in order, but the ones that found the channel full. *)
Lemma logger_history literal xs :
  let ml := foldl (logger_step literal) NewMetricsLogger xs in
  ∃ done, length done = length (lines ml) ∧
    (∀ i ev, done !! i = Some ev → ∃ now, lines ml !! i = Some (LogLine literal (stamp now ev))) ∧
    done ++ chan_buf (events ml) `sublist_of` offered xs ∧
    llen (chan_buf (events ml)) <= 4096 ∧ chan_cap (events ml) = 4096.
Proof.
  simpl. induction xs as [|x xs IH] using rev_ind.
  - exists []. by split_and!.
  - rewrite foldl_app. cbn [foldl]. destruct IH as (dn & Hl & Hd & Hs & Hc & Hcap).
    set (ml := foldl (logger_step literal) NewMetricsLogger xs) in *.
    unfold offered. rewrite omap_app. fold (offered xs). destruct x as [ev|now]; simpl.
    + exists dn. unfold try_send. rewrite Hcap. destruct (Z.ltb_spec (llen (chan_buf (events ml))) 4096); simpl.
      * split_and!; [done|done| | |done].
        -- rewrite app_assoc. by apply sublist_app.
        -- rewrite llen_app. unfold llen at 2. simpl. lia.
      * split_and!; [done|done|by apply sublist_snoc|done|done].
    + rewrite app_nil_r. unfold log_loop, try_recv.
      destruct (chan_buf (events ml)) as [|ev l] eqn:El; [exists dn; rewrite El; by split_and!|].
      exists (dn ++ [ev]). cbn [events lines chan_buf chan_cap]. split_and!.
      * rewrite !length_app. simpl. lia.
      * intros i e Hi. apply lookup_app_Some in Hi as [Hi|[Hi1 Hi2]].
        -- destruct (Hd i e Hi) as [t Ht]. exists t. by apply lookup_app_l_Some.
        -- apply list_lookup_singleton_Some in Hi2 as [Hi2 <-]. exists now.
           rewrite lookup_app_r by lia. by replace (i - length (lines ml))%nat with 0%nat by lia.
      * by rewrite <- app_assoc.
      * rewrite llen_cons in Hc. lia.
      * done.
Qed.

(** C37: the metrics log can be relied on.  Whatever sequence of requests and
    turns of the writer has run, each line written is the line of one event
    offered, stamped when it was written, in the order offered and none twice,
    and at most 4096 events wait.  A line has exactly one line break, at its
    end, whatever model name a client sent, and two events have the same line
    only if they are equal. *)
Theorem metrics_log literal (unquote : string → option (string * string)) xs :
  (∀ s rest, unquote (literal s +:+ rest) = Some (s, rest)) →
  (∀ s, lacks (literal s) newline = true) →
  let ml := foldl (logger_step literal) NewMetricsLogger xs in
  (∃ written, length written = length (lines ml) ∧
    (∀ i ev, written !! i = Some ev → ∃ now, lines ml !! i = Some (LogLine literal (stamp now ev))) ∧
    written ++ chan_buf (events ml) `sublist_of` offered xs) ∧
  llen (chan_buf (events ml)) <= 4096 ∧
  (∀ e, ∃ body, LogLine literal e = body +:+ newline_str ∧ lacks body newline = true) ∧
  (∀ e1 e2, LogLine literal e1 = LogLine literal e2 → e1 = e2).
Proof.
  intros Hq Hl ml. destruct (logger_history literal xs) as (dn & H1 & H2 & H3 & H4 & _).
  split_and!; [by exists dn|done|by apply LogLine_one_line|by apply (LogLine_inj literal unquote)].
Qed.

(** A literal that spells every byte as two letters. *)
Definition nibble (n : nat) : ascii := ascii_of_nat (97 + n).
Definition of_nibble (c : ascii) : nat := nat_of_ascii c - 97.

Fixpoint spelled (s : string) : string :=
  match s with
  | EmptyString => String "." ""
  | String c s =>
      String (nibble (nat_of_ascii c / 16)) (String (nibble (nat_of_ascii c mod 16)) (spelled s))
  end.

Fixpoint unspelled (s : string) : option (string * string) :=
  match s with
  | String c rest =>
      if Ascii.eqb c "." then Some (EmptyString, rest)
      else match rest with
           | String d rest =>
               '(s, t) ← unspelled rest;
               Some (String (ascii_of_nat (of_nibble c * 16 + of_nibble d)) s, t)
           | EmptyString => None
           end
  | EmptyString => None
  end.

Lemma nibble_facts c :
  let a := nibble (nat_of_ascii c / 16) in let b := nibble (nat_of_ascii c mod 16) in
  Ascii.eqb a "." = false ∧ Ascii.eqb a newline = false ∧ Ascii.eqb b newline = false ∧
  ascii_of_nat (of_nibble a * 16 + of_nibble b) = c.
Proof. destruct c as [[] [] [] [] [] [] [] []]; vm_compute; done. Qed.

Lemma unspelled_spelled s rest : unspelled (spelled s +:+ rest) = Some (s, rest).
Proof.
  induction s as [|c s IH]; [done|]. cbn [spelled]. rewrite !app_cons. cbn [unspelled].
  destruct (nibble_facts c) as (-> & _ & _ & Hc). rewrite IH. cbn [mbind option_bind]. by rewrite Hc.
Qed.

Lemma spelled_line s : lacks (spelled s) newline = true.
Proof.
  induction s as [|c s IH]; [done|]. cbn [spelled lacks].
  destruct (nibble_facts c) as (_ & -> & -> & _). by rewrite IH.
Qed.

Definition sample_event : TokenUsageEvent :=
  {| TTimestamp := 7; TClientPID := 42; TProvider := ProviderOpenAI; TModel := "gpt";
     IsStreaming := true;
     TMetrics := {| PromptTokens := 1; CompletionTokens := 2; TotalTokens := 3 |} |}.

Lemma metrics_log_witness :
  let ml := foldl (logger_step spelled) NewMetricsLogger [inl sample_event; inr 9; inl sample_event] in
  llen (chan_buf (events ml)) <= 4096 ∧
  ∃ written, length written = length (lines ml) ∧
    written ++ chan_buf (events ml) `sublist_of` [sample_event; sample_event].
Proof.
  destruct (metrics_log spelled unspelled [inl sample_event; inr 9; inl sample_event]
    unspelled_spelled spelled_line) as ((w & H1 & _ & H3) & H4 & _).
  split; [exact H4|]. by exists w.
Defined.
