(* ===== verification/Proxy.v ===== *)
(** The intercepting proxy ([proxy/proxy]): which route a request takes, what is
    learnt from it and from the response, metering of streamed responses, and
    the process a connection belongs to.

    Arguments: the decoders of the JSON bodies, which give the fields the code
    uses; the upstream, from a request and its body to a response; the contents
    of [/proc].  A header has one value here, and the reader of the metrics log
    and the HTTP server are left out. *)

From S2P Require Import Prelude GoStrings Host Aggregator.
From S2P Require Router.

(** * Requests *)

Record RequestMeta := { Model : string; Stream : bool }.

Record UpstreamRoute := { HostPattern : string; Provider : AIProvider; BaseURL : string }.

Definition DefaultRoutes : list UpstreamRoute := [
  {| HostPattern := "api.openai.com"; Provider := ProviderOpenAI; BaseURL := "https://api.openai.com" |};
  {| HostPattern := "api.anthropic.com"; Provider := ProviderAnthropic;
     BaseURL := "https://api.anthropic.com" |}].

(** [strings.Split(host, ":")[0]] *)
Definition host_name (host : string) : string :=
  match split_byte (to_lower host) ":" with name :: _ => name | [] => "" end.

Fixpoint match_routes (routes : list UpstreamRoute) (host : string) : option UpstreamRoute :=
  match routes with
  | [] => None
  | route :: rest =>
      let pattern := host_name (HostPattern route) in
      if contains host pattern || contains pattern host then Some route else match_routes rest host
  end.

Definition matchRoute (routes : list UpstreamRoute) (host : string) : option UpstreamRoute :=
  match_routes routes (host_name host).

(** * Token counts *)

Definition countTokens (s : string) : Z := if streq s "" then 0 else llen (fields s).

(** What the decoders extract. *)
Record decoders := {
  request_openai : string → option RequestMeta;
  request_anthropic : string → option RequestMeta;
  (** the usage of a response, if it has one *)
  usage_openai : string → option (option TokenMetrics);
  (** input and output tokens *)
  usage_anthropic : string → option (option (Z * Z));
  (** a streamed chunk: whether it has a usage, and the texts of its choices *)
  chunk_openai : string → option (bool * list string);
  (** its type, and the text of its delta *)
  chunk_anthropic : string → option (string * option string)
}.

Section decoding.

Variable js : decoders.

Definition extractRequestMeta (body : string) (provider : AIProvider) : RequestMeta :=
  let parsed :=
    match provider with
    | ProviderOpenAI | ProviderCustom => request_openai js body
    | ProviderAnthropic => request_anthropic js body
    end in
  default {| Model := ""; Stream := false |} parsed.

Definition extractOpenAIResponse (body : string) : TokenMetrics :=
  match usage_openai js body with
  | Some (Some usage) => usage
  | _ => {| PromptTokens := 0; CompletionTokens := 0; TotalTokens := countTokens body |}
  end.

Definition extractAnthropicResponse (body : string) : TokenMetrics :=
  match usage_anthropic js body with
  | Some (Some (input, output)) =>
      {| PromptTokens := input; CompletionTokens := output; TotalTokens := i64 (input + output) |}
  | _ => {| PromptTokens := 0; CompletionTokens := 0; TotalTokens := countTokens body |}
  end.

Definition noMetrics : TokenMetrics :=
  {| PromptTokens := 0; CompletionTokens := 0; TotalTokens := 0 |}.

Definition extractNonStreaming (provider : AIProvider) (body : string) : TokenMetrics :=
  if streq body "" then noMetrics
  else
    match provider with
    | ProviderOpenAI | ProviderCustom => extractOpenAIResponse body
    | ProviderAnthropic => extractAnthropicResponse body
    end.

(** * Streams *)

(** The accumulator is the text of the completion so far. *)
Definition processData (provider : AIProvider) (data completion : string) : string :=
  if streq data "[DONE]" then completion
  else
    match provider with
    | ProviderOpenAI | ProviderCustom =>
        match chunk_openai js data with
        | None => completion
        | Some (true, _) => ""
        | Some (false, texts) => foldl (λ acc t, acc +:+ t) completion texts
        end
    | ProviderAnthropic =>
        match chunk_anthropic js data with
        | Some (ty, Some text) =>
            if streq ty "content_block_delta" then completion +:+ text else completion
        | _ => completion
        end
    end.

Definition data_prefix : string := "data: ".

Definition feedLine (provider : AIProvider) (completion line : string) : string :=
  let s := trim_space line in
  if has_prefix s data_prefix
  then processData provider (sdrop (String.length data_prefix) s) completion
  else completion.

Definition finalMetrics (completion : string) : TokenMetrics :=
  {| PromptTokens := countTokens ""; CompletionTokens := countTokens completion;
     TotalTokens := countTokens completion |}.

Definition detectSSE (body : string) : bool := contains body data_prefix.

(** The reader's buffer and the completion. *)
Record interceptReader := { rbuf : string; sse : string }.

(** The lines before the last newline, and what follows it. *)
Definition complete_lines (s : string) : list string := removelast (split_byte s newline).
Definition last_line (s : string) : string := List.last (split_byte s newline) "".

(** [Read] of a non-empty piece of the body. *)
Definition read_piece (provider : AIProvider) (ir : interceptReader) (piece : string) :
    interceptReader :=
  let buf := rbuf ir +:+ piece in
  if bool_decide (provider = ProviderAnthropic) || detectSSE buf
  then {| rbuf := last_line buf; sse := foldl (feedLine provider) (sse ir) (complete_lines buf) |}
  else {| rbuf := buf; sse := sse ir |}.

(** The loop of [handleStreamingResponse] over the pieces of the body: the final
    metrics, reported at the end of the body. *)
Definition read_stream (provider : AIProvider) (pieces : list string) : TokenMetrics :=
  finalMetrics (sse (foldl (read_piece provider) {| rbuf := ""; sse := "" |} pieces)).

End decoding.

(** * The process of a connection *)

Record tcpEntry := { localPort : Z; remotePort : Z; state : Z; inode : Z }.

(** One line of [/proc/net/tcp] after the first; [None] when it is skipped. *)
Definition tcp_line (line : string) : option tcpEntry :=
  let fs := fields (trim_space line) in
  let port f :=
    match split_byte f ":" with
    | (_ :: _ :: _) as parts => parse_uint (List.last parts "") 16 16
    | _ => None
    end in
  if llen fs <? 10 then None
  else
    local ← fs !! 1%nat ≫= port;
    remote ← fs !! 2%nat ≫= port;
    st ← fs !! 3%nat ≫= λ f, parse_uint f 16 8;
    ino ← fs !! 9%nat ≫= λ f, parse_uint f 10 64;
    Some {| localPort := local; remotePort := remote; state := st; inode := ino |}.

(** [parseNetTCP]; [None] when the file does not open or a line is too long for
    the scanner. *)
Definition parseNetTCP (file : option string) : option (list tcpEntry) :=
  data ← file;
  if existsb (λ piece, maxScanLine <? slen piece) (split_byte data newline) then None
  else Some (omap tcp_line (drop 1 (scan_lines data))).

Record linuxProcResolver := { inodePID : gmap Z Z }.

(** The inode of a link [socket:[<inode>]]. *)
Definition socket_inode (link : string) : option Z :=
  if has_prefix link "socket:[" then
    match parse_uint (stake (String.length link - 9) (sdrop 8 link)) 10 64 with
    | Some ino => if ino =? 0 then None else Some ino
    | None => None
    end
  else None.

(** A directory of [/proc]: its name, and the links of its open files, [None]
    when they cannot be listed. *)
Record proc_dir := { PName : string; PIsDir : bool; PLinks : option (list (option string)) }.

Definition dir_pid (d : proc_dir) : option Z :=
  if PIsDir d then
    match atoi (PName d) with Some pid => if pid <=? 0 then None else Some pid | None => None end
  else None.

Definition link_inode (link : option string) : option Z :=
  match link with Some link => socket_inode link | None => None end.

Definition add_links (pid : Z) (links : list (option string)) (m : gmap Z Z) : gmap Z Z :=
  foldl (λ m link, match link_inode link with Some ino => <[ino := pid]> m | None => m end) m links.

Definition add_dir (m : gmap Z Z) (d : proc_dir) : gmap Z Z :=
  match dir_pid d, PLinks d with
  | Some pid, Some links => add_links pid links m
  | _, _ => m
  end.

Definition refresh (dirs : option (list proc_dir)) (l : linuxProcResolver) : option linuxProcResolver :=
  match dirs with
  | None => None
  | Some dirs => Some {| inodePID := foldl add_dir ∅ dirs |}
  end.

Fixpoint first_owner (l : linuxProcResolver) (port proxyPort : Z) (entries : list tcpEntry) : Z :=
  match entries with
  | [] => 0
  | e :: rest =>
      if negb (localPort e =? port) then first_owner l port proxyPort rest
      else if (0 <? proxyPort) && negb (remotePort e =? proxyPort mod 2 ^ 16)
           then first_owner l port proxyPort rest
      else if negb (state e =? 1) then first_owner l port proxyPort rest
      else match inodePID l !! inode e with
           | Some pid => pid
           | None => first_owner l port proxyPort rest
           end
  end.

(** [resolveFromPort] with the contents of [net/tcp] and [net/tcp6]. *)
Definition resolveFromPort (l : linuxProcResolver) (tcp tcp6 : option string) (port proxyPort : Z) :
    option Z :=
  entries ← parseNetTCP tcp;
  Some (first_owner l port proxyPort (entries ++ default [] (parseNetTCP tcp6))).

(** The resolver: its implementation once it is started, and the time of its
    last refresh. *)
Record ProcResolver := { impl : option linuxProcResolver; age : option Z }.

Definition NewProcResolver : ProcResolver := {| impl := None; age := None |}.
Definition StartResolver (r : ProcResolver) : ProcResolver :=
  {| impl := Some {| inodePID := ∅ |}; age := age r |}.

Definition ttl : Z := 2 * Second.

(** What [/proc] holds during a call. *)
Record proc_view := {
  pv_dirs : option (list proc_dir);
  pv_tcp : option string;
  pv_tcp6 : option string;
  pv_since : Z;
  pv_now : Z
}.

Definition ResolvePID (v : proc_view) (port proxyPort : Z) (r : ProcResolver) :
    ProcResolver * option Z :=
  match impl r with
  | None => (r, None)
  | Some l =>
      let expired := match age r with None => true | Some t => ttl <? pv_since v - t end in
      if expired then
        match refresh (pv_dirs v) l with
        | None => (r, None)
        | Some l => ({| impl := Some l; age := Some (pv_now v) |},
                     resolveFromPort l (pv_tcp v) (pv_tcp6 v) port proxyPort)
        end
      else (r, resolveFromPort l (pv_tcp v) (pv_tcp6 v) port proxyPort)
  end.

(** * Handling a request *)

Record Proxy := {
  routes : list UpstreamRoute;
  prouter : option Router.Router;
  resolver : option ProcResolver;
  logger : chan TokenUsageEvent;
  tokenOutput : option (chan TokenUsageEvent)
}.

Definition NewProxy (r : option Router.Router) (res : option ProcResolver)
    (out : option (chan TokenUsageEvent)) : Proxy := {|
  routes := DefaultRoutes; prouter := r; resolver := res; logger := make_chan 4096;
  tokenOutput := out |}.

Definition logEvent (ev : TokenUsageEvent) (p : Proxy) : Proxy := {|
  routes := routes p; prouter := prouter p; resolver := resolver p;
  logger := (try_send ev (logger p)).1;
  tokenOutput := (λ ch, (try_send ev ch).1) <$> tokenOutput p |}.

(** The client's request; the body is what could be read of it up to the limit,
    [None] on an error. *)
Record client_request := {
  CMethod : string;
  CHost : string;
  CPath : string;
  CHeader : gmap string string;
  CBody : option string
}.

(** The upstream: no answer, or a status, the pieces of the body, and whether
    the body ended without an error. *)
Inductive upstream_result :=
  | UpstreamFails (msg : string)
  | UpstreamAnswers (status : Z) (pieces : list string) (complete : bool).

Inductive proxy_reply :=
  | ReplyError (status : Z)
  | Reply (status : Z) (body : string)
  | HandlerPanics.

Definition bodyLimit : Z := 10 * 1024 * 1024.

(** [io.LimitReader]: the rest of a longer body is cut off without an error. *)
Definition limit_body (body : string) : string := stake (Z.to_nat bodyLimit) body.

(** The environment of a request: the proc file system, the readings of the
    router, the time of the metrics, whether the writer has the method the
    streaming handler looks for, and whether the upstream request can be made. *)
Record request_env := {
  qe_proc : proc_view;
  qe_router : Router.req_env;
  qe_record : Z;
  qe_now : Z;
  qe_flusher : bool;
  qe_request_ok : bool
}.

Definition metered (tm : TokenMetrics) : bool := (0 <? TotalTokens tm) || (0 <? PromptTokens tm).

Definition usage_event (q : request_env) (pid : Z) (provider : AIProvider) (model : string)
    (streaming : bool) (tm : TokenMetrics) : TokenUsageEvent := {|
  TTimestamp := qe_now q; TClientPID := pid; TProvider := provider; TModel := model;
  IsStreaming := streaming; TMetrics := tm |}.

Definition with_router (r : option Router.Router) (p : Proxy) : Proxy := {|
  routes := routes p; prouter := r; resolver := resolver p; logger := logger p;
  tokenOutput := tokenOutput p |}.

Definition with_resolver (r : option ProcResolver) (p : Proxy) : Proxy := {|
  routes := routes p; prouter := prouter p; resolver := r; logger := logger p;
  tokenOutput := tokenOutput p |}.

Section handling.

Variable codec : Router.Codec.
Variable js : decoders.
Variable upstream : string → Router.Request → string → upstream_result.

Definition handleStreamingResponse (q : request_env) (pieces : list string) (complete : bool)
    (provider : AIProvider) (meta : RequestMeta) (pid : Z) (p : Proxy) : Proxy * string :=
  let written := foldl (λ b piece, b +:+ piece) "" pieces in
  if negb (qe_flusher q) then (p, written)
  else
    let tm := if complete then read_stream js provider pieces else noMetrics in
    (if metered tm then logEvent (usage_event q pid provider (Model meta) true tm) p else p, written).

Definition handleNonStreamingResponse (q : request_env) (pieces : list string) (complete : bool)
    (provider : AIProvider) (meta : RequestMeta) (pid : Z) (p : Proxy) : Proxy * string :=
  if negb complete then (p, "")
  else
    let body := foldl (λ b piece, b +:+ piece) "" pieces in
    let '(r, out) :=
      match prouter p with
      | None => (None, body)
      | Some r =>
          let '(rewritten, changed, r) := Router.RecordResponse codec r body pid (Model meta) (qe_record q) in
          (Some r, if changed then rewritten else body)
      end in
    let p := with_router r p in
    let tm := extractNonStreaming js provider body in
    (if metered tm then logEvent (usage_event q pid provider (Model meta) false tm) p else p, out).

(** The upstream request: the client's headers but the proxy ones, and its path. *)
Definition upstream_request (c : client_request) (route : UpstreamRoute) (body : string) : Router.Request := {|
  Router.URL := BaseURL route +:+ CPath c;
  Router.Host := "";
  Router.Header := <["Content-Type" := "application/json"]>
    (delete "Proxy-Authorization" (delete "Proxy-Connection" (CHeader c)));
  Router.ContentLength := slen body |}.

(** The client's process: resolved from port zero. *)
Definition client_pid (q : request_env) (p : Proxy) : Proxy * Z :=
  match resolver p with
  | None => (p, 0)
  | Some res => let '(res, pid) := ResolvePID (qe_proc q) 0 0 res in
                (with_resolver (Some res) p, default 0 pid)
  end.

(** What the router makes of the request; [None] is its panic. *)
Definition intercept (q : request_env) (body : string) (req : Router.Request) (pid : Z)
    (meta : RequestMeta) (p : Proxy) : option (Proxy * string * Router.Request * RequestMeta) :=
  match prouter p with
  | None => Some (p, body, req, meta)
  | Some r =>
      match Router.InterceptRequest codec r body req pid (Model meta) (qe_router q) with
      | Router.Panics => None
      | Router.Returns (out, modified, _, r, req) =>
          let p := with_router (Some r) p in
          if modified
          then Some (p, out, Router.set_length req (slen out),
                     {| Model := Router.ExtractFallbackModelName codec out (Model meta);
                        Stream := Stream meta |})
          else Some (p, body, req, meta)
      end
  end.

Definition handleProxy (q : request_env) (c : client_request) (p : Proxy) : Proxy * proxy_reply :=
  if streq (CMethod c) "CONNECT" then (p, ReplyError 405)
  else if streq (CHost c) "" then (p, ReplyError 400)
  else
    match matchRoute (routes p) (CHost c) with
    | None => (p, ReplyError 404)
    | Some route =>
        match CBody c with
        | None => (p, ReplyError 500)
        | Some body =>
            let body := limit_body body in
            let meta := extractRequestMeta js body (Provider route) in
            let meta := {| Model := if streq (Model meta) "" then "unknown" else Model meta;
                           Stream := Stream meta |} in
            let '(p, pid) := client_pid q p in
            if negb (qe_request_ok q) then (p, ReplyError 500)
            else
              match intercept q body (upstream_request c route body) pid meta p with
              | None => (p, HandlerPanics)
              | Some (p, body, req, meta) =>
                  match upstream (CMethod c) req body with
                  | UpstreamFails _ => (p, ReplyError 502)
                  | UpstreamAnswers status pieces complete =>
                      let handle := if Stream meta then handleStreamingResponse
                                    else handleNonStreamingResponse in
                      let '(p, out) := handle q pieces complete (Provider route) meta pid p in
                      (p, Reply status out)
                  end
              end
        end
    end.

End handling.

(** * Lemmas on streams *)

Section streams.

Variable js : decoders.
Variable provider : AIProvider.
Implicit Types (acc s t : string).

Abbreviation feed := (foldl (feedLine js provider)).

Lemma feedLine_skip acc line :
  contains line data_prefix = false → feedLine js provider acc line = acc.
Proof.
  intros Hc. unfold feedLine. destruct (has_prefix _ _) eqn:E; [|done].
  apply has_prefix_split in E as [t Ht].
  rewrite contains_substring in Hc; [done|].
  eapply substring_trans; [|apply trim_space_substring]. exists "", t. by rewrite Ht.
Qed.

Lemma feed_skip acc lines :
  Forall (λ line, contains line data_prefix = false) lines → feed acc lines = acc.
Proof.
  intros Hl. revert acc. induction Hl as [|line lines Hline Hl IH]; intros acc; simpl; [done|].
  by rewrite feedLine_skip.
Qed.

Lemma undetected_lines s :
  detectSSE s = false → Forall (λ line, contains line data_prefix = false) (complete_lines s).
Proof.
  intros Hd. apply Forall_forall. intros line Hl.
  assert (Hin : line ∈ split_byte s newline).
  { unfold complete_lines in Hl. rewrite (app_removelast_last "" (split_byte_nonempty s newline)).
    apply elem_of_app. by left. }
  destruct (contains line data_prefix) eqn:E; [|done].
  apply bool_decide_eq_true in E as [i Hi].
  unfold detectSSE in Hd. rewrite contains_substring in Hd; [done|].
  eapply substring_trans; [|by apply (split_byte_substring s newline)].
  by apply index_substring in Hi.
Qed.

Lemma complete_lines_app s t :
  complete_lines (s +:+ t) = complete_lines s ++ complete_lines (last_line s +:+ t).
Proof.
  unfold complete_lines at 1. rewrite split_byte_snoc, removelast_app; [done|].
  apply split_byte_nonempty.
Qed.

Lemma complete_lines_last s : complete_lines (last_line s) = [].
Proof.
  unfold complete_lines, last_line.
  by rewrite (split_byte_lacks _ newline (last_piece_lacks s newline)).
Qed.

(** What was read is as if its complete lines had been fed, whatever follows. *)
Definition reader_inv (body : string) (ir : interceptReader) : Prop :=
  (∀ t, feed "" (complete_lines (body +:+ t)) = feed (sse ir) (complete_lines (rbuf ir +:+ t))) ∧
  feed (sse ir) (complete_lines (rbuf ir)) = sse ir.

Lemma read_piece_inv body ir piece :
  reader_inv body ir → reader_inv (body +:+ piece) (read_piece js provider ir piece).
Proof.
  intros [H1 _]. unfold read_piece.
  destruct (bool_decide _ || detectSSE (rbuf ir +:+ piece)) eqn:E; split; simpl.
  - intros t. rewrite app_string_assoc, H1, <- app_string_assoc, complete_lines_app.
    by rewrite foldl_app.
  - by rewrite complete_lines_last.
  - intros t. by rewrite !app_string_assoc, H1.
  - apply orb_false_iff in E as [_ E]. by apply feed_skip, undetected_lines.
Qed.

Lemma read_stream_inv pieces body ir :
  reader_inv body ir →
  reader_inv (foldl (λ b p, b +:+ p) body pieces) (foldl (read_piece js provider) ir pieces).
Proof.
  revert body ir. induction pieces as [|p pieces IH]; intros body ir H; simpl; [done|].
  by apply IH, read_piece_inv.
Qed.

End streams.

(** * Theorems *)

Definition whole (pieces : list string) : string := foldl (λ b p, b +:+ p) "" pieces.

(** C33: the tokens counted for a streamed response do not depend on how the
    network cuts the body into pieces: they are those of the completion obtained
    by feeding the complete lines of the whole body, in order.  In particular a
    last line without a newline is never counted. *)
Theorem read_stream_pieces js provider pieces :
  read_stream js provider pieces =
    finalMetrics (foldl (feedLine js provider) "" (complete_lines (whole pieces))).
Proof.
  destruct (read_stream_inv js provider pieces "" {| rbuf := ""; sse := "" |}) as [H1 H2].
  { split; simpl; [done|]. done. }
  unfold read_stream. f_equal. rewrite <- H2. specialize (H1 "").
  rewrite !app_string_nil_r in H1. exact (eq_sym H1).
Qed.

(** * Lemmas on the resolver *)

(** An established connection on the port, to the proxy when its port is given. *)
Definition matching (port proxyPort : Z) (e : tcpEntry) : bool :=
  (localPort e =? port) && (negb (0 <? proxyPort) || (remotePort e =? proxyPort mod 2 ^ 16)) &&
  (state e =? 1).

Lemma first_owner_cons l port pp e rest :
  first_owner l port pp (e :: rest) =
    if matching port pp e
    then match inodePID l !! inode e with Some pid => pid | None => first_owner l port pp rest end
    else first_owner l port pp rest.
Proof.
  unfold matching. cbn [first_owner]. destruct (localPort e =? port); [|done].
  destruct (0 <? pp); simpl; [|by destruct (state e =? 1)].
  destruct (remotePort e =? pp mod 2 ^ 16); simpl; [|done]. by destruct (state e =? 1).
Qed.

Definition unowned (l : linuxProcResolver) (port pp : Z) (e : tcpEntry) : Prop :=
  matching port pp e = true → inodePID l !! inode e = None.

Lemma first_owner_spec l port pp entries :
  (Forall (unowned l port pp) entries ∧ first_owner l port pp entries = 0) ∨
  ∃ before e rest pid, entries = before ++ e :: rest ∧ Forall (unowned l port pp) before ∧
    matching port pp e = true ∧ inodePID l !! inode e = Some pid ∧
    first_owner l port pp entries = pid.
Proof.
  induction entries as [|e entries IH]; [left; by split; [constructor|]|].
  rewrite first_owner_cons.
  assert (Hskip : unowned l port pp e →
    first_owner l port pp entries = first_owner l port pp (e :: entries) →
    (Forall (unowned l port pp) (e :: entries) ∧ first_owner l port pp (e :: entries) = 0) ∨
    ∃ before e' rest pid, e :: entries = before ++ e' :: rest ∧ Forall (unowned l port pp) before ∧
      matching port pp e' = true ∧ inodePID l !! inode e' = Some pid ∧
      first_owner l port pp (e :: entries) = pid).
  { intros Hu Heq. rewrite <- Heq.
    destruct IH as [[Hf H0]|(before & e' & rest & pid & -> & Hb & Hm & Hi & Hp)].
    - left. split; [by constructor|done].
    - right. exists (e :: before), e', rest, pid. split_and!; try done. by constructor. }
  rewrite first_owner_cons in Hskip. unfold unowned at 1 in Hskip.
  destruct (matching port pp e) eqn:Em; [|by apply Hskip].
  destruct (inodePID l !! inode e) as [pid|] eqn:Ei; [|by apply Hskip].
  right. exists [], e, entries, pid. split_and!; try done.
Qed.

(** A process that the directories show to have the socket open. *)
Definition opens (dirs : list proc_dir) (ino pid : Z) : Prop :=
  ∃ d links link, d ∈ dirs ∧ dir_pid d = Some pid ∧ PLinks d = Some links ∧
    Some link ∈ links ∧ socket_inode link = Some ino.

Definition sound (dirs : list proc_dir) (m : gmap Z Z) : Prop :=
  ∀ ino pid, m !! ino = Some pid → opens dirs ino pid.

Lemma add_links_sound dirs d links pid m ls :
  d ∈ dirs → dir_pid d = Some pid → PLinks d = Some links → ls ⊆ links → sound dirs m →
  sound dirs (add_links pid ls m).
Proof.
  intros Hd Hp Hl. unfold add_links. revert m.
  induction ls as [|link ls IH]; intros m Hs Hm; simpl; [done|].
  apply IH; [set_solver|]. destruct (link_inode link) as [ino|] eqn:Ei; [|done].
  intros i p [[<- <-]|[_ Hi]]%lookup_insert_Some; [|by apply Hm].
  destruct link as [link|]; [|done]. exists d, links, link.
  split_and!; [done|done|done|set_solver|done].
Qed.

Lemma refresh_sound dirs l l' ino pid :
  refresh (Some dirs) l = Some l' → inodePID l' !! ino = Some pid → opens dirs ino pid.
Proof.
  simpl. intros [= <-]. simpl.
  assert (Hd : ∀ ds m, ds ⊆ dirs → sound dirs m → sound dirs (foldl add_dir m ds)).
  { induction ds as [|d ds IH]; intros m Hsub Hm; simpl; [done|].
    apply IH; [set_solver|]. unfold add_dir. destruct (dir_pid d) as [q|] eqn:Eq; [|done].
    destruct (PLinks d) as [links|] eqn:El; [|done].
    eapply add_links_sound; try done. set_solver. }
  apply Hd; [done|]. intros i p H. by rewrite lookup_empty in H.
Qed.

(** All the table entries a call looks at. *)
Definition tcp_entries (v : proc_view) : list tcpEntry :=
  default [] (parseNetTCP (pv_tcp v)) ++ default [] (parseNetTCP (pv_tcp6 v)).

(** No established connection has port zero. *)
Definition ports_positive (v : proc_view) : Prop :=
  ∀ e, e ∈ tcp_entries v → state e = 1 → localPort e ≠ 0.

Lemma resolve_zero v r : ports_positive v → default 0 (ResolvePID v 0 0 r).2 = 0.
Proof.
  intros Hv.
  assert (Hz : ∀ l, default 0 (resolveFromPort l (pv_tcp v) (pv_tcp6 v) 0 0) = 0).
  { intros l. unfold resolveFromPort. unfold ports_positive, tcp_entries in Hv.
    destruct (parseNetTCP (pv_tcp v)) as [entries|]; simpl in *; [|done].
    destruct (first_owner_spec l 0 0 (entries ++ default [] (parseNetTCP (pv_tcp6 v))))
      as [[_ ->]|(before & e & rest & pid & Heq & _ & Hm & _)]; [done|].
    unfold matching in Hm. bool_prop. exfalso. apply (Hv e); [rewrite Heq; set_solver|done|done]. }
  unfold ResolvePID. destruct (impl r) as [l|]; [|done]. cbv zeta.
  destruct (match age r with None => true | Some t => _ end); [|apply Hz].
  destruct (refresh (pv_dirs v) l) as [l'|]; [|done]. apply Hz.
Qed.

Lemma client_pid_unresolved q p :
  ports_positive (qe_proc q) →
  (client_pid q p).2 = 0 ∧ prouter (client_pid q p).1 = prouter p ∧
  logger (client_pid q p).1 = logger p ∧ tokenOutput (client_pid q p).1 = tokenOutput p.
Proof.
  intros Hv. unfold client_pid. destruct (resolver p) as [res|]; [|done].
  pose proof (resolve_zero _ res Hv) as Hz. by destruct (ResolvePID _ 0 0 res).
Qed.

(** The router leaves the requests of process 0 alone. *)
Lemma intercept_unresolved codec q body req meta p :
  intercept codec q body req 0 meta p = Some (with_router (prouter p) p, body, req, meta).
Proof. unfold intercept. destruct p as [rs [r|] res l o]; done. Qed.

(** Which process a connection is attributed to.  The answer is the owner of
    the first established connection, first of [net/tcp] and then of
    [net/tcp6], on the port whose socket some process of the last refresh had
    open; without one it is 0.  An owner is a process that did hold the socket at
    the refresh.  Asked for port zero, as the proxy asks, the resolver knows no
    process, since established connections have other ports. *)
Theorem resolver_spec dirs l l' tcp tcp6 port pp entries :
  refresh (Some dirs) l = Some l' → parseNetTCP tcp = Some entries →
  (∃ pid, resolveFromPort l' tcp tcp6 port pp = Some pid ∧
   let all := entries ++ default [] (parseNetTCP tcp6) in
   (pid = 0 ∧ (∀ e, e ∈ all → matching port pp e = true → inodePID l' !! inode e = None) ∨
    ∃ before e rest, all = before ++ e :: rest ∧ matching port pp e = true ∧
      opens dirs (inode e) pid ∧
      ∀ e', e' ∈ before → matching port pp e' = true → inodePID l' !! inode e' = None)) ∧
  (∀ v r, ports_positive v → default 0 (ResolvePID v 0 0 r).2 = 0).
Proof.
  intros Hr He. split; [|intros v r; apply resolve_zero].
  unfold resolveFromPort. rewrite He. simpl. eexists. split; [done|].
  destruct (first_owner_spec l' port pp (entries ++ default [] (parseNetTCP tcp6)))
    as [[Hu ->]|(before & e & rest & pid & Heq & Hb & Hm & Hi & ->)].
  - left. split; [done|]. rewrite Forall_forall in Hu. exact Hu.
  - right. exists before, e, rest. split_and!; [done|done| |].
    + by eapply refresh_sound.
    + rewrite Forall_forall in Hb. exact Hb.
Qed.

Definition sample_net_tcp : string :=
  "header" +:+ String newline
  "0: 0100007F:1F90 0100007F:270F 01 0:0 0:0 0 0 0 77 1" +:+ String newline "".

Definition sample_dirs : list proc_dir :=
  [{| PName := "42"; PIsDir := true; PLinks := Some [Some "/dev/null"; Some "socket:[77]"]%string |}].

Lemma resolver_spec_witness :
  ∃ l', refresh (Some sample_dirs) {| inodePID := ∅ |} = Some l' ∧
    resolveFromPort l' (Some sample_net_tcp) None 8080 9999 = Some 42 ∧
    ∃ e, inode e = 77 ∧ opens sample_dirs (inode e) 42.
Proof.
  eexists. split; [reflexivity|]. split; [vm_compute; reflexivity|].
  destruct (resolver_spec sample_dirs {| inodePID := ∅ |} _ (Some sample_net_tcp) None 8080 9999
    [{| localPort := 8080; remotePort := 9999; state := 1; inode := 77 |}] eq_refl
    ltac:(vm_compute; reflexivity)) as [(pid & Hp & [[-> _]|(before & e & rest & Heq & _ & Ho & _)]) _].
  - vm_compute in Hp. discriminate.
  - vm_compute in Hp. injection Hp as <-.
    destruct before as [|x [|y before]]; simpl in Heq; simplify_eq.
    eexists. split; [|exact Ho]. reflexivity.
Defined.

(** C32: what happens to a client's request while its process is not known,
    which for the proxy is always.  A request with a route, a readable body
    within the limit and an answer from the upstream reaches the upstream with
    the client's path, headers and body, the router, even if the proxy has one
    with remedies, is neither used nor changed, and the client receives the
    upstream's status and body unchanged.  One event is logged, for process 0,
    exactly when tokens were counted, which for streamed responses needs a
    writer with the method the handler looks for. *)
Theorem unresolved_passthrough codec js upstream q c p route body status pieces :
  ports_positive (qe_proc q) → qe_request_ok q = true →
  CMethod c ≠ "CONNECT"%string → CHost c ≠ ""%string →
  matchRoute (routes p) (CHost c) = Some route →
  CBody c = Some body → slen body <= bodyLimit →
  upstream (CMethod c) (upstream_request c route body) body = UpstreamAnswers status pieces true →
  let meta := extractRequestMeta js body (Provider route) in
  let model := if streq (Model meta) "" then "unknown"%string else Model meta in
  let tm := if Stream meta
            then (if qe_flusher q then read_stream js (Provider route) pieces else noMetrics)
            else extractNonStreaming js (Provider route) (whole pieces) in
  let ev := usage_event q 0 (Provider route) model (Stream meta) tm in
  let '(p', reply) := handleProxy codec js upstream q c p in
  reply = Reply status (whole pieces) ∧ prouter p' = prouter p ∧
  (logger p', tokenOutput p') =
    (if metered tm
     then ((try_send ev (logger p)).1, (λ ch, (try_send ev ch).1) <$> tokenOutput p)
     else (logger p, tokenOutput p)).
Proof.
  intros Hv Hok Hm Hh Hroute Hbody Hlen Hup. cbv zeta.
  assert (Hlim : limit_body body = body) by (by apply stake_all).
  unfold handleProxy. rewrite (proj2 (streq_false _ _) Hm), (proj2 (streq_false _ _) Hh), Hroute, Hbody.
  cbv zeta. rewrite Hlim. set (meta := extractRequestMeta js body (Provider route)).
  assert (Hpid := client_pid_unresolved q p Hv).
  destruct (client_pid q p) as [p1 pid]. simpl in Hpid. destruct Hpid as (-> & Hr & Hl & Ht).
  rewrite Hok. simpl negb. cbv iota.
  rewrite (intercept_unresolved codec q body (upstream_request c route body) _ p1). cbv beta iota.
  destruct p1 as [rs rt res lg out]. simpl in Hr, Hl, Ht. subst.
  rewrite Hup. destruct (Stream meta); cbn [Stream Model prouter]; cbv beta iota zeta.
  - unfold handleStreamingResponse. destruct (qe_flusher q); [|done]. cbn [negb].
    by destruct (metered _).
  - unfold handleNonStreamingResponse. cbn [negb]. cbv zeta.
    destruct (prouter p); simpl; unfold whole; by destruct (metered _).
Qed.

Definition sample_codec : Router.Codec := {|
  Router.json := unit;
  Router.JString := λ _, tt;
  Router.decode_map := λ _, None;
  Router.encode_map := λ _, None;
  Router.decode_request := λ _ r, (r, false);
  Router.encode_request := λ _, None;
  Router.decode_response := λ _, None;
  Router.encode_response := λ _, None;
  Router.decode_model := λ _, None;
  Router.url_parse := λ _, None |}.

(** Decoders under which every response is plain text. *)
Definition sample_decoders : decoders := {|
  request_openai := λ _, Some {| Model := "m"; Stream := false |};
  request_anthropic := λ _, None;
  usage_openai := λ _, None;
  usage_anthropic := λ _, None;
  chunk_openai := λ _, None;
  chunk_anthropic := λ _, None |}.

Definition sample_request_env : request_env := {|
  qe_proc := {| pv_dirs := Some sample_dirs; pv_tcp := Some sample_net_tcp; pv_tcp6 := None;
                pv_since := 0; pv_now := 0 |};
  qe_router := {| Router.tReqLookup := 0; Router.tReqStart := 0; Router.tReqEnd := 0;
                  Router.tReqUnix := 0; Router.poolIdx := 0 |};
  qe_record := 0; qe_now := 7; qe_flusher := false; qe_request_ok := true |}.

Definition sample_client : client_request := {|
  CMethod := "POST"; CHost := "api.openai.com"; CPath := "/v1/chat/completions"; CHeader := ∅;
  CBody := Some "{}"%string |}.

Definition sample_proxy : Proxy :=
  NewProxy (Some (Router.New Router.DefaultConfig)) (Some (StartResolver NewProcResolver)) None.

Lemma sample_ports : ports_positive (qe_proc sample_request_env).
Proof.
  intros e He. apply list_elem_of_In in He.
  change (tcp_entries _) with
    ([{| localPort := 8080; remotePort := 9999; state := 1; inode := 77 |}] : list tcpEntry) in He.
  by destruct He as [<-|[]].
Qed.

Lemma unresolved_passthrough_witness :
  let '(p', reply) := handleProxy sample_codec sample_decoders
    (λ _ _ _, UpstreamAnswers 200 ["two "; "words"]%string true) sample_request_env sample_client
    sample_proxy in
  reply = Reply 200 "two words" ∧ length (chan_buf (logger p')) = 1%nat.
Proof.
  pose proof (unresolved_passthrough sample_codec sample_decoders
    (λ _ _ _, UpstreamAnswers 200 ["two "; "words"]%string true) sample_request_env sample_client
    sample_proxy
    {| HostPattern := "api.openai.com"; Provider := ProviderOpenAI; BaseURL := "https://api.openai.com" |}
    "{}" 200 ["two "; "words"]%string sample_ports eq_refl ltac:(discriminate) ltac:(discriminate)
    ltac:(vm_compute; reflexivity) eq_refl ltac:(vm_compute; discriminate) eq_refl) as H.
  cbv zeta in H. destruct (handleProxy _ _ _ _ _ sample_proxy) as [p' reply].
  destruct H as (Hr & _ & Hl). split; [exact Hr|].
  apply (f_equal (λ x, length (chan_buf x.1))) in Hl. simpl fst in Hl. rewrite Hl.
  vm_compute. reflexivity.
Defined.

(** A usage chunk at the end of an OpenAI stream erases what was counted, and
    nothing is logged for it. *)
Theorem usage_chunk_erases js completion data texts :
  data ≠ "[DONE]"%string → chunk_openai js data = Some (true, texts) →
  metered (finalMetrics (processData js ProviderOpenAI data completion)) = false.
Proof.
  intros Hd Hc. unfold processData. rewrite (proj2 (streq_false _ _) Hd), Hc. done.
Qed.

(** Any host name that is part of a pattern takes its route, the empty one
    included. *)
Example empty_host_routed :
  matchRoute DefaultRoutes ":443" = Some (List.hd {| HostPattern := ""; Provider := ProviderCustom;
    BaseURL := "" |} DefaultRoutes).
Proof. vm_compute. reflexivity. Qed.
