(* ===== verification/Platforms.v ===== *)
(** The interfaces between the portable parts and the platform's
    ([trackerImpl], [gpuSamplerImpl] and [procResolverImpl] of [proxy/ebpf],
    [proxy/gpu] and [proxy/proxy]) and what they are on platforms other than
    Linux.

    An interface is a class: the methods, what an implementation shows of its
    state, and the laws the callers rely on.  The portable callers are defined
    against it; on Linux they are the ones of [Ebpf] and [Gpu]. *)

From S2P Require Import Prelude GoStrings Model Host PolicyEngine.
From S2P Require Alerter Ebpf Gpu Proxy Mitigator Rollback.

(** * Trackers *)

Import Ebpf.

(** [waiting] are the events not yet drained. *)
Class trackerImpl (T : Type) := {
  impl_start : attach_env → T → T * bool * list resource;
  impl_close : T → list resource;
  impl_drain : Z → T → list ProcessEvent * T;
  impl_fallback : T → bool;
  waiting : T → list ProcessEvent;
  start_waiting : ∀ env t, waiting (impl_start env t).1.1 = waiting t;
  drain_events : ∀ n t, (impl_drain n t).1 = take (Z.to_nat n) (waiting t);
  drain_waiting : ∀ n t, waiting (impl_drain n t).2 = drop (Z.to_nat n) (waiting t)
}.

Section tracker.

Context `{trackerImpl T}.

Record portable_tracker := { pimpl : option T; pfallback : bool }.

(** [NewTracker] with what [newPlatformTracker] returns. *)
Definition NewTracker (platform : option T) : portable_tracker :=
  {| pimpl := platform; pfallback := match platform with Some _ => false | None => true end |}.

Definition Start (env : attach_env) (t : portable_tracker) : portable_tracker * list resource :=
  if pfallback t then (t, [])
  else
    match pimpl t with
    | None => (t, [])
    | Some i =>
        let '(i, ok, closed) := impl_start env i in
        ({| pimpl := Some i; pfallback := negb ok |}, closed)
    end.

Definition Drain (maxEvents : Z) (t : portable_tracker) : list ProcessEvent * portable_tracker :=
  if pfallback t then ([], t)
  else
    match pimpl t with
    | None => ([], t)
    | Some i => let '(evs, i) := impl_drain maxEvents i in
                (evs, {| pimpl := Some i; pfallback := pfallback t |})
    end.

Definition Close (t : portable_tracker) : list resource :=
  match pimpl t with Some i => impl_close i | None => [] end.

Inductive tracker_op := OpStart (env : attach_env) | OpDrain (n : Z).

Definition tracker_step (s : portable_tracker * list ProcessEvent) (op : tracker_op) :
    portable_tracker * list ProcessEvent :=
  match op with
  | OpStart env => ((Start env s.1).1, s.2)
  | OpDrain n => ((Drain n s.1).2, s.2 ++ (Drain n s.1).1)
  end.

Definition undrained (t : portable_tracker) : list ProcessEvent :=
  match pimpl t with Some i => waiting i | None => [] end.

(** Whatever the implementation, no event is drained twice, out of order or
    lost by the portable part. *)
Lemma drained_in_order platform ops :
  let s := foldl tracker_step (NewTracker platform, []) ops in
  s.2 ++ undrained s.1 = undrained (NewTracker platform).
Proof.
  cbn zeta.
  apply (foldl_inv (λ s, s.2 ++ undrained s.1 = undrained (NewTracker platform))); [done|].
  intros [t evs] op Hs. cbn [fst snd] in Hs. rewrite <- Hs. clear Hs. destruct op as [env|n]; simpl.
  - f_equal. unfold Start. destruct (pfallback t); [done|].
    unfold undrained. destruct t as [[i|] fb]; simpl; [|done].
    pose proof (start_waiting env i) as Hw. by destruct (impl_start env i) as [[i' ok] closed].
  - rewrite <- app_assoc. f_equal. unfold Drain. destruct (pfallback t); [done|].
    unfold undrained. destruct t as [[i|] fb]; simpl; [|done].
    pose proof (drain_events n i) as He. pose proof (drain_waiting n i) as Hw.
    destruct (impl_drain n i) as [es i']. simpl in *. by rewrite He, Hw, take_drop.
Qed.

End tracker.

(** ** On Linux *)

#[global] Program Instance linux_tracker : trackerImpl linuxTracker := {|
  impl_start := Ebpf.start;
  impl_close := Ebpf.close;
  impl_drain := Ebpf.drain;
  impl_fallback := λ _, false;
  waiting := λ lt, chan_buf (events lt)
|}.
Next Obligation. intros env lt. unfold start. by destruct env as [[] [] [] []]. Qed.
Next Obligation. intros n lt. unfold drain. by rewrite take_loop_spec. Qed.
Next Obligation. intros n lt. unfold drain. by rewrite take_loop_spec. Qed.

(** The tracker of [Ebpf] is the portable one over the Linux implementation. *)
Definition linux_of (t : Ebpf.Tracker) : portable_tracker (T := linuxTracker) :=
  {| pimpl := Ebpf.impl t; pfallback := Ebpf.fallbackMode t |}.

Lemma linux_of_operations env n t :
  linux_of (Ebpf.NewTracker true) = NewTracker (Some newPlatformTracker) ∧
  (linux_of (Ebpf.Start env t).1, (Ebpf.Start env t).2) = Start env (linux_of t) ∧
  ((Ebpf.Drain n t).1, linux_of (Ebpf.Drain n t).2) = Drain n (linux_of t) ∧
  Ebpf.Close t = Close (linux_of t).
Proof.
  unfold Start, Drain, Close, Ebpf.Start, Ebpf.Drain, Ebpf.Close, linux_of. split_and!; [done|..];
    destruct t as [[lt|] []]; cbn [Ebpf.impl Ebpf.fallbackMode pimpl pfallback]; try done.
  - simpl. by destruct (start env lt) as [[lt' ok] closed].
  - simpl. by destruct (drain n lt) as [evs lt'].
Qed.

(** ** Elsewhere *)

Record stubTracker := {}.

Definition newStubTracker : option stubTracker := Some Build_stubTracker.

(** [start] fails and acquires nothing. *)
Definition stub_start (env : attach_env) (st : stubTracker) : stubTracker * bool * list resource :=
  (st, false, []).
Definition stub_close (st : stubTracker) : list resource := [].
Definition stub_drain (maxEvents : Z) (st : stubTracker) : list ProcessEvent * stubTracker := ([], st).
Definition stub_fallback (st : stubTracker) : bool := true.

#[global] Program Instance stub_tracker : trackerImpl stubTracker := {|
  impl_start := stub_start;
  impl_close := stub_close;
  impl_drain := stub_drain;
  impl_fallback := stub_fallback;
  waiting := λ _, []
|}.
Next Obligation. done. Qed.
Next Obligation. intros n t. by destruct (Z.to_nat n). Qed.
Next Obligation. intros n t. by destruct (Z.to_nat n). Qed.

(** * GPU samplers *)

Import Gpu.

(** [opened] says whether the library is held. *)
Class gpuSamplerImpl (Device P : Type) `{MapRange} := {
  impl_init : library Device → P → P * option gpu_error * Z;
  impl_sample : nat → (Device → Z → answers) → P → gpu_error + list GPUDeviceMetrics;
  impl_shut : P → P * Z;
  opened : P → bool;
  init_opens : ∀ lib p, opened p = false →
    let '(p', err, d) := impl_init lib p in
    opened p' = (match err with None => true | Some _ => false end) ∧
    d = (match err with None => 1 | Some _ => 0 end);
  sample_opened : ∀ n q p, opened p = false → ∃ err, impl_sample n q p = inl err;
  shut_closes : ∀ p, opened (impl_shut p).1 = false ∧ (impl_shut p).2 = (if opened p then -1 else 0)
}.

Section sampler.

Context `{gpuSamplerImpl Device P}.

Record portable_sampler := { psampler : P; sdevices : list GPUDeviceMetrics; savail : bool }.

Definition NewGPUSampler (p : P) : portable_sampler :=
  {| psampler := p; sdevices := []; savail := true |}.

Definition Run (lib : library Device) (s : portable_sampler) : portable_sampler * option gpu_error * Z :=
  if negb (savail s) then (s, Some ErrGPUNotAvailable, 0)
  else
    match impl_init lib (psampler s) with
    | (p, Some err, d) => ({| psampler := p; sdevices := sdevices s; savail := false |}, Some err, d)
    | (p, None, d) => ({| psampler := p; sdevices := sdevices s; savail := true |}, None, d)
    end.

Definition Sample (n : nat) (query : Device → Z → answers) (s : portable_sampler) : portable_sampler :=
  if negb (savail s) then s
  else
    match impl_sample n query (psampler s) with
    | inl _ => s
    | inr ds => {| psampler := psampler s; sdevices := ds; savail := savail s |}
    end.

Definition Shut (s : portable_sampler) : portable_sampler * Z :=
  let '(p, d) := impl_shut (psampler s) in
  ({| psampler := p; sdevices := sdevices s; savail := savail s |}, d).

Definition samples (qs : list (nat * (Device → Z → answers))) (s : portable_sampler) : portable_sampler :=
  foldl (λ s '(n, q), Sample n q s) s qs.

(** Whatever the implementation, the sampler gives the library back: its
    initialisations and shutdowns balance over a life; and a sampler that did
    not start shows no device. *)
Lemma sampler_balanced lib p qs :
  opened p = false →
  let '(s, err, d) := Run lib (NewGPUSampler p) in
  let s' := samples qs s in
  d + (Shut s').2 = 0 ∧ savail s' = (match err with None => true | Some _ => false end) ∧
  (err ≠ None → sdevices s' = []).
Proof.
  intros Hp. unfold Run. cbn [savail NewGPUSampler negb psampler sdevices].
  pose proof (init_opens lib p Hp) as Hi. destruct (impl_init lib p) as [[p' err] d].
  destruct Hi as [Ho Hd].
  set (s := {| psampler := p'; sdevices := []; savail := match err with None => true | Some _ => false end |}).
  assert (Hs : psampler (samples qs s) = p' ∧
    savail (samples qs s) = (match err with None => true | Some _ => false end) ∧
    (err ≠ None → sdevices (samples qs s) = [])).
  { unfold samples.
    apply (foldl_inv (λ s, psampler s = p' ∧ savail s = (match err with None => true | Some _ => false end) ∧
      (err ≠ None → sdevices s = []))); [done|].
    intros s0 [n q] (H1 & H2 & H3). unfold Sample. destruct (savail s0) eqn:Ea; simpl; [|by rewrite Ea].
    destruct (impl_sample n q (psampler s0)); simpl; [by rewrite Ea|].
    split_and!; [done|done|]. by destruct err. }
  pose proof (shut_closes p') as [_ Hc]. destruct Hs as (H1 & H2 & H3).
  destruct err; subst s; simpl in *; unfold Shut; rewrite H1; destruct (impl_shut p') as [p'' d'];
    simpl in *; subst; rewrite Ho; split_and!; done.
Qed.

End sampler.

(** ** On Linux *)

#[global] Program Instance linux_sampler (Device : Type) `{MapRange} :
    gpuSamplerImpl Device (platformSampler Device) := {|
  impl_init := Gpu.init;
  impl_sample := Gpu.sample;
  impl_shut := Gpu.close;
  opened := PsInitd
|}.
Next Obligation.
  intros Device Hr lib p Hp. unfold init. destruct (Init lib); [|done..]. by destruct (DeviceGetCount lib).
Qed.
Next Obligation. intros Device Hr n q p Hp. unfold sample. rewrite Hp. by eexists. Qed.
Next Obligation. intros Device Hr p. unfold close. by destruct (PsInitd p) eqn:E. Qed.

Definition linux_sampler_of {Device} (s : GPUSampler Device) :
    portable_sampler (P := platformSampler Device) :=
  {| psampler := Gpu.impl s; sdevices := devices s; savail := avail s |}.

Lemma linux_sampler_operations {Device} `{MapRange} (lib : library Device) n q (s : GPUSampler Device) :
  linux_sampler_of Gpu.NewGPUSampler = NewGPUSampler (newPlatformSampler (Device := Device)) ∧
  (let '(s', err, d) := Gpu.Run lib s in (linux_sampler_of s', err, d)) = Run lib (linux_sampler_of s) ∧
  linux_sampler_of (Gpu.Sample n q s) = Sample n q (linux_sampler_of s) ∧
  (linux_sampler_of (Gpu.Close s).1, (Gpu.Close s).2) = Shut (linux_sampler_of s).
Proof.
  destruct s as [p ds []]; unfold Gpu.Run, Run, Gpu.Sample, Sample, Gpu.Close, Shut; simpl;
    split_and!; try done.
  - by destruct (init lib p) as [[p' [err|]] d].
  - by destruct (sample n q p).
  - by destruct (close p).
  - by destruct (close p).
Qed.

(** ** Elsewhere *)

Record stubSampler := {}.

Definition newStubSampler : stubSampler := Build_stubSampler.

Definition stub_init {Device} (lib : library Device) (p : stubSampler) :
    stubSampler * option gpu_error * Z :=
  (p, Some ErrGPUNotAvailable, 0).
Definition stub_sample {Device} (n : nat) (query : Device → Z → answers) (p : stubSampler) :
    gpu_error + list GPUDeviceMetrics :=
  inl ErrGPUNotAvailable.
Definition stub_shut (p : stubSampler) : stubSampler * Z := (p, 0).

#[global] Program Instance stub_sampler (Device : Type) `{MapRange} : gpuSamplerImpl Device stubSampler := {|
  impl_init := stub_init;
  impl_sample := stub_sample;
  impl_shut := stub_shut;
  opened := λ _, false
|}.
Next Obligation. done. Qed.
Next Obligation. intros. by eexists. Qed.
Next Obligation. done. Qed.

(** * Containers, connections and processes elsewhere *)

Definition ErrContainerControlUnsupported : error :=
  ErrText "container pause/unpause not supported on this platform".

Definition Pause_other {W} (containerID : string) (w : W) : option error * W :=
  (Some ErrContainerControlUnsupported, w).

Definition Unpause_other {W} (containerID : string) (w : W) : option error * W :=
  (Some ErrContainerControlUnsupported, w).

(** [Start] of the resolver, whose implementation cannot be made. *)
Definition newPlatformProcResolver_other : option Proxy.linuxProcResolver := None.

Definition StartResolver_other (r : Proxy.ProcResolver) : Proxy.ProcResolver * bool :=
  match newPlatformProcResolver_other with
  | None => (r, false)
  | Some i => ({| Proxy.impl := Some i; Proxy.age := Proxy.age r |}, true)
  end.

Definition probeProcessState_other (pid : Z) (procRoot : string) : Rollback.RuntimeState :=
  Rollback.RuntimeStateRunning.

(** Signals are refused there, with these errors. *)
Definition FreezeProcess_other {W} (pid : Z) (w : W) : option error * W :=
  (Some (ErrText ("freeze pid " +:+ fmt_d pid +:+ ": signal control not supported on this platform")), w).

Definition UnfreezeProcess_other {W} (pid : Z) (w : W) : option error * W :=
  (Some (ErrText ("unfreeze pid " +:+ fmt_d pid +:+ ": signal control not supported on this platform")), w).

(** A host that shows nothing and allows nothing: every path exists, nothing can
    be read or written, no signal is delivered and no docker answers. *)
Definition opaque_host (W : Type) : Host W := {|
  find_process := λ _ _, None;
  send_signal := λ _ _ w, (Some (OtherSignalError "signal control not supported on this platform"), w);
  errno_string := λ _, ""%string;
  read_dir := λ _ _, inl "not readable"%string;
  read_file := λ _ _, inl "not readable"%string;
  stat_not_exist := λ _ _, false;
  write_file := λ _ _ w, (Some (WriteOther "not writable"), w);
  docker_connect := λ _ w, (Some "no docker"%string, w);
  container_pause := λ _ w, (Some "no docker"%string, w);
  container_unpause := λ _ w, (Some "no docker"%string, w)
|}.

Section elsewhere.

Context {W : Type}.
#[local] Existing Instance opaque_host.

(** There, the functions of Linux behave like the ones above. *)
Lemma signals_elsewhere pid (w : W) :
  prod_map (fmap error_string) id (Mitigator.FreezeProcess pid w) =
    prod_map (fmap error_string) id (FreezeProcess_other pid w) ∧
  prod_map (fmap error_string) id (Mitigator.UnfreezeProcess pid w) =
    prod_map (fmap error_string) id (UnfreezeProcess_other pid w).
Proof.
  split; unfold FreezeProcess_other, UnfreezeProcess_other; simpl; do 2 f_equal;
    by rewrite <- ?app_string_assoc.
Qed.

Lemma containers_elsewhere op call cm id (w : W) :
  (∀ id w, call id w = (Some "no docker"%string, w)) →
  ∃ err cm', Mitigator.container_op op call cm id w = (Some err, cm', w).
Proof.
  intros Hc. unfold Mitigator.container_op, Mitigator.docker, Mitigator.cgroupFreeze,
    Mitigator.resolveCgroupPath. simpl.
  destruct (Mitigator.dockerEnabled cm); [|by eexists _, _].
  destruct (Mitigator.dockerOnce cm); [|by eexists _, _].
  destruct (Mitigator.dockerClient cm); [|by eexists _, _]. rewrite Hc. by eexists _, _.
Qed.

(** Nothing is frozen: handling an alert leaves the host and the ledger of
    interventions as they are. *)
Lemma nothing_frozen m pol (w : W) alert r :
  let '(m', _, w') := Mitigator.mitigateFromAlert m pol w alert r in
  Mitigator.mledger m' = Mitigator.mledger m ∧ w' = w.
Proof.
  assert (Hf : ∀ pid cid, ∃ mech err m', Mitigator.freeze_target m pid cid w = (mech, Some err, m', w) ∧
    Mitigator.mledger m' = Mitigator.mledger m).
  { intros pid cid. unfold Mitigator.freeze_target. destruct (streq cid ""); simpl; [by eexists _, _, _|].
    destruct (containers_elsewhere true container_pause (Mitigator.cm m) cid w) as (err & cm' & He);
      [done|]. unfold Mitigator.Pause. rewrite He. by eexists _, _, _. }
  unfold Mitigator.mitigateFromAlert.
  destruct (Hf (Alerter.TargetPID (Alerter.Payload alert))
    (Mitigator.resolveContainerID m (Alerter.TargetPID (Alerter.Payload alert)) w))
    as (mech & err & m' & He & Hl).
  destruct pol as [e|].
  - destruct (EvaluateAndRegister _ _ _ _ _ _) as [[[e' auth] tx] evt]. destruct auth; cbn [negb]; [|done].
    rewrite He. done.
  - rewrite He. done.
Qed.

(** The probe elsewhere is the one of Linux on such a host, so reconciling takes
    every intervention to have drifted. *)
Lemma probe_elsewhere pid root (w : W) :
  Rollback.probeProcessState pid root w = probeProcessState_other pid root.
Proof. done. Qed.

Lemma reconcile_elsewhere ctl (w : W) entry :
  ∃ detail, Rollback.reconcileEntry ctl w entry = Some detail ∧
    Rollback.FinalSynchronizedState detail = Rollback.LedgerStateDriftSynced.
Proof. by eexists. Qed.

End elsewhere.

(** What is left of the agent elsewhere: the tracker falls back at once and
    never reports an event or holds a resource, the GPU sampler is unavailable
    and shows no device, and no connection is attributed to a process. *)
Lemma degraded_elsewhere `{MapRange} {Device} (env : attach_env) ops (lib : library Device)
    (qs : list (nat * (Device → Z → answers))) v port proxyPort r :
  let t := (Start env (NewTracker newStubTracker)).1 in
  let s := foldl tracker_step (t, []) ops in
  pfallback s.1 = true ∧ s.2 = [] ∧ Platforms.Close s.1 = [] ∧
  (let '(g, err, d) := Run lib (NewGPUSampler newStubSampler) in
   err = Some ErrGPUNotAvailable ∧ d = 0 ∧ savail (samples qs g) = false ∧
   sdevices (samples qs g) = []) ∧
  StartResolver_other Proxy.NewProcResolver = (Proxy.NewProcResolver, false) ∧
  (Proxy.impl r = None → Proxy.ResolvePID v port proxyPort r = (r, None)).
Proof.
  intros t s.
  assert (Hs : s = (t, [])).
  { subst s. induction ops as [|[e|n] ops IH]; [done|exact IH|exact IH]. }
  rewrite Hs. split_and!; try done.
  - assert (Hg : ∀ g : portable_sampler (P := stubSampler), savail g = false → samples qs g = g).
    { intros g Hg. unfold samples. induction qs as [|[n q] l IH]; [done|]. simpl.
      unfold Sample at 2. by rewrite Hg. }
    simpl. split_and!; [done|done|by rewrite Hg|by rewrite Hg].
  - intros Hr. unfold Proxy.ResolvePID. by rewrite Hr.
Qed.
