(* ===== verification/Pubsub.v ===== *)
(** The console router of anomalies ([pubsub/router.go]): the defaults it fills
    in, and the coloured line it prints.

    The JSON encoder is an argument of [RouteAnomaly]; it fails on a score that
    has no JSON form. *)

From S2P Require Import Prelude GoFloat GoStrings.

Record AnomalyPayload := {
  EventID : string;
  PID : Z;
  AnomalyType : string;
  Severity : string;
  GPUUUID : string;
  Message : string;
  Timestamp : Z;
  NodeID : string;
  Score : float64
}.

(** [LocalConsoleRouter], with what it has printed. *)
Record LocalConsoleRouter := { nodeID : string; out : string }.

Definition NewLocalConsoleRouter (node : string) : LocalConsoleRouter :=
  {| nodeID := node; out := "" |}.

Definition escape (code : string) : string := String (ascii_of_nat 27) ("[" +:+ code +:+ "m").

(** The node and the time of an event that has none. *)
Definition complete (node : string) (now : Z) (p : AnomalyPayload) : AnomalyPayload :=
  {| EventID := EventID p; PID := PID p; AnomalyType := AnomalyType p; Severity := Severity p;
     GPUUUID := GPUUUID p; Message := Message p;
     Timestamp := if Timestamp p =? 0 then now else Timestamp p;
     NodeID := if streq (NodeID p) "" then node else NodeID p; Score := Score p |}.

Definition severity_color (s : string) : string :=
  if streq s "CRITICAL" then escape "91" else if streq s "WARNING" then escape "93"
  else if streq s "INFO" then escape "96" else escape "93".

(** The router afterwards, and the error. *)
Definition RouteAnomaly (marshal : AnomalyPayload → string + string) (now : Z) (p : AnomalyPayload)
    (r : LocalConsoleRouter) : LocalConsoleRouter * option string :=
  let p := complete (nodeID r) now p in
  match marshal p with
  | inl err => (r, Some ("local_console: marshal: " +:+ err))
  | inr data =>
      ({| nodeID := nodeID r;
          out := out r +:+ (severity_color (Severity p) +:+ "[ANOMALY] " +:+ data +:+ escape "0" +:+
                            String newline "") |}, None)
  end.

(** [RouteAnomaly] prints one line and returns no error exactly when the event,
    completed, can be encoded; it prints nothing otherwise.  What is encoded has
    a node and a time unless the router and the clock have none, and is the
    event itself if it had both. *)
Lemma RouteAnomaly_spec marshal now p r :
  let '(r', err) := RouteAnomaly marshal now p r in
  nodeID r' = nodeID r ∧
  (err = None ↔ ∃ data, marshal (complete (nodeID r) now p) = inr data ∧
     out r' = out r +:+ (severity_color (Severity p) +:+ "[ANOMALY] " +:+ data +:+ escape "0" +:+
                         String newline "")) ∧
  (err ≠ None → r' = r) ∧
  (NodeID p ≠ ""%string → Timestamp p ≠ 0 → complete (nodeID r) now p = p) ∧
  (nodeID r ≠ ""%string → NodeID (complete (nodeID r) now p) ≠ ""%string).
Proof.
  unfold RouteAnomaly.
  assert (Hc : NodeID p ≠ ""%string → Timestamp p ≠ 0 → complete (nodeID r) now p = p).
  { intros Hn Ht. unfold complete. rewrite (proj2 (streq_false _ _) Hn), (proj2 (Z.eqb_neq _ _) Ht).
    by destruct p. }
  assert (Hn : nodeID r ≠ ""%string → NodeID (complete (nodeID r) now p) ≠ ""%string).
  { intros Hr. simpl. destruct (streq (NodeID p) "") eqn:E; [done|]. by apply streq_false. }
  destruct (marshal _) as [err|data] eqn:E; simpl; split_and!; try done.
  - split; [done|]. by intros (d & ? & _).
  - split; [|done]. intros _. by exists data.
Qed.
