(* ===== verification/AgentEngine.v ===== *)
(** The engine ([proxy/engine]): how the components are created and connected,
    how snapshots reach the analysis, and the dashboard's figures.  The
    goroutines that [Start] leaves running are in [Agent].

    Several components share objects by pointer: the telemetry buffer (pipeline
    and alerter), the policy engine (mitigator, router, rollback) and the
    registry of remedies.  [New] builds each once; the operations of the
    components take the shared object as an argument. *)

From S2P Require Import Prelude GoStrings GoFloat Model RingBuffer Streamer Aggregator AgentConfig.
From S2P Require PolicyEvaluator PolicyEngine Detector Profiler Alerter Mitigator RouterRegistry.
From S2P Require Router Rollback Collector.

(** * The dashboard's figures *)

Record ImpactMetrics := { VRAMLeakBytesPerSec : float64; TokenWasteCount : Z }.
Record AnomalyEntry := { AnPID : Z; AnState : string; Impact : ImpactMetrics }.
Record SelfCheckMetrics := { ProfilerMemoryRSSBytes : Z; ProfilerCPUUtilPct : float64 }.
Record MitigationSummary := {
  MitEnabled : bool; MitActiveCount : Z; TotalActions : Z; LastEventID : string
}.
Record RouterSummary := {
  RouEnabled : bool; ActiveChops : Z; ActiveFallbacks : Z; TotalTokensSaved : Z
}.
Record PolicySummary := { ActivePendingCount : Z; TotalTracked : Z; SweeperActive : bool }.
Record RollbackSummary := {
  RollbacksTriggered : Z; DriftResolved : Z; OrphansCleaned : Z; RbActiveMitigations : Z
}.

Record UnifiedMetrics := {
  EngineStatus : string;
  UptimeSeconds : Z;
  LocalNodeID : string;
  ActivePIDsCount : Z;
  Anomalies : list AnomalyEntry;
  SelfCheck : SelfCheckMetrics;
  Mitigations : option MitigationSummary;
  MRouter : option RouterSummary;
  MPolicy : option PolicySummary;
  MRollback : option RollbackSummary
}.

(** * Creation *)

(** What the intercepting proxy is given. *)
Record ProxyConfig := {
  ListenAddr : string;
  HasLogWriter : bool;
  HasProcResolver : bool;
  PRouter : option Router.Router
}.

Record ProfilerEngine := {
  cfg : Config;
  collector : Collector.Collector;
  pipeline : Pipeline;
  proxySrv : option ProxyConfig;
  detector : option Detector.Detector;
  profiler : option Profiler.Profiler;
  alerter : Alerter.AlertMultiplexer;
  policy : PolicyEngine.Engine;
  mitigator : option Mitigator.Mitigator;
  router : option Router.Router;
  rollback : option Rollback.Controller;
  mitLastEventID : string;
  routerLastEvent : string;
  policySweeperActive : bool;
  rollbackLastSync : Z;
  metricsPtr : option UnifiedMetrics;
  apiAddr : string
}.

Definition policyConfig (c : Config) : PolicyEvaluator.Config :=
  let d := PolicyEvaluator.DefaultConfig in {|
    PolicyEvaluator.BlacklistNames := PolicyEvaluator.BlacklistNames d;
    PolicyEvaluator.WhitelistNames := default (PolicyEvaluator.WhitelistNames d) (MitigationWhitelist c);
    PolicyEvaluator.WhitelistIDs := PolicyEvaluator.WhitelistIDs d;
    PolicyEvaluator.MaxActionsPerPID := PolicyMaxActionsPerPID c;
    PolicyEvaluator.VelocityWindow := i64 (PolicyVelocityWindowMin c * Minute);
    PolicyEvaluator.CooldownSeconds := PolicyCooldownSeconds c;
    PolicyEvaluator.LedgerMaxEntries := PolicyLedgerMaxEntries c;
    PolicyEvaluator.SweepInterval := PolicyEvaluator.SweepInterval d;
    PolicyEvaluator.PIDThreshold := PolicyPidThreshold c;
    PolicyEvaluator.BufferSize := PolicyEvaluator.BufferSize d |}.

Definition mitigatorConfig (c : Config) : Mitigator.Config := {|
  Mitigator.DockerSocketPath := DockerSocketPath c;
  Mitigator.DockerTimeout := DockerAPITimeout c;
  Mitigator.CgroupRoot := SysRoot c +:+ "/fs/cgroup";
  Mitigator.ProcRoot := ProcRoot c;
  Mitigator.WhitelistNames := default [] (MitigationWhitelist c);
  Mitigator.WhitelistIDs := [];
  Mitigator.BufferSize := 128 |}.

Definition routerConfig (c : Config) : Router.Config := {|
  Router.Enabled := true;
  Router.MaxMessagesBeforeChop := RouterTokenCap c;
  Router.KeepRecentMessages := RouterKeepRecent c;
  Router.FallbackEndpoint := RouterFallbackEndpoint c;
  Router.CfgFallbackModel := RouterFallbackModel c;
  Router.FallbackAuthToken := RouterFallbackAuthToken c;
  Router.CoolingOffDuration := i64 (RouterCoolingOffSeconds c * Second);
  Router.RBufferSize := 128;
  Router.TokenEstimateDivisor := 0 |}.

Definition rollbackConfig (c : Config) : Rollback.Config :=
  let d := Rollback.DefaultConfig in {|
    Rollback.ReconciliationInterval := Rollback.ReconciliationInterval d;
    Rollback.RollbackCheckInterval := Rollback.RollbackCheckInterval d;
    Rollback.CBufferSize := Rollback.CBufferSize d;
    Rollback.CProcRoot := ProcRoot c |}.

(** The address of the dashboard. *)
Definition newAPIServer (addr : string) : string :=
  if streq addr "" then "127.0.0.1:8088" else addr.

(** [New], in the order of the code: the fields of the engine are nil until
    they are assigned.  [log_opens] says whether the proxy's log file opens. *)
Definition New (c : Config) (log_opens : bool) : ProfilerEngine :=
  let pipe := Aggregator.New (AgentID c) (AuthToken c) (UpstreamEndpoint c) (PollInterval c)
                (RingBufferMaxMB c) in
  let coll := Collector.New c (Some (snapshotCh (agg pipe))) in
  let e_router : option Router.Router := None in
  let proxy :=
    if ProxyEnabled c then
      Some {| ListenAddr := ProxyListenAddr c;
              HasLogWriter := negb (streq (ProxyLogFilePath c) "") && log_opens;
              HasProcResolver := negb (streq (ProcRoot c) "");
              PRouter := e_router |}
    else None in
  let det := if DetectorEnabled c then Some (Detector.NewDetector Detector.DefaultConfig) else None in
  let prof := if ProfilerEnabled c then Some (Profiler.NewProfiler Profiler.DefaultConfig) else None in
  let al := Alerter.NewAlertMultiplexer Alerter.DefaultConfig (Some (ringBuf (agg pipe))) in
  let pol := PolicyEngine.NewEngine (policyConfig c) in
  let mit := if MitigationEnabled c then Some (Mitigator.New (mitigatorConfig c)) else None in
  let e_router := if RouterEnabled c then Some (Router.New (routerConfig c)) else e_router in
  let rol := match mit with Some _ => Some (Rollback.New (rollbackConfig c)) | None => None end in
  {| cfg := c; collector := coll; pipeline := pipe; proxySrv := proxy; detector := det;
     profiler := prof; alerter := al; policy := pol; mitigator := mit; router := e_router;
     rollback := rol; mitLastEventID := ""; routerLastEvent := ""; policySweeperActive := false;
     rollbackLastSync := 0; metricsPtr := None; apiAddr := newAPIServer (DashboardAddr c) |}.

(** The part of [Start] that changes state: the pipeline gets its streamer and
    its endpoint, the mitigator and the router's bridge subscribe. *)
Definition Start (e : ProfilerEngine) : ProfilerEngine :=
  let al := alerter e in
  let al := match mitigator e with Some _ => Alerter.Subscribe al | None => al end in
  let al := match router e with Some _ => Alerter.Subscribe al | None => al end in
  {| cfg := cfg e; collector := collector e;
     pipeline := SetUpstreamEndpoint (UpstreamEndpoint (cfg e)) (Aggregator.Start (pipeline e));
     proxySrv := proxySrv e; detector := detector e; profiler := profiler e; alerter := al;
     policy := policy e; mitigator := mitigator e; router := router e; rollback := rollback e;
     mitLastEventID := mitLastEventID e; routerLastEvent := routerLastEvent e;
     policySweeperActive := policySweeperActive e; rollbackLastSync := rollbackLastSync e;
     metricsPtr := metricsPtr e; apiAddr := apiAddr e |}.

(** * Routing snapshots *)

(** The clock readings of one snapshot; those of the figures are the uptime,
    the map order, the readings of the counts of router and policy engine, the
    bytes allocated and the number of goroutines. *)
Record route_env := {
  re_unix : Z;
  re_order : nat;
  re_uptime : Z;
  re_router : Z;
  re_policy : Z;
  re_alloc : Z;
  re_goroutines : Z;
  re_gpu : nat → nat → Profiler.clock;
  re_host : nat → Profiler.clock;
  re_det : nat → Z * Z * Z
}.

(** The loop over the monitored processes: an event with an empty payload. *)
Definition detector_event (ts : Z) (pm : ProcessMetrics) : Detector.DetectorEvent := {|
  Detector.EvPID := PPID pm; Detector.EvTimestamp := ts; Detector.EvProvider := "";
  Detector.EvModel := ""; Detector.EvPayload := "" |}.

Definition feed_detector (env : route_env) (snap : Snapshot) (d : Detector.Detector) :
    Detector.Detector :=
  foldl (λ d '(i, pm),
      let '(tA, tS, tN) := re_det env i in
      (Detector.Ingest d (detector_event (SnTimestamp snap) pm) tA tS tN).1)
    d (imap pair (SnMonitoredProcesses snap)).

(** Assignments to fields. *)
Definition with_analysis (e : ProfilerEngine) (prof : option Profiler.Profiler)
    (det : option Detector.Detector) : ProfilerEngine :=
  {| cfg := cfg e; collector := collector e; pipeline := pipeline e; proxySrv := proxySrv e;
     detector := det; profiler := prof; alerter := alerter e; policy := policy e; mitigator :=
     mitigator e; router := router e; rollback := rollback e; mitLastEventID := mitLastEventID e;
     routerLastEvent := routerLastEvent e; policySweeperActive := policySweeperActive e;
     rollbackLastSync := rollbackLastSync e; metricsPtr := metricsPtr e; apiAddr := apiAddr e |}.

Definition with_agg (e : ProfilerEngine) (a : Aggregator) : ProfilerEngine :=
  {| cfg := cfg e; collector := collector e; pipeline := {| agg := a; streamer := streamer
     (pipeline e) |}; proxySrv := proxySrv e; detector := detector e; profiler := profiler e;
     alerter := alerter e; policy := policy e; mitigator := mitigator e; router := router e;
     rollback := rollback e; mitLastEventID := mitLastEventID e; routerLastEvent :=
     routerLastEvent e; policySweeperActive := policySweeperActive e; rollbackLastSync :=
     rollbackLastSync e; metricsPtr := metricsPtr e; apiAddr := apiAddr e |}.

Definition with_metrics (e : ProfilerEngine) (m : option UnifiedMetrics) : ProfilerEngine :=
  {| cfg := cfg e; collector := collector e; pipeline := pipeline e; proxySrv := proxySrv e;
     detector := detector e; profiler := profiler e; alerter := alerter e; policy := policy e;
     mitigator := mitigator e; router := router e; rollback := rollback e; mitLastEventID :=
     mitLastEventID e; routerLastEvent := routerLastEvent e; policySweeperActive :=
     policySweeperActive e; rollbackLastSync := rollbackLastSync e; metricsPtr := m; apiAddr :=
     apiAddr e |}.

Definition with_alerter (e : ProfilerEngine) (al : Alerter.AlertMultiplexer) : ProfilerEngine :=
  {| cfg := cfg e; collector := collector e; pipeline := pipeline e; proxySrv := proxySrv e;
     detector := detector e; profiler := profiler e; alerter := al; policy := policy e; mitigator
     := mitigator e; router := router e; rollback := rollback e; mitLastEventID := mitLastEventID
     e; routerLastEvent := routerLastEvent e; policySweeperActive := policySweeperActive e;
     rollbackLastSync := rollbackLastSync e; metricsPtr := metricsPtr e; apiAddr := apiAddr e |}.

Definition with_control (e : ProfilerEngine) (pol : PolicyEngine.Engine)
    (mit : option Mitigator.Mitigator) (rou : option Router.Router)
    (rol : option Rollback.Controller) : ProfilerEngine :=
  {| cfg := cfg e; collector := collector e; pipeline := pipeline e; proxySrv := proxySrv e;
     detector := detector e; profiler := profiler e; alerter := alerter e; policy := pol;
     mitigator := mit; router := rou; rollback := rol; mitLastEventID := mitLastEventID e;
     routerLastEvent := routerLastEvent e; policySweeperActive := policySweeperActive e;
     rollbackLastSync := rollbackLastSync e; metricsPtr := metricsPtr e; apiAddr := apiAddr e |}.

Definition with_logged (e : ProfilerEngine) (mitID rouType : string) (sync : Z) : ProfilerEngine :=
  {| cfg := cfg e; collector := collector e; pipeline := pipeline e; proxySrv := proxySrv e;
     detector := detector e; profiler := profiler e; alerter := alerter e; policy := policy e;
     mitigator := mitigator e; router := router e; rollback := rollback e; mitLastEventID :=
     mitID; routerLastEvent := rouType; policySweeperActive := policySweeperActive e;
     rollbackLastSync := sync; metricsPtr := metricsPtr e; apiAddr := apiAddr e |}.

(** ** The figures *)

Definition cpuUsagePct (goroutines : Z) : float64 := fmul (f_of_Z goroutines) (f_lit 1 1000).

Definition updateMetrics `{MapRange} (env : route_env) (snap : Snapshot) (e : ProfilerEngine) :
    ProfilerEngine :=
  let n := re_order env in
  let pidSet : gset Z := list_to_set (PPID <$> SnMonitoredProcesses snap) in
  with_metrics e (Some {|
    EngineStatus := "RUNNING";
    UptimeSeconds := duration_secs_int (re_uptime env);
    LocalNodeID := AgentID (cfg e);
    ActivePIDsCount := Z.of_nat (size pidSet);
    Anomalies := [];
    SelfCheck := {| ProfilerMemoryRSSBytes := re_alloc env;
                    ProfilerCPUUtilPct := cpuUsagePct (re_goroutines env) |};
    Mitigations := (λ m, {|
      MitEnabled := MitigationEnabled (cfg e);
      MitActiveCount := llen (Mitigator.ActiveMitigations m n);
      TotalActions := Mitigator.MitigationCount m;
      LastEventID := mitLastEventID e |}) <$> mitigator e;
    MRouter := (λ r,
      let '(chop, fallback) := RouterRegistry.ActiveCount (Router.reg r) n (re_router env) in {|
        RouEnabled := RouterEnabled (cfg e);
        ActiveChops := chop; ActiveFallbacks := fallback;
        TotalTokensSaved := RouterRegistry.TotalTokensSaved (Router.reg r) n |}) <$> router e;
    MPolicy := Some {|
      ActivePendingCount := PolicyEngine.ActiveCount (policy e) n (re_policy env);
      TotalTracked := PolicyEngine.TotalTrackedCount (policy e);
      SweeperActive := policySweeperActive e |};
    MRollback :=
      match rollback e, mitigator e with
      | Some _, Some m => Some {| RollbacksTriggered := 0; DriftResolved := 0; OrphansCleaned := 0;
                                  RbActiveMitigations := llen (Mitigator.ActiveMitigations m n) |}
      | _, _ => None
      end |}).

(** [handleMetrics] of the dashboard API. *)
Inductive api_reply := ApiText (status : Z) (body : string) | ApiMetrics (m : UnifiedMetrics).

Definition starting_body : string :=
  let field k v := quoted k +:+ ":" +:+ v in
  "{" +:+ field "engine_status" (quoted "STARTING") +:+ "," +:+ field "uptime_seconds" "0" +:+ "," +:+
  field "local_node_id" (quoted "") +:+ "," +:+ field "active_monitored_pids_count" "0" +:+ "," +:+
  field "active_system_anomalies" "[]" +:+ "," +:+
  field "system_performance_self_check"
    ("{" +:+ field "profiler_memory_rss_bytes" "0" +:+ "," +:+
     field "profiler_cpu_utilization_pct" "0" +:+ "}") +:+ "}".

Definition handleMetrics (is_get : bool) (e : ProfilerEngine) : api_reply :=
  if negb is_get then ApiText 405 ("method not allowed" +:+ String newline "")
  else match metricsPtr e with None => ApiText 200 starting_body | Some m => ApiMetrics m end.

Section engine.

Context `{MapRange}.
Variable hex_sha256 : string → string.
Variable unmarshal : string → option Snapshot.
Variable marshal : UpstreamPayload → option string.

(** The body of [dataRouter] for the data it received. *)
Definition route_snapshot (env : route_env) (data : string) (e : ProfilerEngine) :
    ProfilerEngine * option Snapshot :=
  match unmarshal data with
  | None => (e, None)
  | Some snap =>
      (updateMetrics env snap (with_analysis e
         ((λ p, Profiler.Ingest p (Some snap) (re_unix env) (re_gpu env) (re_host env)) <$> profiler e)
         (feed_detector env snap <$> detector e)),
       Some snap)
  end.

(** One iteration of [dataRouter], which waits while no snapshot is there. *)
Definition dataRouter (env : route_env) (e : ProfilerEngine) :
    ProfilerEngine * option (string * option Snapshot) :=
  let a := agg (pipeline e) in
  let '(data, ch) := try_recv (snapshotCh a) in
  match data with
  | None => (e, None)
  | Some data =>
      let '(e, snap) := route_snapshot env data (with_agg e (with_snapshots ch a)) in
      (e, Some (data, snap))
  end.

(** ** The two readers of the snapshot channel

    The collector offers snapshots; the data router and the aggregator both
    receive from the channel.  The log records who received what. *)
Inductive reader := DataRouter | TheAggregator.

Inductive engine_event :=
  | Collected (data : string)
  | Routed (env : route_env)
  | Period.

Record engine_state := {
  eng : ProfilerEngine;
  offered : list string;            (* accepted by the channel *)
  received : list (reader * string)
}.

Definition engine_step (s : engine_state) (ev : engine_event) : engine_state :=
  let e := eng s in
  let a := agg (pipeline e) in
  match ev with
  | Collected data =>
      let '(ch, ok) := try_send data (snapshotCh a) in
      {| eng := with_agg e (with_snapshots ch a);
         offered := if ok then offered s ++ [data] else offered s; received := received s |}
  | Routed env =>
      let '(e, got) := dataRouter env e in
      {| eng := e; offered := offered s;
         received := match got with
                     | Some (data, _) => received s ++ [(DataRouter, data)]
                     | None => received s
                     end |}
  | Period =>
      let '(a', o) := aggregate hex_sha256 unmarshal marshal a in
      {| eng := with_agg e a'; offered := offered s;
         received := match head (chan_buf (snapshotCh a)) with
                     | Some data => received s ++ [(TheAggregator, data)]
                     | None => received s
                     end |}
  end.

(** The run of a started engine. *)
Definition run_engine (c : Config) (log_opens : bool) (evs : list engine_event) : engine_state :=
  foldl engine_step {| eng := Start (New c log_opens); offered := []; received := [] |} evs.

End engine.

(** * Lemmas *)

Section split.

Context `{MapRange}.
Variable hex_sha256 : string → string.
Variable unmarshal : string → option Snapshot.
Variable marshal : UpstreamPayload → option string.

Definition waiting (s : engine_state) : list string := chan_buf (snapshotCh (agg (pipeline (eng s)))).

(** Every accepted snapshot was received once, in order, or is waiting. *)
Definition split_inv (s : engine_state) : Prop := (received s).*2 ++ waiting s = offered s.

Lemma dataRouter_received env e :
  let a := agg (pipeline e) in
  let '(e', got) := dataRouter unmarshal env e in
  match chan_buf (snapshotCh a) with
  | [] => got = None ∧ e' = e
  | data :: rest =>
      got = Some (data, unmarshal data) ∧ chan_buf (snapshotCh (agg (pipeline e'))) = rest
  end.
Proof.
  unfold dataRouter, try_recv. cbv zeta.
  destruct (chan_buf (snapshotCh (agg (pipeline e)))) as [|data rest]; [done|].
  unfold route_snapshot. destruct (unmarshal data); simpl; done.
Qed.

Lemma engine_step_split s ev :
  split_inv s → split_inv (engine_step hex_sha256 unmarshal marshal s ev).
Proof.
  unfold split_inv, waiting. destruct ev as [data|env|]; simpl.
  - unfold try_send. destruct (_ <? _); simpl; [|by destruct s].
    intros <-. by rewrite app_assoc.
  - pose proof (dataRouter_received env (eng s)) as HR. cbv zeta in HR.
    destruct (dataRouter unmarshal env (eng s)) as [e' got].
    destruct (chan_buf (snapshotCh (agg (pipeline (eng s))))) as [|data rest] eqn:E.
    + destruct HR as [-> ->]. simpl. by rewrite E.
    + destruct HR as [-> HR]. simpl. rewrite HR. intros <-.
      by rewrite fmap_app, <- app_assoc.
  - pose proof (aggregate_cases hex_sha256 unmarshal marshal (agg (pipeline (eng s)))) as HR.
    destruct (aggregate _ _ _ _) as [a' o]. destruct HR as (_ & _ & HR).
    destruct (chan_buf (snapshotCh (agg (pipeline (eng s))))) as [|data rest] eqn:E; simpl.
    + destruct HR as [_ ->]. simpl. by rewrite E.
    + destruct HR as [Hr _]. rewrite Hr. intros <-. by rewrite fmap_app, <- app_assoc.
Qed.

End split.

(** * Theorems *)

(** C28: the data router and the aggregator take snapshots away from each other.
    In every run of the started engine, each snapshot that the channel accepted
    is received exactly once, in order, by one of the two, or still waits: the
    snapshots that are analysed and those that are uploaded are disjoint, so no
    snapshot is both. *)
Theorem snapshots_split `{MapRange} hex_sha256 unmarshal marshal c log_opens evs :
  let s := run_engine hex_sha256 unmarshal marshal c log_opens evs in
  (received s).*2 ++ waiting s = offered s ∧
  (NoDup (offered s) → ∀ data,
     (DataRouter, data) ∈ received s → (TheAggregator, data) ∈ received s → False).
Proof.
  cbv zeta.
  assert (Hinv : split_inv (run_engine hex_sha256 unmarshal marshal c log_opens evs)).
  { unfold run_engine. apply foldl_inv; [done|]. intros s ev. apply engine_step_split. }
  set (s := run_engine _ _ _ _ _ evs) in *. split; [exact Hinv|].
  intros Hnd data H1 H2. unfold split_inv in Hinv. rewrite <- Hinv in Hnd.
  apply NoDup_app in Hnd as [Hnd _].
  apply list_elem_of_lookup in H1 as [i H1], H2 as [j H2].
  assert (i = j) as ->.
  { eapply NoDup_lookup; [exact Hnd| |]; rewrite list_lookup_fmap; [by rewrite H1|by rewrite H2]. }
  congruence.
Qed.

Definition no_clock : Profiler.clock := {| Profiler.tAccess := 0; Profiler.tSince := 0; Profiler.tNow := 0 |}.

Definition sample_env (t : Z) : route_env := {|
  re_unix := t; re_order := 0; re_uptime := 0; re_router := 0; re_policy := 0; re_alloc := 0;
  re_goroutines := 0; re_gpu := λ _ _, no_clock; re_host := λ _, no_clock;
  re_det := λ _, (t * Second, t * Second, t * Second) |}.

Definition sample_events : list engine_event :=
  [Collected "a"; Collected "b"; Period; Routed (sample_env 1); Collected "c"].

Abbreviation sample_run :=
  (run_engine id (λ _, Some sample_snapshot) (λ _, Some "p"%string) (DefaultConfig "h") false
    sample_events).

Lemma sample_run_received :
  received sample_run = [(TheAggregator, "a"%string); (DataRouter, "b"%string)].
Proof. vm_compute. reflexivity. Qed.

Lemma sample_run_offered : offered sample_run = ["a"; "b"; "c"]%string.
Proof. vm_compute. reflexivity. Qed.

Lemma sample_run_nodup : NoDup (offered sample_run).
Proof.
  rewrite sample_run_offered.
  repeat (constructor; [intros H%list_elem_of_In; simpl in H; intuition congruence|]). constructor.
Qed.

Lemma snapshots_split_witness :
  waiting sample_run = ["c"%string] ∧ ((DataRouter, "a"%string) ∈ received sample_run → False).
Proof.
  split; [vm_compute; reflexivity|].
  pose proof (snapshots_split id (λ _, Some sample_snapshot) (λ _, Some "p"%string)
    (DefaultConfig "h") false sample_events) as [_ Hs].
  intros H. apply (Hs sample_run_nodup "a"%string); [exact H|].
  rewrite sample_run_received. left.
Defined.

(** The wiring of a started engine.  The streamer sends to the configured
    endpoint; the policy engine enforces the configured limits; mitigator and
    router each have a subscription to the alerts when they are enabled, in this
    order; rollback runs exactly when mitigation does.  But the proxy is created
    before the router, so it is never given one: whatever the configuration,
    the requests it handles are not intercepted. *)
Theorem wiring c log_opens :
  let e := Start (New c log_opens) in
  (endpoint <$> streamer (pipeline e) = Some (UpstreamEndpoint c)) ∧
  PolicyEngine.ecfg (policy e) = policyConfig c ∧
  PolicyEvaluator.maxActionsPerPID (PolicyEngine.evaluator (policy e)) =
    (if PolicyMaxActionsPerPID c <=? 0 then 5 else PolicyMaxActionsPerPID c) ∧
  (is_Some (mitigator e) ↔ MitigationEnabled c = true) ∧
  (is_Some (rollback e) ↔ MitigationEnabled c = true) ∧
  (is_Some (router e) ↔ RouterEnabled c = true) ∧
  Alerter.subs (alerter e) =
    replicate ((if MitigationEnabled c then 1 else 0) + (if RouterEnabled c then 1 else 0))
      (make_chan (Alerter.InternalBufferSize Alerter.DefaultConfig)) ∧
  (is_Some (proxySrv e) ↔ ProxyEnabled c = true) ∧
  (∀ p, proxySrv e = Some p → PRouter p = None).
Proof.
  unfold Start, New. simpl.
  assert (Hs : ∀ (A : Type) (b : bool) (x : A), is_Some (if b then Some x else None) ↔ b = true)
    by (intros A [] x; split; intros H; try done; by destruct H).
  split_and!; try done; try apply Hs.
  - destruct (MitigationEnabled c); split; intros H; try done; by destruct H.
  - by destruct (MitigationEnabled c), (RouterEnabled c).
  - intros p. destruct (ProxyEnabled c); [|done]. by intros [= <-].
Qed.

(** A process that lives through five snapshots is reported as a repetition,
    whatever it does. *)
Definition living_snapshot (t : Z) : Snapshot := {|
  SnTimestamp := t;
  SnHostMetrics := SnHostMetrics sample_snapshot;
  SnMonitoredProcesses := [{| PPID := 42; PContainerID := ""; PProcessName := "sleep";
    PCPUUsagePct := f_zero; PRSSBytes := 1; PVSizeBytes := 1 |}];
  SnGPUDevices := [] |}.

Example long_lived_process_alerts :
  let d := foldl (λ d t, feed_detector (sample_env t) (living_snapshot t) d)
             (Detector.NewDetector Detector.DefaultConfig) [1; 2; 3; 4; 5] in
  llen (chan_buf (Detector.alerts d)) = 1.
Proof. vm_compute. reflexivity. Qed.
