(* ===== verification/Agent.v ===== *)
(** The running agent: what the goroutines started by [ProfilerEngine.Start] do
    ([proxy/engine], with the listeners of the alerter, the mitigator, the router,
    the rollback controller and the policy engine), one step each, in any order,
    and how [Stop] ends them.

    The telemetry buffer, the policy engine and the registry of remedies are
    shared by pointer; here the pipeline holds the buffer, the engine the policy
    engine and the router its registry, and a step of another component works on
    that one. *)

From S2P Require Import Prelude GoFloat GoStrings Model RingBuffer Streamer Aggregator AgentConfig AgentEngine.
From S2P Require PolicyLedger PolicyEngine Detector Profiler Alerter Host Mitigator RouterRegistry.
From S2P Require Router Rollback Interventions.

(** [json.Marshal] of the events that go upstream. *)
Record encoders := {
  enc_alert : Alerter.ConsolidatedAlert → option string;
  enc_mitigation : Mitigator.MitigationEvent → option string;
  enc_router : Router.RouterEvent → option string;
  enc_policy : PolicyEngine.PolicyEvent → option string;
  enc_sync : Rollback.SyncEvent → option string
}.

(** * The buffer *)

Definition buffer (e : ProfilerEngine) : RingBuffer := ringBuf (agg (pipeline e)).

Definition with_buffer (e : ProfilerEngine) (rb : RingBuffer) : ProfilerEngine :=
  with_agg e (with_ring rb (agg (pipeline e))).

(** Adding an event that could be encoded. *)
Definition push_event (data : option string) (e : ProfilerEngine) : ProfilerEngine :=
  match data with Some data => with_buffer e (Push data (buffer e)) | None => e end.

Section loggers.

Variable enc : encoders.

(** ** Event loggers *)

Definition mitigateEventLogger (e : ProfilerEngine) : ProfilerEngine :=
  match mitigator e with
  | None => e
  | Some m =>
      let '(evt, m) := Mitigator.Events m in
      let e := with_control e (policy e) (Some m) (router e) (rollback e) in
      match evt with
      | None => e
      | Some evt =>
          push_event (enc_mitigation enc evt)
            (with_logged e (Mitigator.MitigationEventID evt) (routerLastEvent e) (rollbackLastSync e))
      end
  end.

Definition routerEventLogger (e : ProfilerEngine) : ProfilerEngine :=
  match router e with
  | None => e
  | Some r =>
      let '(evt, r) := Router.Events r in
      let e := with_control e (policy e) (mitigator e) (Some r) (rollback e) in
      match evt with
      | None => e
      | Some evt =>
          push_event (enc_router enc evt)
            (with_logged e (mitLastEventID e) (Router.AppliedType evt) (rollbackLastSync e))
      end
  end.

Definition policyEventLogger (e : ProfilerEngine) : ProfilerEngine :=
  let '(evt, pol) := PolicyEngine.Events (policy e) in
  let e := with_control e pol (mitigator e) (router e) (rollback e) in
  match evt with
  | None => e
  | Some evt => push_event (enc_policy enc evt) e
  end.

Definition rollbackEventLogger (e : ProfilerEngine) : ProfilerEngine :=
  match rollback e with
  | None => e
  | Some ctl =>
      let '(evt, ctl) := Rollback.Events ctl in
      let e := with_control e (policy e) (mitigator e) (router e) (Some ctl) in
      match evt with
      | None => e
      | Some evt =>
          push_event (enc_sync enc evt)
            (with_logged e (mitLastEventID e) (routerLastEvent e) (Rollback.SyTimestamp evt))
      end
  end.

(** ** The alerter's goroutines *)

(** The case of [multiplexLoop] for an alert of the detector; [New] attached
    its channel if there is a detector. *)
Definition multiplex_detector (rnd : string) (e : ProfilerEngine) : ProfilerEngine :=
  match detector e with
  | None => e
  | Some d =>
      match try_recv (Detector.alerts d) with
      | (None, _) => e
      | (Some a, ch) =>
          let d := {| Detector.cfg := Detector.cfg d; Detector.windows := Detector.windows d;
                      Detector.alerts := ch |} in
          with_alerter (with_analysis e (profiler e) (Some d))
            (Alerter.route (alerter e) (Alerter.fromDetectorAlert a) rnd)
      end
  end.

Definition multiplex_profiler (rnd : string) (e : ProfilerEngine) : ProfilerEngine :=
  match profiler e with
  | None => e
  | Some p =>
      match try_recv (Profiler.alerts p) with
      | (None, _) => e
      | (Some a, ch) =>
          let p := {| Profiler.cfg := Profiler.cfg p; Profiler.histories := Profiler.histories p;
                      Profiler.alerts := ch |} in
          with_alerter (with_analysis e (Some p) (detector e))
            (Alerter.route (alerter e) (Alerter.fromProfilerAlert a) rnd)
      end
  end.

(** The alerter as it finds the shared buffer. *)
Definition share (rb : RingBuffer) (am : Alerter.AlertMultiplexer) : Alerter.AlertMultiplexer :=
  {| Alerter.cfg := Alerter.cfg am; Alerter.ringBuf := Some rb; Alerter.console := Alerter.console am;
     Alerter.dedup := Alerter.dedup am; Alerter.internal := Alerter.internal am;
     Alerter.subs := Alerter.subs am |}.

Definition fanOutLoop (e : ProfilerEngine) : ProfilerEngine :=
  let am := Alerter.fanOut (enc_alert enc) (share (buffer e) (alerter e)) in
  with_buffer (with_alerter e am) (default (buffer e) (Alerter.ringBuf am)).

(** Taking an alert from the [i]-th subscription. *)
Definition take_alert (i : nat) (am : Alerter.AlertMultiplexer) :
    option Alerter.ConsolidatedAlert * Alerter.AlertMultiplexer :=
  match Alerter.subs am !! i with
  | None => (None, am)
  | Some ch =>
      let '(a, ch) := try_recv ch in
      (a, {| Alerter.cfg := Alerter.cfg am; Alerter.ringBuf := Alerter.ringBuf am;
             Alerter.console := Alerter.console am; Alerter.dedup := Alerter.dedup am;
             Alerter.internal := Alerter.internal am; Alerter.subs := <[i := ch]> (Alerter.subs am) |})
  end.

(** [Start] subscribes the mitigator first, if there is one. *)
Definition bridge_sub (e : ProfilerEngine) : nat := if mitigator e then 1 else 0.

(** ** The listeners *)

Section listeners.

Context `{MapRange, Host.Host W}.

(** [alertListener] of the mitigator. *)
Definition mitigatorListener (r : Mitigator.readings) (e : ProfilerEngine) (w : W) :
    ProfilerEngine * W :=
  match mitigator e with
  | None => (e, w)
  | Some m =>
      match take_alert 0 (alerter e) with
      | (None, _) => (e, w)
      | (Some alert, am) =>
          let '(m, pol, w) := Mitigator.mitigateFromAlert m (Some (policy e)) w alert r in
          (with_control (with_alerter e am) (default (policy e) pol) (Some m) (router e) (rollback e), w)
      end
  end.

(** [routerAlertBridge] drops what does not fit into the channel. *)
Definition routerAlertBridge (e : ProfilerEngine) (out : chan Router.AlertTrigger) :
    ProfilerEngine * chan Router.AlertTrigger :=
  match router e with
  | None => (e, out)
  | Some _ =>
      match take_alert (bridge_sub e) (alerter e) with
      | (None, _) => (e, out)
      | (Some a, am) =>
          (with_alerter e am,
           (try_send {| Router.AlertPID := Alerter.TargetPID (Alerter.Payload a);
                        Router.AlertType := Alerter.AnomalyType (Alerter.Payload a) |} out).1)
      end
  end.

(** [alertListener] of the router. *)
Definition routerListener (ev : Router.alert_env) (e : ProfilerEngine)
    (triggers : chan Router.AlertTrigger) : ProfilerEngine * chan Router.AlertTrigger :=
  match router e with
  | None => (e, triggers)
  | Some r =>
      match try_recv triggers with
      | (None, _) => (e, triggers)
      | (Some t, ch) =>
          let '(r, pol) := Router.handleAlert r (Some (policy e)) t ev in
          (with_control e (default (policy e) pol) (mitigator e) (Some r) (rollback e), ch)
      end
  end.

(** ** The rollback controller's tickers

    Without a router the controller has no registry; then no transaction is
    about a route, and the one given here is not used. *)
Definition registry (e : ProfilerEngine) : RouterRegistry.Registry :=
  match router e with Some r => Router.reg r | None => RouterRegistry.NewRegistry 0 end.

Definition rollbackLoop (n : nat) (now unix : Z) (rnd : string) (e : ProfilerEngine) (w : W) :
    ProfilerEngine * W :=
  match rollback e, mitigator e with
  | Some ctl, Some m =>
      let '(ctl, p) := Rollback.checkExpired ctl
        {| Rollback.mit := m; Rollback.rreg := registry e; Rollback.pol := policy e;
           Rollback.world := w |} n now unix rnd in
      (with_control e (Rollback.pol p) (Some (Rollback.mit p))
         ((λ r, Router.with_reg r (Rollback.rreg p)) <$> router e) (Some ctl),
       Rollback.world p)
  | _, _ => (e, w)
  end.

Definition reconcileLoop (n : nat) (unix : Z) (rnd : string) (e : ProfilerEngine) (w : W) :
    ProfilerEngine :=
  match rollback e, mitigator e with
  | Some ctl, Some m =>
      let '(ctl, m) := Rollback.reconcileOnce ctl m w n unix rnd in
      with_control e (policy e) (Some m) (router e) (Some ctl)
  | _, _ => e
  end.

(** ** The other tickers *)

Definition sweepLoop (n : nat) (now : Z) (e : ProfilerEngine) : ProfilerEngine :=
  with_control e
    (PolicyEngine.with_ledger (policy e) (PolicyLedger.sweep (PolicyEngine.ledger (policy e)) n now))
    (mitigator e) (router e) (rollback e).

Definition analysisLoop (n : nat) (ck : Profiler.ResourceKey → Profiler.clock) (e : ProfilerEngine) :
    ProfilerEngine :=
  with_analysis e ((λ p, Profiler.runMemoryLeakAnalysis p n ck) <$> profiler e) (detector e).

Definition gcLoops (n : nat) (tDet tProf : Z) (e : ProfilerEngine) : ProfilerEngine :=
  with_analysis e ((λ p, Profiler.runGC p n tProf) <$> profiler e)
    ((λ d, Detector.runGC d n tDet) <$> detector e).

End listeners.
End loggers.

(** * The running agent *)

(** The engine with its log of snapshots, the channel between the bridge and
    the router, the back-off of the streamer, and the host; [analysed] records
    the snapshots the data router decoded. *)
Record agent (W : Type) := {
  core : engine_state;
  triggers : chan Router.AlertTrigger;
  backoff : Z;
  host : W;
  analysed : list Snapshot
}.

Arguments core {W}. Arguments triggers {W}. Arguments backoff {W}. Arguments host {W}.
Arguments analysed {W}.

(** One step of one goroutine, with what it reads; the collector offers a
    snapshot, the proxy a token event, and the host changes by itself. *)
Inductive agent_event (W : Type) :=
  | Core (ev : engine_event)
  | TokenUsed (ev : TokenUsageEvent)
  | MultiplexDetector (rnd : string)
  | MultiplexProfiler (rnd : string)
  | FanOut
  | MitigatorListener (r : Mitigator.readings)
  | AlertBridge
  | RouterListener (ev : Router.alert_env)
  | RollbackLoop (n : nat) (now unix : Z) (rnd : string)
  | ReconcileLoop (n : nat) (unix : Z) (rnd : string)
  | SweepLoop (n : nat) (now : Z)
  | AnalysisLoop (n : nat) (ck : Profiler.ResourceKey → Profiler.clock)
  | GcLoops (n : nat) (tDet tProf : Z)
  | MitigateEventLogger
  | RouterEventLogger
  | PolicyEventLogger
  | RollbackEventLogger
  | StreamerRun (net : nat → http_result) (k : nat)
  | HostChange (w : W).

Arguments Core {W}. Arguments TokenUsed {W}. Arguments MultiplexDetector {W}.
Arguments MultiplexProfiler {W}. Arguments FanOut {W}. Arguments MitigatorListener {W}.
Arguments AlertBridge {W}. Arguments RouterListener {W}. Arguments RollbackLoop {W}.
Arguments ReconcileLoop {W}. Arguments SweepLoop {W}. Arguments AnalysisLoop {W}.
Arguments GcLoops {W}. Arguments MitigateEventLogger {W}. Arguments RouterEventLogger {W}.
Arguments PolicyEventLogger {W}. Arguments RollbackEventLogger {W}. Arguments StreamerRun {W}.
Arguments HostChange {W}.

Section run.

Context `{MapRange, Host.Host W}.
Variable enc : encoders.
Variable hex_sha256 : string → string.
Variable unmarshal : string → option Snapshot.
Variable marshal : UpstreamPayload → option string.

Definition engine_of (a : agent W) : ProfilerEngine := eng (core a).

Definition with_engine (a : agent W) (e : ProfilerEngine) : agent W :=
  {| core := {| eng := e; offered := offered (core a); received := received (core a) |};
     triggers := triggers a; backoff := backoff a; host := host a; analysed := analysed a |}.

Definition with_triggers (a : agent W) (ch : chan Router.AlertTrigger) : agent W :=
  {| core := core a; triggers := ch; backoff := backoff a; host := host a; analysed := analysed a |}.

Definition with_host (a : agent W) (w : W) : agent W :=
  {| core := core a; triggers := triggers a; backoff := backoff a; host := w; analysed := analysed a |}.

Definition with_core (a : agent W) (c : engine_state) (snaps : list Snapshot) : agent W :=
  {| core := c; triggers := triggers a; backoff := backoff a; host := host a;
     analysed := analysed a ++ snaps |}.

Definition with_backoff (a : agent W) (b : Z) : agent W :=
  {| core := core a; triggers := triggers a; backoff := b; host := host a; analysed := analysed a |}.

(** The snapshot a step analyses. *)
Definition analysed_by (c : engine_state) (ev : engine_event) : list Snapshot :=
  match ev with
  | Routed env =>
      match (dataRouter unmarshal env (eng c)).2 with Some (_, Some snap) => [snap] | _ => [] end
  | _ => []
  end.

Definition token_used (ev : TokenUsageEvent) (e : ProfilerEngine) : ProfilerEngine :=
  let a := agg (pipeline e) in with_agg e (with_tokens (try_send ev (tokenCh a)).1 a).

(** One iteration of the streamer's [run]; the pipeline is started. *)
Definition streamer_run (net : nat → http_result) (k : nat) (a : agent W) : agent W :=
  let e := engine_of a in
  match streamer (pipeline e) with
  | None => a
  | Some s =>
      let '(rb, b, _) := run_iter s net k (buffer e, backoff a) in
      with_backoff (with_engine a (with_buffer e rb)) b
  end.

Definition agent_step (a : agent W) (ev : agent_event W) : agent W :=
  let e := engine_of a in
  match ev with
  | Core ev =>
      with_core a (engine_step hex_sha256 unmarshal marshal (core a) ev) (analysed_by (core a) ev)
  | TokenUsed ev => with_engine a (token_used ev e)
  | MultiplexDetector rnd => with_engine a (multiplex_detector rnd e)
  | MultiplexProfiler rnd => with_engine a (multiplex_profiler rnd e)
  | FanOut => with_engine a (fanOutLoop enc e)
  | MitigatorListener r =>
      let '(e, w) := mitigatorListener r e (host a) in with_host (with_engine a e) w
  | AlertBridge =>
      let '(e, ch) := routerAlertBridge e (triggers a) in with_triggers (with_engine a e) ch
  | RouterListener ev =>
      let '(e, ch) := routerListener ev e (triggers a) in with_triggers (with_engine a e) ch
  | RollbackLoop n now unix rnd =>
      let '(e, w) := rollbackLoop n now unix rnd e (host a) in with_host (with_engine a e) w
  | ReconcileLoop n unix rnd => with_engine a (reconcileLoop n unix rnd e (host a))
  | SweepLoop n now => with_engine a (sweepLoop n now e)
  | AnalysisLoop n ck => with_engine a (analysisLoop n ck e)
  | GcLoops n tDet tProf => with_engine a (gcLoops n tDet tProf e)
  | MitigateEventLogger => with_engine a (mitigateEventLogger enc e)
  | RouterEventLogger => with_engine a (routerEventLogger enc e)
  | PolicyEventLogger => with_engine a (policyEventLogger enc e)
  | RollbackEventLogger => with_engine a (rollbackEventLogger enc e)
  | StreamerRun net k => streamer_run net k a
  | HostChange w => with_host a w
  end.

(** [New] and [Start]; the router's channel holds 64 triggers. *)
Definition agent_start (c : Config) (log_opens : bool) (w : W) : agent W :=
  {| core := {| eng := Start (New c log_opens); offered := []; received := [] |};
     triggers := make_chan 64; backoff := 0; host := w; analysed := [] |}.

Definition agent_run (c : Config) (log_opens : bool) (w : W) (evs : list (agent_event W)) : agent W :=
  foldl agent_step (agent_start c log_opens w) evs.

(** ** Stopping *)

(** [flushRingBuffer]: what is written to the standard output. *)
Definition flushRingBuffer (rb : RingBuffer) : RingBuffer * list string :=
  let '(entries, rb) := Drain 10000 rb in (rb, entries).

Definition stopping (m : UnifiedMetrics) : UnifiedMetrics :=
  {| EngineStatus := "STOPPING"; UptimeSeconds := UptimeSeconds m; LocalNodeID := LocalNodeID m;
     ActivePIDsCount := ActivePIDsCount m; Anomalies := Anomalies m; SelfCheck := SelfCheck m;
     Mitigations := Mitigations m; MRouter := MRouter m; MPolicy := MPolicy m;
     MRollback := MRollback m |}.

(** [Stop], when every goroutine but the streamer, which may be anywhere in its
    loop, returns at once: the figures say so, the detector and the profiler
    collect garbage once more (at [n], [tDet] and [tProf]), the streamer ends its
    loop ([fuel] bounds its rounds), and what is then in the buffer is printed. *)
Definition Stop (fuel : nat) (n : nat) (tDet tProf : Z) (net : nat → http_result) (k : nat)
    (e : ProfilerEngine) : option (ProfilerEngine * list string) :=
  let e := gcLoops n tDet tProf (with_metrics e (stopping <$> metricsPtr e)) in
  s ← streamer (pipeline e);
  '(rb, _) ← run_done fuel s net k (buffer e);
  let '(rb, printed) := flushRingBuffer rb in
  Some (with_buffer e rb, printed).

End run.

(** * Where interventions come from *)

(** The processes a snapshot names: those monitored, and those that use a GPU. *)
Definition pids_of (snap : Snapshot) : list Z :=
  (PPID <$> SnMonitoredProcesses snap) ++
  (GPID <$> mjoin (GRunningProcesses <$> SnGPUDevices snap)).

Definition alert_pid (a : Alerter.ConsolidatedAlert) : Z := Alerter.TargetPID (Alerter.Payload a).

Section known.

Variable K : Z → Prop.

Definition chan_known {A} (pid : A → Z) (ch : chan A) : Prop := Forall (λ x, K (pid x)) (chan_buf ch).

Lemma send_known {A} (pid : A → Z) x ch :
  K (pid x) → chan_known pid ch → chan_known pid (try_send x ch).1.
Proof. intros Hx Hch. by apply (try_send_Forall (λ y, K (pid y))). Qed.

Lemma recv_known {A} (pid : A → Z) ch :
  chan_known pid ch →
  chan_known pid (try_recv ch).2 ∧ ∀ x, (try_recv ch).1 = Some x → K (pid x).
Proof.
  intros Hch. split; [by apply try_recv_Forall|]. unfold chan_known, try_recv in *.
  destruct (chan_buf ch) as [|y l]; intros x; [done|]. intros [= <-].
  by apply Forall_cons in Hch as [].
Qed.

Record det_known (d : Detector.Detector) : Prop := {
  dk_alerts : chan_known Detector.ATargetPID (Detector.alerts d)
}.

Record prof_known (p : Profiler.Profiler) : Prop := {
  pk_histories : ∀ k, is_Some (Profiler.histories p !! k) → K k.1;
  pk_alerts : chan_known (λ a, Profiler.TargetPID (Profiler.AlertBody a)) (Profiler.alerts p)
}.

Record mux_known (am : Alerter.AlertMultiplexer) : Prop := {
  mk_internal : chan_known alert_pid (Alerter.internal am);
  mk_subs : Forall (chan_known alert_pid) (Alerter.subs am)
}.

Definition mit_known (m : Mitigator.Mitigator) : Prop :=
  ∀ t en, Mitigator.mledger m !! t = Some en → K (Mitigator.LPID en).

Definition reg_known (g : RouterRegistry.Registry) : Prop :=
  ∀ p, is_Some (RouterRegistry.entries g !! p) → K p.

Record engine_known (e : ProfilerEngine) : Prop := {
  ek_detector : ∀ d, detector e = Some d → det_known d;
  ek_profiler : ∀ p, profiler e = Some p → prof_known p;
  ek_alerter : mux_known (alerter e);
  ek_mitigator : ∀ m, mitigator e = Some m → mit_known m;
  ek_router : ∀ r, router e = Some r → reg_known (Router.reg r)
}.

(** ** The analysis *)

Lemma Ingest_det_known d ev tA tS tN :
  K (Detector.EvPID ev) → det_known d → det_known (Detector.Ingest d ev tA tS tN).1.
Proof.
  intros Hp [Hd]. split. unfold Detector.Ingest.
  destruct (Detector.isFrequent _ _ _); [|done].
  unfold Detector.analyze.
  repeat (case_match; simpl; try done); simplify_eq.
  all: apply send_known; done.
Qed.

(** An alert of the profiler names the process its history is about. *)
Lemma idle_alert_pid c pid g rh t a :
  Profiler.idle_alert c pid g rh t = Some a → Profiler.TargetPID (Profiler.AlertBody a) = pid.
Proof.
  unfold Profiler.idle_alert. intros Ha. cases_in Ha.
  destruct (last (Profiler.points rh)); [|done]. repeat (case_match; try done). by simplify_eq.
Qed.

Lemma leak_alert_pid c pid rh t a :
  Profiler.leak_alert c pid rh t = Some a → Profiler.TargetPID (Profiler.AlertBody a) = pid.
Proof.
  unfold Profiler.leak_alert. intros Ha. cases_in Ha. repeat (case_match; try done). by simplify_eq.
Qed.

Lemma set_history_known p k rh : K k.1 → prof_known p → prof_known (Profiler.set_history p k rh).
Proof.
  intros Hk [Hh Ha]. split; simpl; [|done]. intros j [rh' Hj].
  apply lookup_insert_Some in Hj as [[<- _]|[_ Hj]]; [done|]. apply Hh. by eexists.
Qed.

Lemma raise_known p k rh a t :
  K k.1 → (∀ x, a = Some x → K (Profiler.TargetPID (Profiler.AlertBody x))) →
  prof_known p → prof_known (Profiler.raise_alert p k rh a t).
Proof.
  intros Hk Ha Hp. destruct a as [a|]; [|done].
  destruct (set_history_known p k (Profiler.arm rh t) Hk Hp) as [Hh _]. split; [exact Hh|].
  simpl. apply (send_known (λ x, Profiler.TargetPID (Profiler.AlertBody x))); [by apply Ha|apply Hp].
Qed.

Lemma Ingest_prof_known p snap u ck hck :
  (∀ x, x ∈ pids_of snap → K x) → prof_known p →
  prof_known (Profiler.Ingest p (Some snap) u ck hck).
Proof.
  intros Hsnap Hp. unfold pids_of in Hsnap. unfold Profiler.Ingest. cbv zeta.
  apply foldl_inv_elem.
  - apply foldl_inv_elem; [done|]. intros q [i gpu] Hg Hq. apply foldl_inv_elem; [done|].
    intros q' [j gp] Hgp Hq'. apply elem_of_imap_pair in Hg, Hgp.
    assert (Hk : K (GPID gp)).
    { apply Hsnap, elem_of_app. right. apply list_elem_of_fmap_2, list_elem_of_join.
      exists (GRunningProcesses gpu). split; [done|]. by apply list_elem_of_fmap_2. }
    unfold Profiler.ingest_gpu, Profiler.checkGPUIdle.
    set (q1 := Profiler.set_history q' _ _).
    assert (Hq1 : prof_known q1) by by apply set_history_known.
    destruct (Profiler.histories q1 !! _); [|done]. apply raise_known; [done| |done].
    intros x Hx. by apply idle_alert_pid in Hx as ->.
  - intros q [j pm] Hpm Hq. apply elem_of_imap_pair in Hpm. apply set_history_known; [|done].
    apply Hsnap, elem_of_app. left. cbn [fst]. by apply list_elem_of_fmap_2.
Qed.

Lemma leaks_known `{MapRange} p n ck :
  prof_known p → prof_known (Profiler.runMemoryLeakAnalysis p n ck).
Proof.
  intros Hp. apply (foldl_inv prof_known); [done|]. intros q k Hq.
  destruct (negb _); [done|]. destruct (Profiler.histories q !! k) as [rh|] eqn:E; [|done].
  assert (Hk : K k.1) by (apply (pk_histories _ Hq); by eexists).
  apply raise_known; [done| |done]. intros x Hx. by apply leak_alert_pid in Hx as ->.
Qed.

Lemma prof_gc_known `{MapRange} p n now : prof_known p → prof_known (Profiler.runGC p n now).
Proof.
  intros [Hh Ha]. split; simpl; [|done]. intros k [rh Hk].
  rewrite delete_if_range in Hk. apply bind_Some in Hk as (x & Hx & _). apply Hh. by eexists.
Qed.

(** ** Alerts *)

Lemma route_known am alert rnd :
  K (alert_pid alert) → mux_known am → mux_known (Alerter.route am alert rnd).
Proof.
  intros Hk [Hi Hs]. unfold Alerter.route. destruct (Alerter.suppressed am alert); [done|].
  split; [|done]. simpl. by apply (send_known alert_pid).
Qed.

Lemma writeRingBuf_known marshal am alert :
  mux_known am → mux_known (Alerter.writeRingBuf marshal am alert).
Proof.
  intros [Hi Hs]. unfold Alerter.writeRingBuf.
  destruct (Alerter.ringBuf am), (marshal alert); by split.
Qed.

Lemma fanOut_known marshal am : mux_known am → mux_known (Alerter.fanOut marshal am).
Proof.
  intros Ham. unfold Alerter.fanOut. destruct (recv_known _ _ (mk_internal _ Ham)) as [Hi Ha].
  destruct (try_recv _) as [[alert|] ch]; [|done]. simpl in Hi, Ha. specialize (Ha alert eq_refl).
  destruct (writeRingBuf_known marshal (Alerter.writeConsole
    {| Alerter.cfg := Alerter.cfg am; Alerter.ringBuf := Alerter.ringBuf am;
       Alerter.console := Alerter.console am; Alerter.dedup := Alerter.dedup am;
       Alerter.internal := ch; Alerter.subs := Alerter.subs am |} alert) alert) as [Hi' Hs'];
    [split; [exact Hi|apply Ham]|].
  split; [exact Hi'|]. simpl. apply Forall_fmap. eapply Forall_impl; [exact Hs'|].
  intros c Hc. by apply send_known.
Qed.

Lemma take_alert_known i am :
  mux_known am →
  mux_known (take_alert i am).2 ∧ ∀ a, (take_alert i am).1 = Some a → K (alert_pid a).
Proof.
  intros [Hi Hs]. unfold take_alert. destruct (Alerter.subs am !! i) as [ch|] eqn:E; [|by split; [split|]].
  assert (Hch : chan_known alert_pid ch) by (by eapply Forall_lookup_1).
  apply recv_known in Hch as [Hch Ha]. destruct (try_recv ch) as [a ch']. simpl in *.
  split; [|exact Ha]. split; [exact Hi|]. simpl. by apply Forall_insert.
Qed.

(** ** Interventions *)

Lemma no_new_known m m' :
  Interventions.no_new_entries (Mitigator.mledger m) (Mitigator.mledger m') →
  mit_known m → mit_known m'.
Proof. intros Hn Hm t en Hen. destruct (Hn t en Hen) as (t0 & e & He & <-). by apply (Hm t0). Qed.

Lemma no_new_reg_known g g' : Interventions.no_new_remedies g g' → reg_known g → reg_known g'.
Proof. intros Hn Hg p Hp. apply Hg, Hn, Hp. Qed.

Lemma mitigate_known `{Host.Host W} m pol (w : W) alert r m' pol' w' :
  K (alert_pid alert) → mit_known m →
  Mitigator.mitigateFromAlert m pol w alert r = (m', pol', w') → mit_known m'.
Proof.
  intros Hk Hm Hr t en Hen.
  destruct (Interventions.mitigate_entries _ _ _ _ _ _ _ _ Hr t en Hen) as [-> | Hold]; [exact Hk|].
  by apply (Hm t).
Qed.

Lemma handle_known r pol alert ev :
  K (Router.AlertPID alert) → reg_known (Router.reg r) →
  reg_known (Router.reg (Router.handleAlert r pol alert ev).1).
Proof.
  intros Hk Hr p Hp. apply Interventions.handleAlert_entries in Hp as [-> | Hp]; [done|by apply Hr].
Qed.

Lemma checkExpired_known `{MapRange, Host.Host W} ctl (s : Rollback.plant) n now unix rnd :
  let s' := (Rollback.checkExpired ctl s n now unix rnd).2 in
  (mit_known (Rollback.mit s) → mit_known (Rollback.mit s')) ∧
  (reg_known (Rollback.rreg s) → reg_known (Rollback.rreg s')).
Proof.
  unfold Rollback.checkExpired. destruct (_ =? 0); [done|]. unfold Rollback.rollback_all.
  set (recs := PolicyLedger.ListExecutedExpired _ _ _).
  pose proof (Interventions.rollback_no_new s recs []) as [Hl Hg].
  destruct (foldl _ _ recs) as [s1 details]. simpl in Hl, Hg.
  assert (Hs : (if llen details =? 0 then (ctl, s1)
    else (Rollback.emitEvent ctl (Rollback.sync_event rnd unix (llen recs) false details), s1)).2 = s1)
    by (by destruct (_ =? 0)).
  rewrite Hs. split; [|by apply no_new_reg_known]. unfold mit_known. by rewrite Hl.
Qed.

(** ** The goroutines *)

Section goroutines.

Context `{MapRange, Host.Host W}.
Variable enc : encoders.

Lemma with_agg_known e a : engine_known e → engine_known (with_agg e a).
Proof. by intros [????]; split. Qed.

Lemma push_event_known data e : engine_known e → engine_known (push_event data e).
Proof. destruct data; [apply with_agg_known|done]. Qed.

Lemma with_logged_known e i t y : engine_known e → engine_known (with_logged e i t y).
Proof. by intros [????]; split. Qed.

Lemma with_alerter_known e am : mux_known am → engine_known e → engine_known (with_alerter e am).
Proof. by intros Ham [????]; split. Qed.

Lemma with_control_known e pol mit rou rol :
  (∀ m, mit = Some m → mit_known m) → (∀ r, rou = Some r → reg_known (Router.reg r)) →
  engine_known e → engine_known (with_control e pol mit rou rol).
Proof. by intros Hm Hr [????]; split. Qed.

Lemma with_analysis_known e prof det :
  (∀ p, prof = Some p → prof_known p) → (∀ d, det = Some d → det_known d) →
  engine_known e → engine_known (with_analysis e prof det).
Proof. by intros Hp Hd [????]; split. Qed.

Lemma loggers_known e :
  engine_known e →
  engine_known (mitigateEventLogger enc e) ∧ engine_known (routerEventLogger enc e) ∧
  engine_known (policyEventLogger enc e) ∧ engine_known (rollbackEventLogger enc e).
Proof.
  intros He. pose proof (ek_mitigator _ He) as Hm. pose proof (ek_router _ He) as Hr. split_and!.
  - unfold mitigateEventLogger, Mitigator.Events. destruct (mitigator e) as [m|] eqn:E; [|done].
    specialize (Hm m eq_refl). destruct (try_recv _) as [[evt|] ch]; [apply push_event_known, with_logged_known|];
      (apply with_control_known; [by intros ? [= <-]|done|done]).
  - unfold routerEventLogger, Router.Events. destruct (router e) as [r|] eqn:E; [|done].
    specialize (Hr r eq_refl). destruct (try_recv _) as [[evt|] ch]; [apply push_event_known, with_logged_known|];
      (apply with_control_known; [done|by intros ? [= <-]|done]).
  - unfold policyEventLogger. simpl. destruct (try_recv _).1; [apply push_event_known|];
      by apply with_control_known.
  - unfold rollbackEventLogger, Rollback.Events. destruct (rollback e) as [ctl|]; [|done].
    destruct (try_recv _) as [[evt|] ch]; [apply push_event_known, with_logged_known|];
      by apply with_control_known.
Qed.

Lemma multiplex_known rnd e :
  engine_known e →
  engine_known (multiplex_detector rnd e) ∧ engine_known (multiplex_profiler rnd e).
Proof.
  intros He. split.
  - unfold multiplex_detector. destruct (detector e) as [d|] eqn:E; [|done].
    destruct (recv_known _ _ (dk_alerts _ (ek_detector _ He d E))) as [Hch Ha].
    destruct (try_recv _) as [[a|] ch]; [|done]. apply with_alerter_known.
    + apply route_known; [by apply Ha|apply He].
    + apply with_analysis_known; [apply He| |done]. by intros ? [= <-].
  - unfold multiplex_profiler. destruct (profiler e) as [p|] eqn:E; [|done].
    pose proof (ek_profiler _ He p E) as Hp. destruct (recv_known _ _ (pk_alerts _ Hp)) as [Hch Ha].
    destruct (try_recv _) as [[a|] ch]; [|done]. apply with_alerter_known.
    + apply route_known; [by apply Ha|apply He].
    + apply with_analysis_known; [|apply He|done]. intros ? [= <-]. split; [apply Hp|exact Hch].
Qed.

Lemma fanOutLoop_known e : engine_known e → engine_known (fanOutLoop enc e).
Proof.
  intros He. apply with_agg_known, with_alerter_known; [|done]. apply fanOut_known.
  destruct (ek_alerter _ He). by split.
Qed.

Lemma mitigatorListener_known r e (w : W) :
  engine_known e → engine_known (mitigatorListener r e w).1.
Proof.
  intros He. unfold mitigatorListener. destruct (mitigator e) as [m|] eqn:E; [|done].
  destruct (take_alert_known 0 _ (ek_alerter _ He)) as [Ham Ha].
  destruct (take_alert 0 (alerter e)) as [[alert|] am]; [|done].
  destruct (Mitigator.mitigateFromAlert _ _ _ _ _) as [[m' pol] w'] eqn:Em. cbn [fst snd] in *.
  apply with_control_known; [|apply He|by apply with_alerter_known].
  intros ? [= <-]. eapply mitigate_known; [by apply Ha|by apply (ek_mitigator _ He)|exact Em].
Qed.

Lemma bridge_known e ch :
  engine_known e → chan_known Router.AlertPID ch →
  engine_known (routerAlertBridge e ch).1 ∧ chan_known Router.AlertPID (routerAlertBridge e ch).2.
Proof.
  intros He Hch. unfold routerAlertBridge. destruct (router e); [|done].
  destruct (take_alert_known (bridge_sub e) _ (ek_alerter _ He)) as [Ham Ha].
  destruct (take_alert _ _) as [[a|] am]; [|done]. cbn [fst snd] in *.
  split; [by apply with_alerter_known|]. apply send_known; [by apply Ha|done].
Qed.

Lemma routerListener_known ev e ch :
  engine_known e → chan_known Router.AlertPID ch →
  engine_known (routerListener ev e ch).1 ∧ chan_known Router.AlertPID (routerListener ev e ch).2.
Proof.
  intros He Hch. unfold routerListener. destruct (router e) as [r|] eqn:E; [|done].
  destruct (recv_known _ _ Hch) as [Hch' Ht]. destruct (try_recv ch) as [[t|] ch']; [|done].
  cbn [fst snd] in *. pose proof (handle_known r (Some (policy e)) t ev (Ht t eq_refl) (ek_router _ He r E)) as Hk.
  destruct (Router.handleAlert _ _ _ _) as [r' pol]. split; [|done].
  apply with_control_known; [apply He|by intros ? [= <-]|done].
Qed.

Lemma rollbackLoop_known n now unix rnd e (w : W) :
  engine_known e → engine_known (rollbackLoop n now unix rnd e w).1.
Proof.
  intros He. unfold rollbackLoop. destruct (rollback e) as [ctl|]; [|done].
  destruct (mitigator e) as [m|] eqn:E; [|done].
  pose proof (checkExpired_known ctl {| Rollback.mit := m; Rollback.rreg := registry e;
    Rollback.pol := policy e; Rollback.world := w |} n now unix rnd) as [Hm Hg].
  destruct (Rollback.checkExpired _ _ _ _ _ _) as [ctl' p]. cbn [fst snd] in *.
  apply with_control_known; [| |done].
  - intros ? [= <-]. by apply Hm, (ek_mitigator _ He).
  - intros r (r0 & Er & ->)%fmap_Some. apply Hg. unfold registry. rewrite Er. by apply (ek_router _ He).
Qed.

Lemma reconcileLoop_known n unix rnd e (w : W) :
  engine_known e → engine_known (reconcileLoop n unix rnd e w).
Proof.
  intros He. unfold reconcileLoop. destruct (rollback e) as [ctl|]; [|done].
  destruct (mitigator e) as [m|] eqn:E; [|done].
  pose proof (Interventions.reconcile_no_new ctl m w n unix rnd) as Hn.
  destruct (Rollback.reconcileOnce _ _ _ _ _ _) as [ctl' m']. simpl in Hn.
  apply with_control_known; [|apply He|done]. intros ? [= <-].
  by apply (no_new_known m), (ek_mitigator _ He).
Qed.

Lemma tickers_known n now tDet tProf ck e :
  engine_known e →
  engine_known (sweepLoop n now e) ∧ engine_known (analysisLoop n ck e) ∧
  engine_known (gcLoops n tDet tProf e).
Proof.
  intros He. split_and!.
  - apply with_control_known; [apply He|apply He|done].
  - apply with_analysis_known; [|apply He|done]. intros p (p0 & Hp & ->)%fmap_Some.
    by apply leaks_known, (ek_profiler _ He).
  - apply with_analysis_known; [| |done].
    + intros p (p0 & Hp & ->)%fmap_Some. by apply prof_gc_known, (ek_profiler _ He).
    + intros d (d0 & Hd & ->)%fmap_Some. destruct (ek_detector _ He d0 Hd). by split.
Qed.

Lemma route_snapshot_known unmarshal env data e :
  (∀ snap p, unmarshal data = Some snap → p ∈ pids_of snap → K p) →
  engine_known e → engine_known (route_snapshot unmarshal env data e).1.
Proof.
  intros Hsnap He. unfold route_snapshot. destruct (unmarshal data) as [snap|]; [|done].
  assert (Ha : engine_known (with_analysis e
    ((λ p, Profiler.Ingest p (Some snap) (re_unix env) (re_gpu env) (re_host env)) <$> profiler e)
    (feed_detector env snap <$> detector e))).
  { apply with_analysis_known; [| |done].
    - intros p (p0 & Hp & ->)%fmap_Some. apply Ingest_prof_known; [eauto|by apply (ek_profiler _ He)].
    - intros d (d0 & Hd & ->)%fmap_Some. apply (foldl_inv_elem det_known); [by apply (ek_detector _ He)|].
      intros d1 [i pm] Hpm%elem_of_imap_pair Hd1. destruct (re_det env i) as [[tA tS] tN].
      apply Ingest_det_known; [|done]. apply (Hsnap snap); [done|]. apply elem_of_app. left.
      by apply (list_elem_of_fmap_2 PPID). }
  destruct Ha. by split.
Qed.

End goroutines.
End known.

(** * Runs *)

(** What the goroutines outside the pipeline leave as it is: the snapshot
    channel and the streamer; the buffer keeps its size and stays well-formed. *)
Definition ring_kept (rb rb' : RingBuffer) : Prop :=
  ring_ok rb → ring_ok rb' ∧ maxBytes rb' = maxBytes rb.

Record pipeline_kept (e e' : ProfilerEngine) : Prop := {
  pk_snapshots : snapshotCh (agg (pipeline e')) = snapshotCh (agg (pipeline e));
  pk_streamer : streamer (pipeline e') = streamer (pipeline e);
  pk_ring : ring_kept (buffer e) (buffer e')
}.

Lemma pipeline_same e e' : pipeline e' = pipeline e → pipeline_kept e e'.
Proof. intros Hp. split; unfold buffer, ring_kept; rewrite Hp; auto. Qed.

Lemma pipeline_kept_trans e1 e2 e3 :
  pipeline_kept e1 e2 → pipeline_kept e2 e3 → pipeline_kept e1 e3.
Proof.
  intros [Hs1 Ht1 Hr1] [Hs2 Ht2 Hr2]. split; [congruence..|].
  intros Hok. destruct (Hr1 Hok) as [Hok1 <-]. by apply Hr2.
Qed.

Lemma with_buffer_kept e rb : ring_kept (buffer e) rb → pipeline_kept e (with_buffer e rb).
Proof. by split. Qed.

Lemma Push_kept data rb : ring_kept rb (Push data rb).
Proof.
  intros Hok. split; [by apply Push_ok|]. pose proof (Push_spec rb data Hok) as Hp.
  case_decide; [by rewrite Hp|]. by destruct Hp as (kept & -> & _).
Qed.

Lemma push_event_kept data e : pipeline_kept e (push_event data e).
Proof. destruct data; [apply with_buffer_kept, Push_kept|by apply pipeline_same]. Qed.

Lemma push_event_after data e e' :
  pipeline e' = pipeline e → pipeline_kept e (push_event data e').
Proof.
  intros Hp. eapply pipeline_kept_trans; [by apply pipeline_same|apply push_event_kept].
Qed.

Section runs.

Context `{MapRange, Host.Host W}.
Variable enc : encoders.
Variable hex_sha256 : string → string.
Variable unmarshal : string → option Snapshot.
Variable marshal : UpstreamPayload → option string.

Lemma loggers_kept e :
  pipeline_kept e (mitigateEventLogger enc e) ∧ pipeline_kept e (routerEventLogger enc e) ∧
  pipeline_kept e (policyEventLogger enc e) ∧ pipeline_kept e (rollbackEventLogger enc e).
Proof.
  unfold mitigateEventLogger, routerEventLogger, policyEventLogger, rollbackEventLogger,
    Mitigator.Events, Router.Events, Rollback.Events. simpl. split_and!.
  - destruct (mitigator e); [|by apply pipeline_same].
    destruct (try_recv _) as [[evt|] ch]; [by apply push_event_after|by apply pipeline_same].
  - destruct (router e); [|by apply pipeline_same].
    destruct (try_recv _) as [[evt|] ch]; [by apply push_event_after|by apply pipeline_same].
  - destruct (try_recv _).1; [by apply push_event_after|by apply pipeline_same].
  - destruct (rollback e); [|by apply pipeline_same].
    destruct (try_recv _) as [[evt|] ch]; [by apply push_event_after|by apply pipeline_same].
Qed.

Lemma fanOutLoop_kept e : pipeline_kept e (fanOutLoop enc e).
Proof.
  eapply (pipeline_kept_trans _ (with_alerter e _)); [by apply pipeline_same|].
  apply with_buffer_kept. change (buffer (with_alerter e _)) with (buffer e). unfold Alerter.fanOut.
  destruct (try_recv _) as [[alert|] ch]; [|by intros ?]. simpl.
  unfold Alerter.writeRingBuf. simpl. destruct (enc_alert enc alert); simpl; [apply Push_kept|by intros ?].
Qed.

(** The goroutines that do not touch the pipeline. *)
Lemma multiplex_same rnd e :
  pipeline (multiplex_detector rnd e) = pipeline e ∧ pipeline (multiplex_profiler rnd e) = pipeline e.
Proof.
  unfold multiplex_detector, multiplex_profiler. split.
  - destruct (detector e); [|done]. by destruct (try_recv _) as [[?|] ?].
  - destruct (profiler e); [|done]. by destruct (try_recv _) as [[?|] ?].
Qed.

Lemma mitigatorListener_same r e (w : W) : pipeline (mitigatorListener r e w).1 = pipeline e.
Proof.
  unfold mitigatorListener. destruct (mitigator e); [|done].
  destruct (take_alert _ _) as [[?|] ?]; [|done].
  by destruct (Mitigator.mitigateFromAlert _ _ _ _ _) as [[??]?].
Qed.

Lemma bridge_same e ch : pipeline (routerAlertBridge e ch).1 = pipeline e.
Proof.
  unfold routerAlertBridge. destruct (router e); [|done]. by destruct (take_alert _ _) as [[?|] ?].
Qed.

Lemma routerListener_same ev e ch : pipeline (routerListener ev e ch).1 = pipeline e.
Proof.
  unfold routerListener. destruct (router e); [|done]. destruct (try_recv _) as [[?|] ?]; [|done].
  by destruct (Router.handleAlert _ _ _ _).
Qed.

Lemma rollback_same n now unix rnd e (w : W) :
  pipeline (rollbackLoop n now unix rnd e w).1 = pipeline e ∧
  pipeline (reconcileLoop n unix rnd e w) = pipeline e.
Proof.
  unfold rollbackLoop, reconcileLoop. destruct (rollback e), (mitigator e); try done.
  destruct (Rollback.checkExpired _ _ _ _ _ _). by destruct (Rollback.reconcileOnce _ _ _ _ _ _).
Qed.

(** ** The streamer *)

Lemma with_entries_kept rb l : ring_ok (with_entries rb l) → ring_kept rb (with_entries rb l).
Proof. by split. Qed.

Lemma sendBatch_kept s c net k rb : ring_kept rb (sendBatch s c net k rb).1.1.
Proof.
  intros Hok. split.
  - pose proof (sendBatch_prefix s c net k rb Hok) as Hs.
    destruct (sendBatch s c net k rb) as [[rb' sent] err]. apply Hs.
  - unfold sendBatch. rewrite Drain_batch by done. destruct (_ =? 0); [done|].
    destruct (send_loop _ _ _ _ _) as [sent unsent]. simpl.
    apply (foldl_inv (λ rb', ring_ok rb' ∧ maxBytes rb' = maxBytes rb)).
    + split; [|done]. apply suffix_ok; [done|]. exists (batch s rb). by rewrite batch_backlog.
    + intros rb' d [Hok' <-]. by apply Push_kept.
Qed.

Lemma run_iter_kept s net k rb b : ring_kept rb (run_iter s net k (rb, b)).1.1.
Proof.
  unfold run_iter. destruct (Len rb =? 0); [by intros ?|].
  pose proof (sendBatch_kept s false net k rb) as Hs.
  destruct (sendBatch _ _ _ _ _) as [[rb' sent] err].
  destruct (err && _); simpl; exact Hs.
Qed.

Lemma aggregate_kept a : ring_kept (ringBuf a) (ringBuf (aggregate hex_sha256 unmarshal marshal a).1).
Proof.
  pose proof (aggregate_cases hex_sha256 unmarshal marshal a) as Ha.
  destruct (aggregate _ _ _ a) as [a' o]. destruct Ha as (_ & _ & Ha). simpl.
  destruct (chan_buf (snapshotCh a)).
  - by destruct Ha as [_ ->].
  - destruct Ha as [_ Ha]. destruct (unmarshal _); [|by destruct Ha as (_ & _ & ->)].
    destruct Ha as [_ Ha]. destruct (marshal _); destruct Ha as [_ ->]; [apply Push_kept|by intros ?].
Qed.

(** ** The invariant of runs *)

Definition known (a : agent W) (p : Z) : Prop := ∃ snap, snap ∈ analysed a ∧ p ∈ pids_of snap.

Record agent_inv (c : Config) (a : agent W) : Prop := {
  ai_known : engine_known (known a) (engine_of a);
  ai_triggers : chan_known (known a) Router.AlertPID (triggers a);
  ai_split : split_inv (core a);
  ai_analysed : ∀ snap, snap ∈ analysed a →
    ∃ data, (DataRouter, data) ∈ received (core a) ∧ unmarshal data = Some snap;
  ai_ring : ring_ok (buffer (engine_of a));
  ai_size : maxBytes (buffer (engine_of a)) =
    maxBytes (buffer (New c false));
  ai_streamer : streamer (pipeline (engine_of a)) =
    Some {| endpoint := UpstreamEndpoint c; batchSize := 100 |}
}.

(** Steps that keep the pipeline's share of the invariant. *)
Lemma with_engine_inv c a e :
  pipeline_kept (engine_of a) e → engine_known (known a) e →
  agent_inv c a → agent_inv c (with_engine a e).
Proof.
  intros [Hs Ht Hr] He Ha. destruct (Hr (ai_ring _ _ Ha)) as [Hok Hm]. split; simpl.
  - exact He.
  - apply Ha.
  - unfold split_inv, waiting. simpl. rewrite Hs. apply Ha.
  - apply Ha.
  - exact Hok.
  - exact (eq_trans Hm (ai_size _ _ Ha)).
  - exact (eq_trans Ht (ai_streamer _ _ Ha)).
Qed.

Lemma known_core K e :
  (∀ a c rb, engine_known K e → engine_known K (with_agg e (with_ring rb (with_snapshots c a)))).
Proof. intros a c rb [????]. by split. Qed.

Lemma engine_known_mono (K K' : Z → Prop) e :
  (∀ p, K p → K' p) → engine_known K e → engine_known K' e.
Proof.
  intros HK [Hd Hp [Hi Hs] Hm Hr].
  assert (Hc : ∀ A (pid : A → Z) ch, chan_known K pid ch → chan_known K' pid ch).
  { intros A pid ch Hch. eapply Forall_impl; [exact Hch|]. auto. }
  split.
  - intros d Ed. destruct (Hd d Ed). split. by apply Hc.
  - intros p Ep. destruct (Hp p Ep) as [Hh Ha]. split; [|by apply Hc]. intros k Hk. by apply HK, Hh.
  - split; [by apply Hc|]. eapply Forall_impl; [exact Hs|]. intros ch. apply Hc.
  - intros m Em t en Hen. by apply HK, (Hm m Em t).
  - intros r Er p Hp'. by apply HK, (Hr r Er).
Qed.

Lemma route_snapshot_same env data e : pipeline (route_snapshot unmarshal env data e).1 = pipeline e.
Proof. unfold route_snapshot. by destruct (unmarshal data). Qed.

(** What the engine's part of a step of the data router, the aggregator or the
    collector keeps, beside the snapshot channel. *)
Record core_kept (K : Z → Prop) (e e' : ProfilerEngine) : Prop := {
  ck_known : engine_known K e';
  ck_ring : ring_kept (buffer e) (buffer e');
  ck_streamer : streamer (pipeline e') = streamer (pipeline e)
}.

Lemma core_step_kept (K : Z → Prop) s ev :
  (∀ snap p, snap ∈ analysed_by unmarshal s ev → p ∈ pids_of snap → K p) →
  engine_known K (eng s) →
  core_kept K (eng s) (eng (engine_step hex_sha256 unmarshal marshal s ev)).
Proof.
  intros Hsnap He. destruct ev as [data|env|]; simpl in *.
  - destruct (try_send _ _) as [ch ok]. simpl. split; [by apply with_agg_known|by intros ?|done].
  - unfold dataRouter in *. destruct (try_recv _) as [[data|] ch]; simpl in *; [|split; [done|by intros ?|done]].
    set (e1 := with_agg _ _) in *.
    pose proof (route_snapshot_same env data e1) as Hp.
    pose proof (route_snapshot_known K unmarshal env data e1) as Hk.
    assert (Hres : (route_snapshot unmarshal env data e1).2 = unmarshal data)
      by (unfold route_snapshot; by destruct (unmarshal data)).
    destruct (route_snapshot unmarshal env data e1) as [e2 got]. simpl in *. subst got. split.
    + apply Hk; [|by apply with_agg_known]. intros snap p Hu. rewrite Hu in Hsnap. apply Hsnap. by left.
    + unfold buffer. rewrite Hp. by intros ?.
    + by rewrite Hp.
  - pose proof (aggregate_kept (agg (pipeline (eng s)))) as Hk.
    destruct (aggregate _ _ _ _) as [a' o]. simpl in *. split; [by apply with_agg_known|exact Hk|done].
Qed.

(** The data router is the only one to add to the snapshots analysed, and the
    log says what it decoded. *)
Lemma core_step_analysed s ev snap :
  (∀ d, d ∈ received s → d ∈ received (engine_step hex_sha256 unmarshal marshal s ev)) ∧
  (snap ∈ analysed_by unmarshal s ev →
   ∃ data, (DataRouter, data) ∈ received (engine_step hex_sha256 unmarshal marshal s ev) ∧
     unmarshal data = Some snap).
Proof.
  destruct ev as [data|env|]; simpl.
  - destruct (try_send _ _) as [ch ok]. split; [done|by intros ?%elem_of_nil].
  - pose proof (dataRouter_received unmarshal env (eng s)) as Hr. cbv zeta in Hr.
    destruct (dataRouter unmarshal env (eng s)) as [e' got].
    destruct (chan_buf _) as [|data rest]; [by destruct Hr as [-> _]; split; [|intros ?%elem_of_nil]|].
    destruct Hr as [-> _]. simpl. split; [intros d Hd; apply elem_of_app; by left|].
    destruct (unmarshal data) as [snap'|] eqn:Eu; [|by intros ?%elem_of_nil].
    intros ->%list_elem_of_singleton. exists data. split; [apply elem_of_app; right; by left|done].
  - destruct (aggregate _ _ _ _) as [a' o]. simpl. split; [|by intros ?%elem_of_nil].
    intros d Hd. destruct (head _); [apply elem_of_app; by left|done].
Qed.

Lemma core_step_inv c a ev :
  agent_inv c a → agent_inv c (agent_step enc hex_sha256 unmarshal marshal a (Core ev)).
Proof.
  intros Ha. set (a' := agent_step _ _ _ _ a (Core ev)).
  assert (Hmono : ∀ p, known a p → known a' p).
  { intros p (snap & Hin & Hp). exists snap. split; [apply elem_of_app; by left|done]. }
  destruct (core_step_kept (known a') (core a) ev) as [Hk Hr Ht].
  - intros snap p Hin Hp. exists snap. split; [apply elem_of_app; by right|done].
  - eapply engine_known_mono; [exact Hmono|apply Ha].
  - destruct (Hr (ai_ring _ _ Ha)) as [Hok Hm]. split; [exact Hk| | | |exact Hok| |].
    + eapply Forall_impl; [apply Ha|]. intros x. apply Hmono.
    + apply engine_step_split, Ha.
    + intros snap [Hin|Hin]%elem_of_app.
      * destruct (ai_analysed _ _ Ha snap Hin) as (data & Hd & Hu). exists data.
        split; [by apply (core_step_analysed (core a) ev snap)|done].
      * by apply core_step_analysed.
    + exact (eq_trans Hm (ai_size _ _ Ha)).
    + exact (eq_trans Ht (ai_streamer _ _ Ha)).
Qed.

Lemma with_rest_inv c a ch b w :
  chan_known (known a) Router.AlertPID ch → agent_inv c a →
  agent_inv c {| core := core a; triggers := ch; backoff := b; host := w; analysed := analysed a |}.
Proof. by intros Hch []; split. Qed.

Abbreviation step := (agent_step enc hex_sha256 unmarshal marshal).

Lemma same_engine_inv c a e :
  pipeline e = pipeline (engine_of a) → engine_known (known a) e →
  agent_inv c a → agent_inv c (with_engine a e).
Proof. intros Hp. by apply with_engine_inv, pipeline_same. Qed.

Lemma agent_step_inv c a ev : agent_inv c a → agent_inv c (step a ev).
Proof.
  intros Ha. pose proof (ai_known _ _ Ha) as He. pose proof (ai_triggers _ _ Ha) as Htr.
  destruct ev as [ev|ev|rnd|rnd| |r| |ev|n now unix rnd|n unix rnd|n now|n ck|n tDet tProf
    | | | | |net k|w]; [by apply core_step_inv|simpl..].
  - apply with_engine_inv; [by split; [| |intros ?]|by apply with_agg_known|done].
  - apply same_engine_inv; [apply multiplex_same|by apply multiplex_known|done].
  - apply same_engine_inv; [apply multiplex_same|by apply multiplex_known|done].
  - apply with_engine_inv; [apply fanOutLoop_kept|by apply fanOutLoop_known|done].
  - pose proof (mitigatorListener_same r (engine_of a) (host a)) as Hp.
    pose proof (mitigatorListener_known _ r (engine_of a) (host a) He) as Hk.
    destruct (mitigatorListener _ _ _) as [e w]. by apply with_rest_inv, same_engine_inv.
  - pose proof (bridge_same (engine_of a) (triggers a)) as Hp.
    pose proof (bridge_known _ (engine_of a) (triggers a) He Htr) as [Hk Hch].
    destruct (routerAlertBridge _ _) as [e ch]. by apply with_rest_inv; [|apply same_engine_inv].
  - pose proof (routerListener_same ev (engine_of a) (triggers a)) as Hp.
    pose proof (routerListener_known _ ev (engine_of a) (triggers a) He Htr) as [Hk Hch].
    destruct (routerListener _ _ _) as [e ch]. by apply with_rest_inv; [|apply same_engine_inv].
  - pose proof (rollback_same n now unix rnd (engine_of a) (host a)) as [Hp _].
    pose proof (rollbackLoop_known _ n now unix rnd (engine_of a) (host a) He) as Hk.
    destruct (rollbackLoop _ _ _ _ _ _) as [e w]. by apply with_rest_inv, same_engine_inv.
  - apply same_engine_inv; [by apply (rollback_same n 0)|by apply reconcileLoop_known|done].
  - apply same_engine_inv; [done|by apply (tickers_known _ n now 0 0 (λ _, no_clock))|done].
  - apply same_engine_inv; [done|by apply (tickers_known _ n 0 0 0 ck)|done].
  - apply same_engine_inv; [done|by apply (tickers_known _ n 0 tDet tProf (λ _, no_clock))|done].
  - apply with_engine_inv; [apply loggers_kept|by apply loggers_known|done].
  - apply with_engine_inv; [apply loggers_kept|by apply loggers_known|done].
  - apply with_engine_inv; [apply loggers_kept|by apply loggers_known|done].
  - apply with_engine_inv; [apply loggers_kept|by apply loggers_known|done].
  - unfold streamer_run. rewrite (ai_streamer _ _ Ha).
    match goal with |- context [run_iter ?s net k ?st] =>
      pose proof (run_iter_kept s net k (buffer (engine_of a)) (backoff a)) as Hr;
      destruct (run_iter s net k st) as [[rb b] waited] end.
    apply with_rest_inv; [done|]. apply with_engine_inv; [by apply with_buffer_kept|by apply with_agg_known|done].
  - by apply with_rest_inv.
Qed.

Lemma agent_start_inv c log_opens (w : W) : agent_inv c (agent_start c log_opens w).
Proof.
  split; try done.
  - unfold agent_start, engine_of, Start, New. simpl. split; simpl.
    + intros d Hd. destruct (DetectorEnabled c); simplify_eq. split. apply Forall_nil_2.
    + intros p Hp. destruct (ProfilerEnabled c); simplify_eq. split; [|apply Forall_nil_2].
      intros k [rh Hk]. by apply (lookup_empty_Some (M:=gmap (Z * string)) k rh) in Hk.
    + split; [by destruct (MitigationEnabled c), (RouterEnabled c); apply Forall_nil_2|].
      destruct (MitigationEnabled c), (RouterEnabled c); repeat constructor.
    + intros m Hm. destruct (MitigationEnabled c); simplify_eq. intros t en Hen.
      by apply (lookup_empty_Some (M:=gmap string) t en) in Hen.
    + intros r Hr. destruct (RouterEnabled c); simplify_eq. intros p [st Hp].
      by apply (lookup_empty_Some (M:=gmap Z) p st) in Hp.
  - apply Forall_nil_2.
  - by intros snap ?%elem_of_nil.
  - apply NewRingBuffer_ok.
Qed.

Lemma agent_run_inv c log_opens (w : W) evs :
  agent_inv c (agent_run enc hex_sha256 unmarshal marshal c log_opens w evs).
Proof.
  apply (foldl_inv (agent_inv c)); [apply agent_start_inv|]. intros a ev. apply agent_step_inv.
Qed.

End runs.

(** * The agent implements the system of interventions

    The clock of a run is the latest reading of the policy engine's operations. *)

Section refines.

Context `{MapRange, Host.Host W}.
Variable enc : encoders.
Variable hex_sha256 : string → string.
Variable unmarshal : string → option Snapshot.
Variable marshal : UpstreamPayload → option string.

Definition fresh_id (e : ProfilerEngine) (rnd : string) : Prop :=
  PolicyLedger.records (PolicyEngine.ledger (policy e)) !! PolicyLedger.generateTxID rnd = None.

(** Readings do not run backwards, random ids are new, and the ledger is within
    its capacity when it is swept. *)
Definition admissible (a : agent W) (t : Z) (ev : agent_event W) : Prop :=
  let e := engine_of a in
  match ev with
  | MitigatorListener r =>
      t <= Mitigator.tPolicy1 r <= Mitigator.tPolicy2 r ∧ fresh_id e (Mitigator.rndTx r)
  | RouterListener ev => t <= Router.tp1 ev <= Router.tp2 ev ∧ fresh_id e (Router.rndTx ev)
  | RollbackLoop _ now _ _ => t <= now
  | SweepLoop _ now =>
      let l := PolicyEngine.ledger (policy e) in
      t <= now ∧ PolicyLedger.Count l <= PolicyLedger.maxEntries l
  | _ => True
  end.

Definition clock_after (t : Z) (ev : agent_event W) : Z :=
  match ev with
  | MitigatorListener r => Mitigator.tPolicy2 r
  | RouterListener ev => Router.tp2 ev
  | SweepLoop _ now => now
  | _ => t
  end.

Inductive timed_run (c : Config) (log_opens : bool) (w : W) (t0 : Z) : agent W → Z → Prop :=
  | timed_start : timed_run c log_opens w t0 (agent_start c log_opens w) t0
  | timed_step a t ev :
      timed_run c log_opens w t0 a t → admissible a t ev →
      timed_run c log_opens w t0 (agent_step enc hex_sha256 unmarshal marshal a ev) (clock_after t ev).

(** The agent's components are those of the system. *)
Record represents (a : agent W) (t : Z) (s : Interventions.system W) : Prop := {
  rp_mit : mitigator (engine_of a) = Some (Interventions.smit s);
  rp_router : router (engine_of a) = Some (Interventions.srouter s);
  rp_ctl : rollback (engine_of a) = Some (Interventions.sctl s);
  rp_pol : policy (engine_of a) = Interventions.spol s;
  rp_world : host a = Interventions.sworld s;
  rp_now : Interventions.snow s <= t
}.

Lemma start_represents c log_opens (w : W) t0 :
  MitigationEnabled c = true → RouterEnabled c = true →
  represents (agent_start c log_opens w) t0
    (Interventions.start (policyConfig c) (mitigatorConfig c) (routerConfig c) (rollbackConfig c) w t0).
Proof.
  intros Hm Hr. unfold agent_start, engine_of, Start, New. simpl. rewrite Hm, Hr. by split.
Qed.

(** A step that leaves the components alone. *)
Lemma represents_same a a' t s :
  mitigator (engine_of a') = mitigator (engine_of a) → router (engine_of a') = router (engine_of a) →
  rollback (engine_of a') = rollback (engine_of a) → policy (engine_of a') = policy (engine_of a) →
  host a' = host a → represents a t s → represents a' t s.
Proof. intros Em Er Ec Ep Eh [????? ?]. split; congruence. Qed.

(** ** One step *)

Abbreviation step := (agent_step enc hex_sha256 unmarshal marshal).

Lemma core_components s ev :
  let e' := eng (engine_step hex_sha256 unmarshal marshal s ev) in
  mitigator e' = mitigator (eng s) ∧ router e' = router (eng s) ∧
  rollback e' = rollback (eng s) ∧ policy e' = policy (eng s).
Proof.
  destruct ev as [data|env|]; simpl.
  - by destruct (try_send _ _).
  - unfold dataRouter. destruct (try_recv _) as [[data|] ch]; [|done]. unfold route_snapshot.
    by destruct (unmarshal data).
  - by destruct (aggregate _ _ _ _).
Qed.

(** The steps that are none of the interventions'. *)
Definition apart (ev : agent_event W) : Prop :=
  match ev with
  | Core _ | TokenUsed _ | MultiplexDetector _ | MultiplexProfiler _ | FanOut | AlertBridge
  | AnalysisLoop _ _ | GcLoops _ _ _ | StreamerRun _ _ => True
  | _ => False
  end.

Lemma apart_represents a t s ev : apart ev → represents a t s → represents (step a ev) t s.
Proof.
  intros Hev. destruct ev; try done; simpl; apply represents_same; try done; simpl.
  all: try apply core_components.
  all: unfold multiplex_detector, multiplex_profiler, routerAlertBridge, streamer_run, engine_of; simpl.
  all: repeat (case_match; simplify_eq/=; try done).
Qed.

Lemma mitigate_some m e (w : W) alert r :
  ∃ m' e' w', Mitigator.mitigateFromAlert m (Some e) w alert r = (m', Some e', w').
Proof.
  unfold Mitigator.mitigateFromAlert.
  destruct (PolicyEngine.EvaluateAndRegister _ _ _ _ _ _) as [[[e1 ok] txID] evt].
  destruct ok; simpl; [|by do 3 eexists].
  destruct (Mitigator.freeze_target _ _ _ _) as [[[mech err] m1] w1]. by do 3 eexists.
Qed.

Lemma handle_some r e alert ev :
  ∃ r' e', Router.handleAlert r (Some e) alert ev = (r', Some e').
Proof.
  unfold Router.handleAlert. destruct (bool_decide _); [by do 2 eexists|].
  destruct (PolicyEngine.EvaluateAndRegister _ _ _ _ _ _) as [[[e1 ok] txID] evt].
  destruct ok; simpl; by do 2 eexists.
Qed.

Variable J : Router.Codec.

Abbreviation steps := (rtc (Interventions.system_step J)).

Lemma later_represents a t t' s : t <= t' → represents a t s → represents a t' s.
Proof. intros Ht []. split; try done. lia. Qed.

Lemma mitigator_represents a t s r :
  represents a t s → admissible a t (MitigatorListener r) →
  ∃ s', steps s s' ∧ represents (step a (MitigatorListener r)) (Mitigator.tPolicy2 r) s'.
Proof.
  intros Hr [Ht Hf]. simpl. unfold mitigatorListener. rewrite (rp_mit _ _ _ Hr).
  assert (Hl : represents a (Mitigator.tPolicy2 r) s) by (apply (later_represents a t); [lia|done]).
  destruct (take_alert 0 _) as [[alert|] am]; [|exists s; split; [done|by apply represents_same with a]].
  destruct (mitigate_some (Interventions.smit s) (policy (engine_of a)) (host a) alert r)
    as (m' & e' & w' & Hm). rewrite Hm. eexists. split.
  - apply rtc_once. apply (Interventions.sys_mitigate J s alert r m' e' w').
    + pose proof (rp_now _ _ _ Hr). lia.
    + rewrite <- (rp_pol _ _ _ Hr). exact Hf.
    + rewrite <- (rp_pol _ _ _ Hr), <- (rp_world _ _ _ Hr). exact Hm.
  - destruct Hr. by split.
Qed.

Lemma router_represents a t s ev :
  represents a t s → admissible a t (RouterListener ev) →
  ∃ s', steps s s' ∧ represents (step a (RouterListener ev)) (Router.tp2 ev) s'.
Proof.
  intros Hr [Ht Hf]. simpl. unfold routerListener. rewrite (rp_router _ _ _ Hr).
  assert (Hl : represents a (Router.tp2 ev) s) by (apply (later_represents a t); [lia|done]).
  destruct (try_recv _) as [[trigger|] ch]; [|exists s; split; [done|by apply represents_same with a]].
  destruct (handle_some (Interventions.srouter s) (policy (engine_of a)) trigger ev)
    as (r' & e' & Hh). rewrite Hh. eexists. split.
  - apply rtc_once. apply (Interventions.sys_route J s trigger ev r' e').
    + pose proof (rp_now _ _ _ Hr). lia.
    + rewrite <- (rp_pol _ _ _ Hr). exact Hf.
    + rewrite <- (rp_pol _ _ _ Hr). exact Hh.
  - destruct Hr. by split.
Qed.

Lemma rollback_represents a t s n now unix rnd :
  represents a t s → t <= now →
  ∃ s', steps s s' ∧ represents (step a (RollbackLoop n now unix rnd)) t s'.
Proof.
  intros Hr Ht. simpl. unfold rollbackLoop, registry.
  rewrite (rp_ctl _ _ _ Hr), (rp_mit _ _ _ Hr), (rp_router _ _ _ Hr), (rp_pol _ _ _ Hr),
    (rp_world _ _ _ Hr).
  change {| Rollback.mit := Interventions.smit s |} with (Interventions.plant_of s).
  destruct (Rollback.checkExpired _ _ _ _ _ _) as [ctl' p'] eqn:E. eexists. split.
  - apply rtc_once. eapply (Interventions.sys_rollback J s n now unix rnd ctl' p'); [|exact E].
    pose proof (rp_now _ _ _ Hr). lia.
  - destruct Hr. by split.
Qed.

Lemma logger_represents a t s ev :
  match ev with
  | MitigateEventLogger | RouterEventLogger | PolicyEventLogger | RollbackEventLogger => True
  | _ => False
  end →
  represents a t s → ∃ s', steps s s' ∧ represents (step a ev) t s'.
Proof.
  intros Hev [Em Er Ec Ep Eh Et]. destruct ev; try done; simpl.
  - eexists. split; [apply rtc_once, (Interventions.sys_log_mitigator J s)|].
    unfold mitigateEventLogger. rewrite Em. unfold Mitigator.Events.
    destruct (try_recv _) as [[evt|] ch]; [destruct (enc_mitigation enc evt)|]; by split.
  - eexists. split; [apply rtc_once, (Interventions.sys_log_router J s)|].
    unfold routerEventLogger. rewrite Er. unfold Router.Events.
    destruct (try_recv _) as [[evt|] ch]; [destruct (enc_router enc evt)|]; by split.
  - eexists. split; [apply rtc_once, (Interventions.sys_log_policy J s)|].
    unfold policyEventLogger. rewrite Ep. simpl.
    destruct (try_recv _) as [[evt|] ch]; simpl; [destruct (enc_policy enc evt)|]; by split.
  - eexists. split; [apply rtc_once, (Interventions.sys_log_rollback J s)|].
    unfold rollbackEventLogger. rewrite Ec. unfold Rollback.Events.
    destruct (try_recv _) as [[evt|] ch]; [destruct (enc_sync enc evt)|]; by split.
Qed.

Lemma step_represents a t s ev :
  represents a t s → admissible a t ev →
  ∃ s', steps s s' ∧ represents (step a ev) (clock_after t ev) s'.
Proof.
  intros Hr Hadm.
  destruct ev as [ev|ev|rnd|rnd| |r| |ev|n now unix rnd|n unix rnd|n now|n ck|n tDet tProf
    | | | | |net k|w];
    try (exists s; split; [done|by apply apart_represents]);
    try (by apply logger_represents).
  - by apply (mitigator_represents a t).
  - by apply (router_represents a t).
  - by apply rollback_represents.
  - simpl. unfold reconcileLoop. rewrite (rp_ctl _ _ _ Hr), (rp_mit _ _ _ Hr), (rp_world _ _ _ Hr).
    destruct (Rollback.reconcileOnce _ _ _ _ _ _) as [ctl' m'] eqn:E. eexists.
    split; [by eapply rtc_once, (Interventions.sys_reconcile J s)|]. destruct Hr. by split.
  - destruct Hadm as [Ht Hc]. rewrite (rp_pol _ _ _ Hr) in Hc. eexists. split.
    + apply rtc_once, (Interventions.sys_sweep J s n now); [|exact Hc].
      pose proof (rp_now _ _ _ Hr). lia.
    + destruct Hr as [Em Er Ec Ep Eh Et]. split; try done; simpl. by rewrite Ep.
  - eexists. split; [apply rtc_once, (Interventions.sys_host J s w)|]. destruct Hr. by split.
Qed.

Lemma timed_represents c log_opens (w : W) t0 a t :
  MitigationEnabled c = true → RouterEnabled c = true → timed_run c log_opens w t0 a t →
  ∃ s, steps (Interventions.start (policyConfig c) (mitigatorConfig c) (routerConfig c)
         (rollbackConfig c) w t0) s ∧ represents a t s.
Proof.
  intros Hm Hr. induction 1 as [|a t ev _ (s & Hs & Hrep) Hadm].
  - eexists. split; [done|by apply start_represents].
  - destruct (step_represents a t s ev Hrep Hadm) as (s' & Hs' & Hrep').
    exists s'. split; [by etransitivity|done].
Qed.

End refines.

(** * Theorems *)

(** C3: every intervention goes back to telemetry.  In every run of the agent,
    whatever the order in which its goroutines run and whatever the host does,
    each mitigation on record and each process the router holds a remedy for is
    a process named, as monitored or as using a GPU, by a snapshot that the
    collector offered and the data router received and decoded. *)
Theorem interventions_traced `{MapRange, Host.Host W} enc hex_sha256 unmarshal marshal c log_opens
    (w : W) evs :
  let a := agent_run enc hex_sha256 unmarshal marshal c log_opens w evs in
  let observed pid := ∃ data snap, data ∈ offered (core a) ∧ (DataRouter, data) ∈ received (core a) ∧
    unmarshal data = Some snap ∧ pid ∈ pids_of snap in
  (∀ m token entry, mitigator (engine_of a) = Some m →
     Mitigator.mledger m !! token = Some entry → observed (Mitigator.LPID entry)) ∧
  (∀ r pid state, router (engine_of a) = Some r →
     RouterRegistry.entries (Router.reg r) !! pid = Some state → observed pid).
Proof.
  intros a observed.
  destruct (agent_run_inv enc hex_sha256 unmarshal marshal c log_opens w evs)
    as [Hk _ Hsplit Han _ _ _]. fold a in Hk, Hsplit, Han.
  assert (Hobs : ∀ p, known a p → observed p).
  { intros p (snap & Hin & Hp). destruct (Han snap Hin) as (data & Hd & Hu).
    exists data, snap. split_and!; try done. rewrite <- Hsplit. apply elem_of_app. left.
    by apply (list_elem_of_fmap_2 snd) in Hd. }
  split.
  - intros m token entry Hm Hen. apply Hobs. by apply (ek_mitigator _ _ Hk m Hm token).
  - intros r pid state Hr Hp. apply Hobs, (ek_router _ _ Hk r Hr). by eexists.
Qed.



(** ** A run: five snapshots of one process freeze it *)

Definition busy_snapshot (t : Z) : Snapshot := {|
  SnTimestamp := t;
  SnHostMetrics := SnHostMetrics sample_snapshot;
  SnMonitoredProcesses := [{| PPID := 4321; PContainerID := ""; PProcessName := "sleep";
    PCPUUsagePct := f_zero; PRSSBytes := 1; PVSizeBytes := 1 |}];
  SnGPUDevices := [] |}.

Definition sample_encoders : encoders := {|
  enc_alert := λ _, Some "alert"%string; enc_mitigation := λ _, Some "mitigation"%string;
  enc_router := λ _, Some "router"%string; enc_policy := λ _, Some "policy"%string;
  enc_sync := λ _, Some "sync"%string |}.

(** The time of a snapshot is the length of its encoding. *)
Definition sample_unmarshal (data : string) : option Snapshot := Some (busy_snapshot (slen data)).

Definition sample_detection : list (agent_event (gset Z)) :=
  mjoin ((λ data, [Core (Collected data); Core (Routed (sample_env (slen data)))]) <$>
    ["1"; "11"; "111"; "1111"; "11111"]%string) ++ [MultiplexDetector "x"; FanOut].

Definition sample_agent_events : list (agent_event (gset Z)) :=
  sample_detection ++ [MitigatorListener Mitigator.sample_readings] ++
  [MitigateEventLogger; PolicyEventLogger].

Definition sample_config : Config :=
  apply_env (λ k, if streq k "PROFILER_MITIGATION_ENABLED" || streq k "PROFILER_ROUTER_ENABLED"
                  then "true" else "")%string (DefaultConfig "h").

Abbreviation sample_agent_run :=
  (agent_run sample_encoders id sample_unmarshal (λ _, Some "p"%string) sample_config false
    (∅ : gset Z) sample_agent_events).

Lemma sample_agent_frozen : host sample_agent_run = {[4321]}.
Proof. vm_compute. reflexivity. Qed.

Lemma sample_mitigation :
  ∃ m entry, mitigator (engine_of sample_agent_run) = Some m ∧
    Mitigator.mledger m !! Mitigator.generateRevToken "b" = Some entry ∧
    Mitigator.LPID entry = 4321.
Proof.
  destruct (mitigator (engine_of sample_agent_run)) as [m|] eqn:E; [|vm_compute in E; done].
  exists m. destruct (Mitigator.mledger m !! _) as [entry|] eqn:El; [exists entry|].
  - split_and!; [done..|]. vm_compute in E. injection E as <-. vm_compute in El.
    injection El as <-. reflexivity.
  - vm_compute in E. injection E as <-. vm_compute in El. done.
Qed.

Lemma interventions_traced_witness :
  ∃ data snap, data ∈ offered (core sample_agent_run) ∧
    (DataRouter, data) ∈ received (core sample_agent_run) ∧
    sample_unmarshal data = Some snap ∧ 4321 ∈ pids_of snap.
Proof.
  destruct sample_mitigation as (m & entry & Hm & He & Hp). rewrite <- Hp.
  destruct (interventions_traced sample_encoders id sample_unmarshal (λ _, Some "p"%string)
    sample_config false (∅ : gset Z) sample_agent_events) as [Hobs _].
  exact (Hobs m (Mitigator.generateRevToken "b") entry Hm He).
Defined.

Lemma sample_payloads : entries (buffer (engine_of sample_agent_run)) = ["alert"; "mitigation"; "policy"]%string.
Proof. vm_compute. reflexivity. Qed.


Abbreviation sample_timed_run :=
  (timed_run sample_encoders id sample_unmarshal (λ _, Some "p"%string) sample_config false
    (∅ : gset Z) 0).

(** Events without readings of the policy engine's clock. *)
Definition untimed (ev : agent_event (gset Z)) : Prop :=
  match ev with
  | MitigatorListener _ | RouterListener _ | RollbackLoop _ _ _ _ | SweepLoop _ _ => False
  | _ => True
  end.

Lemma untimed_run evs a t :
  sample_timed_run a t → Forall untimed evs →
  sample_timed_run
    (foldl (agent_step sample_encoders id sample_unmarshal (λ _, Some "p"%string)) a evs) t.
Proof.
  revert a. induction evs as [|ev evs IH]; intros a Ha Hevs; [done|].
  apply Forall_cons in Hevs as [Hev Hevs]. cbn [foldl]. apply IH; [|done].
  assert (t = clock_after t ev) as -> by (by destruct ev). apply timed_step; [done|]. by destruct ev.
Qed.

Lemma sample_timed : sample_timed_run sample_agent_run 0.
Proof.
  unfold agent_run, sample_agent_events. rewrite !foldl_app.
  apply untimed_run; [|by repeat constructor].
  set (a := foldl _ _ sample_detection). change 0 with (clock_after (W:=gset Z) 0
    (MitigatorListener Mitigator.sample_readings)) at 2.
  apply timed_step; [|split; [done|vm_compute; reflexivity]].
  apply untimed_run; [constructor|by repeat constructor].
Qed.

