(* ===== verification/Main.v ===== *)
(** The entry point ([cmd/agent]): subcommands, the flags of [run], loading the
    configuration, and what the log shows of the token.

    Reading and decoding the configuration file are arguments, as in
    [AgentConfig]. *)

From S2P Require Import Prelude GoStrings.
From S2P Require AgentConfig AgentEngine Collector Ebpf Gpu Model.

(** * Flags

    [flag.FlagSet.Parse] for the only flag of [run], a string. *)
Inductive flag_error :=
  | ErrHelp
  | BadSyntax (arg : string)
  | NotDefined (name : string)
  | NeedsArgument (name : string).

(** The part of an argument after its dashes, or [None] where flags end. *)
Definition flag_body (s : string) : option string :=
  match s with
  | String a (String b rest) =>
      if negb (Ascii.eqb a "-") then None
      else if Ascii.eqb b "-" then (if streq rest "" then None else Some rest)
      else Some (String b rest)
  | _ => None
  end.

(** The name and the value, cut at the first [=] behind the first byte. *)
Definition cut_value (body : string) : string * option string :=
  match body with
  | String c rest =>
      match index_byte rest "=" with
      | Some i => (String c (stake i rest), Some (sdrop (S i) rest))
      | None => (body, None)
      end
  | EmptyString => (body, None)
  end.

Definition starts_badly (body : string) : bool := has_prefix body "-" || has_prefix body "=".

(** The value of [-config] after all flags; the other arguments are ignored. *)
Fixpoint parse_flags (args : list string) (config : string) : flag_error + string :=
  match args with
  | [] => inr config
  | s :: args =>
      match flag_body s with
      | None => inr config
      | Some body =>
          if starts_badly body then inl (BadSyntax s)
          else
            let '(name, value) := cut_value body in
            if negb (streq name "config") then
              inl (if streq name "help" || streq name "h" then ErrHelp else NotDefined name)
            else
              match value with
              | Some v => parse_flags args v
              | None =>
                  match args with
                  | v :: args => parse_flags args v
                  | [] => inl (NeedsArgument name)
                  end
              end
      end
  end.

(** * What the log shows of the token *)

Definition maskToken (endpoint token : string) : string :=
  if streq token "" then endpoint
  else if slen token <=? 8 then endpoint +:+ " [token: ***]"
  else endpoint +:+
    (" [token: " +:+ stake 4 token +:+ "***" +:+ sdrop (String.length token - 4) token +:+ "]").

(** * The program *)

(** How the process ends, or the engine it starts, with the endpoint and token
    as logged; [Start] of the engine never returns an error. *)
Inductive outcome :=
  | Usage                                    (* exit status 0 *)
  | UnknownSubcommand (name : string)        (* exit status 1 *)
  | FlagUsage (status : Z)                   (* 0 for -h and -help, 2 for an error *)
  | LoadFailed (e : AgentConfig.load_error)  (* exit status 1 *)
  | Started (logged : string) (e : AgentEngine.ProfilerEngine).

Definition exit_status (o : outcome) : option Z :=
  match o with
  | Usage => Some 0
  | UnknownSubcommand _ | LoadFailed _ => Some 1
  | FlagUsage status => Some status
  | Started _ _ => None
  end.

Section main.

Variable read_file : string → option string.
Variable decode_json decode_yaml : string → AgentConfig.Config → option AgentConfig.Config.
Variable hostname : string.
Variable log_opens : bool.

(** [os.Setenv] *)
Definition setenv (k v : string) (env : string → string) : string → string :=
  λ x, if streq x k then v else env x.

Definition runCmd (args : list string) (env : string → string) : outcome :=
  match parse_flags args "" with
  | inl ErrHelp => FlagUsage 0
  | inl _ => FlagUsage 2
  | inr configPath =>
      let env := if streq configPath "" then env else setenv "PROFILER_CONFIG" configPath env in
      match AgentConfig.Load read_file decode_json decode_yaml env hostname with
      | inl e => LoadFailed e
      | inr c =>
          Started (maskToken (AgentConfig.UpstreamEndpoint c) (AgentConfig.AuthToken c))
            (AgentEngine.Start (AgentEngine.New c log_opens))
      end
  end.

(** [main]; [args] are those after the program's name. *)
Definition main (args : list string) (env : string → string) : outcome :=
  match args with
  | [] => Usage
  | sub :: rest =>
      if streq sub "help" || streq sub "--help" || streq sub "-h" then Usage
      else if streq sub "run" then runCmd rest env
      else UnknownSubcommand sub
  end.

End main.

Example flags_example :
  parse_flags ["--config=a.json"; "-config"; "b.yaml"; "x"; "-bad"]%string "" = inr "b.yaml"%string ∧
  parse_flags ["-config"]%string "" = inl (NeedsArgument "config") ∧
  parse_flags ["---config"]%string "" = inl (BadSyntax "---config") ∧
  parse_flags ["--"; "-bad"]%string "" = inr ""%string.
Proof. vm_compute. done. Qed.

Example maskToken_example :
  maskToken "https://x" "abcdefghijkl" = "https://x [token: abcd***ijkl]"%string.
Proof. vm_compute. reflexivity. Qed.

(** * Lemmas *)

Lemma stake_length n s : (n <= String.length s)%nat → String.length (stake n s) = n.
Proof. revert s. induction n as [|n IH]; intros [|c s] H; simpl in *; try lia. rewrite IH; lia. Qed.

Lemma app_eq_len a b c d :
  String.length a = String.length c → a +:+ b = c +:+ d → a = c ∧ b = d.
Proof.
  revert c. induction a as [|x a IH]; intros [|y c] Hl H; simpl in Hl; try done.
  rewrite !app_cons in H. injection H as -> H. injection Hl as Hl. destruct (IH c Hl H) as [-> ->]. done.
Qed.

(** The text behind the endpoint. *)
Definition mask_suffix (token : string) : string :=
  if streq token "" then ""
  else if slen token <=? 8 then " [token: ***]"
  else " [token: " +:+ stake 4 token +:+ "***" +:+ sdrop (String.length token - 4) token +:+ "]".

Lemma maskToken_suffix endpoint token : maskToken endpoint token = endpoint +:+ mask_suffix token.
Proof.
  unfold maskToken, mask_suffix. destruct (streq token ""); [|by destruct (_ <=? _)].
  induction endpoint as [|c s IH]; [done|]. rewrite app_cons. by f_equal.
Qed.

Lemma sdrop_length n s : String.length (sdrop n s) = (String.length s - n)%nat.
Proof. revert s. induction n as [|n IH]; intros [|c s]; simpl; try done; by rewrite IH. Qed.

Lemma mask_suffix_length token :
  slen (mask_suffix token) = if streq token "" then 0 else if slen token <=? 8 then 13 else 21.
Proof.
  unfold mask_suffix. destruct (streq token ""); [done|].
  destruct (Z.leb_spec (slen token) 8); [done|]. unfold slen in *.
  rewrite !app_string_length, stake_length, sdrop_length by lia. simpl. lia.
Qed.

(** * Theorems *)

(** What the log reveals of the token.  Two tokens leave the same line
    exactly if both are empty, or both have at most eight bytes, or both have
    more and agree on the first four and on the last four bytes: of a long token
    the log shows these eight bytes and nothing else, of a short one nothing.
    (Of a token of nine bytes this leaves a single byte secret.) *)
Theorem maskToken_reveals endpoint t t' :
  maskToken endpoint t = maskToken endpoint t' ↔
  (t = ""%string ∧ t' = ""%string) ∨
  (0 < slen t <= 8 ∧ 0 < slen t' <= 8) ∨
  (8 < slen t ∧ 8 < slen t' ∧ stake 4 t = stake 4 t' ∧
   sdrop (String.length t - 4) t = sdrop (String.length t' - 4) t').
Proof.
  rewrite !maskToken_suffix.
  assert (Hinj : endpoint +:+ mask_suffix t = endpoint +:+ mask_suffix t' ↔ mask_suffix t = mask_suffix t').
  { split; [|by intros ->]. intros H. by apply app_eq_len in H as [_ ?]. }
  rewrite Hinj.
  assert (Hempty : ∀ s, streq s "" = true ↔ slen s = 0).
  { intros s. unfold streq. rewrite bool_decide_eq_true. by rewrite <- slen_zero. }
  pose proof (slen_nonneg t). pose proof (slen_nonneg t').
  split.
  - intros H1. pose proof (f_equal slen H1) as Hl. rewrite !mask_suffix_length in Hl.
    unfold mask_suffix in H1.
    destruct (streq t "") eqn:E, (streq t' "") eqn:E';
      destruct (Z.leb_spec (slen t) 8), (Z.leb_spec (slen t') 8); try done;
      try (apply not_true_iff_false in E; rewrite Hempty in E);
      try (apply not_true_iff_false in E'; rewrite Hempty in E');
      try (left; apply Hempty in E, E'; rewrite slen_zero in E, E'; done).
    + right. left. lia.
    + right. right. assert (Hlen : String.length (stake 4 t) = String.length (stake 4 t'))
        by (unfold slen in *; rewrite !stake_length; lia).
      apply app_eq_len in H1 as [_ H1]; [|done]. apply app_eq_len in H1 as [Hpre H1]; [|done].
      apply app_eq_len in H1 as [_ H1]; [|done]. apply app_eq_len in H1 as [Hsuf _].
      { by split_and!. } unfold slen in *. rewrite !sdrop_length. lia.
  - assert (Hne : ∀ s, 0 < slen s → streq s "" = false)
      by (intros s Hs; apply not_true_iff_false; rewrite Hempty; lia).
    intros [[-> ->]|[[? ?]|(? & ? & Hs & Hd)]]; [done|..]; unfold mask_suffix;
      rewrite !Hne by lia.
    + by rewrite !(proj2 (Z.leb_le _ _)) by lia.
    + rewrite !(proj2 (Z.leb_gt _ _)) by lia. by rewrite Hs, Hd.
Qed.

(** The configuration file on the command line.  However it is written,
    [-config] with a path acts as setting PROFILER_CONFIG to that path, over
    whatever the environment holds; an empty path changes nothing. *)
Theorem config_flag read_file dj dy hostname log_opens env path :
  let go := main read_file dj dy hostname log_opens in
  let env' := if streq path "" then env else setenv "PROFILER_CONFIG" path env in
  go ["run"; "-config"; path]%string env = go ["run"]%string env' ∧
  go ["run"; "--config"; path]%string env = go ["run"]%string env' ∧
  go ["run"; "-config=" +:+ path]%string env = go ["run"]%string env' ∧
  go ["run"; "--config=" +:+ path]%string env = go ["run"]%string env' ∧
  (go ["run"]%string env' = go ["run"; "-config"]%string env → False).
Proof.
  assert (Hone : ∀ args, parse_flags args "" = inr path →
    runCmd read_file dj dy hostname log_opens args env =
    runCmd read_file dj dy hostname log_opens []
      (if streq path "" then env else setenv "PROFILER_CONFIG" path env)).
  { intros args Ha. unfold runCmd. by rewrite Ha. }
  cbv zeta. split_and!; try (apply Hone; reflexivity).
  simpl. unfold runCmd. simpl. by destruct (AgentConfig.Load _ _ _ _ _).
Qed.

(** C35: the poll interval of the environment, through all layers.  With
    PROFILER_POLL_INTERVAL_MS an integer, the agent always starts; but the
    interval is not checked, and neither is its conversion to nanoseconds: if
    the number is zero or negative, or so large that the product wraps around to
    such a number, the collector panics as soon as it runs, whatever it would
    have read.  For every other interval it gets past this point. *)
Theorem poll_interval_unchecked `{MapRange} read_file dj dy hostname log_opens env ms :
  env "PROFILER_CONFIG"%string = ""%string →
  atoi (env "PROFILER_POLL_INTERVAL_MS"%string) = Some ms →
  ∃ logged e, main read_file dj dy hostname log_opens ["run"]%string env = Started logged e ∧
    ∀ marshal renv first,
      (i64 (ms * Millisecond) <= 0 →
       ∀ ticks, Collector.Run marshal renv first ticks (AgentEngine.collector e) = None) ∧
      (0 < i64 (ms * Millisecond) → env "PROFILER_VERBOSE"%string = ""%string →
       is_Some (Collector.Run marshal renv first [] (AgentEngine.collector e))).
Proof.
  intros Hcfg Hms. unfold main, runCmd. simpl.
  assert (Hv : streq (env "PROFILER_POLL_INTERVAL_MS"%string) "" = false).
  { unfold streq. apply bool_decide_eq_false. intros E. by rewrite E in Hms. }
  unfold AgentConfig.Load. rewrite Hcfg, Hv, Hms. simpl. eexists _, _. split; [reflexivity|].
  intros marshal renv first. unfold Collector.Run, Collector.Run_start, AgentEngine.Start, AgentEngine.New.
  simpl. unfold AgentConfig.env_bool.
  split; [intros Hp ticks|intros Hp Hver].
  - match goal with |- context [if ?b then Ebpf.Start ?x ?y else ?z] =>
      destruct (if b then Ebpf.Start x y else z) as [tr cl] end. destruct (Gpu.Run _ _) as [[gs err] d]. simpl.
    by rewrite (proj2 (Z.leb_le _ _)).
  - match goal with |- context [if ?b then Ebpf.Start ?x ?y else ?z] =>
      destruct (if b then Ebpf.Start x y else z) as [tr cl] end. destruct (Gpu.Run _ _) as [[gs err] d]. simpl.
    rewrite (proj2 (Z.leb_gt _ _)) by done. unfold AgentConfig.env_bool. rewrite Hver. simpl.
    match goal with |- context [Collector.Run_stop ?c] =>
      destruct (Collector.Run_stop c) as [[c' shut] cl'] end. done.
Qed.

Lemma poll_interval_unchecked_witness :
  let env := λ k, if streq k "PROFILER_POLL_INTERVAL_MS" then "9223372036855"%string else ""%string in
  ∃ logged e,
    main (λ _, None) (λ _ _, None) (λ _ _, None) "host" true ["run"]%string env = Started logged e ∧
    Collector.Run (λ _ : Model.Snapshot, None) Collector.sample_env (0%nat, Collector.sample_readings) []
      (AgentEngine.collector e) = None.
Proof.
  intros env.
  destruct (poll_interval_unchecked (λ _, None) (λ _ _, None) (λ _ _, None) "host" true env 9223372036855
    eq_refl eq_refl) as (logged & e & H1 & H2).
  exists logged, e. split; [exact H1|].
  apply (proj1 (H2 (λ _ : Model.Snapshot, None) Collector.sample_env (0%nat, Collector.sample_readings))).
  vm_compute. discriminate.
Defined.
